(* ===== verification/_CoqProject ===== *)
-Q . S2P
Prelude.v
Layout.v
Paging.v
PageAlloc.v
PageTables.v
UserMap.v
UserSpace.v
UserUnmap.v
VirtMap.v
VmaStore.v
VmaTree.v
VmaSpec.v
VmaRepr.v
VmaOps.v
VmaInsert.v
VmaLink.v
VmaFix.v
VmaRemove.v
VmaJoin.v
VmaDelete.v
VmaFree.v
VmaSpace.v
Vma.v
Terminal.v
Cpio.v
Process.v
Boot.v
Interrupts.v
Heap.v
HeapPages.v
Text.v
Ports.v
Logging.v
Printf.v
Acpi.v
Access.v
MadtInit.v
Clock.v
Handoff.v
Main.v
Cpu.v
Tls.v
Debugging.v
Kernel.v
ClockInit.v
Stage2.v
Symbols.v
