(* ===== verification/Prelude.v ===== *)
(** * The 9x kernel: a verification development

    This library models the kernel of 9x (kernel/src, Rust) and proves what makes
    its parts correct. This file is the prelude: the outcomes of kernel code, the
    state monad and its weakest preconditions, machine integers, bit fields, bytes
    and physical memory. Its first part, this comment, documents the whole library.

    ** How code becomes definitions

    A function that changes state is a function of the monad [M S]: from a state to
    an [outcome], which is a result with the new state, [Panics] (a failed
    assertion, [unwrap] of nothing, an index out of range, an arithmetic overflow:
    the kernel is built with the dev profile, which checks them), [Undefined]
    (undefined behaviour, such as a dangling pointer) or [OutOfFuel]. [wp m Q s]
    is total correctness: [m] returns from [s], and [Q] holds. Integers are [Z]
    with their width written out: [chk w] panics when a value does not fit, [trunc
    w] is a cast, [unot w] the complement. Physical memory is a function from
    addresses to bytes. Where two components meet, the state of the larger one
    contains that of the smaller one, and [zoom] runs code of the smaller one.
    Locks are left out: there is one processor, and what a panic does while a lock
    is held is not followed. Definitions have the names of the source.

    ** The files

    Memory.
    - Paging.v: [PageTableEntry] and [PageTableData] (arch/x86_64/paging.rs).
    - PageAlloc.v: the physical page allocator, a bitmap with a counter
      (page_allocation.rs). [alloc_ok] is its invariant.
    - PageTables.v: the page tables of the kernel (page_allocation.rs). [walk] is
      the walk of the hardware; [pt_ok] relates the tables in memory to a finite
      map from paths to tables, and [kernel_ok] adds the allocator.
    - UserMap.v and VirtMap.v: the address spaces of processes with the mapping
      tasks that can be suspended (user_page_mapping.rs, virtual_page_mapping.rs);
      UserSpace.v: what mapping a user's page does to the tables ([extends],
      [blank_page]), and what a mapping task with room does ([pages_mapped]);
      UserUnmap.v: what unmapping a page and an unmapping task do ([shrinks]),
      under the invariant [tables_ok] that is left when shared tables are freed.
    - VmaStore.v, VmaTree.v, Vma.v: the tree of memory areas of a process, its node
      storage, the operations on the tree and the allocator with its tasks (vma.rs).
      VmaSpec.v is the abstract tree and the list of areas it stands for; VmaRepr.v
      represents it by pointers. VmaOps.v, VmaInsert.v and VmaLink.v prove
      insertion at a focus of the tree, VmaFix.v the rebalancing of a deletion,
      VmaRemove.v taking out the branch and its leaf, VmaJoin.v joining two gaps,
      VmaDelete.v the whole of [VMATree::delete]. They are proved against the
      interface of node storage: [NodeStore] (what reading and writing a node
      does), [NodeSource] (reserving) and [NodeSink] (freeing), which the storage
      pages implement (VmaStore.v, VmaFree.v). VmaSpace.v is the abstract address
      space, a list of areas, which insertion and deletion refine.
    - Heap.v: the kernel heap (heap.rs), against the class [HeapMemory] and its laws
      [HeapMemoryOk]; HeapPages.v proves the laws for the page tables.

    Devices and interrupts.
    - Ports.v: port input and output as a trace of events, with the devices as the
      class [PortDevices] (arch/x86_64/mod.rs).
    - Interrupts.v: interrupt descriptors, APIC registers and the routing of the
      legacy lines (idt.rs, apic.rs, interrupts.rs); MadtInit.v: starting the
      controllers from the ACPI table.
    - Clock.v: the clock manager, the timer of the local APIC with calibration,
      sleep and countdown, CMOS and RTC (clock/); ClockInit.v: the timer part of
      the second stage from end to end, with the routing of the RTC's line.
    - Acpi.v: status codes, the MADT iterator and the services for ACPICA
      (platform/acpi); Printf.v: the formatted printing ACPICA calls; Access.v:
      [check_flags] against its specification, and the questions of ACPICA about
      the access to a range.
    - Stage2.v: [init_stage_2] (mod.rs), which joins ACPICA, the interrupt
      controllers and the timer.
    - Cpu.v: descriptor tables, task state segment, interrupt table, CPUID,
      registers (gdt.rs, tss.rs, idt.rs, cpuid.rs, mod.rs).

    Output and files.
    - Text.v: strings, UTF-8 and number formatting of the Rust library.
    - Terminal.v: font, framebuffer, renderer and escape sequences (terminal.rs,
      core_graphics.rs).
    - Logging.v: the loggers and the debug port (logging.rs, bochs_debug.rs).
    - Cpio.v: the initial archive (cpio.rs).

    Start and end.
    - Boot.v: the bitmap the bootloader part builds from the memory map
      (limine/entry.rs); Handoff.v: the rest of [limine_entry], the physical block
      allocator and the arguments of the kernel (kernel_args.rs).
    - Main.v: [kernel_main] up to the terminal (main.rs).
    - Tls.v: thread-local storage and [init_stage_1] (tls.rs, mod.rs).
    - Kernel.v: [kernel_main] up to its second stage, over one state of all the
      parts above (main.rs).
    - Process.v: the list of pending processes (process.rs).
    - Debugging.v: stack traces, the panic handler, exception messages
      (debugging.rs, idt.rs).

    Layouts and symbols.
    - Layout.v: sizes and offsets of a [repr(C)] struct, and the attribute
      [export_asm_all], which walks the syntax tree of an item and emits a symbol
      for each field or variant (crates/define-asm-symbol).
    - Symbols.v: the fields of every [repr(C)] struct, the numbers of the system
      calls and their errors (syscall.rs), the requests to the bootloader
      (limine/mod.rs), and all the symbols the assembly files are given.

    ** What the theorems show

    - Page tables: mapping and unmapping change the walk of the hardware for exactly
      one page and keep [kernel_ok]; the errors leave all walks alone; reserving and
      freeing pages keep the counter equal to the number of clear bits.
    - Address spaces: a task that is suspended any number of times does what it does
      in one run, and keeps the segment locked meanwhile. Mapping a page gives it a
      zeroed page of its own, or changes nothing, or gives back what it took; a task
      with four free pages for each of its pages maps all of them, and with the tree
      of areas around it the segment is mapped from end to end
      ([MapTask_maps_segment]). Insertions, and
      deletions for which the temporary node is enough (see below), refine carving
      areas out of gaps and freeing them on a list of areas, which always tiles the user
      range without two gaps next to each other; the tree stays a red-black tree whose gap sizes are up to
      date, and its height bounds every search. An unmapping task completes, with
      none of its pages mapped ([unmap_task_correct]), but the pages whose table
      went with an earlier page are not given back ([unmap_task_leaks]); with the
      tree around it a segment is unmapped from start to end over any number of
      suspensions ([segment_unmapped]). A mapping task that completes frees the
      record of the segment it mapped ([MapTask_run_correct]). A deletion needs the
      one temporary node of the tree; the assumption [deletable] of the theorems about deletion,
      unmapping and mapping tasks says when that is enough, and
      [delete_keeps_temp_node] what happens otherwise: a second deletion of an
      ordinary program is undefined behaviour.
    - Access: [check_flags] answers [true] exactly when every entry on the way to
      every byte of the range is present and has the flags.
    - Heap: allocation and deallocation keep the chain of blocks and the contents of
      used blocks; the theorems name where the code goes wrong (a header that is
      unmapped while it is in use).
    - Routing: on a processor whose local APIC has the id 0 a mapped line reaches
      exactly the entry of the I/O APIC it is wired to (with another id the kernel
      panics), unmapping undoes it; the MADT decides what is created.
    - Clocks: a sleep ends with the first interrupt whose descriptor has its
      handler; it does not end without one, and panics at an interrupt without a
      descriptor. What is read back of a countdown is within its bounds.
    - Text: printing as ACPICA asks for it agrees with a reference of the format
      language, or hangs where the code does; logging or writing a text the font can
      draw, without escape characters, does not fail and leaves the terminal in its
      normal state; rendering makes the screen show the characters.
    - Start: the bitmap marks as free what the memory map says; the arguments, the
      page allocator and the terminal of the kernel are what the bootloader handed
      over, over three files: [limine_entry_run], [boot_allocator_correct],
      [framebuffer_logging_correct]. The first stage maps the thread-local storage
      and loads tables that the processor reads as intended; [kernel_main_correct]
      joins these parts with the heap and the page tables (and shows that the screen
      needs four times its memory), and [init_stage_2_correct] goes from the start of
      ACPICA, which is assumed to succeed, to a calibrated timer.
    - End: a panic prints its message and the frames, and stops.
    - Symbols: the offsets of a [repr(C)] struct are aligned, in order and do not
      overlap; [export_asm_all] emits one symbol per field or variant, with its
      offset or number, and two symbols of an item differ; no symbol of the kernel is
      defined twice, those of variants are the values in memory, and the layouts
      agree with the sizes and offsets the other files write out.
    Theorems of kind error state what the code does where it deviates from what
    it is for; the list of findings refers to them.

    ** Bounds and fuel

    Loops over lists and numeric ranges are structural. The loops that follow
    pointers, wait for devices or scan text take fuel; every theorem about them
    gives an amount that is enough and shows that the code returns with it: the
    number of nodes for the tree ([tree_fuel]), of blocks for the heap, of bytes of
    the archive or the table, of the format string, of the interrupts that arrive,
    of the frames of the stack. Where code does not end, the theorem says so for
    every amount of fuel. Digits of a number are taken 32 at most, enough for any
    64-bit number in base 8 and above.

    ** What is not modelled

    - Assembly (init.s, exceptions.s, inline code): the entry of interrupts, the
      switch to the kernel, loading segment registers, [lgdt], [lidt] and [ltr]
      except for the pointer they are given.
    - ACPICA, the log crate, the allocator interface of the Rust library, and
      devices: parameters or classes, with what is assumed of them in the class.
    - One state for both stages: the second stage (Stage2.v) starts from a state of
      its own with the page tables, not from that of Kernel.v, since what ACPICA
      does to the heap is a parameter; its messages, those of the code it calls included, are recorded as the list handed
      to the logger (Logging.v shows what the logger does with each). The buffers
      of the terminal as blocks of the heap. [kernel_main] ends in an empty loop.
    - debug.rs (not built), module declarations, the build script (it builds
      ACPICA and names the linker script), the user programs, other languages. The
      system calls are numbers only: the entry point that would decode them does
      not exist. What is left of the modelled files is imports, comments, trait
      boilerplate and code that is commented out.
    - Concurrency: the kernel runs on one processor. Interrupts are modelled where
      code waits for them: at a halt their vectors are looked up in the descriptor
      table, and the code behind the address they give runs (Clock.v). Their
      priorities are not: they arrive in the order of the state's list. *)
From stdpp Require Export base gmap list strings fin_maps.
From Stdlib Require Export ZArith Lia.

(** ** Outcomes of running kernel code *)

(** What a piece of kernel code can do: return, panic (a failed assertion, an
    arithmetic overflow in the checked dev profile, an out-of-range index, an
    [unwrap] of [None]), run into undefined behaviour (a dangling pointer), or
    exhaust the fuel the model gives to its loops. *)
Inductive outcome (A : Type) : Type :=
  | Returns (a : A)
  | Panics
  | Undefined
  | OutOfFuel.
Arguments Returns {A} a.
Arguments Panics {A}.
Arguments Undefined {A}.
Arguments OutOfFuel {A}.

(** Rust's [Result] and [Poll]. *)
Inductive result (A E : Type) : Type :=
  | Ok (a : A)
  | Err (e : E).
Arguments Ok {A E} a.
Arguments Err {A E} e.

Inductive Poll (A : Type) : Type :=
  | Ready (a : A)
  | Pending.
Arguments Ready {A} a.
Arguments Pending {A}.

#[export] Instance outcome_ret : MRet outcome := λ A a, Returns a.
#[export] Instance outcome_bind : MBind outcome := λ A B f m,
  match m with
  | Returns a => f a
  | Panics => Panics
  | Undefined => Undefined
  | OutOfFuel => OutOfFuel
  end.

(** ** The state monad of the model *)

(** Code that reads and writes a state of type [S]. *)
Definition M (S A : Type) : Type := S → outcome (A * S).

#[export] Instance M_ret {S} : MRet (M S) := λ A a s, Returns (a, s).
#[export] Instance M_bind {S} : MBind (M S) := λ A B f m s,
  match m s with
  | Returns (a, s') => f a s'
  | Panics => Panics
  | Undefined => Undefined
  | OutOfFuel => OutOfFuel
  end.

Definition get {S} : M S S := λ s, Returns (s, s).
Definition gets {S A} (f : S → A) : M S A := λ s, Returns (f s, s).
Definition modify {S} (f : S → S) : M S () := λ s, Returns ((), f s).
Definition panic {S A} : M S A := λ _, Panics.
Definition undefined {S A} : M S A := λ _, Undefined.
Definition out_of_fuel {S A} : M S A := λ _, OutOfFuel.
Definition lift {S A} (o : outcome A) : M S A := λ s,
  match o with
  | Returns a => Returns (a, s)
  | Panics => Panics
  | Undefined => Undefined
  | OutOfFuel => OutOfFuel
  end.
(** [assert!] and, in the dev profile, [debug_assert!]. *)
Definition rassert {S} (b : bool) : M S () := if b then mret () else panic.
(** [Option::unwrap]. *)
Definition unwrap {S A} (o : option A) : M S A :=
  match o with Some a => mret a | None => panic end.
(** A read through a pointer that may dangle. *)
Definition deref {S A} (o : option A) : M S A :=
  match o with Some a => mret a | None => undefined end.

(** Running code of a component of a larger state. *)
Definition zoom {S T A} (proj : S → T) (inj : T → S → S) (m : M T A) : M S A := λ s,
  match m (proj s) with
  | Returns (a, t) => Returns (a, inj t s)
  | Panics => Panics
  | Undefined => Undefined
  | OutOfFuel => OutOfFuel
  end.

(** [for x in l { f(x) }]. *)
Definition for_each {S A} (f : A → M S ()) (l : list A) : M S () :=
  foldr (λ x k, f x;; k) (mret ()) l.

(** Total correctness: the code returns, and the postcondition holds. *)
Definition wp {S A} (m : M S A) (Q : A → S → Prop) (s : S) : Prop :=
  match m s with Returns (a, s') => Q a s' | _ => False end.

Section WP.
  Context {S : Type}.

Lemma wp_returns {A} (m : M S A) Q s :
    wp m Q s ↔ ∃ a s', m s = Returns (a, s') ∧ Q a s'.
  Proof.
    unfold wp. split.
    - destruct (m s) as [[a s']| | |]; naive_solver.
    - intros (a & s' & -> & HQ). done.
  Qed.

Lemma wp_returns_ex {A B} (m : M S A) (Q : A → S → B → Prop) s :
    wp m (λ a s', ∃ b, Q a s' b) s → ∃ a s' b, m s = Returns (a, s') ∧ Q a s' b.
Proof. intros (a & s' & ? & b & ?)%wp_returns. eauto. Qed.
Lemma wp_ret {A} (a : A) Q s : wp (mret a : M S A) Q s ↔ Q a s.
  Proof. done. Qed.
Lemma wp_bind {A B} (m : M S A) (f : A → M S B) Q s :
    wp (m ≫= f) Q s ↔ wp m (λ a, wp (f a) Q) s.
  Proof. unfold wp, mbind, M_bind. by destruct (m s) as [[]| | |]. Qed.
Lemma wp_get Q s : wp (get (S:=S)) Q s ↔ Q s s.
  Proof. done. Qed.
Lemma wp_gets {A} (f : S → A) Q s : wp (gets f) Q s ↔ Q (f s) s.
  Proof. done. Qed.
Lemma wp_modify (f : S → S) Q s : wp (modify f) Q s ↔ Q () (f s).
  Proof. done. Qed.
Lemma wp_panic {A} (Q : A → S → Prop) s : wp panic Q s ↔ False.
  Proof. done. Qed.
Lemma wp_rassert b (Q : () → S → Prop) s : wp (rassert b) Q s ↔ b = true ∧ Q () s.
  Proof. unfold wp, rassert. destruct b; cbn; [tauto|]. by split; [|intros []]. Qed.
Lemma wp_unwrap {A} (o : option A) (Q : A → S → Prop) s : wp (unwrap o) Q s ↔ ∃ a, o = Some a ∧ Q a s.
  Proof.
    unfold wp, unwrap. destruct o; cbn; [|split; [done|by intros (? & ? & ?)]].
    split; [eauto|by intros (? & [= ->] & ?)].
  Qed.
Lemma wp_deref {A} (o : option A) (Q : A → S → Prop) s : wp (deref o) Q s ↔ ∃ a, o = Some a ∧ Q a s.
  Proof.
    unfold wp, deref. destruct o; cbn; [|split; [done|by intros (? & ? & ?)]].
    split; [eauto|by intros (? & [= ->] & ?)].
  Qed.
Lemma wp_lift {A} (o : outcome A) (Q : A → S → Prop) (s : S) : wp (lift o) Q s ↔ ∃ a, o = Returns a ∧ Q a s.
  Proof.
    unfold wp, lift. destruct o; cbn; try (split; [done|by intros (? & ? & ?)]).
    split; [eauto|by intros (? & [= ->] & ?)].
  Qed.
Lemma wp_mono {A} (m : M S A) (Q R : A → S → Prop) s :
    wp m Q s → (∀ a s', Q a s' → R a s') → wp m R s.
  Proof. unfold wp. destruct (m s) as [[]| | |]; eauto. Qed.
Lemma wp_zoom {T A} (proj : S → T) (inj : T → S → S) (m : M T A) Q s :
    wp (zoom proj inj m) Q s ↔ wp m (λ a t, Q a (inj t s)) (proj s).
  Proof. unfold wp, zoom. by destruct (m (proj s)) as [[]| | |]. Qed.
  (** Two [wp]s of the same run can be joined. *)
Lemma wp_and {A} (m : M S A) (Q R : A → S → Prop) s :
    wp m Q s → wp m R s → wp m (λ a s', Q a s' ∧ R a s') s.
  Proof. unfold wp. destruct (m s) as [[]| | |]; tauto. Qed.
End WP.

Lemma wp_unit_returns {S} (m : M S ()) (Q : S → Prop) s :
  wp m (λ _, Q) s → ∃ s', m s = Returns ((), s') ∧ Q s'.
Proof. intros ([] & s' & E & HQ)%wp_returns. by exists s'. Qed.

(** Equations between runs. *)
Lemma bind_assoc {S A B C} (m : M S A) (f : A → M S B) (g : B → M S C) st :
  ((m ≫= f) ≫= g) st = (m ≫= λ a, f a ≫= g) st.
Proof. unfold mbind, M_bind. by destruct (m st) as [[]| | |]. Qed.
Lemma bind_step {S A B} (m : M S A) (f : A → M S B) a st st' : m st = Returns (a, st') → (m ≫= f) st = f a st'.
Proof. intros E. unfold mbind, M_bind. by rewrite E. Qed.
(** What the rest ends with, after a part that returns; and a part that panics. *)
Lemma bind_wp {S A B} (m : M S A) (f : A → M S B) s o : wp m (λ a s', f a s' = o) s → (m ≫= f) s = o.
Proof. unfold wp, mbind, M_bind. by destruct (m s) as [[]| | |]. Qed.
Lemma bind_panics {S A B} (m : M S A) (f : A → M S B) s : m s = Panics → (m ≫= f) s = Panics.
Proof. unfold mbind, M_bind. by intros ->. Qed.
Lemma wp_eq {S A} (m m' : M S A) Q s s' : m s = m' s' → wp m' Q s' → wp m Q s.
Proof. unfold wp. by intros ->. Qed.
Lemma bind_returns {S A B} (m : M S A) (f : A → M S B) s r :
  (m ≫= f) s = Returns r → ∃ a s1, m s = Returns (a, s1) ∧ f a s1 = Returns r.
Proof. unfold mbind, M_bind. destruct (m s) as [[a s1]| | |]; [by eauto|done..]. Qed.
Lemma bind_ext {S A B} (m m' : M S A) (f f' : A → M S B) st :
  m st = m' st → (∀ a st, f a st = f' a st) → (m ≫= f) st = (m' ≫= f') st.
Proof. intros E Ef. unfold mbind, M_bind. rewrite E. by destruct (m' st) as [[]| | |]. Qed.
Lemma for_each_app {S A} (f : A → M S ()) l1 l2 st :
  for_each f (l1 ++ l2) st = (for_each f l1;; for_each f l2) st.
Proof.
  revert st. induction l1 as [|a l1 IH]; intros st; [done|]. cbn [app for_each foldr]. rewrite bind_assoc.
  apply bind_ext; [done|]. intros [] st'. apply IH.
Qed.

(** Loops, by an invariant indexed by the iterations done. *)
Lemma wp_for_each {S A} (f : A → M S ()) (I : nat → S → Prop) l Q s :
  I O s → (∀ k a s, l !! k = Some a → I k s → wp (f a) (λ _ s', I (Datatypes.S k) s') s) →
  (∀ s, I (length l) s → Q () s) → wp (for_each f l) Q s.
Proof.
  revert I s. induction l as [|a l IH]; intros I s H0 Hstep HQ; cbn [for_each foldr].
  - apply HQ, H0.
  - rewrite wp_bind. eapply wp_mono; [by apply (Hstep O)|]. intros u s' Hs'. cbn beta in Hs'.
    apply (IH (λ k, I (Datatypes.S k))); [exact Hs'| |exact HQ]. intros k a' s1 Hl. by apply Hstep.
Qed.
Lemma wp_for_each_seqZ {S} (f : Z → M S ()) (I : Z → S → Prop) lo n Q s :
  (0 ≤ n)%Z → I lo s → (∀ k s, (lo ≤ k < lo + n)%Z → I k s → wp (f k) (λ _ s', I (k + 1)%Z s') s) →
  (∀ s, I (lo + n)%Z s → Q () s) → wp (for_each f (seqZ lo n)) Q s.
Proof.
  intros Hn H0 Hstep HQ. apply (wp_for_each f (λ k, I (lo + Z.of_nat k)%Z)).
  - by rewrite Z.add_0_r.
  - intros k a s1 Hl HI. apply lookup_seqZ in Hl as [-> Hk]. rewrite Nat2Z.inj_succ.
    replace (lo + Z.succ (Z.of_nat k))%Z with (lo + Z.of_nat k + 1)%Z by lia. apply Hstep; [lia|done].
  - intros s1. rewrite length_seqZ, Z2Nat.id by done. apply HQ.
Qed.

(** The calculus is used by rewriting with the rules above. *)
Ltac wp_simpl :=
  repeat first
    [ rewrite wp_bind | rewrite wp_ret | rewrite wp_get | rewrite wp_gets
    | rewrite wp_modify | rewrite wp_rassert | rewrite wp_zoom ].

(** ** Machine integers *)
Open Scope Z_scope.

(** The kernel is built with cargo's dev profile (justfile, [_compile-kernel]):
    an arithmetic result that does not fit its type panics.  [chk w x] is the
    value of an unsigned [w]-bit expression whose mathematical value is [x]. *)
Definition fits (w x : Z) : bool := (0 <=? x) && (x <? 2 ^ w).
Definition chk {S} (w x : Z) : M S Z := if fits w x then mret x else panic.
(** [e as uN]: truncation. *)
Definition trunc (w x : Z) : Z := x mod 2 ^ w.
(** [!x] at width [w]. *)
Definition unot (w x : Z) : Z := Z.lxor x (Z.ones w).
(** [x.leading_zeros()], [x.leading_ones()] at width [w]. *)
Definition leading_zeros (w x : Z) : Z := if x =? 0 then w else w - 1 - Z.log2 x.
Definition leading_ones (w x : Z) : Z := leading_zeros w (unot w x).
(** [a.next_multiple_of(b)]. *)
Definition next_multiple_of (a b : Z) : Z := (a + b - 1) / b * b.

Lemma fits_spec w x : fits w x = true ↔ 0 ≤ x < 2 ^ w.
Proof. unfold fits. rewrite andb_true_iff, Z.leb_le, Z.ltb_lt. lia. Qed.
Lemma wp_chk {S} w x (Q : Z → S → Prop) s : wp (chk w x) Q s ↔ 0 ≤ x < 2 ^ w ∧ Q x s.
Proof.
  unfold chk. destruct (fits w x) eqn:E.
  - apply fits_spec in E. rewrite wp_ret. tauto.
  - rewrite wp_panic. split; [done|]. intros [H _]. apply fits_spec in H. congruence.
Qed.

Lemma bind_chk {S A} w x (f : Z → M S A) s : 0 ≤ x < 2 ^ w → (chk w x ≫= f) s = f x s.
Proof. intros Hx%fits_spec. unfold chk. by rewrite Hx. Qed.

(** The accessors a [bitfield!] declaration gives: a one-bit field and a field
    of bits [lsb..msb]; a write keeps the other bits. *)
Definition get_bits (x msb lsb : Z) : Z := Z.land (Z.shiftr x lsb) (Z.ones (msb - lsb + 1)).
Definition set_bit (x i : Z) (b : bool) : Z := if b then Z.setbit x i else Z.clearbit x i.
Definition set_bits (x msb lsb v : Z) : Z :=
  Z.lor (Z.ldiff x (Z.shiftl (Z.ones (msb - lsb + 1)) lsb))
        (Z.shiftl (Z.land v (Z.ones (msb - lsb + 1))) lsb).

(** Facts about bytes by enumeration. *)
Lemma byte_forall (f : Z → bool) :
  forallb f (seqZ 0 256) = true → ∀ b, 0 ≤ b < 256 → f b = true.
Proof.
  intros Hf b Hb. rewrite forallb_forall in Hf. apply Hf.
  apply list_elem_of_In, elem_of_seqZ. lia.
Qed.
Lemma byte_bit_forall (f : Z → Z → bool) :
  forallb (λ b, forallb (f b) (seqZ 0 8)) (seqZ 0 256) = true →
  ∀ b i, 0 ≤ b < 256 → 0 ≤ i < 8 → f b i = true.
Proof.
  intros Hf b i Hb Hi. pose proof (byte_forall _ Hf b Hb) as Hb'. cbv beta in Hb'.
  rewrite forallb_forall in Hb'. apply Hb'. apply list_elem_of_In, elem_of_seqZ. lia.
Qed.

(** ** Physical memory *)

(** Byte-addressed memory; a stored byte is read modulo 256. *)
Abbreviation memory := (Z → Z).
Definition read_byte (m : memory) (a : Z) : Z := m a mod 256.
Fixpoint read_le (m : memory) (a : Z) (n : nat) : Z :=
  match n with
  | O => 0
  | S n => read_byte m a + 256 * read_le m (a + 1) n
  end.
Definition write_le (m : memory) (a : Z) (n : nat) (v : Z) : memory := λ x,
  if (a <=? x) && (x <? a + Z.of_nat n) then (v / 256 ^ (x - a)) mod 256 else m x.
(** [fill(v)] of the [n] bytes at [a]. *)
Definition fill (m : memory) (a n v : Z) : memory := λ x,
  if (a <=? x) && (x <? a + n) then v else m x.
(** [copy_from_slice] of [bytes] to address [a]. *)
Definition write_bytes (m : memory) (a : Z) (bytes : list Z) : memory := λ x,
  if (a <=? x) && (x <? a + Z.of_nat (length bytes)) then default 0 (bytes !! Z.to_nat (x - a)) else m x.
Definition read64 (m : memory) (a : Z) : Z := read_le m a 8.
Definition write64 (m : memory) (a v : Z) : memory := write_le m a 8 v.

Lemma read_le_bound m a n : 0 ≤ read_le m a n < 256 ^ Z.of_nat n.
Proof.
  revert a. induction n as [|n IH]; intros a; cbn [read_le]; [lia|].
  rewrite Nat2Z.inj_succ, Z.pow_succ_r by lia.
  specialize (IH (a + 1)). unfold read_byte.
  pose proof (Z.mod_pos_bound (m a) 256). lia.
Qed.
Lemma read_le_eq m a n v :
  (∀ i, 0 ≤ i < Z.of_nat n → m (a + i) = (v / 256 ^ i) mod 256) →
  read_le m a n = v mod 256 ^ Z.of_nat n.
Proof.
  revert a v. induction n as [|n IH]; intros a v H; cbn [read_le].
  { by rewrite Z.mod_1_r. }
  rewrite Nat2Z.inj_succ, Z.pow_succ_r by lia.
  rewrite Z.rem_mul_r by lia. f_equal.
  - unfold read_byte. specialize (H 0 ltac:(lia)).
    rewrite Z.add_0_r, Z.pow_0_r, Z.div_1_r in H. rewrite H. by rewrite Z.mod_mod by lia.
  - f_equal. apply IH. intros i Hi. rewrite <-Z.add_assoc, H by lia.
    rewrite Z.pow_add_r, Z.pow_1_r, Z.div_div by lia. done.
Qed.
Lemma read_le_ext m m' a n :
  (∀ x, a ≤ x < a + Z.of_nat n → m x = m' x) → read_le m a n = read_le m' a n.
Proof.
  revert a. induction n as [|n IH]; intros a H; cbn [read_le]; [done|].
  unfold read_byte. rewrite (H a) by lia. rewrite (IH (a + 1)); [done|].
  intros x Hx. apply H. lia.
Qed.
Lemma read64_bound m a : 0 ≤ read64 m a < 2 ^ 64.
Proof. apply (read_le_bound m a 8). Qed.
Lemma read64_write64_eq m a v : 0 ≤ v < 2 ^ 64 → read64 (write64 m a v) a = v.
Proof.
  intros Hv. unfold read64. rewrite (read_le_eq _ _ 8 v).
  - by apply Z.mod_small.
  - intros i Hi. unfold write64, write_le.
    destruct (Z.leb_spec a (a + i)), (Z.ltb_spec (a + i) (a + Z.of_nat 8)); try lia.
    cbn [andb]. do 2 f_equal. f_equal. lia.
Qed.
Lemma read64_write64_ne m a b v : a + 8 ≤ b ∨ b + 8 ≤ a → read64 (write64 m a v) b = read64 m b.
Proof.
  intros H. apply read_le_ext. intros x Hx. unfold write64, write_le.
  destruct (Z.leb_spec a x), (Z.ltb_spec x (a + Z.of_nat 8)); cbn [andb]; try done. lia.
Qed.
Lemma read64_fill_in m a n b : a ≤ b → b + 8 ≤ a + n → read64 (fill m a n 0) b = 0.
Proof.
  intros H1 H2. unfold read64. rewrite (read_le_eq _ _ 8 0); [done|].
  intros i Hi. unfold fill. destruct (Z.leb_spec a (b + i)), (Z.ltb_spec (b + i) (a + n)); try lia.
  cbn [andb]. by rewrite Z.div_0_l by lia.
Qed.
Lemma read64_fill_out m a n v b : b + 8 ≤ a ∨ a + n ≤ b → read64 (fill m a n v) b = read64 m b.
Proof.
  intros H. apply read_le_ext. intros x Hx. unfold fill.
  destruct (Z.leb_spec a x), (Z.ltb_spec x (a + n)); cbn [andb]; try done. lia.
Qed.

(** A number as [n] bytes, the lowest first. *)
Fixpoint le_bytes (n : nat) (v : Z) : list Z :=
  match n with O => [] | Datatypes.S n => v mod 256 :: le_bytes n (v / 256) end.
Lemma length_le_bytes n v : length (le_bytes n v) = n.
Proof. revert v. induction n as [|n IH]; intros v; [done|]. cbn. by rewrite IH. Qed.
Definition le_value (bytes : list Z) : Z := foldr (λ b acc, b + 256 * acc) 0 bytes.
Lemma le_value_bytes n v : le_value (le_bytes n v) = v mod 256 ^ Z.of_nat n.
Proof.
  revert v. induction n as [|n IH]; intros v; [by rewrite Z.mod_1_r|]. cbn [le_bytes]. unfold le_value in *. cbn [foldr].
  rewrite IH, Nat2Z.inj_succ, Z.pow_succ_r by lia. rewrite Z.rem_mul_r by (try apply Z.pow_nonzero; lia). lia.
Qed.

(** ** Bits *)

Lemma testbit_shiftl_b2z b k i :
  0 ≤ k → 0 ≤ i → Z.testbit (Z.shiftl (Z.b2z b) k) i = (i =? k) && b.
Proof.
  intros Hk Hi. rewrite Z.shiftl_spec by lia.
  destruct (Z.eqb_spec i k) as [->|Hne]; cbn [andb].
  { rewrite Z.sub_diag. apply Z.b2z_bit0. }
  destruct (decide (i < k)); [by rewrite Z.testbit_neg_r by lia|].
  destruct b; cbn [Z.b2z]; [|by rewrite Z.bits_0].
  by rewrite Z.bits_above_log2 by (cbn; lia).
Qed.
Lemma testbit_ones n i : 0 ≤ n → 0 ≤ i → Z.testbit (Z.ones n) i = (i <? n).
Proof.
  intros Hn Hi. destruct (Z.ltb_spec i n); [apply Z.ones_spec_low|apply Z.ones_spec_high]; lia.
Qed.
Lemma testbit_get_bits x msb lsb i :
  0 ≤ lsb ≤ msb → 0 ≤ i → Z.testbit (get_bits x msb lsb) i = (i <=? msb - lsb) && Z.testbit x (i + lsb).
Proof.
  intros Hl Hi. unfold get_bits.
  rewrite Z.land_spec, Z.shiftr_spec, testbit_ones by lia.
  rewrite andb_comm. f_equal. destruct (Z.ltb_spec i (msb - lsb + 1)), (Z.leb_spec i (msb - lsb)); lia.
Qed.
Lemma testbit_above w x i : 0 ≤ x < 2 ^ w → w ≤ i → 0 ≤ w → Z.testbit x i = false.
Proof.
  intros Hx Hi Hw. destruct (decide (x = 0)) as [->|]; [apply Z.bits_0|].
  apply Z.bits_above_log2; [lia|]. apply Z.log2_lt_pow2; [lia|].
  apply Z.lt_le_trans with (2 ^ w); [lia|]. by apply Z.pow_le_mono_r; lia.
Qed.
(** A word is below [2^w] when its bits from [w] on are zero. *)
Lemma bits_bound w x : 0 ≤ w → 0 ≤ x → (∀ i, w ≤ i → Z.testbit x i = false) → x < 2 ^ w.
Proof.
  intros Hw Hx Hb. destruct (decide (x = 0)) as [->|]; [lia|].
  apply Z.log2_lt_pow2; [lia|]. destruct (decide (Z.log2 x < w)); [done|].
  pose proof (Z.bit_log2 x ltac:(lia)) as H. rewrite Hb in H by lia. done.
Qed.
(** *** Bit fields *)
Lemma testbit_set_bit x i b k : 0 ≤ i → 0 ≤ k → Z.testbit (set_bit x i b) k = if k =? i then b else Z.testbit x k.
Proof.
  intros Hi Hk. unfold set_bit. destruct b.
  - rewrite Z.setbit_eqb by done. rewrite Z.eqb_sym. by destruct (k =? i).
  - rewrite Z.clearbit_eqb. rewrite Z.eqb_sym. destruct (k =? i); by rewrite ?andb_false_r, ?andb_true_r.
Qed.
Lemma testbit_set_bits x msb lsb v k : 0 ≤ lsb ≤ msb → 0 ≤ k →
  Z.testbit (set_bits x msb lsb v) k = if (lsb <=? k) && (k <=? msb) then Z.testbit v (k - lsb) else Z.testbit x k.
Proof.
  intros Hl Hk. unfold set_bits. rewrite Z.lor_spec, Z.ldiff_spec, !Z.shiftl_spec by done.
  destruct (Z.leb_spec lsb k); cbn [andb].
  - rewrite Z.land_spec, testbit_ones by lia.
    destruct (Z.leb_spec k msb), (Z.ltb_spec (k - lsb) (msb - lsb + 1)); try lia;
      by rewrite ?andb_true_r, ?andb_false_r, ?orb_false_r, ?orb_false_l.
  - rewrite !(Z.testbit_neg_r _ (k - lsb)) by lia. by rewrite andb_true_r, orb_false_r.
Qed.
Lemma get_bits_eq e msb lsb v : 0 ≤ lsb ≤ msb → 0 ≤ v < 2 ^ (msb - lsb + 1) →
  (∀ k, lsb ≤ k ≤ msb → Z.testbit e k = Z.testbit v (k - lsb)) → get_bits e msb lsb = v.
Proof.
  intros Hl Hv He. apply Z.bits_inj'. intros i Hi. rewrite testbit_get_bits by done.
  destruct (Z.leb_spec i (msb - lsb)); cbn [andb].
  - rewrite He by lia. f_equal. lia.
  - symmetry. apply (testbit_above (msb - lsb + 1)); lia.
Qed.
Lemma testbit_trunc w x k : 0 ≤ k < w → Z.testbit (trunc w x) k = Z.testbit x k.
Proof. intros Hk. unfold trunc. apply Z.mod_pow2_bits_low. lia. Qed.
Lemma land_bit x k : 0 ≤ k → negb (Z.land x (2 ^ k) =? 0) = Z.testbit x k.
Proof.
  intros Hk. assert (Z.land x (2 ^ k) = if Z.testbit x k then 2 ^ k else 0) as ->.
  { apply Z.bits_inj'. intros i Hi. rewrite Z.land_spec, Z.pow2_bits_eqb by done.
    destruct (Z.eqb_spec k i) as [->|Hne].
    - destruct (Z.testbit x i); [by rewrite Z.pow2_bits_true|by rewrite Z.bits_0].
    - rewrite andb_false_r. destruct (Z.testbit x k); [by rewrite Z.pow2_bits_false|by rewrite Z.bits_0]. }
  destruct (Z.testbit x k); [|done]. pose proof (Z.pow_pos_nonneg 2 k ltac:(lia) Hk). by rewrite (proj2 (Z.eqb_neq _ _)) by lia.
Qed.

(** Fields put side by side. *)
Lemma lor_shiftl_add n x y : 0 ≤ n → 0 ≤ x < 2 ^ n → Z.lor x (Z.shiftl y n) = x + y * 2 ^ n.
Proof.
  intros Hn Hx. rewrite <-Z.shiftl_mul_pow2 by done. pose proof (Z.add_lor_land x (Z.shiftl y n)) as E.
  assert (Z.land x (Z.shiftl y n) = 0) as Hz; [|lia].
  apply Z.bits_inj'. intros i Hi. rewrite Z.land_spec, Z.bits_0, Z.shiftl_spec by done.
  destruct (decide (i < n)); [by rewrite (Z.testbit_neg_r y) , andb_false_r by lia|].
  by rewrite (testbit_above n x) by lia.
Qed.
Lemma get_bits_div x msb lsb : 0 ≤ lsb ≤ msb → get_bits x msb lsb = x / 2 ^ lsb mod 2 ^ (msb - lsb + 1).
Proof. intros H. unfold get_bits. by rewrite Z.land_ones, Z.shiftr_div_pow2 by lia. Qed.
