(* ===== verification/Layout.v ===== *)
(** * Layouts and symbols for assembly (kernel/crates/define-asm-symbol/src/lib.rs)

    The layout Rust gives to the structs marked [repr(C)], and the attribute
    [export_asm_all], which turns the fields of a struct or the variants of an enum
    into assembler symbols.  The syntax tree the attribute works on is the part of
    syn's that it looks at. *)
From S2P Require Import Prelude.
From Stdlib Require Import Ascii.

(** ** Structs with the layout of C *)

(** The size and the alignment of a type. *)
Record layout : Type := Lay { size : Z; align : Z }.
Definition array (n : Z) (l : layout) : layout := Lay (n * size l) (align l).
(** [repr(C)], [repr(C, packed(n))] and [repr(C, align(n))]. *)
Inductive repr : Type := C | Packed (n : Z) | Align (n : Z).
Definition fields : Type := list (string * layout).

Definition field_align (r : repr) (l : layout) : Z := match r with Packed n => Z.min n (align l) | _ => align l end.
Definition round_up (x a : Z) : Z := (x + (a - 1)) / a * a.
(** The offsets of the fields, in order of declaration, and the end of the last. *)
Fixpoint place (r : repr) (fs : fields) (pos : Z) : list Z * Z :=
  match fs with
  | [] => ([], pos)
  | (_, l) :: fs =>
      let offset := round_up pos (field_align r l) in
      let '(offsets, last) := place r fs (offset + size l) in
      (offset :: offsets, last)
  end.
Definition struct_align (r : repr) (fs : fields) : Z :=
  foldr (λ '(_, l) a, Z.max (field_align r l) a) (match r with Align n => n | _ => 1 end) fs.
Definition struct_layout (r : repr) (fs : fields) : layout :=
  Lay (round_up (place r fs 0).2 (struct_align r fs)) (struct_align r fs).
(** [offset_of!(Struct, field)]. *)
Definition offset_of (r : repr) (fs : fields) (name : string) : option Z :=
  '(i, _) ← list_find (λ f, f.1 = name) fs; (place r fs 0).1 !! i.

(** ** [export_asm_all] *)

(** The expression of a discriminant: an integer literal, or something else. *)
Inductive expr : Type := LitInt (value : Z) | OtherExpr.
Record variant : Type := Variant { variant_ident : string; is_unit : bool; discriminant : option expr }.
Inductive data : Type :=
  | DataStruct (named : bool) (field_idents : list string)
  | DataEnum (variants : list variant)
  | DataUnion.
(** The value of a symbol: an offset the compiler computes, or a number. *)
Inductive value : Type := OffsetOf (item field : string) | Const (v : Z).
Definition symbol : Type := string * value.

Definition asm_name (item part : string) : string := item +:+ "." +:+ part.
(** The discriminant of a variant, as the attribute reads it. *)
Definition variant_value (v : variant) (current_value : Z) : M () Z :=
  match discriminant v with
  | Some (LitInt n) => chk 64 n
  | Some OtherExpr => panic
  | None => mret current_value
  end.
Fixpoint export_variants (item : string) (variants : list variant) (current_value : Z) : M () (list symbol) :=
  match variants with
  | [] => mret []
  | v :: rest =>
      rassert (is_unit v);;
      n ← variant_value v current_value;
      next ← chk 64 (n + 1);
      symbols ← export_variants item rest next;
      mret ((asm_name item (variant_ident v), Const n) :: symbols)
  end.
Definition export_asm_all (item : string) (d : data) : M () (list symbol) :=
  match d with
  | DataStruct named field_idents =>
      rassert named;; mret ((λ f, (asm_name item f, OffsetOf item f)) <$> field_idents)
  | DataEnum variants => export_variants item variants 0
  | DataUnion => panic
  end.
(** The text handed to the assembler once the value is known. *)
Definition quoted (s : string) : string := String "034"%char (s +:+ String "034"%char EmptyString).
Definition global_asm (name : string) (value : string) : string :=
  ".global " +:+ quoted name +:+ String "010"%char EmptyString +:+ quoted name +:+ " = " +:+ value.

(** ** What a layout is for *)

(** The fields [fs] lie at [offsets], in this order from [pos] on, each at a
    multiple of its alignment and none over another, and end at [last]. *)
Inductive placed (r : repr) : Z → fields → list Z → Z → Prop :=
  | placed_nil pos : placed r pos [] [] pos
  | placed_cons pos name l fs offset offsets last :
      pos ≤ offset → (field_align r l | offset) → placed r (offset + size l) fs offsets last →
      placed r pos ((name, l) :: fs) (offset :: offsets) last.
#[export] Hint Constructors placed : core.
Definition layout_ok (l : layout) : Prop := 0 ≤ size l ∧ ∃ k, 0 ≤ k ∧ align l = 2 ^ k.
Definition repr_ok (r : repr) : Prop := match r with C => True | Packed n | Align n => ∃ k, 0 ≤ k ∧ n = 2 ^ k end.

(** Powers of two. *)
Lemma pow2_pos a : (∃ k, 0 ≤ k ∧ a = 2 ^ k) → 0 < a.
Proof. intros (k & Hk & ->). by apply Z.pow_pos_nonneg. Qed.
Lemma pow2_min a b : (∃ k, 0 ≤ k ∧ a = 2 ^ k) → (∃ k, 0 ≤ k ∧ b = 2 ^ k) → ∃ k, 0 ≤ k ∧ Z.min a b = 2 ^ k.
Proof. intros Ha Hb. destruct (Z.min_spec a b) as [[_ ->]|[_ ->]]; done. Qed.
Lemma pow2_divide_max a b : (∃ k, 0 ≤ k ∧ a = 2 ^ k) → (∃ k, 0 ≤ k ∧ b = 2 ^ k) →
  (a | Z.max a b) ∧ (b | Z.max a b) ∧ ∃ k, 0 ≤ k ∧ Z.max a b = 2 ^ k.
Proof.
  intros (j & Hj & ->) (k & Hk & ->).
  assert (∀ i n, 0 ≤ i ≤ n → (2 ^ i | 2 ^ n)) as Hd.
  { intros i n Hi. exists (2 ^ (n - i)). rewrite <-Z.pow_add_r by lia. f_equal. lia. }
  destruct (decide (j ≤ k)) as [H|H].
  - rewrite Z.max_r by (by apply Z.pow_le_mono_r). split_and!; [by apply Hd|done|by exists k].
  - rewrite Z.max_l by (apply Z.pow_le_mono_r; lia). split_and!; [done|apply Hd; lia|by exists j].
Qed.
Lemma field_align_pow2 r l : layout_ok l → repr_ok r → ∃ k, 0 ≤ k ∧ field_align r l = 2 ^ k.
Proof. intros [_ Hl] Hr. destruct r; [done|by apply pow2_min|done]. Qed.

Lemma round_up_spec x a : 0 < a → x ≤ round_up x a ∧ (a | round_up x a) ∧ ∀ y, x ≤ y → (a | y) → round_up x a ≤ y.
Proof.
  intros Ha. unfold round_up. split; [|split].
  - Z.div_mod_to_equations. lia.
  - apply Z.divide_factor_r.
  - intros y Hxy [q ->]. apply Z.mul_le_mono_nonneg_r; [lia|]. apply Z.lt_succ_r, Z.div_lt_upper_bound; lia.
Qed.

Lemma place_spec r fs pos : Forall (λ f, layout_ok f.2) fs → repr_ok r →
  placed r pos fs (place r fs pos).1 (place r fs pos).2 ∧ pos ≤ (place r fs pos).2 ∧
  ∀ pos' offsets last, pos ≤ pos' → placed r pos' fs offsets last →
    Forall2 Z.le (place r fs pos).1 offsets ∧ (place r fs pos).2 ≤ last.
Proof.
  intros Hfs Hr. revert pos. induction Hfs as [|[name l] fs Hl Hfs IH]; intros pos; cbn [place].
  { split; [done|]. split; [done|]. intros pos' offsets last Hle Hp. by inversion Hp; subst. }
  cbn [snd] in Hl. set (a := field_align r l).
  assert (0 < a) as Ha by (by apply pow2_pos, field_align_pow2).
  destruct (round_up_spec pos a Ha) as (H1 & H2 & H3). set (offset := round_up pos a) in *.
  destruct (IH (offset + size l)) as (Hp & Hle & Hmin). destruct Hl as [Hs _].
  destruct (place r fs (offset + size l)) as [offsets last]. cbn [fst snd] in *.
  split; [by constructor|]. split; [lia|]. intros pos' offsets' last' Hle' Hp'.
  inversion Hp' as [|? ? ? ? offset' rest' ? Ho Hd Hrest]; subst.
  assert (offset ≤ offset') as Hoo by (apply H3; [lia|done]).
  destruct (Hmin (offset' + size l) rest' last' ltac:(lia) Hrest) as [Hall Hlast]. split; [by constructor|done].
Qed.

(** The alignment of the struct is a multiple of that of its fields. *)
Lemma struct_align_spec r fs : Forall (λ f, layout_ok f.2) fs → repr_ok r →
  (∃ k, 0 ≤ k ∧ struct_align r fs = 2 ^ k) ∧ Forall (λ f, (field_align r f.2 | struct_align r fs)) fs.
Proof.
  intros Hfs Hr. unfold struct_align.
  induction Hfs as [|[name l] fs Hl Hfs [IH1 IH2]]; cbn [foldr snd] in *.
  { split; [|done]. destruct r; [by exists 0|by exists 0|done]. }
  destruct (pow2_divide_max _ _ (field_align_pow2 r l Hl Hr) IH1) as (D1 & D2 & H). split; [done|].
  constructor; [done|]. eapply Forall_impl; [exact IH2|]. intros [name' l'] Hd. cbn in *. by etrans.
Qed.

(** the layout of a struct, for any fields whose alignments are powers of
    two.  The fields lie in order of declaration, aligned and apart from each
    other, and within the size of the struct; every other such arrangement puts
    each field at the same place or further on.  The size is the least multiple of
    the struct's alignment that holds them, and wherever an aligned struct is put,
    every field has an aligned address. *)
Theorem struct_layout_correct (r : repr) (fs : fields) :
  Forall (λ f, layout_ok f.2) fs → repr_ok r →
  let offsets := (place r fs 0).1 in
  let last := (place r fs 0).2 in
  let l := struct_layout r fs in
  placed r 0 fs offsets last ∧
  (∀ offsets' last', placed r 0 fs offsets' last' → Forall2 Z.le offsets offsets' ∧ last ≤ last') ∧
  0 < align l ∧ last ≤ size l ∧ (align l | size l) ∧ (∀ n, last ≤ n → (align l | n) → size l ≤ n) ∧
  ∀ base i name lf o, (align l | base) → fs !! i = Some (name, lf) → offsets !! i = Some o →
    (field_align r lf | base + o).
Proof.
  intros Hfs Hr offsets last l.
  destruct (place_spec r fs 0 Hfs Hr) as (Hp & Hle & Hmin).
  destruct (struct_align_spec r fs Hfs Hr) as [Ha Hd]. pose proof (pow2_pos _ Ha) as Hpos.
  destruct (round_up_spec last (struct_align r fs) Hpos) as (H1 & H2 & H3).
  split; [done|]. split; [by intros ? ?; apply Hmin|]. split; [done|]. split; [done|]. split; [done|]. split; [done|].
  intros base i name lf o Hb Hi Ho. apply Z.divide_add_r.
  - rewrite Forall_lookup in Hd. specialize (Hd i _ Hi). cbn in Hd. by etrans.
  - clear -Hp Hi Ho. change (place r fs 0).1 with offsets in Hp. revert i Hi Ho.
    induction Hp as [|pos name' l' fs o' offsets last' Hle Hdiv Hp IH]; intros [|i] Hi Ho; try done; cbn in *.
    + by simplify_eq.
    + by apply (IH i).
Qed.
Lemma struct_layout_correct_witness :
  let fs := [("reason", Lay 8 8); ("flag", Lay 1 1); ("code", Lay 4 4)]%string in
  let offsets := (place C fs 0).1 in
  let last := (place C fs 0).2 in
  let l := struct_layout C fs in
  placed C 0 fs offsets last ∧
  (∀ offsets' last', placed C 0 fs offsets' last' → Forall2 Z.le offsets offsets' ∧ last ≤ last') ∧
  0 < align l ∧ last ≤ size l ∧ (align l | size l) ∧ (∀ n, last ≤ n → (align l | n) → size l ≤ n) ∧
  ∀ base i name lf o, (align l | base) → fs !! i = Some (name, lf) → offsets !! i = Some o →
    (field_align C lf | base + o).
Proof.
  apply struct_layout_correct; [|done].
  repeat constructor; cbn; try lia; [by exists 3|by exists 0|by exists 2].
Defined.

(** ** What the symbols are for *)

(** The discriminant the language gives to the variant at [i]: the one it is
    declared with, or one more than that of the variant before, or 0. *)
Fixpoint rust_discriminant (variants : list variant) (i : nat) : Z :=
  match discriminant <$> variants !! i, i with
  | Some (Some (LitInt n)), _ => n
  | _, O => 0
  | _, S i => 1 + rust_discriminant variants i
  end.
(** The enums the attribute takes: no variant has fields, all discriminants that
    are given are integer literals, and all fit with room for one more. *)
Definition exportable (variants : list variant) : Prop := ∀ i v, variants !! i = Some v →
  is_unit v = true ∧ discriminant v ≠ Some OtherExpr ∧ 0 ≤ rust_discriminant variants i < 2 ^ 64 - 1.
Definition enum_symbols (item : string) (variants : list variant) : list symbol :=
  imap (λ i v, (asm_name item (variant_ident v), Const (rust_discriminant variants i))) variants.

(** The same, from the value the attribute has reached. *)
Definition next_value (done : list variant) : Z :=
  match length done with O => 0 | S i => 1 + rust_discriminant done i end.
Lemma rust_discriminant_app done rest i : (i < length done)%nat →
  rust_discriminant (done ++ rest) i = rust_discriminant done i.
Proof.
  induction i as [|i IH]; intros Hi; cbn [rust_discriminant]; rewrite lookup_app_l by done; [done|].
  by rewrite IH by lia.
Qed.
Lemma rust_discriminant_end done v rest :
  rust_discriminant (done ++ v :: rest) (length done) =
    match discriminant v with Some (LitInt n) => n | _ => next_value done end.
Proof.
  unfold next_value. assert ((done ++ v :: rest) !! length done = Some v) as E by (by rewrite list_lookup_middle).
  destruct (length done) as [|i] eqn:El; cbn [rust_discriminant]; rewrite E; cbn [fmap option_fmap option_map]; [done|].
  destruct (discriminant v) as [[]|]; [done|..]; by rewrite rust_discriminant_app by lia.
Qed.
Lemma next_value_snoc done v : next_value (done ++ [v]) = 1 + rust_discriminant (done ++ [v]) (length done).
Proof. unfold next_value. rewrite length_app. cbn. by rewrite Nat.add_1_r. Qed.

(** One variant. *)
Definition variant_ok (v : variant) (n : Z) : Prop := is_unit v = true ∧ discriminant v ≠ Some OtherExpr ∧ 0 ≤ n < 2 ^ 64 - 1.
Lemma export_variant item v rest current :
  let n := match discriminant v with Some (LitInt n) => n | _ => current end in
  0 ≤ current →
  (variant_ok v n → export_variants item (v :: rest) current () =
    (symbols ← export_variants item rest (n + 1); mret ((asm_name item (variant_ident v), Const n) :: symbols)) ()) ∧
  (¬ variant_ok v n → export_variants item (v :: rest) current () = Panics).
Proof.
  intros n Hc. cbn [export_variants]. unfold rassert, variant_value, variant_ok, mbind, M_bind, chk. subst n.
  destruct (is_unit v); cbn [mret M_ret]; [|split; [by intros [? _]|done]].
  destruct (discriminant v) as [[n|]|]; [|split; [by intros (_ & ? & _)|done]|].
  - destruct (fits 64 n) eqn:E1; cbn [mret M_ret].
    + apply fits_spec in E1. destruct (fits 64 (n + 1)) eqn:E2; [apply fits_spec in E2; split; [done|]; intros []; split_and!; done || lia|].
      split; [|done]. intros (_ & _ & Hn). rewrite (proj2 (fits_spec 64 (n + 1))) in E2 by lia. done.
    + split; [|done]. intros (_ & _ & Hn). rewrite (proj2 (fits_spec 64 n)) in E1 by lia. done.
  - cbn [mret M_ret]. destruct (fits 64 (current + 1)) eqn:E2.
    + apply fits_spec in E2. split; [done|]. intros []. split_and!; done || lia.
    + split; [|done]. intros (_ & _ & Hn). rewrite (proj2 (fits_spec 64 (current + 1))) in E2 by lia. done.
Qed.

#[global] Instance expr_eq_dec : EqDecision expr.
Proof. solve_decision. Defined.
#[global] Instance variant_ok_dec v n : Decision (variant_ok v n).
Proof. unfold variant_ok. apply _. Defined.

Lemma export_variants_run item rest : ∀ done, 0 ≤ next_value done →
  let value i := rust_discriminant (done ++ rest) (length done + i) in
  let ok := ∀ i v, rest !! i = Some v → variant_ok v (value i) in
  (ok → export_variants item rest (next_value done) () =
    Returns (imap (λ i v, (asm_name item (variant_ident v), Const (value i))) rest, ())) ∧
  (¬ ok → export_variants item rest (next_value done) () = Panics).
Proof.
  induction rest as [|v rest IH]; intros done Hnn value ok; [by split; [|intros []]|].
  destruct (export_variant item v rest (next_value done) Hnn) as [Hok Hbad].
  set (n := match discriminant v with Some (LitInt n) => n | _ => next_value done end) in *.
  assert (value 0%nat = n) as E0 by (unfold value; rewrite Nat.add_0_r; apply rust_discriminant_end).
  destruct (decide (variant_ok v n)) as [Hv|Hv].
  2:{ rewrite Hbad by done. split; [|done]. intros H. destruct Hv. rewrite <-E0. by apply (H 0%nat). }
  assert (next_value (done ++ [v]) = n + 1) as En.
  { rewrite next_value_snoc, <-E0. unfold value. rewrite Nat.add_0_r.
    replace (done ++ v :: rest) with ((done ++ [v]) ++ rest) by (by rewrite <-app_assoc).
    rewrite (rust_discriminant_app (done ++ [v])) by (rewrite length_app; cbn; lia). lia. }
  destruct (IH (done ++ [v])) as [IHok IHbad]; [rewrite En; destruct Hv as (_ & _ & ?); lia|].
  rewrite En, <-app_assoc, length_app in IHok, IHbad. cbn [length app] in IHok, IHbad.
  assert (∀ i, value (S i) = rust_discriminant (done ++ v :: rest) (length done + 1 + i)) as Es
    by (intros i; unfold value; f_equal; lia).
  rewrite Hok by done. unfold mbind, M_bind. split; intros H.
  - rewrite IHok by (intros i w Hi; rewrite <-Es; by apply (H (S i))). cbn [imap mret M_ret].
    unfold mret, M_ret. rewrite E0. do 3 f_equal. apply imap_ext. intros i w _. cbn. by rewrite Es.
  - rewrite IHbad; [done|]. intros H'. apply H. intros [|i] w Hi; [cbn in Hi; simplify_eq; by rewrite E0|].
    rewrite Es. by apply H'.
Qed.

(** *** Names *)
Fixpoint dot_free (s : string) : Prop :=
  match s with EmptyString => True | String c s => c ≠ "."%char ∧ dot_free s end.
(** The item and the part can be read off the name. *)
Lemma asm_name_inj item item' part part' : dot_free item → dot_free item' →
  asm_name item part = asm_name item' part' → item = item' ∧ part = part'.
Proof.
  unfold asm_name. revert item'. induction item as [|c item IH]; intros [|c' item']; cbn.
  - intros _ _ [= E]. split; [done|exact E].
  - intros _ [Hc _] [= E _]. by destruct Hc.
  - intros [Hc _] _ [= E _]. by destruct Hc.
  - intros [_ Hd] [_ Hd'] [= -> E]. by apply IH in E as [-> ->].
Qed.

(** C37: [export_asm_all] on every item.  On an enum it can take, the symbols are
    those of the variants, in order, each with the discriminant the language gives
    the variant; on any other enum, and on anything without named fields, the
    build fails.  On a struct the symbols are the offsets of the fields.  Symbols
    of different parts of an item have different names. *)
Theorem export_asm_all_correct (item : string) (d : data) : dot_free item →
  match d with
  | DataEnum vs =>
      (exportable vs → export_asm_all item d () = Returns (enum_symbols item vs, ())) ∧
      (¬ exportable vs → export_asm_all item d () = Panics) ∧
      (NoDup (variant_ident <$> vs) → NoDup (fst <$> enum_symbols item vs))
  | DataStruct true fs =>
      export_asm_all item d () = Returns ((λ f, (asm_name item f, OffsetOf item f)) <$> fs, ()) ∧
      (NoDup fs → NoDup (asm_name item <$> fs))
  | DataStruct false _ | DataUnion => export_asm_all item d () = Panics
  end.
Proof.
  intros Hdot. assert (∀ fs, NoDup fs → NoDup (asm_name item <$> fs)) as Hnd.
  { intros fs. apply NoDup_fmap_2_strong. intros x y _ _ E. by eapply asm_name_inj. }
  destruct d as [[] fs|vs|]; [by split; [|apply Hnd]|done| |done].
  destruct (export_variants_run item vs [] ltac:(done)) as [Hok Hbad]. cbn in Hok, Hbad.
  split; [exact Hok|]. split; [exact Hbad|]. intros H. apply Hnd in H.
  replace (fst <$> enum_symbols item vs) with (asm_name item <$> (variant_ident <$> vs)); [done|].
  unfold enum_symbols. rewrite <-list_fmap_compose. generalize (rust_discriminant vs). clear.
  induction vs as [|v vs IH]; intros g; cbn; [done|]. f_equal. apply (IH (g ∘ S)).
Qed.
Lemma export_asm_all_correct_witness :
  (export_asm_all "YieldReason" (DataEnum [Variant "Timeout" true None; Variant "Exception" true (Some (LitInt 4))]) () =
    Returns ([("YieldReason.Timeout", Const 0); ("YieldReason.Exception", Const 4)], ()))%string.
Proof.
  refine (proj1 (export_asm_all_correct "YieldReason"
    (DataEnum [Variant "Timeout" true None; Variant "Exception" true (Some (LitInt 4))]) _) _).
  - cbn. by split_and!.
  - intros [|[|i]] v Hv; cbn in Hv; [injection Hv as <-..|done].
    all: by split_and!.
Defined.
