(* ===== verification/Paging.v ===== *)
(** * Page table entries (kernel/src/arch/x86_64/paging.rs)

    A [PageTableEntry] is the raw 64-bit word; its fields are read through the
    accessors its [bitfield!] declaration gives.  [PageTableData] is the
    unpacked form.  The theorems show that packing and unpacking agree, that
    the flag and address halves of an entry are independent, and how
    [address()] sign-extends. *)
From S2P Require Import Prelude.

Definition PAGE_SIZE : Z := 4096.

(** Aligns [address] down: [address & !0xFFF]. *)
Definition align_to_page (address : Z) : Z := Z.land address (unot 64 0xFFF).

Module PageTableEntry.
  (** The named one-bit fields. *)
Definition present (e : Z) : bool := Z.testbit e 0.
Definition writable (e : Z) : bool := Z.testbit e 1.
Definition user_accessable (e : Z) : bool := Z.testbit e 2.
Definition write_through_caching_enabled (e : Z) : bool := Z.testbit e 3.
Definition cache_disabled (e : Z) : bool := Z.testbit e 4.
Definition accessed (e : Z) : bool := Z.testbit e 5.
Definition dirty (e : Z) : bool := Z.testbit e 6.
Definition huge_page (e : Z) : bool := Z.testbit e 7.
Definition global (e : Z) : bool := Z.testbit e 8.
Definition no_execute (e : Z) : bool := Z.testbit e 63.
Definition address_unextended (e : Z) : Z := get_bits e 51 12.
Definition kernel_data_1 (e : Z) : Z := get_bits e 11 9.
Definition kernel_data_2 (e : Z) : Z := get_bits e 58 52.
End PageTableEntry.

Module PageTableData.
Record t : Type := Build {
    present : bool;
    writable : bool;
    user_accessable : bool;
    write_through_caching_enabled : bool;
    cache_disabled : bool;
    accessed : bool;
    dirty : bool;
    huge_page : bool;
    global : bool;
    physical_address : Z;
    no_execute : bool;
  }.

  (** [PageTableData::default()]: present, nothing else. *)
Definition default : t :=
    Build true false false false false false false false false 0 false.
End PageTableData.

(** [PageTableEntry::from_data]. *)
Definition from_data (d : PageTableData.t) : Z :=
  let bit (b : bool) (i : Z) := Z.shiftl (Z.b2z b) i in
  Z.lor (bit d.(PageTableData.present) 0)
  (Z.lor (bit d.(PageTableData.writable) 1)
  (Z.lor (bit d.(PageTableData.user_accessable) 2)
  (Z.lor (bit d.(PageTableData.write_through_caching_enabled) 3)
  (Z.lor (bit d.(PageTableData.cache_disabled) 4)
  (Z.lor (bit d.(PageTableData.accessed) 5)
  (Z.lor (bit d.(PageTableData.dirty) 6)
  (Z.lor (bit d.(PageTableData.huge_page) 7)
  (Z.lor (bit d.(PageTableData.global) 8)
  (Z.lor (bit d.(PageTableData.no_execute) 63)
    (Z.land d.(PageTableData.physical_address) 0x000FFFFFFFFFF000)))))))))).

(** The constants [READ], [READ_WRITE], [READ_EXECUTE] and [READ_WRITE_EXECUTE]
    differ in two fields of their [PageTableData]. *)
Definition flags_const (writable no_execute : bool) : Z :=
  from_data (PageTableData.Build true writable false false false false false false false 0 no_execute).
Definition ZERO : Z := 0.
Definition READ : Z := flags_const false true.
Definition READ_WRITE : Z := flags_const true true.
Definition READ_EXECUTE : Z := flags_const false false.
Definition READ_WRITE_EXECUTE : Z := flags_const true false.

(** [PageTableEntry::address]: the physical address, sign-extended from bit 51. *)
Definition address (e : Z) : Z :=
  let addr_unextended := Z.shiftl (PageTableEntry.address_unextended e) 12 in
  if negb (Z.land addr_unextended 0x0008000000000000 =? 0)
  then Z.lor addr_unextended 0xFFF0000000000000
  else addr_unextended.

Definition replace_flags_with (e flags : Z) : Z :=
  Z.lor (Z.land e 0x000FFFFFFFFFF000) (Z.land flags 0x80000000000001FF).

Definition replace_addr_with (e addr : Z) : Z :=
  Z.lor (Z.land addr 0x000FFFFFFFFFF000) (Z.land e 0x80000000000001FF).

(** ** Bit-level reasoning *)

(** The bits of the mask of the physical address field. *)
Definition ADDR_MASK : Z := 0x000FFFFFFFFFF000.
Definition FLAG_MASK : Z := 0x80000000000001FF.

Lemma ADDR_MASK_spec i : 0 ≤ i → Z.testbit ADDR_MASK i = bool_decide (12 ≤ i < 52).
Proof.
  intros Hi. change ADDR_MASK with (Z.shiftl (Z.ones 40) 12).
  rewrite Z.shiftl_spec by lia.
  case_bool_decide as H.
  - rewrite Z.ones_spec_low by lia. done.
  - destruct (decide (i < 12)); [by rewrite Z.testbit_neg_r by lia|].
    by rewrite Z.ones_spec_high by lia.
Qed.
Lemma FLAG_MASK_spec i : 0 ≤ i → Z.testbit FLAG_MASK i = bool_decide (i < 9 ∨ i = 63).
Proof.
  intros Hi. change FLAG_MASK with (Z.lor (Z.ones 9) (Z.shiftl 1 63)).
  rewrite Z.lor_spec, Z.shiftl_spec by lia.
  destruct (decide (i < 9)).
  { rewrite Z.ones_spec_low by lia. by rewrite bool_decide_true by lia. }
  rewrite Z.ones_spec_high by lia. cbn [orb].
  destruct (decide (i = 63)) as [->|]; [done|].
  rewrite bool_decide_false by lia.
  destruct (decide (i < 63)); [by rewrite Z.testbit_neg_r by lia|].
  by rewrite Z.bits_above_log2 by (cbn; lia).
Qed.

Lemma align_to_page_spec a : 0 ≤ a < 2 ^ 64 → align_to_page a = a - a mod PAGE_SIZE.
Proof.
  intros Ha. unfold align_to_page, unot, PAGE_SIZE.
  assert (a - a mod 4096 = Z.shiftl (Z.shiftr a 12) 12) as ->.
  { rewrite Z.shiftr_div_pow2, Z.shiftl_mul_pow2 by lia. change (2 ^ 12) with 4096.
    pose proof (Z.div_mod a 4096 ltac:(lia)). lia. }
  apply Z.bits_inj'. intros i Hi.
  change (Z.lxor 0xFFF (Z.ones 64)) with (Z.shiftl (Z.ones 52) 12).
  rewrite Z.land_spec, !Z.shiftl_spec by lia.
  destruct (decide (i < 12)).
  { rewrite !(Z.testbit_neg_r _ (i - 12)) by lia. apply andb_false_r. }
  rewrite Z.shiftr_spec, testbit_ones by lia. replace (i - 12 + 12) with i by lia.
  destruct (Z.ltb_spec (i - 12) 52); [apply andb_true_r|].
  by rewrite (testbit_above 64 a i) by lia.
Qed.

(** The bits of a packed entry. *)
Lemma from_data_testbit d i : 0 ≤ i →
  Z.testbit (from_data d) i =
    (i =? 0) && PageTableData.present d
    || ((i =? 1) && PageTableData.writable d
    || ((i =? 2) && PageTableData.user_accessable d
    || ((i =? 3) && PageTableData.write_through_caching_enabled d
    || ((i =? 4) && PageTableData.cache_disabled d
    || ((i =? 5) && PageTableData.accessed d
    || ((i =? 6) && PageTableData.dirty d
    || ((i =? 7) && PageTableData.huge_page d
    || ((i =? 8) && PageTableData.global d
    || ((i =? 63) && PageTableData.no_execute d
    || Z.testbit (PageTableData.physical_address d) i && bool_decide (12 ≤ i < 52)))))))))).
Proof.
  intros Hi. unfold from_data. rewrite !Z.lor_spec, !testbit_shiftl_b2z by lia.
  rewrite Z.land_spec. by change 0x000FFFFFFFFFF000 with ADDR_MASK; rewrite ADDR_MASK_spec.
Qed.

(** Bits [51..12] of a word as the page-aligned number they encode. *)
Lemma address_unextended_shift e :
  Z.shiftl (PageTableEntry.address_unextended e) 12 = Z.land e ADDR_MASK.
Proof.
  apply Z.bits_inj'. intros i Hi. rewrite Z.shiftl_spec, Z.land_spec, ADDR_MASK_spec by lia.
  destruct (decide (i < 12)).
  { rewrite Z.testbit_neg_r by lia. rewrite bool_decide_false by lia. by rewrite andb_false_r. }
  unfold PageTableEntry.address_unextended. rewrite testbit_get_bits by lia.
  replace (i - 12 + 12) with i by lia. rewrite andb_comm. f_equal.
  case_bool_decide; destruct (Z.leb_spec (i - 12) (51 - 12)); lia.
Qed.

(** A page-aligned physical address below [2^52] is all mask. *)
Lemma land_ADDR_MASK_id a : 0 ≤ a < 2 ^ 52 → a mod PAGE_SIZE = 0 → Z.land a ADDR_MASK = a.
Proof.
  intros Ha Hm. apply Z.bits_inj'. intros i Hi. rewrite Z.land_spec, ADDR_MASK_spec by lia.
  case_bool_decide as H; [apply andb_true_r|]. rewrite andb_false_r. symmetry.
  destruct (decide (52 ≤ i)); [by apply (testbit_above 52)|].
  replace a with (Z.shiftl (a / 4096) 12).
  { by rewrite Z.shiftl_spec, Z.testbit_neg_r by lia. }
  rewrite Z.shiftl_mul_pow2 by lia. unfold PAGE_SIZE in Hm.
  pose proof (Z.div_mod a 4096 ltac:(lia)). change (2 ^ 12) with 4096. lia.
Qed.
Lemma land_ADDR_MASK_aligned a : 0 ≤ a → Z.land a ADDR_MASK mod PAGE_SIZE = 0.
Proof.
  intros Ha. change PAGE_SIZE with (2 ^ 12). rewrite <-Z.land_ones by lia.
  apply Z.bits_inj'. intros i Hi.
  rewrite !Z.land_spec, ADDR_MASK_spec, testbit_ones, Z.bits_0 by lia.
  case_bool_decide; destruct (Z.ltb_spec i 12); try lia; by rewrite ?andb_false_r.
Qed.
Lemma land_ADDR_MASK_bound a : 0 ≤ a → 0 ≤ Z.land a ADDR_MASK < 2 ^ 52.
Proof.
  intros Ha. assert (0 ≤ Z.land a ADDR_MASK) by (apply Z.land_nonneg; by left).
  split; [done|]. apply bits_bound; [lia|done|]. intros i Hi.
  rewrite Z.land_spec, ADDR_MASK_spec by lia. by rewrite bool_decide_false, andb_false_r by lia.
Qed.

(** ** Properties *)

(** packing a [PageTableData] and reading the entry's fields gives the data
    back: every flag accessor returns its field, and the address field, shifted
    to its place, is the page-aligned physical address. *)
Theorem from_data_roundtrip (d : PageTableData.t) :
  0 ≤ PageTableData.physical_address d < 2 ^ 52 →
  PageTableData.physical_address d mod PAGE_SIZE = 0 →
  PageTableEntry.present (from_data d) = PageTableData.present d ∧
  PageTableEntry.writable (from_data d) = PageTableData.writable d ∧
  PageTableEntry.user_accessable (from_data d) = PageTableData.user_accessable d ∧
  PageTableEntry.write_through_caching_enabled (from_data d)
    = PageTableData.write_through_caching_enabled d ∧
  PageTableEntry.cache_disabled (from_data d) = PageTableData.cache_disabled d ∧
  PageTableEntry.accessed (from_data d) = PageTableData.accessed d ∧
  PageTableEntry.dirty (from_data d) = PageTableData.dirty d ∧
  PageTableEntry.huge_page (from_data d) = PageTableData.huge_page d ∧
  PageTableEntry.global (from_data d) = PageTableData.global d ∧
  PageTableEntry.no_execute (from_data d) = PageTableData.no_execute d ∧
  Z.shiftl (PageTableEntry.address_unextended (from_data d)) 12
    = PageTableData.physical_address d ∧
  PageTableEntry.kernel_data_1 (from_data d) = 0 ∧
  PageTableEntry.kernel_data_2 (from_data d) = 0.
Proof.
  intros Ha Hm.
  assert (Z.land (from_data d) ADDR_MASK = PageTableData.physical_address d) as Haddr.
  { trans (Z.land (PageTableData.physical_address d) ADDR_MASK);
      [|by apply land_ADDR_MASK_id]. apply Z.bits_inj'. intros i Hi.
    rewrite !Z.land_spec, from_data_testbit, ADDR_MASK_spec by lia.
    case_bool_decide as H; [|by rewrite !andb_false_r].
    rewrite !andb_true_r. by rewrite !(proj2 (Z.eqb_neq _ _)) by lia. }
  assert (∀ msb lsb, (msb, lsb) = (11, 9) ∨ (msb, lsb) = (58, 52) →
    get_bits (from_data d) msb lsb = 0) as Hk.
  { intros msb lsb Hr. apply Z.bits_inj'. intros i Hi. rewrite Z.bits_0.
    destruct Hr as [[= -> ->]|[= -> ->]]; rewrite testbit_get_bits by lia;
      (destruct (Z.leb_spec i (11 - 9)) + destruct (Z.leb_spec i (58 - 52))); try done;
      rewrite from_data_testbit, !(proj2 (Z.eqb_neq _ _)), bool_decide_false by lia;
      by rewrite andb_false_r. }
  unfold PageTableEntry.present, PageTableEntry.writable, PageTableEntry.user_accessable,
    PageTableEntry.write_through_caching_enabled, PageTableEntry.cache_disabled,
    PageTableEntry.accessed, PageTableEntry.dirty, PageTableEntry.huge_page,
    PageTableEntry.global, PageTableEntry.no_execute.
  rewrite !from_data_testbit by lia. cbn -[Z.testbit from_data PageTableEntry.address_unextended].
  rewrite !andb_false_r, !orb_false_r, address_unextended_shift. split_and!; auto; apply Hk; auto.
Qed.
Lemma from_data_roundtrip_witness :
  PageTableEntry.no_execute (from_data (PageTableData.Build true true false false false false
    false false false 0xABC000 true)) = true.
Proof.
  apply (from_data_roundtrip (PageTableData.Build true true false false false false
    false false false 0xABC000 true)); vm_compute; done.
Defined.


(** Masks that do not overlap. *)
Lemma masks_disjoint : Z.land ADDR_MASK FLAG_MASK = 0.
Proof. done. Qed.
Lemma land_lor_halves x y :
  Z.land (Z.lor (Z.land x ADDR_MASK) (Z.land y FLAG_MASK)) ADDR_MASK = Z.land x ADDR_MASK ∧
  Z.land (Z.lor (Z.land x ADDR_MASK) (Z.land y FLAG_MASK)) FLAG_MASK = Z.land y FLAG_MASK.
Proof.
  split; rewrite Z.land_lor_distr_l, <-!Z.land_assoc.
  - rewrite Z.land_diag, (Z.land_comm FLAG_MASK), masks_disjoint, Z.land_0_r. apply Z.lor_0_r.
  - by rewrite Z.land_diag, masks_disjoint, Z.land_0_r, Z.lor_0_l.
Qed.

(** [address] through the address mask; below [2^51] there is no sign to extend. *)
Lemma address_low e : Z.land e ADDR_MASK < 2 ^ 51 → address e = Z.land e ADDR_MASK.
Proof.
  intros Hlt. unfold address. rewrite address_unextended_shift.
  assert (0 ≤ Z.land e ADDR_MASK) as Hnn by (apply Z.land_nonneg; by right).
  replace (Z.land (Z.land e ADDR_MASK) 0x0008000000000000) with 0; [done|].
  apply Z.bits_inj'. intros i Hi. rewrite Z.bits_0, Z.land_spec.
  change 0x0008000000000000 with (2 ^ 51). rewrite Z.pow2_bits_eqb by lia.
  destruct (Z.eqb_spec 51 i) as [<-|]; [|by rewrite andb_false_r].
  by rewrite (testbit_above 51) by lia.
Qed.
Lemma address_high e : Z.testbit e 51 = true → address e = Z.lor (Z.land e ADDR_MASK) 0xFFF0000000000000.
Proof.
  intros Hb. unfold address. rewrite address_unextended_shift.
  replace (Z.land (Z.land e ADDR_MASK) 0x0008000000000000) with (2 ^ 51); [done|].
  apply Z.bits_inj'. intros i Hi. rewrite !Z.land_spec, ADDR_MASK_spec by lia.
  change 0x0008000000000000 with (2 ^ 51). rewrite Z.pow2_bits_eqb by lia.
  destruct (Z.eqb_spec 51 i) as [<-|]; [|by rewrite andb_false_r].
  by rewrite Hb.
Qed.

Lemma address_aligned e : address e mod PAGE_SIZE = 0.
Proof.
  unfold address. rewrite address_unextended_shift. change PAGE_SIZE with (2 ^ 12).
  rewrite <-Z.land_ones by lia. apply Z.bits_inj'. intros i Hi.
  rewrite Z.bits_0, Z.land_spec, testbit_ones by lia.
  destruct (Z.ltb_spec i 12); [|by rewrite andb_false_r]. rewrite andb_true_r.
  change 0xFFF0000000000000 with (Z.shiftl 0xFFF 52).
  destruct (negb _); rewrite ?Z.lor_spec, Z.land_spec, ADDR_MASK_spec, bool_decide_false, andb_false_r by lia;
    [|done]. by rewrite Z.shiftl_spec_low by lia.
Qed.
Lemma address_page e : address e = address e / PAGE_SIZE * PAGE_SIZE.
Proof. pose proof (address_aligned e). unfold PAGE_SIZE in *. Z.div_mod_to_equations. lia. Qed.
Lemma address_addr_flags a f :
  0 ≤ a < 2 ^ 51 → a mod PAGE_SIZE = 0 →
  address (Z.lor a (Z.land f FLAG_MASK)) = a.
Proof.
  intros Ha Hm. rewrite <-(land_ADDR_MASK_id a) by (done || lia).
  destruct (land_lor_halves a f) as [H1 _].
  rewrite address_low; rewrite H1; [done|]. rewrite land_ADDR_MASK_id by (done || lia). lia.
Qed.

(** the two halves of an entry are independent: [replace_addr_with] keeps
    the flag bits of the entry and takes the address bits of its argument,
    [replace_flags_with] the other way round, and [address()] reads back the
    page-aligned address written. *)
Theorem replace_halves (e a f : Z) :
  0 ≤ a < 2 ^ 51 → a mod PAGE_SIZE = 0 →
  address (replace_addr_with e a) = a ∧
  Z.land (replace_addr_with e a) FLAG_MASK = Z.land e FLAG_MASK ∧
  PageTableEntry.present (replace_addr_with e a) = PageTableEntry.present e ∧
  Z.land (replace_flags_with e f) FLAG_MASK = Z.land f FLAG_MASK ∧
  PageTableEntry.address_unextended (replace_flags_with e f)
    = PageTableEntry.address_unextended e.
Proof.
  intros Ha Hm. unfold replace_addr_with, replace_flags_with.
  change 0x000FFFFFFFFFF000 with ADDR_MASK. change 0x80000000000001FF with FLAG_MASK.
  split_and!.
  - rewrite (land_ADDR_MASK_id a) by (done || lia). by apply address_addr_flags.
  - apply land_lor_halves.
  - unfold PageTableEntry.present. rewrite Z.lor_spec, !Z.land_spec.
    rewrite ADDR_MASK_spec, FLAG_MASK_spec by lia.
    by rewrite bool_decide_false, bool_decide_true, andb_false_r, andb_true_r by lia.
  - apply land_lor_halves.
  - apply (Z.mul_cancel_r _ _ (2 ^ 12)); [lia|].
    rewrite <-!Z.shiftl_mul_pow2, !address_unextended_shift by lia. apply land_lor_halves.
Qed.
Lemma replace_halves_witness : address (replace_addr_with READ_WRITE 0x5000) = 0x5000.
Proof. apply (replace_halves READ_WRITE 0x5000 0); vm_compute; done. Defined.

(** [address()] sign-extends from bit 51: an entry whose bit 51 is set has
    an address with the twelve top bits set, and is otherwise the 52-bit field. *)
Theorem address_sign_extends (e : Z) :
  0 ≤ e < 2 ^ 64 →
  (Z.testbit e 51 = false → address e = Z.land e ADDR_MASK) ∧
  (Z.testbit e 51 = true → address e = Z.land e ADDR_MASK + (2 ^ 64 - 2 ^ 52)).
Proof.
  intros He. split; intros Hb.
  - apply address_low. apply bits_bound; [lia|apply Z.land_nonneg; by right|].
    intros i Hi. rewrite Z.land_spec, ADDR_MASK_spec by lia.
    destruct (decide (i = 51)) as [->|]; [by rewrite Hb|].
    by rewrite bool_decide_false, andb_false_r by lia.
  - rewrite address_high by done.
    change 0xFFF0000000000000 with (Z.shiftl (Z.ones 12) 52).
    change (2 ^ 64 - 2 ^ 52) with (Z.shiftl (Z.ones 12) 52).
    rewrite Z.add_nocarry_lxor, Z.lxor_lor; try done.
    all: apply Z.bits_inj'; intros i Hi; rewrite !Z.land_spec, ADDR_MASK_spec, Z.bits_0 by lia;
      case_bool_decide; [|by rewrite andb_false_r];
      rewrite Z.shiftl_spec, (Z.testbit_neg_r _ (i - 52)) by lia; by rewrite andb_false_r.
Qed.
Lemma address_sign_extends_witness : address (2 ^ 51 + 1) = 2 ^ 51 + (2 ^ 64 - 2 ^ 52).
Proof. apply (address_sign_extends (2 ^ 51 + 1)); vm_compute; done. Defined.
