(* ===== verification/PageAlloc.v ===== *)
(** * The physical page allocator (kernel/src/arch/x86_64/page_allocation.rs)

    [PageAllocatorInternal] keeps one bit per 4 KiB page, most significant bit
    first, set when the page is in use, and a counter of the clear bits.  The
    methods on it run over [sys], the allocator with the physical memory it
    hands out; the module-level functions take the lock and run over [world],
    in which the allocator may not be initialised yet.  The page-table methods
    of the same file are in PageTables.v. *)
From S2P Require Import Prelude Paging.

Record PageAllocatorInternal : Type := {
  memory_bitmap : list Z;
  total_pages : Z;
  free_pages : Z;
  page_table : Z;
}.

Inductive ReservePageError : Type := ReservePageErr.
Inductive MapPageError : Type := OutOfPages | PageAlreadyExists.

(** An allocator and the memory it manages. *)
Record sys : Type := Sys { alloc : PageAllocatorInternal; ram : memory }.

Definition set_alloc (f : PageAllocatorInternal → PageAllocatorInternal) : M sys () :=
  modify (λ s, Sys (f s.(alloc)) s.(ram)).
Definition set_ram (f : memory → memory) : M sys () :=
  modify (λ s, Sys s.(alloc) (f s.(ram))).

Definition BYTE_RATIO : Z := PAGE_SIZE * 8.
(** [LEVEL_MASKS.iter().enumerate()]. *)
Definition LEVEL_MASKS : list (Z * Z) :=
  [(0, 0xFF8000000000); (1, 0x007FC0000000); (2, 0x00003FE00000); (3, 0x0000001FF000)].

Definition count_zeros (byte : Z) : Z :=
  foldr (λ i acc, acc + (if Z.testbit byte i then 0 else 1)) 0 (seqZ 0 8).

(** [PageAllocatorInternal::new]: the fold adds the counts as [u32]. *)
Definition PageAllocatorInternal_new {S} (page_table_address : Z) (bitmap : list Z) (num_pages : Z) :
    M S PageAllocatorInternal :=
  free ← foldl (λ (acc : M S Z) byte, a ← acc; chk 32 (a + count_zeros byte)) (mret 0) bitmap;
  mret {| memory_bitmap := bitmap; total_pages := num_pages; free_pages := free;
          page_table := replace_addr_with ZERO page_table_address |}.

Definition num_pages_used : M sys Z :=
  s ← get; chk 64 (total_pages s.(alloc) - free_pages s.(alloc)).

(** The loop of [find_and_reserve_page]: the first byte that is not [0xFF]. *)
Fixpoint first_free (bitmap : list Z) (byte_index : Z) : option (Z * Z) :=
  match bitmap with
  | [] => None
  | byte :: rest => if byte =? 0xFF then first_free rest (byte_index + 1) else Some (byte_index, byte)
  end.

(** [PageAllocatorInternal::find_and_reserve_page].  The page is cleared through
    [as_mut().unwrap()], which panics for the page at address zero. *)
Definition find_and_reserve_page : M sys (result Z ReservePageError) :=
  s ← get;
  match first_free (memory_bitmap s.(alloc)) 0 with
  | None => mret (Err ReservePageErr)
  | Some (byte_index, byte) =>
      let bit_index := leading_zeros 8 (unot 8 byte) in
      free ← chk 64 (free_pages s.(alloc) - 1);
      set_alloc (λ pa,
        {| memory_bitmap := <[Z.to_nat byte_index := Z.lor byte (Z.shiftr 0x80 bit_index)]> (memory_bitmap pa);
           total_pages := total_pages pa; free_pages := free; page_table := page_table pa |});;
      addr ← chk 64 (byte_index * BYTE_RATIO + bit_index * PAGE_SIZE);
      rassert (negb (addr =? 0));;
      set_ram (λ m, fill m addr PAGE_SIZE 0);;
      mret (Ok addr)
  end.

(** [PageAllocatorInternal::free_page]. *)
Definition free_page (address : Z) : M sys () :=
  s ← get;
  let byte_index := address / BYTE_RATIO in
  let bit_offset := (address / PAGE_SIZE) mod 8 in
  if total_pages s.(alloc) <=? byte_index * 8 + bit_offset then mret ()
  else
    byte ← unwrap (memory_bitmap s.(alloc) !! Z.to_nat byte_index);
    free ← chk 64 (free_pages s.(alloc) + 1);
    set_alloc (λ pa,
      {| memory_bitmap := <[Z.to_nat byte_index :=
           Z.land byte (unot 8 (Z.shiftr 0x80 bit_offset))]> (memory_bitmap pa);
         total_pages := total_pages pa; free_pages := free; page_table := page_table pa |}).

(** ** The module-level functions behind the [PAGE_ALLOCATOR] lock *)

Record world : Type := World { PAGE_ALLOCATOR : option PageAllocatorInternal; wram : memory }.

(** [lock.as_mut().unwrap()] and a method call. *)
Definition with_allocator {A} (m : M sys A) : M world A := λ w,
  match PAGE_ALLOCATOR w with
  | None => Panics
  | Some pa =>
      match m (Sys pa (wram w)) with
      | Returns (a, s) => Returns (a, World (Some s.(alloc)) s.(ram))
      | Panics => Panics
      | Undefined => Undefined
      | OutOfFuel => OutOfFuel
      end
  end.

Module page_allocation.
Definition init (page_table_address : Z) (bitmap : list Z) (num_pages : Z) : M world () :=
    w ← get;
    match PAGE_ALLOCATOR w with
    | Some _ => mret ()
    | None =>
        pa ← PageAllocatorInternal_new page_table_address bitmap num_pages;
        modify (λ w, World (Some pa) (wram w))
    end.
Definition deinit_and_remove : M world (option PageAllocatorInternal) :=
    w ← get; modify (λ w, World None (wram w));; mret (PAGE_ALLOCATOR w).
Definition page_table_address : M world Z :=
    with_allocator (gets (λ s, address (page_table s.(alloc)))).
Definition memory_bitmap : M world (list Z) :=
    with_allocator (gets (λ s, memory_bitmap s.(alloc))).
Definition total_pages : M world Z := with_allocator (gets (λ s, total_pages s.(alloc))).
Definition free_pages : M world Z := with_allocator (gets (λ s, free_pages s.(alloc))).
Definition used_pages : M world Z := with_allocator num_pages_used.
Definition find_and_reserve_page : M world (result Z ReservePageError) :=
    with_allocator find_and_reserve_page.
Definition free_page (address : Z) : M world () := with_allocator (free_page address).
End page_allocation.
(** A page with an owner: its address.  Given up with [into_raw] it stays
    reserved, dropped it is freed. *)
Module OwnedPhysicalPage.
Definition from_raw (raw : Z) : Z := raw.
Definition from_non_null (ptr : Z) : Z := ptr.
Definition into_raw (self : Z) : Z := self.
Definition drop (self : Z) : M world () := page_allocation.free_page self.
End OwnedPhysicalPage.

(** ** The bitmap as a function from page numbers *)

(** Is page [n] marked as used? *)
Definition page_bit (bitmap : list Z) (n : Z) : bool :=
  Z.testbit (default 0 (bitmap !! Z.to_nat (n / 8))) (7 - n mod 8).
Definition num_bits (bitmap : list Z) : Z := 8 * Z.of_nat (length bitmap).
Definition count_free (bitmap : list Z) : Z := foldr (λ byte acc, count_zeros byte + acc) 0 bitmap.

Record bitmap_ok (bitmap : list Z) : Prop := {
  bytes_in_range : Forall (λ b, 0 ≤ b < 256) bitmap;
  bitmap_addressable : num_bits bitmap * PAGE_SIZE ≤ 2 ^ 64;
}.
(** The allocator's invariant: the counter counts the clear bits. *)
Record alloc_ok (pa : PageAllocatorInternal) : Prop := {
  alloc_bitmap_ok : bitmap_ok (memory_bitmap pa);
  alloc_count : free_pages pa = count_free (memory_bitmap pa);
  alloc_total : 0 ≤ total_pages pa;
}.

Lemma wp_set_alloc f Q s : wp (set_alloc f) Q s ↔ Q () (Sys (f s.(alloc)) s.(ram)).
Proof. done. Qed.
Lemma wp_set_ram f Q s : wp (set_ram f) Q s ↔ Q () (Sys s.(alloc) (f s.(ram))).
Proof. done. Qed.
Ltac alloc_simpl :=
  repeat first [ rewrite wp_bind | rewrite wp_ret | rewrite wp_get | rewrite wp_gets
    | rewrite wp_modify | rewrite wp_rassert | rewrite wp_chk | rewrite wp_unwrap
    | rewrite wp_set_alloc | rewrite wp_set_ram ].

(** *** Bytes *)
Lemma reserve_byte byte : 0 ≤ byte < 256 → byte ≠ 0xFF →
  let b := leading_zeros 8 (unot 8 byte) in
  let byte' := Z.lor byte (Z.shiftr 0x80 b) in
  0 ≤ b < 8 ∧ Z.testbit byte (7 - b) = false ∧ 0 ≤ byte' < 256 ∧
  count_zeros byte' = count_zeros byte - 1 ∧
  (∀ k, 0 ≤ k < 8 → Z.testbit byte' (7 - k) = (k =? b) || Z.testbit byte (7 - k)) ∧
  (∀ k, 0 ≤ k < 8 → k < b → Z.testbit byte (7 - k) = true).
Proof.
  intros Hb Hne b byte'.
  pose proof (byte_forall (λ byte,
    let b := leading_zeros 8 (unot 8 byte) in
    let byte' := Z.lor byte (Z.shiftr 0x80 b) in
    (byte =? 255) || ((0 <=? b) && (b <? 8) && negb (Z.testbit byte (7 - b)) && (0 <=? byte') &&
    (byte' <? 256) && (count_zeros byte' =? count_zeros byte - 1))) eq_refl byte Hb) as H1.
  pose proof (byte_bit_forall (λ byte k,
    let b := leading_zeros 8 (unot 8 byte) in
    let byte' := Z.lor byte (Z.shiftr 0x80 b) in
    (byte =? 255) || (eqb (Z.testbit byte' (7 - k)) ((k =? b) || Z.testbit byte (7 - k)) &&
    (negb (k <? b) || Z.testbit byte (7 - k)))) eq_refl byte) as H2.
  cbv beta zeta in H1, H2. fold b in H1, H2. fold byte' in H1, H2.
  rewrite (proj2 (Z.eqb_neq byte 255) Hne) in H1, H2. cbn [orb] in H1, H2.
  rewrite !andb_true_iff, negb_true_iff, !Z.leb_le, !Z.ltb_lt, Z.eqb_eq in H1.
  split_and!; try tauto.
  - intros k Hk. specialize (H2 k Hb Hk). rewrite andb_true_iff in H2. apply eqb_prop, H2.
  - intros k Hk Hlt. specialize (H2 k Hb Hk). rewrite andb_true_iff in H2.
    rewrite (proj2 (Z.ltb_lt k b) Hlt) in H2. tauto.
Qed.
Lemma free_byte byte b : 0 ≤ byte < 256 → 0 ≤ b < 8 →
  let byte' := Z.land byte (unot 8 (Z.shiftr 0x80 b)) in
  0 ≤ byte' < 256 ∧
  count_zeros byte' = count_zeros byte + (if Z.testbit byte (7 - b) then 1 else 0).
Proof.
  intros Hb Hk. pose proof (byte_bit_forall (λ byte b,
    let byte' := Z.land byte (unot 8 (Z.shiftr 0x80 b)) in
    (0 <=? byte') && (byte' <? 256) &&
    (count_zeros byte' =? count_zeros byte + (if Z.testbit byte (7 - b) then 1 else 0)))
    eq_refl byte b Hb Hk) as H. cbv beta zeta in *.
  rewrite !andb_true_iff, Z.leb_le, Z.ltb_lt, Z.eqb_eq in H. tauto.
Qed.
Lemma free_byte_bits byte b k : 0 ≤ byte < 256 → 0 ≤ b < 8 → 0 ≤ k < 8 →
  Z.testbit (Z.land byte (unot 8 (Z.shiftr 0x80 b))) (7 - k) = negb (k =? b) && Z.testbit byte (7 - k).
Proof.
  intros Hb H1 H2. rewrite Z.land_spec, andb_comm. f_equal. clear Hb byte.
  assert (forallb (λ b, forallb (λ k, eqb (Z.testbit (unot 8 (Z.shiftr 128 b)) (7 - k))
    (negb (k =? b))) (seqZ 0 8)) (seqZ 0 8) = true) as H by done.
  rewrite forallb_forall in H. specialize (H b). rewrite forallb_forall in H.
  apply eqb_prop, H; apply list_elem_of_In, elem_of_seqZ; lia.
Qed.

(** *** The bitmap *)
Lemma page_bit_byte bm j byte k :
  bm !! Z.to_nat j = Some byte → 0 ≤ j → 0 ≤ k < 8 →
  page_bit bm (8 * j + k) = Z.testbit byte (7 - k).
Proof.
  intros Hl Hj Hk. unfold page_bit.
  replace ((8 * j + k) / 8) with j by (Z.div_mod_to_equations; lia).
  replace ((8 * j + k) mod 8) with k by (Z.div_mod_to_equations; lia).
  by rewrite Hl.
Qed.
Lemma page_bit_insert bm j byte n :
  0 ≤ j < Z.of_nat (length bm) → 0 ≤ n →
  page_bit (<[Z.to_nat j := byte]> bm) n =
    if n / 8 =? j then Z.testbit byte (7 - n mod 8) else page_bit bm n.
Proof.
  intros Hj Hn. unfold page_bit.
  destruct (Z.eqb_spec (n / 8) j) as [->|Hne].
  - by rewrite list_lookup_insert_eq by lia.
  - rewrite list_lookup_insert_ne; [done|].
    assert (0 ≤ n / 8) by (apply Z.div_pos; lia). lia.
Qed.
Lemma count_free_insert bm j byte byte' :
  bm !! j = Some byte →
  count_free (<[j := byte']> bm) = count_free bm - count_zeros byte + count_zeros byte'.
Proof.
  revert j. induction bm as [|b bm IH]; intros [|j] H; [done..| |].
  - injection H as ->.
    change (count_zeros byte' + count_free bm
      = count_zeros byte + count_free bm - count_zeros byte + count_zeros byte'). lia.
  - change (count_zeros b + count_free (<[j := byte']> bm)
      = count_zeros b + count_free bm - count_zeros byte + count_zeros byte').
    rewrite (IH j H). lia.
Qed.
Lemma first_free_Some bm i j byte : first_free bm i = Some (j, byte) →
  i ≤ j ∧ bm !! Z.to_nat (j - i) = Some byte ∧ byte ≠ 0xFF ∧
  (∀ k, 0 ≤ k < j - i → bm !! Z.to_nat k = Some 0xFF).
Proof.
  revert i. induction bm as [|b bm IH]; intros i H; cbn in H; [done|].
  destruct (Z.eqb_spec b 255) as [->|Hb].
  - apply IH in H as (H1 & H2 & H3 & H4). split_and!; try lia; try done.
    + by replace (Z.to_nat (j - i)) with (S (Z.to_nat (j - (i + 1)))) by lia.
    + intros k Hk. destruct (decide (k = 0)) as [->|]; [done|].
      replace (Z.to_nat k) with (S (Z.to_nat (k - 1))) by lia. apply H4. lia.
  - injection H as <- <-. split_and!; [lia| |done|lia]. by rewrite Z.sub_diag.
Qed.
Lemma first_free_None bm i : first_free bm i = None → Forall (λ b, b = 0xFF) bm.
Proof.
  revert i. induction bm as [|b bm IH]; intros i H; cbn in H; [done|].
  destruct (Z.eqb_spec b 255); [|done]. constructor; eauto.
Qed.
Lemma page_bit_full bm n :
  0 ≤ n → bm !! Z.to_nat (n / 8) = Some 0xFF → page_bit bm n = true.
Proof.
  intros Hn Hl. unfold page_bit. rewrite Hl. cbn [default].
  pose proof (Z.mod_pos_bound n 8 ltac:(lia)).
  change 255 with (Z.ones 8). apply Z.ones_spec_low. lia.
Qed.
Lemma bitmap_ok_insert bm j byte :
  bitmap_ok bm → 0 ≤ byte < 256 → bitmap_ok (<[j := byte]> bm).
Proof.
  intros [H1 H2] Hb. split; [by apply Forall_insert|].
  unfold num_bits in *. by rewrite length_insert.
Qed.
Lemma num_bits_insert bm j byte : num_bits (<[j := byte]> bm) = num_bits bm.
Proof. unfold num_bits. by rewrite length_insert. Qed.
Lemma count_free_nonneg bm : 0 ≤ count_free bm ≤ num_bits bm.
Proof.
  unfold num_bits. induction bm as [|b bm IH]; cbn [count_free foldr length]; [lia|].
  fold (count_free bm). assert (0 ≤ count_zeros b ≤ 8); [|lia].
  unfold count_zeros. change (seqZ 0 8) with [0; 1; 2; 3; 4; 5; 6; 7]. cbn [foldr].
  repeat destruct (Z.testbit b _); lia.
Qed.


(** What a successful or failed reservation does, as a postcondition the other
    components use. *)
Definition reserve_post (s : sys) (r : result Z ReservePageError) (s' : sys) : Prop :=
  let bm := memory_bitmap s.(alloc) in
  let bm' := memory_bitmap s'.(alloc) in
  alloc_ok s'.(alloc) ∧
  match r with
  | Err _ => s' = s ∧ ∀ n, 0 ≤ n < num_bits bm → page_bit bm n = true
  | Ok addr => ∃ n, addr = n * PAGE_SIZE ∧ 0 < n < num_bits bm ∧ page_bit bm n = false ∧
      (∀ k, 0 ≤ k < n → page_bit bm k = true) ∧
      (∀ k, 0 ≤ k → page_bit bm' k = (k =? n) || page_bit bm k) ∧
      num_bits bm' = num_bits bm ∧
      free_pages s'.(alloc) = free_pages s.(alloc) - 1 ∧
      total_pages s'.(alloc) = total_pages s.(alloc) ∧
      page_table s'.(alloc) = page_table s.(alloc) ∧
      s'.(ram) = fill s.(ram) addr PAGE_SIZE 0
  end.

Lemma wp_find_and_reserve_page s :
  alloc_ok s.(alloc) → page_bit (memory_bitmap s.(alloc)) 0 = true →
  wp find_and_reserve_page (reserve_post s) s.
Proof.
  intros [[Hbytes Haddr] Hcount Htotal] H0. destruct s as [[bm total free pt] m].
  cbn [alloc memory_bitmap free_pages total_pages] in *.
  unfold find_and_reserve_page. rewrite wp_bind, wp_get. cbn [alloc memory_bitmap].
  destruct (first_free bm 0) as [[j byte]|] eqn:Hff.
  2:{ apply first_free_None in Hff. alloc_simpl. split; [done|]. split; [done|].
      cbn [alloc memory_bitmap]. unfold num_bits. intros n Hn. apply page_bit_full; [lia|].
      destruct (lookup_lt_is_Some_2 bm (Z.to_nat (n / 8))) as [b Hb];
        [Z.div_mod_to_equations; lia|].
      rewrite Hb. f_equal. by eapply (Forall_lookup_1 (λ b, b = 255)). }
  apply first_free_Some in Hff as (Hj & Hl & Hne & Hprev). rewrite Z.sub_0_r in *.
  pose proof (Forall_lookup_1 _ _ _ _ Hbytes Hl) as Hb. cbn beta in Hb.
  pose proof (lookup_lt_Some _ _ _ Hl) as Hlen.
  destruct (reserve_byte byte Hb Hne) as (Hbi & Hclear & Hb' & Hcz & Hbits & Hlow).
  set (b := leading_zeros 8 (unot 8 byte)) in *. set (byte' := Z.lor byte (Z.shiftr 128 b)) in *.
  assert (count_free (<[Z.to_nat j := byte']> bm) = count_free bm - 1) as Hcf.
  { rewrite (count_free_insert _ _ _ _ Hl). lia. }
  pose proof (count_free_nonneg (<[Z.to_nat j := byte']> bm)) as Hcnn.
  pose proof (count_free_nonneg bm) as Hcnn2.
  unfold num_bits, PAGE_SIZE in Haddr.
  assert (page_bit bm (8 * j + b) = false) as Hfree by (by rewrite (page_bit_byte bm j byte)).
  assert (8 * j + b ≠ 0) by (intros E; rewrite E in Hfree; congruence).
  unfold num_bits in *.
  alloc_simpl. cbn [alloc free_pages ram memory_bitmap]. unfold BYTE_RATIO, PAGE_SIZE.
  split_and!; try lia. cbv [reserve_post alloc memory_bitmap free_pages total_pages ram page_table].
  split; [split; cbn [alloc memory_bitmap free_pages total_pages ram page_table]|].
  { apply bitmap_ok_insert; [|done]. split; [done|]. unfold num_bits, PAGE_SIZE. lia. }
  { lia. }
  { done. }
  exists (8 * j + b). unfold num_bits, PAGE_SIZE. rewrite length_insert.
  split_and!; try done; try lia.
  - intros k Hk. destruct (decide (k / 8 = j)) as [Hkj|Hkj].
    + replace k with (8 * j + k mod 8) by (Z.div_mod_to_equations; lia).
      pose proof (Z.mod_pos_bound k 8 ltac:(lia)).
      rewrite (page_bit_byte bm j byte) by (done || lia). apply Hlow; Z.div_mod_to_equations; lia.
    + apply page_bit_full; [lia|]. apply Hprev. Z.div_mod_to_equations; lia.
  - intros k Hk. rewrite page_bit_insert by lia.
    pose proof (Z.mod_pos_bound k 8 ltac:(lia)) as Hm.
    destruct (Z.eqb_spec (k / 8) j) as [Hkj|Hkj].
    + rewrite Hbits by done.
      rewrite <-(page_bit_byte bm j byte) by (done || lia).
      replace (8 * j + k mod 8) with k by (Z.div_mod_to_equations; lia). f_equal.
      destruct (Z.eqb_spec (k mod 8) b), (Z.eqb_spec k (8 * j + b)); Z.div_mod_to_equations; lia.
    + destruct (Z.eqb_spec k (8 * j + b)); [Z.div_mod_to_equations; lia|done].
Qed.

(** When all pages are in use, none is counted as free. *)
Lemma all_used_count bm : Forall (λ b, 0 ≤ b < 256) bm →
  (∀ n, 0 ≤ n < num_bits bm → page_bit bm n = true) → count_free bm = 0.
Proof.
  intros Hb Hall. assert (∀ j byte, bm !! j = Some byte → byte = 0xFF) as Hff.
  { intros j byte Hj. pose proof (Forall_lookup_1 _ _ _ _ Hb Hj) as Hbyte. cbn beta in Hbyte.
    pose proof (lookup_lt_Some _ _ _ Hj) as Hlen.
    apply Z.bits_inj'. intros i Hi. change 0xFF with (Z.ones 8). rewrite testbit_ones by lia.
    destruct (Z.ltb_spec i 8); [|by apply (testbit_above 8)].
    rewrite <-(Hall (8 * Z.of_nat j + (7 - i))) by (unfold num_bits; lia).
    rewrite (page_bit_byte bm (Z.of_nat j) byte) by (by rewrite ?Nat2Z.id || lia). f_equal. lia. }
  clear Hb Hall. unfold count_free. induction bm as [|b bm IH]; [done|]. cbn [foldr].
  rewrite (Hff O b eq_refl). change (count_zeros 255) with 0. rewrite IH; [done|]. intros j byte Hj. by apply (Hff (S j)).
Qed.

(** C11: on an allocator whose counter is right and whose page zero is in use,
    [find_and_reserve_page] returns and never panics.  Either every page is in
    use, nothing changes and the error is returned; or it hands out the
    address of the lowest-numbered free page, marks exactly that page, counts
    one less free page, zeroes exactly that page's memory, and keeps the
    invariant. *)
Theorem find_and_reserve_page_correct (s : sys) :
  alloc_ok s.(alloc) → page_bit (memory_bitmap s.(alloc)) 0 = true →
  ∃ r s', find_and_reserve_page s = Returns (r, s') ∧ reserve_post s r s'.
Proof. intros Hok H0. apply wp_returns. by apply wp_find_and_reserve_page. Qed.
Definition demo_alloc : PageAllocatorInternal :=
  {| memory_bitmap := [0xFF; 0xA0]; total_pages := 16; free_pages := 6; page_table := 0 |}.
Lemma demo_alloc_ok : alloc_ok demo_alloc.
Proof. split; [split; [by repeat constructor|done]|done|done]. Qed.
Lemma find_and_reserve_page_correct_witness :
  ∃ r s', find_and_reserve_page (Sys demo_alloc (λ _, 7)) = Returns (r, s') ∧
    reserve_post (Sys demo_alloc (λ _, 7)) r s'.
Proof. apply find_and_reserve_page_correct; [exact demo_alloc_ok|vm_compute; reflexivity]. Defined.


(** What freeing page [n] does, on every branch. *)
Definition free_post (s : sys) (n : Z) (s' : sys) : Prop :=
  let bm := memory_bitmap s.(alloc) in
  let bm' := memory_bitmap s'.(alloc) in
  s'.(ram) = s.(ram) ∧
  (total_pages s.(alloc) ≤ n → s' = s) ∧
  (n < total_pages s.(alloc) →
    (∀ k, 0 ≤ k → page_bit bm' k = negb (k =? n) && page_bit bm k) ∧
    num_bits bm' = num_bits bm ∧
    total_pages s'.(alloc) = total_pages s.(alloc) ∧
    page_table s'.(alloc) = page_table s.(alloc) ∧
    free_pages s'.(alloc) = free_pages s.(alloc) + 1 ∧
    (page_bit bm n = true → alloc_ok s'.(alloc)) ∧
    (page_bit bm n = false → bm' = bm ∧ free_pages s'.(alloc) = count_free bm' + 1)).

(** Clearing a clear bit changes nothing. *)
Lemma clear_clear_byte byte b : 0 ≤ byte < 256 → 0 ≤ b < 8 → Z.testbit byte (7 - b) = false →
  Z.land byte (unot 8 (Z.shiftr 0x80 b)) = byte.
Proof.
  intros Hb Hk Hc. pose proof (byte_bit_forall (λ byte b, Z.testbit byte (7 - b) ||
    (Z.land byte (unot 8 (Z.shiftr 0x80 b)) =? byte)) eq_refl byte b Hb Hk) as H.
  cbv beta in H. rewrite Hc in H. by apply Z.eqb_eq.
Qed.

Lemma page_address_split n : 0 ≤ n →
  n * PAGE_SIZE / BYTE_RATIO = n / 8 ∧ n * PAGE_SIZE / PAGE_SIZE mod 8 = n mod 8 ∧
  n / 8 * 8 + n mod 8 = n ∧ 0 ≤ n / 8 ∧ 0 ≤ n mod 8 < 8.
Proof.
  intros Hn. unfold BYTE_RATIO, PAGE_SIZE. rewrite Z.div_mul by lia.
  rewrite (Z.mul_comm 4096 8), Z.div_mul_cancel_r by lia.
  split_and!; try done; Z.div_mod_to_equations; lia.
Qed.

(** A page in use has a bit. *)
Lemma page_bit_range bm n : 0 ≤ n → page_bit bm n = true → n < num_bits bm.
Proof.
  intros Hn. unfold page_bit, num_bits. destruct (bm !! Z.to_nat (n / 8)) eqn:E; [|by rewrite Z.bits_0].
  intros _. apply lookup_lt_Some in E. Z.div_mod_to_equations. lia.
Qed.
Lemma wp_free_page s n :
  alloc_ok s.(alloc) → 0 ≤ n → free_pages s.(alloc) + 1 < 2 ^ 64 →
  (n < total_pages s.(alloc) → n < num_bits (memory_bitmap s.(alloc))) →
  wp (free_page (n * PAGE_SIZE)) (λ _, free_post s n) s.
Proof.
  intros [[Hbytes Haddr] Hcount Htotal] Hn Hroom Hman. destruct s as [[bm total free pt] m].
  cbn [alloc memory_bitmap free_pages total_pages] in *.
  destruct (page_address_split n Hn) as (E1 & E2 & E3 & Hj & Hb).
  unfold free_page. rewrite E1, E2, E3. rewrite wp_bind, wp_get. cbn [alloc total_pages].
  destruct (Z.leb_spec total n) as [Hout|Hin].
  { alloc_simpl. split; [done|]. split; [done|]. cbn. lia. }
  specialize (Hman Hin). destruct (lookup_lt_is_Some_2 bm (Z.to_nat (n / 8))) as [byte Hl];
    [unfold num_bits in *; Z.div_mod_to_equations; lia|].
  pose proof (Forall_lookup_1 _ _ _ _ Hbytes Hl) as Hbyte. cbn beta in Hbyte.
  pose proof (lookup_lt_Some _ _ _ Hl) as Hlen.
  destruct (free_byte byte (n mod 8) Hbyte Hb) as [Hb' Hcz].
  set (byte' := Z.land byte (unot 8 (Z.shiftr 128 (n mod 8)))) in *.
  assert (page_bit bm n = Z.testbit byte (7 - n mod 8)) as Hpb.
  { rewrite <-(page_bit_byte bm (n / 8) byte) by done. f_equal. lia. }
  pose proof (count_free_nonneg bm).
  rewrite wp_bind, wp_unwrap. exists byte. split; [done|].
  rewrite wp_bind, wp_chk. cbn [free_pages]. split; [lia|]. rewrite wp_set_alloc.
  unfold free_post. cbn [alloc memory_bitmap free_pages total_pages ram page_table].
  split; [done|]. split; [lia|]. intros _. split_and!; try done.
  - intros k Hk. rewrite page_bit_insert by lia.
    destruct (Z.eqb_spec (k / 8) (n / 8)) as [Hkn|Hkn].
    + pose proof (Z.mod_pos_bound k 8 ltac:(lia)) as Hk8.
      unfold byte'. rewrite free_byte_bits by done.
      rewrite <-(page_bit_byte bm (n / 8) byte) by done.
      replace (8 * (n / 8) + k mod 8) with k by (Z.div_mod_to_equations; lia).
      f_equal. f_equal.
      destruct (Z.eqb_spec (k mod 8) (n mod 8)), (Z.eqb_spec k n); Z.div_mod_to_equations; lia.
    + destruct (Z.eqb_spec k n) as [->|]; done.
  - apply num_bits_insert.
  - rewrite Hpb. intros Hset. rewrite Hset in Hcz. cbv iota in Hcz. split; cbn [memory_bitmap free_pages total_pages].
    + by apply bitmap_ok_insert.
    + rewrite (count_free_insert _ _ _ _ Hl). subst byte'. lia.
    + done.
  - rewrite Hpb. intros Hclear. unfold byte'. rewrite clear_clear_byte by done.
    rewrite list_insert_id by done. split; [done|lia].
Qed.

(** A page that counts as managed and has no bit. *)
Lemma free_beyond_bitmap s n : 0 ≤ num_bits (memory_bitmap s.(alloc)) ≤ n → n < total_pages s.(alloc) →
  free_page (n * PAGE_SIZE) s = Panics.
Proof.
  intros Hout Hin. destruct (page_address_split n ltac:(lia)) as (E1 & E2 & E3 & Hj & _).
  unfold free_page. rewrite E1, E2, E3. unfold mbind, M_bind, get.
  rewrite (proj2 (Z.leb_gt _ _)) by lia. rewrite lookup_ge_None_2; [done|].
  unfold num_bits in Hout. Z.div_mod_to_equations. lia.
Qed.

(** [free_page] on every branch.  A page number beyond the number of pages
    changes nothing.  Freeing a page that is in use clears exactly its bit and
    keeps the invariant.  Freeing a page that is already free leaves the bitmap
    unchanged but counts the page again, so the counter no longer counts the
    free pages.  A page that counts as managed and has no bit makes the kernel
    panic. *)
Theorem free_page_correct (s : sys) (n : Z) :
  alloc_ok s.(alloc) → 0 ≤ n → free_pages s.(alloc) + 1 < 2 ^ 64 →
  if (num_bits (memory_bitmap s.(alloc)) <=? n) && (n <? total_pages s.(alloc))
  then free_page (n * PAGE_SIZE) s = Panics
  else ∃ s', free_page (n * PAGE_SIZE) s = Returns ((), s') ∧ free_post s n s'.
Proof.
  intros Hok Hn Hroom. destruct (_ && _) eqn:E.
  - apply andb_true_iff in E as [Hout%Z.leb_le Hin%Z.ltb_lt]. apply free_beyond_bitmap; [|done]. split; [unfold num_bits; lia|done].
  - apply wp_unit_returns, wp_free_page; [done..|].
    apply andb_false_iff in E as [E%Z.leb_gt|E%Z.ltb_ge]; lia.
Qed.
Lemma free_page_correct_witness :
  (∃ s', free_page (9 * PAGE_SIZE) (Sys demo_alloc (λ _, 0)) = Returns ((), s') ∧
    free_post (Sys demo_alloc (λ _, 0)) 9 s') ∧
  free_page (20 * PAGE_SIZE)
    (Sys {| memory_bitmap := [0xFF; 0xA0]; total_pages := 100; free_pages := 6; page_table := 0 |} (λ _, 0)) = Panics.
Proof.
  split.
  - apply (free_page_correct (Sys demo_alloc (λ _, 0)) 9); [exact demo_alloc_ok|vm_compute; done..].
  - apply (free_page_correct (Sys {| memory_bitmap := [0xFF; 0xA0]; total_pages := 100; free_pages := 6;
      page_table := 0 |} (λ _, 0)) 20); [|vm_compute; done..].
    split; [split; [by repeat constructor|done]|done|done].
Defined.


(** Bitmaps of bytes are determined by their bits. *)
Lemma byte_bits_inj b c : 0 ≤ b < 256 → 0 ≤ c < 256 →
  (∀ k, 0 ≤ k < 8 → Z.testbit b (7 - k) = Z.testbit c (7 - k)) → b = c.
Proof.
  intros Hb Hc H. apply Z.bits_inj'. intros i Hi.
  destruct (decide (i < 8)).
  - replace i with (7 - (7 - i)) by lia. apply H. lia.
  - by rewrite !(testbit_above 8) by lia.
Qed.
Lemma page_bit_inj bm bm' :
  bitmap_ok bm → bitmap_ok bm' → num_bits bm = num_bits bm' →
  (∀ k, 0 ≤ k < num_bits bm → page_bit bm k = page_bit bm' k) → bm = bm'.
Proof.
  intros [Hb _] [Hb' _] Hlen H. unfold num_bits in *. apply list_eq_same_length with (length bm).
  1,2: lia.
  intros i x y Hi Hx Hy. apply byte_bits_inj.
  - by apply (Forall_lookup_1 (λ b, 0 ≤ b < 256) bm i).
  - by apply (Forall_lookup_1 (λ b, 0 ≤ b < 256) bm' i).
  - intros k Hk.
    rewrite <-(page_bit_byte bm (Z.of_nat i)), <-(page_bit_byte bm' (Z.of_nat i)) by
      (rewrite ?Nat2Z.id; done || lia). apply H. lia.
Qed.

(** The pages that are free count as managed. *)
Definition free_managed (pa : PageAllocatorInternal) : Prop :=
  ∀ n, 0 ≤ n < num_bits (memory_bitmap pa) → page_bit (memory_bitmap pa) n = false → n < total_pages pa.
Lemma free_managed_all pa : num_bits (memory_bitmap pa) ≤ total_pages pa → free_managed pa.
Proof. intros H n Hn _. lia. Qed.
(** Reserving and freeing a page restores the allocator. *)
Lemma reserve_free_alloc s n s1 s2 :
  alloc_ok s.(alloc) → free_managed s.(alloc) →
  reserve_post s (Ok (n * PAGE_SIZE)) s1 → free_post s1 n s2 → s2.(alloc) = s.(alloc).
Proof.
  intros Hok Htot (Hok1 & n' & En & Hn & Hclear & _ & Hbits & Hnb & Hfree & Ht & Hpt & _)
    (_ & _ & Hin).
  assert (n' = n) as -> by (unfold PAGE_SIZE in En; lia).
  rewrite Ht in Hin. pose proof (Htot n ltac:(lia) Hclear). destruct (Hin ltac:(lia)) as (Hbits2 & Hnb2 & Ht2 & Hpt2 & Hfree2 & Hok2 & _).
  rewrite Hbits, Z.eqb_refl in Hok2 by lia. specialize (Hok2 eq_refl).
  destruct (alloc s2) as [bm2 t2 f2 p2] eqn:E2, (alloc s) as [bm t f p] eqn:E.
  cbn in *. f_equal; try lia; try congruence.
  apply page_bit_inj; [apply Hok2|apply Hok|lia|].
  intros k Hk. rewrite Hbits2, Hbits by lia.
  destruct (Z.eqb_spec k n) as [->|]; cbn; [by rewrite Hclear|done].
Qed.

(** freeing the page a reservation just handed out restores the bitmap and
    the counter exactly. *)
Theorem reserve_free_roundtrip (s s1 : sys) (addr : Z) :
  alloc_ok s.(alloc) → page_bit (memory_bitmap s.(alloc)) 0 = true →
  free_managed s.(alloc) → find_and_reserve_page s = Returns (Ok addr, s1) →
  ∃ s2, free_page addr s1 = Returns ((), s2) ∧ s2.(alloc) = s.(alloc).
Proof.
  intros Hok H0 Htot Hres. pose proof (wp_find_and_reserve_page s Hok H0) as Hw.
  unfold wp in Hw. rewrite Hres in Hw. pose proof Hw as (Hok1 & n & -> & Hn & _ & _ & _ & Hnb & Hfree & _).
  pose proof (count_free_nonneg (memory_bitmap (alloc s))) as Hcf.
  pose proof (bitmap_addressable _ (alloc_bitmap_ok _ Hok)) as Hadr. unfold PAGE_SIZE in Hadr.
  pose proof (alloc_count _ Hok) as Hc.
  pose proof (wp_free_page s1 n Hok1 ltac:(lia) ltac:(lia) ltac:(lia)) as Hf.
  apply wp_returns in Hf as ([] & s2 & Hf & Hpost). exists s2. split; [done|].
  by apply (reserve_free_alloc s n s1).
Qed.
Lemma reserve_free_roundtrip_witness :
  ∃ s2, free_page (9 * PAGE_SIZE)
    (Sys {| memory_bitmap := [0xFF; 0xE0]; total_pages := 16; free_pages := 5; page_table := 0 |}
      (fill (λ _, 0) (9 * PAGE_SIZE) PAGE_SIZE 0)) = Returns ((), s2) ∧ s2.(alloc) = demo_alloc.
Proof.
  apply (reserve_free_roundtrip (Sys demo_alloc (λ _, 0))); [exact demo_alloc_ok|done|by apply free_managed_all|done].
Defined.

(** The counting loop of [PageAllocatorInternal::new]. *)
Lemma count_fold {S} bm : ∀ (acc : M S Z) c (st : S), acc st = Returns (c, st) → 0 ≤ c → c + num_bits bm < 2 ^ 32 →
  foldl (λ (acc : M S Z) byte, a ← acc; chk 32 (a + count_zeros byte)) acc bm st = Returns (c + count_free bm, st).
Proof.
  induction bm as [|b bm IH]; intros acc c t Hacc Hc Hlt; cbn [foldl].
  { by rewrite Hacc, Z.add_0_r. }
  pose proof (count_free_nonneg [b]) as Hb. unfold num_bits in *. cbn [count_free foldr length] in Hb.
  cbn [length] in Hlt.
  rewrite (IH _ (c + count_zeros b)); [cbn [count_free foldr]; fold (count_free bm)| |lia|lia].
  - do 2 f_equal. lia.
  - unfold mbind, M_bind. rewrite Hacc. unfold chk.
    destruct (fits 32 (c + count_zeros b)) eqn:E; [done|].
    assert (fits 32 (c + count_zeros b) = true) by (apply fits_spec; lia). congruence.
Qed.
Definition new_alloc (page_table_address num_pages : Z) (bitmap : list Z) : PageAllocatorInternal :=
  {| memory_bitmap := bitmap; total_pages := num_pages; free_pages := count_free bitmap;
     page_table := replace_addr_with ZERO page_table_address |}.
Lemma new_run {S} page_table_address num_pages bitmap (st : S) : num_bits bitmap < 2 ^ 32 →
  PageAllocatorInternal_new page_table_address bitmap num_pages st = Returns (new_alloc page_table_address num_pages bitmap, st).
Proof.
  intros Hsmall. unfold PageAllocatorInternal_new. unfold mbind at 1, M_bind at 1.
  by rewrite (count_fold _ (mret 0) 0) by (done || lia).
Qed.
Lemma new_page_table a : Z.land (replace_addr_with ZERO a) ADDR_MASK = Z.land a ADDR_MASK.
Proof.
  unfold replace_addr_with, ZERO. change 0x000FFFFFFFFFF000 with ADDR_MASK.
  by rewrite Z.land_0_l, Z.lor_0_r, <-Z.land_assoc, Z.land_diag.
Qed.

(** [PageAllocatorInternal::new] establishes the allocator's invariant: the
    counter it computes is the number of clear bits of the bitmap it is given
    (the [u32] accumulator does not overflow below [2^32] bits). *)
Theorem new_alloc_ok (page_table_address num_pages : Z) (bitmap : list Z) (s : sys) :
  bitmap_ok bitmap → num_bits bitmap < 2 ^ 32 → 0 ≤ num_pages →
  ∃ pa, PageAllocatorInternal_new page_table_address bitmap num_pages s = Returns (pa, s) ∧
    alloc_ok pa ∧ memory_bitmap pa = bitmap ∧ total_pages pa = num_pages ∧
    Z.land (page_table pa) ADDR_MASK = Z.land page_table_address ADDR_MASK.
Proof.
  intros Hok Hsmall Htot. exists (new_alloc page_table_address num_pages bitmap).
  split; [by apply new_run|]. split; [by split|]. split_and!; [done..|]. apply new_page_table.
Qed.
Lemma new_alloc_ok_witness :
  ∃ pa, PageAllocatorInternal_new 0x3000 [0xFF; 0x0F] 16 (Sys demo_alloc (λ _, 0))
    = Returns (pa, Sys demo_alloc (λ _, 0)) ∧
    alloc_ok pa ∧ memory_bitmap pa = [0xFF; 0x0F] ∧ total_pages pa = 16 ∧
    Z.land (page_table pa) ADDR_MASK = Z.land 0x3000 ADDR_MASK.
Proof.
  apply new_alloc_ok; [split; [by repeat constructor|done]|done|done].
Defined.
