(* ===== verification/PageTables.v ===== *)
(** * The kernel page tables (kernel/src/arch/x86_64/page_allocation.rs)

    The page-table methods of [PageAllocatorInternal]: the identity-mapping
    test, mapping, unmapping and the flag check.  Each loop over
    [LEVEL_MASKS.iter().enumerate()] is a [Fixpoint] over [LEVEL_MASKS].

    The second half is the abstraction the theorems are stated with: [pt_ok]
    relates the page tables in memory to a finite map from index paths to table
    addresses, and [mapping] reads the resulting partial map from page numbers
    to leaf entries. *)
From S2P Require Import Prelude Paging PageAlloc.

(** [((level_mask & virtual_address) >> ((3 - i) * 9 + 12)) % 512]. *)
Definition level_index (i level_mask virtual_address : Z) : Z :=
  Z.shiftr (Z.land level_mask virtual_address) ((3 - i) * 9 + 12) mod 512.

(** Address of entry [index] of the table at [table]. *)
Definition entry_addr (table index : Z) : Z := table + 8 * index.

(** [PageAllocatorInternal::is_address_identity_mapped]. *)
Definition identity_mask (i : Z) : Z :=
  match i with
  | 0 => 0xFFFFFF80C0000000
  | 1 => 0xFFFFFFFFC0000000
  | 2 => 0xFFFFFFFFFFE00000
  | _ => 0xFFFFFFFFFFFFF000
  end.
Fixpoint identity_mapped_loop (levels : list (Z * Z)) (current_address addr : Z) : M sys bool :=
  match levels with
  | [] => panic
  | (i, level_mask) :: rest =>
      s ← get;
      let entry := read64 s.(ram) (entry_addr current_address (level_index i level_mask addr)) in
      if negb (PageTableEntry.present entry) then mret false
      else if (i =? 3) || PageTableEntry.huge_page entry then
        mret (Z.land addr (identity_mask i) =? address entry)
      else identity_mapped_loop rest (address entry) addr
  end.
Definition is_address_identity_mapped (addr : Z) : M sys bool :=
  s ← get; identity_mapped_loop LEVEL_MASKS (address (page_table s.(alloc))) addr.

(** [PageAllocatorInternal::map_page_translation]. *)
Fixpoint map_translation_loop (levels : list (Z * Z)) (current_address physical_address
    virtual_address flags : Z) : M sys (result () MapPageError) :=
  match levels with
  | [] => panic
  | (i, level_mask) :: rest =>
      s ← get;
      let entry := entry_addr current_address (level_index i level_mask virtual_address) in
      match i =? 3, PageTableEntry.present (read64 s.(ram) entry) with
      | true, true => mret (Err PageAlreadyExists)
      | true, false =>
          set_ram (λ m, write64 m entry (replace_addr_with flags physical_address));;
          mret (Ok ())
      | false, false =>
          r ← find_and_reserve_page;
          match r with
          | Err _ => mret (Err OutOfPages)
          | Ok new_page_table =>
              set_ram (λ m, fill m new_page_table PAGE_SIZE 0);;
              let new_page_table_addr := Z.land new_page_table 0x000FFFFFFFFFF000 in
              set_ram (λ m, write64 m entry (replace_addr_with READ_WRITE new_page_table_addr));;
              s ← get;
              map_translation_loop rest (address (read64 s.(ram) entry)) physical_address
                virtual_address flags
          end
      | false, true =>
          map_translation_loop rest (address (read64 s.(ram) entry)) physical_address
            virtual_address flags
      end
  end.
Definition map_page_translation (physical_address virtual_address flags : Z) :
    M sys (result () MapPageError) :=
  s ← get;
  map_translation_loop LEVEL_MASKS (address (page_table s.(alloc)))
    (Z.land physical_address 0x000FFFFFFFFFF000) virtual_address flags.

(** [PageAllocatorInternal::map_page]. *)
Definition map_page (virtual_address flags : Z) : M sys (result () MapPageError) :=
  r ← find_and_reserve_page;
  match r with
  | Err _ => mret (Err OutOfPages)
  | Ok new_page_address =>
      r ← map_page_translation new_page_address virtual_address flags;
      match r with
      | Err err => free_page new_page_address;; mret (Err err)
      | Ok _ => mret (Ok ())
      end
  end.

(** [PageAllocatorInternal::unmap_and_free_page]. *)
Fixpoint unmap_loop (levels : list (Z * Z)) (current_address stripped_virtual_address : Z) : M sys () :=
  match levels with
  | [] => mret ()
  | (i, level_mask) :: rest =>
      s ← get;
      let entry := entry_addr current_address (level_index i level_mask stripped_virtual_address) in
      let e := read64 s.(ram) entry in
      if negb (PageTableEntry.present e) then mret ()
      else if i =? 3 then
        set_ram (λ m, write64 m entry ZERO);;
        free_page (address e)
      else unmap_loop rest (address e) stripped_virtual_address
  end.
Definition unmap_and_free_page (virtual_address : Z) : M sys () :=
  s ← get;
  unmap_loop LEVEL_MASKS (address (page_table s.(alloc))) (Z.land virtual_address 0x000FFFFFFFFFF000).

(** The number of pages touched by [size] bytes at [start]; computed the same
    way in [check_flags] and in both page mappers.  [size = 0] and a range that
    wraps around panic. *)
Definition num_pages_of {S} (start size : Z) : M S Z :=
  let lower_bound := align_to_page start in
  size1 ← chk 64 (size - 1);
  last ← chk 64 (start + size1);
  let upper_bound := align_to_page last in
  mret (Z.shiftr (upper_bound - lower_bound) 12 + 1).

(** [PageAllocatorInternal::check_flags]. *)
Fixpoint check_flags_loop (levels : list (Z * Z)) (current_address virtual_address
    actual_flags : Z) : M sys bool :=
  match levels with
  | [] => mret true
  | (i, level_mask) :: rest =>
      s ← get;
      let entry := read64 s.(ram) (entry_addr current_address (level_index i level_mask virtual_address)) in
      if negb (PageTableEntry.present entry) || negb (Z.land entry actual_flags =? actual_flags)
      then mret false
      else check_flags_loop rest (address entry) virtual_address actual_flags
  end.
Fixpoint check_flags_pages (pages : list Z) (virtual_start_address actual_flags : Z) : M sys bool :=
  match pages with
  | [] => mret true
  | page_i :: rest =>
      virtual_address ← chk 64 (virtual_start_address + Z.shiftl page_i 12);
      s ← get;
      ok ← check_flags_loop LEVEL_MASKS (address (page_table s.(alloc))) virtual_address actual_flags;
      if ok : bool then check_flags_pages rest virtual_start_address actual_flags else mret false
  end.
Definition check_flags (virtual_start_address size flags : Z) : M sys bool :=
  let actual_flags := replace_addr_with flags 0 in
  num_pages ← num_pages_of virtual_start_address size;
  check_flags_pages (seqZ 0 num_pages) virtual_start_address actual_flags.

(** The module-level wrappers. *)
Module page_tables.
Definition is_address_identity_mapped (addr : Z) : M world bool :=
    with_allocator (is_address_identity_mapped addr).
Definition map_page_translation (physical_address virtual_address flags : Z) :
      M world (result () MapPageError) :=
    with_allocator (map_page_translation physical_address virtual_address flags).
Definition map_page (virtual_address flags : Z) : M world (result () MapPageError) :=
    with_allocator (map_page virtual_address flags).
Definition unmap_and_free_page (virtual_address : Z) : M world () :=
    with_allocator (unmap_and_free_page virtual_address).
Definition check_flags (virtual_start_address size flags : Z) : M world bool :=
    with_allocator (check_flags virtual_start_address size flags).
End page_tables.

(** ** Indices of a virtual address *)

Definition indices (virtual_address : Z) : list Z :=
  map (λ '(i, level_mask), level_index i level_mask virtual_address) LEVEL_MASKS.

Lemma level_index_shift k va : 0 ≤ k → 
  Z.shiftr (Z.land (Z.shiftl (Z.ones 9) k) va) k mod 512 = Z.shiftr va k mod 512.
Proof.
  intros Hk. change 512 with (2 ^ 9). rewrite <-!Z.land_ones by lia.
  apply Z.bits_inj'. intros i Hi.
  rewrite !Z.land_spec, !Z.shiftr_spec, Z.land_spec, Z.shiftl_spec by lia.
  rewrite !testbit_ones by lia. replace (i + k - k) with i by lia.
  destruct (i <? 9); [done|]. by rewrite !andb_false_r.
Qed.
Lemma indices_spec va : indices va =
  [va / 2 ^ 39 mod 512; va / 2 ^ 30 mod 512; va / 2 ^ 21 mod 512; va / 2 ^ 12 mod 512].
Proof.
  cbn [indices LEVEL_MASKS map]. unfold level_index.
  rewrite <-!Z.shiftr_div_pow2 by lia.
  rewrite <-(level_index_shift 39 va), <-(level_index_shift 30 va), <-(level_index_shift 21 va),
    <-(level_index_shift 12 va) by lia. reflexivity.
Qed.
Lemma indices_length va : length (indices va) = 4%nat.
Proof. done. Qed.
Lemma indices_bound va : Forall (λ i, 0 ≤ i < 512) (indices va).
Proof. rewrite indices_spec. repeat constructor; apply Z.mod_pos_bound; lia. Qed.

(** Two addresses have the same indices exactly when they agree on bits
    [47..12], the page number of the 48-bit address space. *)
Lemma indices_eq_iff va va' :
  indices va = indices va' ↔ va / PAGE_SIZE mod 2 ^ 36 = va' / PAGE_SIZE mod 2 ^ 36.
Proof.
  assert (∀ v, v / PAGE_SIZE mod 2 ^ 36 = v / 2 ^ 12 mod 512 + 512 * (v / 2 ^ 21 mod 512)
    + 512 ^ 2 * (v / 2 ^ 30 mod 512) + 512 ^ 3 * (v / 2 ^ 39 mod 512)) as E.
  { intros v. unfold PAGE_SIZE. change (2 ^ 12) with 4096.
    replace (v / 2 ^ 21) with (v / 4096 / 512) by (by rewrite Z.div_div by lia).
    replace (v / 2 ^ 30) with (v / 4096 / 512 / 512) by (by rewrite !Z.div_div by lia).
    replace (v / 2 ^ 39) with (v / 4096 / 512 / 512 / 512) by (by rewrite !Z.div_div by lia).
    generalize (v / 4096). clear v. intros p.
    change (2 ^ 36) with (512 * (512 * (512 * 512))). rewrite !Z.rem_mul_r by lia. lia. }
  rewrite !indices_spec, !E. split; [by intros [= -> -> -> ->]|]. intros H.
  pose proof (Z.mod_pos_bound (va / 2 ^ 12) 512). pose proof (Z.mod_pos_bound (va' / 2 ^ 12) 512).
  pose proof (Z.mod_pos_bound (va / 2 ^ 21) 512). pose proof (Z.mod_pos_bound (va' / 2 ^ 21) 512).
  pose proof (Z.mod_pos_bound (va / 2 ^ 30) 512). pose proof (Z.mod_pos_bound (va' / 2 ^ 30) 512).
  pose proof (Z.mod_pos_bound (va / 2 ^ 39) 512). pose proof (Z.mod_pos_bound (va' / 2 ^ 39) 512).
  revert H.
  generalize dependent (va / 2 ^ 12 mod 512). generalize dependent (va' / 2 ^ 12 mod 512).
  generalize dependent (va / 2 ^ 21 mod 512). generalize dependent (va' / 2 ^ 21 mod 512).
  generalize dependent (va / 2 ^ 30 mod 512). generalize dependent (va' / 2 ^ 30 mod 512).
  generalize dependent (va / 2 ^ 39 mod 512). generalize dependent (va' / 2 ^ 39 mod 512).
  intros. repeat f_equal; lia.
Qed.

(** ** The page tables as a map *)

(** [tables] gives the address of the table reached by each index path; the
    root is at the empty path and leaf tables at paths of length three. *)
Record pt_ok (root : Z) (bitmap : list Z) (m : memory) (tables : gmap (list Z) Z) : Prop := {
  pt_root : tables !! [] = Some root;
  pt_frames : ∀ p a, tables !! p = Some a →
    (length p ≤ 3)%nat ∧ a mod PAGE_SIZE = 0 ∧ 0 < a < 2 ^ 51 ∧ page_bit bitmap (a / PAGE_SIZE) = true;
  pt_inj : ∀ p q a, tables !! p = Some a → tables !! q = Some a → p = q;
  pt_child : ∀ p a i, tables !! p = Some a → (length p < 3)%nat → 0 ≤ i < 512 →
    let e := read64 m (entry_addr a i) in
    tables !! (p ++ [i]) = if PageTableEntry.present e then Some (address e) else None;
  pt_parent : ∀ p i, is_Some (tables !! (p ++ [i])) → is_Some (tables !! p) ∧ 0 ≤ i < 512;
}.

(** The present leaf entry for an index path of length four. *)
Definition mapping (m : memory) (tables : gmap (list Z) Z) (idx : list Z) : option Z :=
  match idx with
  | [i0; i1; i2; i3] =>
      match tables !! [i0; i1; i2] with
      | Some a =>
          let e := read64 m (entry_addr a i3) in
          if PageTableEntry.present e then Some e else None
      | None => None
      end
  | _ => None
  end.

(** The walk the hardware does, by memory reads alone. *)
Fixpoint walk (m : memory) (table : Z) (idx : list Z) : option Z :=
  match idx with
  | [] => None
  | i :: rest =>
      let e := read64 m (entry_addr table i) in
      if PageTableEntry.present e then
        match rest with [] => Some e | _ => walk m (address e) rest end
      else None
  end.

Section PT.
  Context {root : Z} {bitmap : list Z}.

Lemma pt_child_some m tables p a i :
    pt_ok root bitmap m tables → tables !! p = Some a → (length p < 3)%nat → 0 ≤ i < 512 →
    PageTableEntry.present (read64 m (entry_addr a i)) = true →
    tables !! (p ++ [i]) = Some (address (read64 m (entry_addr a i))).
  Proof. intros Hok Hp Hl Hi He. rewrite (pt_child _ _ _ _ Hok p a i Hp Hl Hi). by rewrite He. Qed.

  (** The abstraction agrees with the hardware walk. *)
Lemma mapping_walk m tables i0 i1 i2 i3 :
    pt_ok root bitmap m tables → Forall (λ i, 0 ≤ i < 512) [i0; i1; i2; i3] →
    mapping m tables [i0; i1; i2; i3] = walk m root [i0; i1; i2; i3].
  Proof.
    intros Hok Hb. rewrite !Forall_cons in Hb. destruct Hb as (H0 & H1 & H2 & H3 & _).
    pose proof (pt_root _ _ _ _ Hok) as Hroot. cbn [walk mapping].
    pose proof (pt_child _ _ _ _ Hok [] root i0 Hroot ltac:(cbn; lia) H0) as C0. cbn [app] in C0.
    pose proof (λ a E, pt_child _ _ _ _ Hok [i0] a i1 E ltac:(cbn; lia) H1) as C1.
    pose proof (λ a E, pt_child _ _ _ _ Hok [i0; i1] a i2 E ltac:(cbn; lia) H2) as C2.
    cbn [app] in C1, C2.
    assert (∀ p i, tables !! p = None → tables !! (p ++ [i]) = None) as Hnone.
    { intros p i Hp. apply eq_None_not_Some. intros Hs.
      apply (pt_parent _ _ _ _ Hok) in Hs as [[? ?] _]. congruence. }
    destruct (PageTableEntry.present (read64 m (entry_addr root i0))).
    2:{ assert (tables !! [i0; i1; i2] = None) as ->; [|done].
        by apply (Hnone [i0; i1] i2), (Hnone [i0] i1). }
    specialize (C1 _ C0). set (t1 := address (read64 m (entry_addr root i0))) in *.
    destruct (PageTableEntry.present (read64 m (entry_addr t1 i1))).
    2:{ assert (tables !! [i0; i1; i2] = None) as ->; [|done]. by apply (Hnone [i0; i1] i2). }
    specialize (C2 _ C1). set (t2 := address (read64 m (entry_addr t1 i1))) in *.
    destruct (PageTableEntry.present (read64 m (entry_addr t2 i2))); by rewrite C2.
  Qed.

  (** Entries of distinct tables, and distinct entries of a table, do not overlap. *)
Lemma entry_disjoint m tables p q a b i j :
    pt_ok root bitmap m tables → tables !! p = Some a → tables !! q = Some b →
    0 ≤ i < 512 → 0 ≤ j < 512 → (p, i) ≠ (q, j) →
    entry_addr a i + 8 ≤ entry_addr b j ∨ entry_addr b j + 8 ≤ entry_addr a i.
  Proof.
    intros Hok Hp Hq Hi Hj Hne. unfold entry_addr.
    destruct (decide (a = b)) as [->|Hab].
    - assert (p = q) by (by eapply pt_inj). assert (i ≠ j) by congruence. lia.
    - pose proof (pt_frames _ _ _ _ Hok p a Hp) as (_ & Ha & _).
      pose proof (pt_frames _ _ _ _ Hok q b Hq) as (_ & Hb & _).
      unfold PAGE_SIZE in *. Z.div_mod_to_equations. lia.
  Qed.

  (** Writing a leaf entry keeps the tables and changes one mapping. *)
Lemma write_leaf m tables i0 i1 i2 i3 a v :
    pt_ok root bitmap m tables → Forall (λ i, 0 ≤ i < 512) [i0; i1; i2; i3] →
    tables !! [i0; i1; i2] = Some a → 0 ≤ v < 2 ^ 64 →
    let m' := write64 m (entry_addr a i3) v in
    pt_ok root bitmap m' tables ∧
    ∀ idx, Forall (λ i, 0 ≤ i < 512) idx → mapping m' tables idx =
      if decide (idx = [i0; i1; i2; i3])
      then (if PageTableEntry.present v then Some v else None) else mapping m tables idx.
  Proof.
    intros Hok Hb Ha Hv m'. rewrite !Forall_cons in Hb. destruct Hb as (H0 & H1 & H2 & H3 & _).
    assert (∀ q b j, tables !! q = Some b → 0 ≤ j < 512 → ([i0; i1; i2], i3) ≠ (q, j) →
      read64 m' (entry_addr b j) = read64 m (entry_addr b j)) as Hframe.
    { intros q b j Hq Hj Hne. apply read64_write64_ne.
      by apply (entry_disjoint m tables [i0; i1; i2] q a b i3 j). }
    split.
    - split; try apply Hok. intros p b i Hp Hl Hi e. subst e.
      rewrite (Hframe p b i) by (done || (intros [= <- <-]; cbn in Hl; lia)).
      by apply (pt_child _ _ _ _ Hok).
    - intros idx Hidx. destruct idx as [|j0 [|j1 [|j2 [|j3 [|]]]]]; cbn [mapping];
        try (by case_decide).
      rewrite !Forall_cons in Hidx. destruct Hidx as (_ & _ & _ & Hj3 & _).
      case_decide as E.
      + injection E as -> -> -> ->. rewrite Ha. cbn zeta. unfold m'. by rewrite read64_write64_eq.
      + destruct (tables !! [j0; j1; j2]) as [b|] eqn:Hq; [|done]. cbn zeta.
        rewrite (Hframe [j0; j1; j2] b j3); [done|done|done|congruence].
  Qed.
End PT.

(** The invariant survives growing the set of used pages. *)
Lemma pt_ok_bitmap root bm bm' m tables :
  pt_ok root bm m tables → (∀ k, 0 ≤ k → page_bit bm k = true → page_bit bm' k = true) →
  pt_ok root bm' m tables.
Proof.
  intros Hok Hsub. split; try apply Hok. intros p a Hp.
  destruct (pt_frames _ _ _ _ Hok p a Hp) as (? & ? & ? & ?). split_and!; try lia; try done.
  apply Hsub; [apply Z.div_pos; unfold PAGE_SIZE; lia|done].
Qed.

(** The invariant reads the memory through the entries only. *)
Lemma pt_ok_reads root bm m m' tables : pt_ok root bm m tables →
  (∀ q b j, tables !! q = Some b → 0 ≤ j < 512 →
     read64 m' (entry_addr b j) = read64 m (entry_addr b j)) → pt_ok root bm m' tables.
Proof.
  intros [Hr Hf Hi Hc Hp] E. split; try done. intros p a i Hpa Hl Hi'. cbn zeta.
  rewrite (E p a i Hpa Hi'). by apply Hc.
Qed.

(** Linking a fresh, zeroed table below an absent entry keeps the invariant and
    every mapping. *)
Lemma install_table root bm bm' m m' tables p a i f e :
  pt_ok root bm m tables → tables !! p = Some a → (length p < 3)%nat → 0 ≤ i < 512 →
  PageTableEntry.present (read64 m (entry_addr a i)) = false →
  f mod PAGE_SIZE = 0 → 0 < f < 2 ^ 51 → page_bit bm (f / PAGE_SIZE) = false →
  page_bit bm' (f / PAGE_SIZE) = true →
  (∀ k, 0 ≤ k → page_bit bm k = true → page_bit bm' k = true) →
  read64 m' (entry_addr a i) = e → PageTableEntry.present e = true → address e = f →
  (∀ j, 0 ≤ j < 512 → read64 m' (entry_addr f j) = 0) →
  (∀ q b j, tables !! q = Some b → 0 ≤ j < 512 → (q, j) ≠ (p, i) →
     read64 m' (entry_addr b j) = read64 m (entry_addr b j)) →
  pt_ok root bm' m' (<[p ++ [i] := f]> tables) ∧
  ∀ idx, Forall (λ i, 0 ≤ i < 512) idx →
    mapping m' (<[p ++ [i] := f]> tables) idx = mapping m tables idx.
Proof.
  intros Hok Hp Hlen Hi Hnp Hfa Hfb Hfree Hused Hmono He Hpe Hae Hzero Hframe.
  assert (tables !! (p ++ [i]) = None) as Hnone.
  { rewrite (pt_child _ _ _ _ Hok p a i Hp Hlen Hi). cbn zeta. by rewrite Hnp. }
  assert (∀ q b, tables !! q = Some b → b ≠ f) as Hfresh.
  { intros q b Hq ->. destruct (pt_frames _ _ _ _ Hok q f Hq) as (_ & _ & _ & ?). congruence. }
  assert (∀ j, tables !! ((p ++ [i]) ++ [j]) = None) as Hgrand.
  { intros j. apply eq_None_not_Some. intros Hs.
    apply (pt_parent _ _ _ _ Hok) in Hs as [[? ?] _]. congruence. }
  split; [split|].
  - rewrite lookup_insert_ne; [apply Hok|]. by destruct p.
  - intros q b Hq. apply lookup_insert_Some in Hq as [[<- <-]|[Hne Hq]].
    + rewrite length_app. cbn [length]. split_and!; try lia; done.
    + destruct (pt_frames _ _ _ _ Hok q b Hq) as (? & ? & ? & ?). split_and!; try lia; try done.
      apply Hmono; [apply Z.div_pos; unfold PAGE_SIZE; lia|done].
  - intros q r b Hq Hr. apply lookup_insert_Some in Hq as [[<- <-]|[Hne1 Hq]];
      apply lookup_insert_Some in Hr as [[<- ?]|[Hne2 Hr]]; try done.
    + exfalso. by eapply Hfresh.
    + subst. exfalso. by eapply Hfresh.
    + by eapply pt_inj.
  - intros q b j Hq Hl Hj e'. subst e'. apply lookup_insert_Some in Hq as [[<- <-]|[Hne Hq]].
    + rewrite Hzero by done. rewrite lookup_insert_ne; [by rewrite Hgrand|].
      intros E. apply (f_equal length) in E. rewrite !length_app in E. cbn in E. lia.
    + destruct (decide ((q, j) = (p, i))) as [[= -> ->]|Hqj].
      * rewrite lookup_insert_eq. assert (b = a) as -> by congruence. by rewrite He, Hpe, Hae.
      * rewrite lookup_insert_ne by (intros [? ?]%app_inj_tail; congruence).
        rewrite (Hframe q b j Hq Hj Hqj). by apply (pt_child _ _ _ _ Hok).
  - intros q j Hs. destruct (decide (p ++ [i] = q ++ [j])) as [E|E].
    + apply app_inj_tail in E as [<- <-]. split; [|done].
      rewrite lookup_insert_ne; [by eexists|].
      intros E. apply (f_equal length) in E. rewrite length_app in E. cbn in E. lia.
    + rewrite lookup_insert_ne in Hs by done.
      apply (pt_parent _ _ _ _ Hok) in Hs as [Hs ?]. split; [|done].
      destruct (decide (p ++ [i] = q)) as [<-|]; [by rewrite lookup_insert_eq|].
      by rewrite lookup_insert_ne.
  - intros idx Hidx. destruct idx as [|j0 [|j1 [|j2 [|j3 [|]]]]]; try done. cbn [mapping].
    rewrite !Forall_cons in Hidx. destruct Hidx as (_ & _ & _ & Hj3 & _).
    destruct (decide (p ++ [i] = [j0; j1; j2])) as [E|E].
    + rewrite E in *. rewrite lookup_insert_eq, Hnone. cbn zeta. by rewrite Hzero.
    + rewrite lookup_insert_ne by done. destruct (tables !! [j0; j1; j2]) as [b|] eqn:Hq; [|done].
      cbn zeta. rewrite (Hframe _ b j3 Hq Hj3); [done|].
      intros [= <- _]. cbn in Hlen. lia.
Qed.

(** The allocator's bookkeeping never loses used pages. *)
Record grows (pa pa' : PageAllocatorInternal) : Prop := {
  grows_bits : ∀ k, 0 ≤ k → page_bit (memory_bitmap pa) k = true → page_bit (memory_bitmap pa') k = true;
  grows_num : num_bits (memory_bitmap pa') = num_bits (memory_bitmap pa);
  grows_total : total_pages pa' = total_pages pa;
  grows_root : page_table pa' = page_table pa;
}.
#[export] Instance grows_preorder : PreOrder grows.
Proof.
  split.
  - intros pa. by split.
  - intros pa pb pc [] []. split; try congruence. eauto.
Qed.

(** The invariant of an address space with its root table at [root]. *)
Record space_ok (root : Z) (s : sys) (tables : gmap (list Z) Z) : Prop := {
  kernel_alloc : alloc_ok s.(alloc);
  kernel_page_zero : page_bit (memory_bitmap s.(alloc)) 0 = true;
  kernel_small : num_bits (memory_bitmap s.(alloc)) * PAGE_SIZE ≤ 2 ^ 51;
  kernel_pt : pt_ok root (memory_bitmap s.(alloc)) s.(ram) tables;
}.
(** The kernel's own address space. *)
Abbreviation kernel_ok s tables := (space_ok (address (page_table (alloc s))) s tables).

Lemma replace_addr_with_bound e a : 0 ≤ e → 0 ≤ a → 0 ≤ replace_addr_with e a < 2 ^ 64.
Proof.
  intros He Ha. unfold replace_addr_with.
  change 0x000FFFFFFFFFF000 with ADDR_MASK. change 0x80000000000001FF with FLAG_MASK.
  assert (0 ≤ Z.lor (Z.land a ADDR_MASK) (Z.land e FLAG_MASK)) as Hnn.
  { apply Z.lor_nonneg. split; apply Z.land_nonneg; by left. }
  split; [done|]. apply bits_bound; [lia|done|]. intros i Hi.
  rewrite Z.lor_spec, !Z.land_spec, ADDR_MASK_spec, FLAG_MASK_spec by lia.
  by rewrite !bool_decide_false, !andb_false_r by lia.
Qed.
Lemma present_replace_addr e a : PageTableEntry.present (replace_addr_with e a) = PageTableEntry.present e.
Proof.
  unfold PageTableEntry.present, replace_addr_with. rewrite Z.lor_spec, !Z.land_spec.
  change 0x000FFFFFFFFFF000 with ADDR_MASK. change 0x80000000000001FF with FLAG_MASK.
  rewrite ADDR_MASK_spec, FLAG_MASK_spec by lia.
  by rewrite bool_decide_false, bool_decide_true, andb_false_r, andb_true_r by lia.
Qed.
Lemma address_replace_addr e a : 0 ≤ a < 2 ^ 51 → a mod PAGE_SIZE = 0 →
  address (replace_addr_with e a) = a.
Proof.
  intros Ha Hm. unfold replace_addr_with. change 0x000FFFFFFFFFF000 with ADDR_MASK.
  change 0x80000000000001FF with FLAG_MASK.
  rewrite (land_ADDR_MASK_id a) by (done || lia). by apply address_addr_flags.
Qed.

(** A reserved page is fresh, addressable and zeroed. *)
Lemma reserve_space root s tables addr s' :
  space_ok root s tables → reserve_post s (Ok addr) s' →
  addr mod PAGE_SIZE = 0 ∧ 0 < addr < 2 ^ 51 ∧
  page_bit (memory_bitmap s.(alloc)) (addr / PAGE_SIZE) = false ∧
  page_bit (memory_bitmap s'.(alloc)) (addr / PAGE_SIZE) = true ∧
  grows s.(alloc) s'.(alloc) ∧ space_ok root s' tables ∧
  (∀ q b j, tables !! q = Some b → 0 ≤ j < 512 →
     read64 s'.(ram) (entry_addr b j) = read64 s.(ram) (entry_addr b j)).
Proof.
  intros Hk (Hok' & n & -> & Hn & Hclear & _ & Hbits & Hnb & Hfree & Ht & Hpt & Hram).
  assert (n * PAGE_SIZE / PAGE_SIZE = n) as En by (apply Z.div_mul; done).
  assert (∀ k, 0 ≤ k → page_bit (memory_bitmap (alloc s)) k = true →
    page_bit (memory_bitmap (alloc s')) k = true) as Hmono.
  { intros k Hk0 Hb. by rewrite Hbits, Hb, orb_true_r. }
  pose proof (kernel_small _ _ _ Hk) as Hs. unfold PAGE_SIZE in *.
  assert (∀ q b j, tables !! q = Some b → 0 ≤ j < 512 →
     read64 s'.(ram) (entry_addr b j) = read64 s.(ram) (entry_addr b j)) as Hframe.
  { intros q b j Hq Hj. rewrite Hram. apply read64_fill_out.
    destruct (pt_frames _ _ _ _ (kernel_pt _ _ _ Hk) q b Hq) as (_ & Hb & Hb0 & Hu).
    unfold entry_addr, PAGE_SIZE in *.
    assert (b / 4096 ≠ n) by congruence. Z.div_mod_to_equations. lia. }
  split_and!; try lia.
  - apply Z.mod_mul. lia.
  - by rewrite En.
  - rewrite En, Hbits by lia. by rewrite Z.eqb_refl.
  - by split.
  - split; [done| | |].
    + apply Hmono; [lia|]. apply Hk.
    + rewrite Hnb. apply Hk.
    + apply (pt_ok_bitmap _ (memory_bitmap (alloc s))); [|done].
      by apply (pt_ok_reads _ _ _ _ _ (kernel_pt _ _ _ Hk)).
  - done.
Qed.

(** Memory outside the page tables and the free pages is kept. *)
Definition data_kept (s : sys) (tables : gmap (list Z) Z) (s' : sys) : Prop :=
  ∀ x, 0 ≤ x → page_bit (memory_bitmap s.(alloc)) (x / PAGE_SIZE) = true →
    (∀ p a, tables !! p = Some a → a / PAGE_SIZE ≠ x / PAGE_SIZE) → s'.(ram) x = s.(ram) x.
Lemma data_kept_write_entry s tables p a i v :
  tables !! p = Some a → a mod PAGE_SIZE = 0 → 0 ≤ i < 512 →
  data_kept s tables (Sys s.(alloc) (write64 s.(ram) (entry_addr a i) v)).
Proof.
  intros Hp Ha Hi x Hx _ Hne. cbn [ram]. specialize (Hne p a Hp). unfold write64, write_le, entry_addr, PAGE_SIZE in *.
  destruct (Z.leb_spec (a + 8 * i) x), (Z.ltb_spec x (a + 8 * i + Z.of_nat 8)); cbn [andb]; try done.
  exfalso. Z.div_mod_to_equations. lia.
Qed.
(** What is kept after a fresh table is linked was kept before. *)
Lemma data_kept_install root s tables s1 s2 p q cur i e f :
  space_ok root s tables → tables !! p = Some cur → 0 ≤ i < 512 →
  reserve_post s (Ok f) s1 →
  data_kept (Sys s1.(alloc) (write64 (fill s1.(ram) f PAGE_SIZE 0) (entry_addr cur i) e)) (<[q := f]> tables) s2 →
  data_kept s tables s2.
Proof.
  intros Hk Hp Hi (_ & n & -> & Hn & Hfree & _ & Hbits & _ & _ & _ & _ & Hram) Hdata x Hx Hu Hnt.
  assert (x / PAGE_SIZE ≠ n) as Hxn by congruence.
  rewrite Hdata; cbn [alloc ram]; [|done| |].
  - rewrite Hram. specialize (Hnt p cur Hp).
    destruct (pt_frames _ _ _ _ (kernel_pt _ _ _ Hk) p cur Hp) as (_ & Hca & _ & _).
    unfold write64, write_le, fill, entry_addr, PAGE_SIZE in *.
    destruct (Z.leb_spec (cur + 8 * i) x) as [A|A], (Z.ltb_spec x (cur + 8 * i + Z.of_nat 8)) as [B|B]; cbn [andb];
      [exfalso; clear - A B Hnt Hca Hi; Z.div_mod_to_equations; lia|..];
      destruct (Z.leb_spec (n * 4096) x) as [C|C], (Z.ltb_spec x (n * 4096 + 4096)) as [D|D]; cbn [andb]; try done;
      exfalso; clear - C D Hxn; Z.div_mod_to_equations; lia.
  - rewrite Hbits, Hu by (apply Z.div_pos; [lia|done]). apply orb_true_r.
  - intros r b [[<- <-]|[_ Hr]]%lookup_insert_Some; [|by apply (Hnt r)]. rewrite Z.div_mul by done. congruence.
Qed.

(** The same for the kernel's address space, whose root the allocator holds. *)
Lemma reserve_kernel s tables addr s' :
  kernel_ok s tables → reserve_post s (Ok addr) s' →
  addr mod PAGE_SIZE = 0 ∧ 0 < addr < 2 ^ 51 ∧
  page_bit (memory_bitmap s.(alloc)) (addr / PAGE_SIZE) = false ∧
  page_bit (memory_bitmap s'.(alloc)) (addr / PAGE_SIZE) = true ∧
  grows s.(alloc) s'.(alloc) ∧ kernel_ok s' tables ∧
  (∀ q b j, tables !! q = Some b → 0 ≤ j < 512 →
     read64 s'.(ram) (entry_addr b j) = read64 s.(ram) (entry_addr b j)).
Proof.
  intros Hk Hres. destruct (reserve_space _ _ _ _ _ Hk Hres) as (H1 & H2 & H3 & H4 & Hgr & H6 & H7).
  rewrite (grows_root _ _ Hgr). by split_and!; try lia.
Qed.

Ltac kernel_simpl :=
  repeat first [ rewrite wp_bind | rewrite wp_ret | rewrite wp_get | rewrite wp_set_ram ].

(** What [map_page_translation] does. *)
Definition map_post (physical_address va flags : Z) (s : sys) (tables : gmap (list Z) Z)
    (r : result () MapPageError) (s' : sys) : Prop :=
  let old := mapping s.(ram) tables in
  let v := replace_addr_with flags physical_address in
  ∃ tables', kernel_ok s' tables' ∧ grows s.(alloc) s'.(alloc) ∧
  (∀ p a, tables' !! p = Some a →
     tables !! p = Some a ∨ page_bit (memory_bitmap s.(alloc)) (a / PAGE_SIZE) = false) ∧
  data_kept s tables s' ∧
  match r with
  | Ok _ => old (indices va) = None ∧
      ∀ idx, Forall (λ i, 0 ≤ i < 512) idx → mapping s'.(ram) tables' idx =
        if decide (idx = indices va)
        then (if PageTableEntry.present v then Some v else None) else old idx
  | Err PageAlreadyExists => is_Some (old (indices va)) ∧ s' = s ∧ tables' = tables
  | Err OutOfPages => old (indices va) = None ∧
      (∀ idx, Forall (λ i, 0 ≤ i < 512) idx → mapping s'.(ram) tables' idx = old idx) ∧
      (∀ n, 0 ≤ n < num_bits (memory_bitmap s'.(alloc)) →
         page_bit (memory_bitmap s'.(alloc)) n = true)
  end.

(** An address is not mapped when a table on its way is missing. *)
Lemma prefix_unmapped root s tables va p x r :
  space_ok root s tables → (length p < 3)%nat → indices va = p ++ x :: r → tables !! (p ++ [x]) = None →
  mapping (ram s) tables (indices va) = None.
Proof.
  intros Hk Hlen Hr Hnone. rewrite indices_spec in *. cbn [mapping].
  replace (tables !! _) with (@None Z); [done|]. symmetry. apply eq_None_not_Some. intros Hs.
  assert (∀ q j, is_Some (tables !! (q ++ [j])) → is_Some (tables !! q)) as Hpar
    by (intros; eapply (pt_parent _ _ _ _ (kernel_pt _ _ _ Hk)); eauto).
  destruct p as [|p0 [|p1 [|p2 [|]]]]; cbn in Hlen; try lia; injection Hr; intros; subst;
    cbn [app] in Hnone.
  - apply (Hpar [_; _] _), (Hpar [_] _) in Hs. rewrite Hnone in Hs. by destruct Hs.
  - apply (Hpar [_; _] _) in Hs. rewrite Hnone in Hs. by destruct Hs.
  - rewrite Hnone in Hs. by destruct Hs.
Qed.
(** A reserved page, cleared and entered in the table at [cur], is a new table. *)
Lemma enter_table root s tables s1 p cur x f e :
  let m' := write64 (fill (ram s1) f PAGE_SIZE 0) (entry_addr cur x) e in
  space_ok root s tables → tables !! p = Some cur → (length p < 3)%nat → 0 ≤ x < 512 →
  PageTableEntry.present (read64 (ram s) (entry_addr cur x)) = false → reserve_post s (Ok f) s1 →
  0 ≤ e < 2 ^ 64 → PageTableEntry.present e = true → address e = f →
  space_ok root (Sys (alloc s1) m') (<[p ++ [x] := f]> tables) ∧
  (∀ idx, Forall (λ i, 0 ≤ i < 512) idx → mapping m' (<[p ++ [x] := f]> tables) idx = mapping (ram s) tables idx) ∧
  (∀ j, 0 ≤ j < 512 → read64 m' (entry_addr f j) = 0) ∧
  (∀ q b j, tables !! q = Some b → 0 ≤ j < 512 → (q, j) ≠ (p, x) →
     read64 m' (entry_addr b j) = read64 (ram s) (entry_addr b j)).
Proof.
  intros m' Hk Hp Hlen Hidx Hpres Hres Heb Hpe Hae.
  destruct (reserve_space _ _ _ _ _ Hk Hres) as (Hfa & Hfb & Hfree & Hused & Hgr & Hk1 & Hframe).
  assert (∀ q b j, tables !! q = Some b → 0 ≤ j < 512 →
    entry_addr b j + 8 ≤ f ∨ f + PAGE_SIZE ≤ entry_addr b j) as Hout.
  { intros q b j Hq Hj.
    destruct (pt_frames _ _ _ _ (kernel_pt _ _ _ Hk) q b Hq) as (_ & Hb & _ & Hu).
    assert (b / PAGE_SIZE ≠ f / PAGE_SIZE) by congruence.
    unfold entry_addr, PAGE_SIZE in *. Z.div_mod_to_equations. lia. }
  assert (read64 m' (entry_addr cur x) = e) as He by (by apply read64_write64_eq).
  assert (∀ j, 0 ≤ j < 512 → read64 m' (entry_addr f j) = 0) as Hzero.
  { intros j Hj. unfold m'. pose proof (Hout p cur x Hp Hidx) as Ho.
    rewrite read64_write64_ne by (unfold entry_addr, PAGE_SIZE in *; lia).
    apply read64_fill_in; unfold entry_addr, PAGE_SIZE in *; lia. }
  assert (∀ q b j, tables !! q = Some b → 0 ≤ j < 512 → (q, j) ≠ (p, x) →
     read64 m' (entry_addr b j) = read64 (ram s) (entry_addr b j)) as Hrest.
  { intros q b j Hq Hj Hne. unfold m'. rewrite read64_write64_ne.
    - rewrite read64_fill_out by (destruct (Hout q b j Hq Hj); lia). by apply (Hframe q).
    - apply (entry_disjoint (root:=root)
        (bitmap:=memory_bitmap (alloc s)) (ram s) tables p q cur b x j); try done; first [apply Hk|congruence]. }
  destruct (install_table root (memory_bitmap (alloc s)) (memory_bitmap (alloc s1))
    (ram s) m' tables p cur x f e) as [Hpt' Hmap'];
    [apply Hk|done|done|done|done|done|done|done|done|apply Hgr|done|done|done|done|done|].
  split; [|done]. split; [apply Hk1..|done].
Qed.
Lemma enter_new_table s tables s1 p cur x f :
  let m' := write64 (fill (ram s1) f PAGE_SIZE 0) (entry_addr cur x) (replace_addr_with READ_WRITE f) in
  kernel_ok s tables → tables !! p = Some cur → (length p < 3)%nat → 0 ≤ x < 512 →
  PageTableEntry.present (read64 (ram s) (entry_addr cur x)) = false → reserve_post s (Ok f) s1 →
  kernel_ok (Sys (alloc s1) m') (<[p ++ [x] := f]> tables) ∧
  (∀ idx, Forall (λ i, 0 ≤ i < 512) idx → mapping m' (<[p ++ [x] := f]> tables) idx = mapping (ram s) tables idx) ∧
  address (read64 m' (entry_addr cur x)) = f.
Proof.
  intros m' Hk Hp Hlen Hidx Hpres Hres.
  destruct (reserve_kernel _ _ _ _ Hk Hres) as (Hfa & Hfb & _ & _ & Hgr & _).
  assert (address (replace_addr_with READ_WRITE f) = f) as Hae by (apply address_replace_addr; [lia|done]).
  assert (0 ≤ replace_addr_with READ_WRITE f < 2 ^ 64) as Heb by (apply replace_addr_with_bound; [done|lia]).
  destruct (enter_table _ s tables s1 p cur x f _ Hk Hp Hlen Hidx Hpres Hres Heb) as (Hk' & Hm' & _);
    [apply present_replace_addr|done|].
  cbn [alloc]. rewrite (grows_root _ _ Hgr). split; [done|]. split; [done|].
  unfold m'. by rewrite read64_write64_eq.
Qed.
(** What is mapped once the table is there was mapped without it. *)
Lemma map_post_table phys va flags s tables s1 p cur x f r s2 :
  let m' := write64 (fill (ram s1) f PAGE_SIZE 0) (entry_addr cur x) (replace_addr_with READ_WRITE f) in
  kernel_ok s tables → tables !! p = Some cur → 0 ≤ x < 512 → reserve_post s (Ok f) s1 →
  mapping (ram s) tables (indices va) = None →
  (∀ idx, Forall (λ i, 0 ≤ i < 512) idx → mapping m' (<[p ++ [x] := f]> tables) idx = mapping (ram s) tables idx) →
  map_post phys va flags (Sys (alloc s1) m') (<[p ++ [x] := f]> tables) r s2 → map_post phys va flags s tables r s2.
Proof.
  intros m' Hk Hp Hx Hres Hunmapped Hmap (tables2 & Hk2 & Hgr2 & Hnew2 & Hdata2 & Hres2). cbn [alloc ram] in *.
  destruct (reserve_kernel _ _ _ _ Hk Hres) as (_ & _ & Hfree & _ & Hgr & _).
  assert (mapping m' (<[p ++ [x] := f]> tables) (indices va) = None) as Hun' by (by rewrite Hmap by apply indices_bound).
  exists tables2. split; [done|]. split; [by trans (alloc s1)|]. split; [|split].
  - intros q b Hq. destruct (pt_frames _ _ _ _ (kernel_pt _ _ _ Hk2) q b Hq) as (_ & _ & Hb0 & _).
    destruct (Hnew2 q b Hq) as [[[<- <-]|[_ Hq']]%lookup_insert_Some|Hb]; [by right|by left|right].
    apply not_true_is_false. intros Hb'.
    assert (0 ≤ b / PAGE_SIZE) as H0 by (apply Z.div_pos; unfold PAGE_SIZE; lia).
    pose proof (grows_bits _ _ Hgr _ H0 Hb'). congruence.
  - by apply (data_kept_install (address (page_table (alloc s))) s tables s1 s2 p (p ++ [x]) cur x (replace_addr_with READ_WRITE f) f).
  - destruct r as [[]|[]].
    + destruct Hres2 as [_ Hm]. split; [done|]. intros idx Hb. rewrite Hm by done. by rewrite Hmap.
    + destruct Hres2 as (_ & Hm & Hf). split; [done|]. split; [|done].
      intros idx Hb. rewrite Hm by done. by apply Hmap.
    + destruct Hres2 as ([? E] & _). congruence.
Qed.
(** One level of the walk, at a non-leaf level. *)
Lemma map_loop_step (phys va flags : Z) (i mask : Z) rest p cur s tables :
  (length p < 3)%nat → i ≠ 3 →
  kernel_ok s tables → tables !! p = Some cur →
  0 ≤ level_index i mask va < 512 →
  (∃ r, indices va = p ++ level_index i mask va :: r) →
  (∀ s1 tables1 next, kernel_ok s1 tables1 → tables1 !! (p ++ [level_index i mask va]) = Some next →
     wp (map_translation_loop rest next phys va flags) (map_post phys va flags s1 tables1) s1) →
  wp (map_translation_loop ((i, mask) :: rest) cur phys va flags) (map_post phys va flags s tables) s.
Proof.
  intros Hlen Hi Hk Hp Hidx [r Hr] IH. cbn [map_translation_loop].
  set (x := level_index i mask va) in *. kernel_simpl. rewrite (proj2 (Z.eqb_neq i 3) Hi).
  destruct (PageTableEntry.present (read64 (ram s) (entry_addr cur x))) eqn:Hpres.
  { apply IH; [done|]. by apply (pt_child_some (ram s) tables p cur x (kernel_pt _ _ _ Hk)). }
  assert (mapping (ram s) tables (indices va) = None) as Hunmapped.
  { apply (prefix_unmapped (address (page_table (alloc s))) s tables va p x r); [done..|].
    rewrite (pt_child _ _ _ _ (kernel_pt _ _ _ Hk) p cur x Hp Hlen Hidx). cbn zeta. by rewrite Hpres. }
  cbv iota beta. rewrite wp_bind. apply (wp_mono _ (reserve_post s)).
  { apply wp_find_and_reserve_page; apply Hk. }
  intros [f|[]] s1 Hres.
  2:{ destruct Hres as (Hok1 & -> & Hfull). kernel_simpl. exists tables. split_and!; by eauto. }
  destruct (reserve_kernel _ _ _ _ Hk Hres) as (Hfa & Hfb & _).
  destruct (enter_new_table s tables s1 p cur x f) as (Hk' & Hmap' & Hae); [done..|].
  kernel_simpl. cbn [ram alloc].
  change 0x000FFFFFFFFFF000 with ADDR_MASK. rewrite (land_ADDR_MASK_id f) by (done || lia). rewrite Hae.
  eapply wp_mono; [apply (IH _ _ _ Hk'); by rewrite lookup_insert_eq|].
  intros res s2. by apply map_post_table.
Qed.

(** The leaf level. *)
Lemma map_loop_leaf (phys va flags : Z) cur s tables i0 i1 i2 mask :
  0 ≤ phys → 0 ≤ flags →
  kernel_ok s tables → tables !! [i0; i1; i2] = Some cur →
  indices va = [i0; i1; i2; level_index 3 mask va] →
  wp (map_translation_loop [(3, mask)] cur phys va flags) (map_post phys va flags s tables) s.
Proof.
  intros Hphys Hflags Hk Hp Hidx. cbn [map_translation_loop]. kernel_simpl.
  set (x := level_index 3 mask va) in *. change (3 =? 3) with true. cbv iota.
  pose proof (indices_bound va) as Hb. rewrite Hidx in Hb.
  assert (mapping (ram s) tables (indices va) =
    if PageTableEntry.present (read64 (ram s) (entry_addr cur x))
    then Some (read64 (ram s) (entry_addr cur x)) else None) as Hm.
  { rewrite Hidx. cbn [mapping]. by rewrite Hp. }
  destruct (PageTableEntry.present (read64 (ram s) (entry_addr cur x))).
  { rewrite wp_ret. exists tables. split; [done|]. split; [done|]. split; [by left|].
    rewrite Hm. split; [done|]. split; [by eexists|done]. }
  kernel_simpl. cbn [ram alloc].
  destruct (write_leaf (root:=address (page_table (alloc s))) (bitmap:=memory_bitmap (alloc s))
    (ram s) tables i0 i1 i2 x cur (replace_addr_with flags phys)) as [Hpt' Hmap']; try done.
  { apply Hk. }
  { by apply replace_addr_with_bound. }
  exists tables. cbn [ram alloc]. split; [split; [apply Hk..|done]|].
  split; [done|]. split; [by left|].
  split; [|split; [done|by rewrite Hidx]].
  apply (data_kept_write_entry _ _ [i0; i1; i2]); [done|apply (pt_frames _ _ _ _ (kernel_pt _ _ _ Hk) _ _ Hp)|].
  rewrite !Forall_cons in Hb. tauto.
Qed.

Lemma wp_map_page_translation s tables phys va flags :
  kernel_ok s tables → 0 ≤ phys → 0 ≤ flags →
  wp (map_page_translation phys va flags)
    (map_post (Z.land phys ADDR_MASK) va flags s tables) s.
Proof.
  intros Hk Hphys Hflags. unfold map_page_translation. kernel_simpl.
  change 0x000FFFFFFFFFF000 with ADDR_MASK. set (phys' := Z.land phys ADDR_MASK).
  assert (0 ≤ phys') as Hphys' by (apply Z.land_nonneg; by left).
  pose proof (indices_bound va) as Hb.
  change (indices va) with [level_index 0 0xFF8000000000 va; level_index 1 0x007FC0000000 va;
    level_index 2 0x00003FE00000 va; level_index 3 0x0000001FF000 va] in Hb.
  rewrite !Forall_cons in Hb. destruct Hb as (H0 & H1 & H2 & H3 & _).
  apply (map_loop_step _ _ _ _ _ _ []); try done; [cbn; lia|apply Hk| |].
  1: by eexists.
  intros s1 t1 n1 Hk1 Hn1. cbn [app] in Hn1.
  apply (map_loop_step _ _ _ _ _ _ [level_index 0 0xFF8000000000 va]); try done; [cbn; lia| |].
  1: by eexists.
  intros s2 t2 n2 Hk2 Hn2. cbn [app] in Hn2.
  apply (map_loop_step _ _ _ _ _ _ [level_index 0 0xFF8000000000 va; level_index 1 0x007FC0000000 va]);
    try done; [cbn; lia| |].
  1: by eexists.
  intros s3 t3 n3 Hk3 Hn3. cbn [app] in Hn3. by eapply map_loop_leaf.
Qed.

(** The entry the hardware finds for a virtual address in the kernel's tables. *)
Definition walk_at (s : sys) (virtual_address : Z) : option Z :=
  walk s.(ram) (address (page_table s.(alloc))) (indices virtual_address).

Lemma mapping_walk_at s tables va :
  kernel_ok s tables → mapping s.(ram) tables (indices va) = walk_at s va.
Proof.
  intros Hk. unfold walk_at. pose proof (indices_bound va) as Hb. rewrite indices_spec in *.
  by apply (mapping_walk (bitmap:=memory_bitmap (alloc s))); [apply Hk|].
Qed.
Lemma other_page_indices va va' :
  va' / PAGE_SIZE mod 2 ^ 36 ≠ va / PAGE_SIZE mod 2 ^ 36 → indices va' ≠ indices va.
Proof. by rewrite indices_eq_iff. Qed.

(** C1: on a well-formed address space [map_page_translation] never panics and
    its three results are right, in terms of the walk the hardware does.  [Ok]:
    the address was unmapped, its walk now finds the requested frame with the
    requested flags, and every address on another page translates as before.
    [PageAlreadyExists]: the address was mapped and nothing changed.
    [OutOfPages]: no page is free, and every translation is as before.  The
    invariant is kept in every case. *)
Theorem map_page_translation_correct (s : sys) (tables : gmap (list Z) Z)
    (physical_address virtual_address flags : Z) :
  kernel_ok s tables → 0 ≤ physical_address → 0 ≤ flags → PageTableEntry.present flags = true →
  ∃ r s' tables', map_page_translation physical_address virtual_address flags s = Returns (r, s') ∧
  kernel_ok s' tables' ∧
  match r with
  | Ok _ => walk_at s virtual_address = None ∧
      walk_at s' virtual_address = Some (replace_addr_with flags (Z.land physical_address ADDR_MASK)) ∧
      ∀ va', va' / PAGE_SIZE mod 2 ^ 36 ≠ virtual_address / PAGE_SIZE mod 2 ^ 36 →
        walk_at s' va' = walk_at s va'
  | Err PageAlreadyExists => is_Some (walk_at s virtual_address) ∧ s' = s
  | Err OutOfPages => (∀ va', walk_at s' va' = walk_at s va') ∧
      (∀ n, 0 ≤ n < num_bits (memory_bitmap s'.(alloc)) →
         page_bit (memory_bitmap s'.(alloc)) n = true)
  end.
Proof.
  intros Hk Hp Hf Hpres.
  pose proof (wp_map_page_translation s tables physical_address virtual_address flags Hk Hp Hf) as Hw.
  apply wp_returns in Hw as (r & s' & Hrun & tables' & Hk' & _ & _ & _ & Hr).
  exists r, s', tables'. split; [done|]. split; [done|].
  destruct r as [u|[]].
  - destruct Hr as [Hold Hnew]. rewrite <-(mapping_walk_at s tables) by done. split; [done|].
    split.
    + rewrite <-(mapping_walk_at s' tables') by done. rewrite Hnew by apply indices_bound.
      rewrite decide_True by done. by rewrite present_replace_addr, Hpres.
    + intros va' Hne. rewrite <-(mapping_walk_at s' tables'), <-(mapping_walk_at s tables) by done.
      rewrite Hnew by apply indices_bound. by rewrite decide_False by (by apply other_page_indices).
  - destruct Hr as (_ & Hsame & Hfull). split; [|done]. intros va'.
    rewrite <-(mapping_walk_at s' tables'), <-(mapping_walk_at s tables) by done.
    apply Hsame, indices_bound.
  - destruct Hr as (Hsome & -> & _). by rewrite <-(mapping_walk_at s tables).
Qed.

(** Freeing a page that is neither page zero nor a page table keeps the address
    space. *)
Lemma free_space root s tables n :
  space_ok root s tables → 0 < n → page_bit (memory_bitmap s.(alloc)) n = true →
  (∀ p, tables !! p ≠ Some (n * PAGE_SIZE)) →
  wp (free_page (n * PAGE_SIZE)) (λ _ s', space_ok root s' tables ∧ free_post s n s') s.
Proof.
  intros Hk Hn Hused Hfresh. pose proof (kernel_alloc _ _ _ Hk) as Hok.
  pose proof (count_free_nonneg (memory_bitmap (alloc s))) as Hcf.
  pose proof (kernel_small _ _ _ Hk) as Hs. pose proof (alloc_count _ Hok) as Hc.
  pose proof (page_bit_range _ n ltac:(lia) Hused).
  eapply wp_mono; [apply (wp_free_page s n Hok); unfold PAGE_SIZE in *; lia|].
  intros [] s' Hpost. split; [|done]. destruct Hpost as (Hram & Hout & Hin).
  destruct (decide (total_pages s.(alloc) ≤ n)) as [Ho|Ho]; [by rewrite Hout|].
  destruct (Hin ltac:(lia)) as (Hbits & Hnb & Ht & Hpt & _ & Hok' & _).
  split; [by apply Hok'|rewrite Hbits by lia|rewrite Hnb; apply Hk|].
  { rewrite (proj2 (Z.eqb_neq 0 n)) by lia. apply Hk. }
  rewrite Hram. split; try apply Hk. intros p a Hp.
  destruct (pt_frames _ _ _ _ (kernel_pt _ _ _ Hk) p a Hp) as (H1 & H2 & H3 & H4).
  split_and!; try done; try lia. cbn [alloc]. rewrite (Hbits (a / PAGE_SIZE)) by (apply Z.div_pos; unfold PAGE_SIZE; lia).
  rewrite H4, andb_true_r. apply negb_true_iff, Z.eqb_neq. intros E. apply (Hfresh p).
  rewrite Hp. f_equal. unfold PAGE_SIZE in *. Z.div_mod_to_equations. lia.
Qed.
Lemma free_post_root s n s' : free_post s n s' → page_table s'.(alloc) = page_table s.(alloc).
Proof.
  intros (_ & Hout & Hin). destruct (decide (total_pages s.(alloc) ≤ n)); [by rewrite Hout|].
  apply Hin. lia.
Qed.
Lemma free_kernel s tables n :
  kernel_ok s tables → 0 < n → page_bit (memory_bitmap s.(alloc)) n = true →
  (∀ p, tables !! p ≠ Some (n * PAGE_SIZE)) →
  wp (free_page (n * PAGE_SIZE)) (λ _ s', kernel_ok s' tables ∧ free_post s n s') s.
Proof.
  intros Hk Hn Hu Hf. eapply wp_mono; [by apply (free_space _ s tables n Hk)|].
  intros [] s' [Hs' Hp]. by rewrite (free_post_root s n s' Hp).
Qed.
(** The walk reads only the root and the memory. *)
Lemma walk_at_ext s s' va :
  s'.(ram) = s.(ram) → page_table s'.(alloc) = page_table s.(alloc) → walk_at s' va = walk_at s va.
Proof. unfold walk_at. by intros -> ->. Qed.
Lemma free_post_walk s n s' va : free_post s n s' → walk_at s' va = walk_at s va.
Proof.
  intros (Hram & Hout & Hin). apply walk_at_ext; [done|].
  destruct (decide (total_pages s.(alloc) ≤ n)); [by rewrite Hout|]. apply Hin. lia.
Qed.
(** Reading the same entries, the tables give the same mapping. *)
Lemma mapping_frame m m' tables idx :
  (∀ q b j, tables !! q = Some b → 0 ≤ j < 512 →
     read64 m' (entry_addr b j) = read64 m (entry_addr b j)) →
  Forall (λ i, 0 ≤ i < 512) idx → mapping m' tables idx = mapping m tables idx.
Proof.
  intros Hf Hb. destruct idx as [|i0 [|i1 [|i2 [|i3 [|]]]]]; try done. cbn [mapping].
  rewrite !Forall_cons in Hb. destruct Hb as (_ & _ & _ & Hi & _).
  destruct (tables !! [i0; i1; i2]) as [a|] eqn:E; [|done]. by rewrite (Hf [i0; i1; i2] a i3).
Qed.
Lemma reserve_walk s tables s1 f va :
  kernel_ok s tables → reserve_post s (Ok f) s1 → walk_at s1 va = walk_at s va.
Proof.
  intros Hk Hres. destruct (reserve_kernel _ _ _ _ Hk Hres) as (_ & _ & _ & _ & _ & Hk1 & Hframe).
  rewrite <-(mapping_walk_at s tables), <-(mapping_walk_at s1 tables) by done.
  apply mapping_frame; [done|apply indices_bound].
Qed.
(** An update of the mapping at one page, read through the walks. *)
Lemma update_walks s tables s' tables' va x :
  kernel_ok s tables → kernel_ok s' tables' →
  (∀ idx, Forall (λ i, 0 ≤ i < 512) idx → mapping s'.(ram) tables' idx =
     if decide (idx = indices va) then x else mapping s.(ram) tables idx) →
  walk_at s' va = x ∧
  ∀ va', va' / PAGE_SIZE mod 2 ^ 36 ≠ va / PAGE_SIZE mod 2 ^ 36 → walk_at s' va' = walk_at s va'.
Proof.
  intros Hk Hk' Hm. split; intros; rewrite <-(mapping_walk_at s' tables') by done;
    rewrite Hm by apply indices_bound.
  - by rewrite decide_True.
  - rewrite decide_False by (by apply other_page_indices). by apply mapping_walk_at.
Qed.
Lemma map_err_walks phys va flags s tables err s' va' :
  kernel_ok s tables → map_post phys va flags s tables (Err err) s' → walk_at s' va' = walk_at s va'.
Proof.
  intros Hk (t' & Hk' & _ & _ & _ & Hr).
  rewrite <-(mapping_walk_at s' t'), <-(mapping_walk_at s tables) by done. destruct err.
  - apply Hr, indices_bound.
  - by destruct Hr as (_ & -> & ->).
Qed.

(** The walk of [unmap_and_free_page], on either outcome. *)
Lemma level_index_strip i mask va : Z.land mask 0x000FFFFFFFFFF000 = mask →
  level_index i mask (Z.land va 0x000FFFFFFFFFF000) = level_index i mask va.
Proof.
  intros E. unfold level_index. by rewrite (Z.land_comm va), Z.land_assoc, E.
Qed.
Lemma unmap_walk s tables va :
  kernel_ok s tables →
  match walk_at s va with
  | None => unmap_and_free_page va s = Returns ((), s)
  | Some e => ∃ i0 i1 i2 i3 a, indices va = [i0; i1; i2; i3] ∧ tables !! [i0; i1; i2] = Some a ∧
      unmap_and_free_page va s =
        free_page (address e) (Sys s.(alloc) (write64 s.(ram) (entry_addr a i3) ZERO))
  end.
Proof.
  intros Hk. unfold unmap_and_free_page, walk_at, indices. cbn [LEVEL_MASKS map unmap_loop].
  rewrite !level_index_strip by done.
  pose proof (indices_bound va) as Hb. unfold indices in Hb. cbn [LEVEL_MASKS map] in Hb.
  set (i0 := level_index 0 _ va) in *. set (i1 := level_index 1 _ va) in *.
  set (i2 := level_index 2 _ va) in *. set (i3 := level_index 3 _ va) in *.
  clearbody i0 i1 i2 i3. rewrite !Forall_cons in Hb. destruct Hb as (H0 & H1 & H2 & H3 & _).
  pose proof (kernel_pt _ _ _ Hk) as Hok. pose proof (pt_root _ _ _ _ Hok) as Hr.
  unfold mbind, M_bind, get, set_ram, modify. cbn [walk alloc ram]. cbv beta iota.
  change (0 =? 3) with false. change (1 =? 3) with false. change (2 =? 3) with false.
  change (3 =? 3) with true. cbv iota.
  set (root := address (page_table (alloc s))) in *.
  destruct (PageTableEntry.present (read64 (ram s) (entry_addr root i0))) eqn:P0; [|done].
  pose proof (pt_child_some _ _ _ _ _ Hok Hr ltac:(cbn; lia) H0 P0) as C0. cbn [app negb] in *.
  set (t1 := address (read64 (ram s) (entry_addr root i0))) in *.
  destruct (PageTableEntry.present (read64 (ram s) (entry_addr t1 i1))) eqn:P1; [|done].
  pose proof (pt_child_some _ _ _ _ _ Hok C0 ltac:(cbn; lia) H1 P1) as C1. cbn [app negb] in *.
  set (t2 := address (read64 (ram s) (entry_addr t1 i1))) in *.
  destruct (PageTableEntry.present (read64 (ram s) (entry_addr t2 i2))) eqn:P2; [|done].
  pose proof (pt_child_some _ _ _ _ _ Hok C1 ltac:(cbn; lia) H2 P2) as C2. cbn [app negb] in *.
  set (t3 := address (read64 (ram s) (entry_addr t2 i2))) in *.
  destruct (PageTableEntry.present (read64 (ram s) (entry_addr t3 i3))) eqn:P3; [|done].
  by exists i0, i1, i2, i3, t3.
Qed.

(** Unmapping a mapped page: the entry is cleared, then the frame is freed. *)
Lemma unmap_run s tables va e :
  kernel_ok s tables → walk_at s va = Some e → 0 < address e / PAGE_SIZE →
  page_bit (memory_bitmap s.(alloc)) (address e / PAGE_SIZE) = true → (∀ p, tables !! p ≠ Some (address e)) →
  ∃ s1 s', unmap_and_free_page va s = Returns ((), s') ∧ s1.(alloc) = s.(alloc) ∧ kernel_ok s' tables ∧
    free_post s1 (address e / PAGE_SIZE) s' ∧ data_kept s tables s' ∧ walk_at s' va = None ∧
    ∀ va', va' / PAGE_SIZE mod 2 ^ 36 ≠ va / PAGE_SIZE mod 2 ^ 36 → walk_at s' va' = walk_at s va'.
Proof.
  intros Hk Hwe Hpos Hused Hfresh. pose proof (unmap_walk s tables va Hk) as Hw. rewrite Hwe in Hw.
  destruct Hw as (i0 & i1 & i2 & i3 & a & Hidx & Ha & Hrun).
  pose proof (indices_bound va) as Hb. rewrite Hidx in Hb.
  destruct (write_leaf (root:=address (page_table (alloc s))) (bitmap:=memory_bitmap (alloc s))
    (ram s) tables i0 i1 i2 i3 a ZERO (kernel_pt _ _ _ Hk) Hb Ha ltac:(done)) as [Hpt' Hm'].
  set (s1 := Sys s.(alloc) (write64 s.(ram) (entry_addr a i3) ZERO)) in *.
  assert (kernel_ok s1 tables) as Hk1 by (split; [apply Hk..|exact Hpt']).
  rewrite <-Hidx in Hm'. destruct (update_walks s tables s1 tables va None Hk Hk1 Hm') as [Hu Ho].
  assert (address e = address e / PAGE_SIZE * PAGE_SIZE) as Ee by apply address_page.
  rewrite Ee in Hrun.
  assert (∀ p, tables !! p ≠ Some (address e / PAGE_SIZE * PAGE_SIZE)) as Hfresh' by (by rewrite <-Ee).
  pose proof (free_kernel s1 tables _ Hk1 Hpos Hused Hfresh') as Hf.
  apply wp_returns in Hf as ([] & s' & Hf & Hk' & Hpost). exists s1, s'.
  split; [by rewrite Hrun|]. split; [done|]. split; [done|]. split; [done|].
  split; [|split; [by rewrite (free_post_walk s1 _ s' _ Hpost)|intros; rewrite (free_post_walk s1 _ s' _ Hpost); by apply Ho]].
  intros x Hx Hxu Hnt. destruct Hpost as (-> & _). rewrite !Forall_cons in Hb.
  apply (data_kept_write_entry s tables [i0; i1; i2] a i3); [done| |tauto|done|done|done].
  apply (pt_frames _ _ _ _ (kernel_pt _ _ _ Hk) _ _ Ha).
Qed.

(** A small address space: the root table in page 1, nothing mapped. *)
Definition demo_sys : sys :=
  Sys {| memory_bitmap := [0xC0; 0x00]; total_pages := 16; free_pages := 14; page_table := 0x1000 |}
      (λ _, 0).
Definition demo_tables : gmap (list Z) Z := {[ [] := 0x1000 ]}.
Lemma demo_tables_Some p a : demo_tables !! p = Some a → p = [] ∧ a = 0x1000.
Proof. unfold demo_tables. by intros [<- <-]%lookup_singleton_Some. Qed.
Lemma demo_sys_ok : kernel_ok demo_sys demo_tables.
Proof.
  split; [split; [split; [by repeat constructor|done]|done|done]|done|done|].
  split.
  - done.
  - intros p a [-> ->]%demo_tables_Some. cbn. by split_and!; [lia|..].
  - by intros p q a [-> _]%demo_tables_Some [-> _]%demo_tables_Some.
  - intros p a i [-> ->]%demo_tables_Some _ _. cbn zeta.
    replace (read64 (ram demo_sys) (entry_addr 4096 i)) with 0 by done.
    apply eq_None_not_Some. by intros [? [? _]%demo_tables_Some].
  - intros p i [a Ha]. apply demo_tables_Some in Ha as [E _]. by destruct p.
Qed.
Lemma map_page_translation_correct_witness :
  ∃ r s' tables', map_page_translation 0x5000 0x7FFFFF123456 READ_WRITE demo_sys = Returns (r, s') ∧
  kernel_ok s' tables' ∧
  match r with
  | Ok _ => walk_at demo_sys 0x7FFFFF123456 = None ∧
      walk_at s' 0x7FFFFF123456 = Some (replace_addr_with READ_WRITE (Z.land 0x5000 ADDR_MASK)) ∧
      ∀ va', va' / PAGE_SIZE mod 2 ^ 36 ≠ 0x7FFFFF123456 / PAGE_SIZE mod 2 ^ 36 →
        walk_at s' va' = walk_at demo_sys va'
  | Err PageAlreadyExists => is_Some (walk_at demo_sys 0x7FFFFF123456) ∧ s' = demo_sys
  | Err OutOfPages => (∀ va', walk_at s' va' = walk_at demo_sys va') ∧
      (∀ n, 0 ≤ n < num_bits (memory_bitmap s'.(alloc)) →
         page_bit (memory_bitmap s'.(alloc)) n = true)
  end.
Proof.
  apply (map_page_translation_correct demo_sys demo_tables);
    [exact demo_sys_ok|done|done|vm_compute; reflexivity].
Defined.

(** C12: [map_page] on its three results.  [Ok]: the address was unmapped and
    now translates, with the given flags, to a page that was free before and is
    in use now.  [PageAlreadyExists]: the allocator is exactly what it was and
    no translation changed.  [OutOfPages]: no translation changed.  The
    invariant is kept in every case. *)
Theorem map_page_correct (s : sys) (tables : gmap (list Z) Z) (virtual_address flags : Z) :
  kernel_ok s tables → free_managed s.(alloc) →
  0 ≤ flags → PageTableEntry.present flags = true →
  ∃ r s' tables', map_page virtual_address flags s = Returns (r, s') ∧ kernel_ok s' tables' ∧
  (∀ va', va' / PAGE_SIZE mod 2 ^ 36 ≠ virtual_address / PAGE_SIZE mod 2 ^ 36 →
     walk_at s' va' = walk_at s va') ∧
  match r with
  | Ok _ => walk_at s virtual_address = None ∧ ∃ n, 0 < n ∧
      page_bit (memory_bitmap s.(alloc)) n = false ∧ page_bit (memory_bitmap s'.(alloc)) n = true ∧
      walk_at s' virtual_address = Some (replace_addr_with flags (n * PAGE_SIZE))
  | Err PageAlreadyExists => is_Some (walk_at s virtual_address) ∧ s'.(alloc) = s.(alloc) ∧
      walk_at s' virtual_address = walk_at s virtual_address
  | Err OutOfPages => walk_at s' virtual_address = walk_at s virtual_address
  end.
Proof.
  intros Hk Htot Hf Hpres. apply wp_returns_ex. unfold map_page. rewrite wp_bind.
  eapply wp_mono; [apply wp_find_and_reserve_page; apply Hk|].
  intros [f|[]] s1 Hres.
  2:{ destruct Hres as (_ & -> & _). rewrite wp_ret. exists tables. by split_and!. }
  destruct (reserve_kernel _ _ _ _ Hk Hres) as (Hfa & Hfb & Hfree & Hused & Hgr & Hk1 & Hframe).
  pose proof Hres as (_ & n & -> & Hn & _). rewrite Z.div_mul in Hfree, Hused by done.
  assert (∀ va', walk_at s1 va' = walk_at s va') as Hw1.
  { intros va'. by apply (reserve_walk s tables s1 (n * PAGE_SIZE)). }
  rewrite wp_bind.
  eapply wp_mono; [by apply (wp_map_page_translation s1 tables (n * PAGE_SIZE) virtual_address flags Hk1); lia|].
  rewrite (land_ADDR_MASK_id (n * PAGE_SIZE)) by (done || lia).
  intros r s2 Hpost. pose proof Hpost as (t2 & Hk2 & Hgr2 & Hnew & _ & Hr).
  assert (page_bit (memory_bitmap (alloc s2)) n = true) as Hused2
    by (apply (grows_bits _ _ Hgr2); [lia|done]).
  destruct r as [[]|err].
  { rewrite wp_ret. exists t2. destruct Hr as [Hold Hnewm].
    apply (update_walks s1 tables s2 t2) in Hnewm; [|done..].
    rewrite present_replace_addr, Hpres in Hnewm.
    split_and!; [done| | |exists n; split_and!; try done; [lia|apply Hnewm]].
    - intros va' Hne. rewrite <-Hw1. by apply Hnewm.
    - by rewrite <-Hw1, <-(mapping_walk_at s1 tables). }
  assert (∀ p, t2 !! p ≠ Some (n * PAGE_SIZE)) as Hfresh.
  { intros p Hp. destruct (Hnew p _ Hp) as [Hp'|Hb]; rewrite ?Z.div_mul in * by done; [|congruence].
    destruct (pt_frames _ _ _ _ (kernel_pt _ _ _ Hk) p _ Hp') as (_ & _ & _ & Hb).
    rewrite Z.div_mul in Hb by done. congruence. }
  rewrite wp_bind. eapply wp_mono; [by apply (free_kernel s2 t2 n Hk2); [lia|..]|].
  intros [] s3 [Hk3 Hfp]. rewrite wp_ret. exists t2.
  assert (∀ va', walk_at s3 va' = walk_at s va') as Hw3.
  { intros va'. rewrite (free_post_walk s2 n s3) by done. rewrite <-Hw1.
    by apply (map_err_walks (n * PAGE_SIZE) virtual_address flags s1 tables err s2). }
  split_and!; [done|by intros|]. destruct err; [done|].
  destruct Hr as (Hold & -> & ->). split_and!; [|apply (reserve_free_alloc s n s1); first [by apply Hk|done]|done].
  by rewrite <-Hw1, <-(mapping_walk_at s1 tables).
Qed.
Lemma map_page_correct_witness :
  ∃ r s' tables', map_page 0x7FFFFF123456 READ_WRITE demo_sys = Returns (r, s') ∧ kernel_ok s' tables' ∧
  (∀ va', va' / PAGE_SIZE mod 2 ^ 36 ≠ 0x7FFFFF123456 / PAGE_SIZE mod 2 ^ 36 →
     walk_at s' va' = walk_at demo_sys va') ∧
  match r with
  | Ok _ => walk_at demo_sys 0x7FFFFF123456 = None ∧ ∃ n, 0 < n ∧
      page_bit (memory_bitmap demo_sys.(alloc)) n = false ∧ page_bit (memory_bitmap s'.(alloc)) n = true ∧
      walk_at s' 0x7FFFFF123456 = Some (replace_addr_with READ_WRITE (n * PAGE_SIZE))
  | Err PageAlreadyExists => is_Some (walk_at demo_sys 0x7FFFFF123456) ∧ s'.(alloc) = demo_sys.(alloc) ∧
      walk_at s' 0x7FFFFF123456 = walk_at demo_sys 0x7FFFFF123456
  | Err OutOfPages => walk_at s' 0x7FFFFF123456 = walk_at demo_sys 0x7FFFFF123456
  end.
Proof.
  apply (map_page_correct demo_sys demo_tables);
    [exact demo_sys_ok|by apply free_managed_all|done|vm_compute; reflexivity].
Defined.

(** C13: [unmap_and_free_page] never panics.  An unmapped address is a no-op.
    Otherwise the address no longer translates, every other page translates as
    before, and the frame that was mapped is free again (when the allocator
    manages it), all of it provided the mapped frame is a used page that is not
    itself a page table. *)
Theorem unmap_and_free_page_correct (s : sys) (tables : gmap (list Z) Z) (virtual_address : Z) :
  kernel_ok s tables → 0 ≤ virtual_address →
  (∀ e, walk_at s virtual_address = Some e → 0 < address e / PAGE_SIZE ∧
     page_bit (memory_bitmap s.(alloc)) (address e / PAGE_SIZE) = true ∧
     ∀ p, tables !! p ≠ Some (address e)) →
  ∃ s', unmap_and_free_page virtual_address s = Returns ((), s') ∧ kernel_ok s' tables ∧
  walk_at s' virtual_address = None ∧
  (∀ va', va' / PAGE_SIZE mod 2 ^ 36 ≠ virtual_address / PAGE_SIZE mod 2 ^ 36 →
     walk_at s' va' = walk_at s va') ∧
  match walk_at s virtual_address with
  | None => s' = s
  | Some e => address e / PAGE_SIZE < total_pages s.(alloc) →
      page_bit (memory_bitmap s'.(alloc)) (address e / PAGE_SIZE) = false ∧
      free_pages s'.(alloc) = free_pages s.(alloc) + 1
  end.
Proof.
  intros Hk Hva Hframe. destruct (walk_at s virtual_address) as [e|] eqn:Hwe.
  2:{ pose proof (unmap_walk s tables virtual_address Hk) as Hw. rewrite Hwe in Hw. by exists s. }
  destruct (Hframe e eq_refl) as (Hpos & Hused & Hfresh).
  destruct (unmap_run s tables virtual_address e Hk Hwe Hpos Hused Hfresh)
    as (s1 & s' & Hrun & Ha1 & Hk' & Hpost & _ & Hu & Ho). exists s'. split_and!; try done.
  intros Hlt. destruct Hpost as (_ & _ & Hin). rewrite <-Ha1 in Hlt. destruct (Hin Hlt) as (Hbits & _ & _ & _ & Hfree & _).
  split; [|by rewrite Hfree, Ha1]. rewrite Hbits by lia. by rewrite Z.eqb_refl.
Qed.

(** An address space with page 5 mapped read-write at [0x5000]. *)
Definition demo_mapped : sys :=
  let set table index target m := write64 m (entry_addr table index) (replace_addr_with READ_WRITE target) in
  Sys {| memory_bitmap := [0xFC; 0x00]; total_pages := 16; free_pages := 10; page_table := 0x1000 |}
    (set 0x1000 0 0x2000 (set 0x2000 0 0x3000 (set 0x3000 0 0x4000 (set 0x4000 5 0x5000 (λ _, 0))))).
Definition demo_mapped_tables : gmap (list Z) Z :=
  <[[] := 0x1000]> (<[[0] := 0x2000]> (<[[0; 0] := 0x3000]> {[ [0; 0; 0] := 0x4000 ]})).
Lemma demo_mapped_tables_Some p a : demo_mapped_tables !! p = Some a →
  (p = [] ∧ a = 0x1000) ∨ (p = [0] ∧ a = 0x2000) ∨ (p = [0; 0] ∧ a = 0x3000) ∨ (p = [0; 0; 0] ∧ a = 0x4000).
Proof.
  unfold demo_mapped_tables.
  intros [[<- <-]|[_ [[<- <-]|[_ [[<- <-]|[_ [<- <-]%lookup_singleton_Some]]%lookup_insert_Some]]%lookup_insert_Some]]%lookup_insert_Some;
    tauto.
Qed.
Lemma demo_mapped_children :
  forallb (λ '(p, a), forallb (λ i,
    let e := read64 (ram demo_mapped) (entry_addr a i) in
    bool_decide (demo_mapped_tables !! (p ++ [i]) =
      if PageTableEntry.present e then Some (address e) else None)) (seqZ 0 512))
    [([], 0x1000); ([0], 0x2000); ([0; 0], 0x3000)] = true.
Proof. vm_compute. reflexivity. Qed.
Lemma demo_mapped_ok : kernel_ok demo_mapped demo_mapped_tables.
Proof.
  split; [split; [split; [by repeat constructor|done]|done|done]|done|done|].
  split.
  - done.
  - intros p a [[-> ->]|[[-> ->]|[[-> ->]|[-> ->]]]]%demo_mapped_tables_Some;
      (split_and!; [cbn; lia|done|lia|lia|done]).
  - by intros p q a [[-> ->]|[[-> ->]|[[-> ->]|[-> ->]]]]%demo_mapped_tables_Some
      [[-> ?]|[[-> ?]|[[-> ?]|[-> ?]]]]%demo_mapped_tables_Some.
  - intros p a i Hp Hl Hi. cbv zeta. pose proof demo_mapped_children as H.
    rewrite forallb_forall in H. specialize (H (p, a)). cbv iota beta in H.
    rewrite forallb_forall in H. eapply bool_decide_eq_true_1, H; [|apply list_elem_of_In, elem_of_seqZ; lia].
    apply demo_mapped_tables_Some in Hp as [[-> ->]|[[-> ->]|[[-> ->]|[-> ->]]]]; cbn in *; auto. lia.
  - intros p i [a [[E _]|[[E _]|[[E _]|[E _]]]]%demo_mapped_tables_Some].
    { by destruct p. }
    all: first [apply (app_inj_tail p []) in E as [-> ->] | apply (app_inj_tail p [0]) in E as [-> ->]
      | apply (app_inj_tail p [0; 0]) in E as [-> ->]]; (split; [by eexists|lia]).
Qed.
Lemma unmap_and_free_page_correct_witness :
  ∃ s', unmap_and_free_page 0x5000 demo_mapped = Returns ((), s') ∧ kernel_ok s' demo_mapped_tables ∧
  walk_at s' 0x5000 = None ∧
  (∀ va', va' / PAGE_SIZE mod 2 ^ 36 ≠ 0x5000 / PAGE_SIZE mod 2 ^ 36 →
     walk_at s' va' = walk_at demo_mapped va') ∧
  match walk_at demo_mapped 0x5000 with
  | None => s' = demo_mapped
  | Some e => address e / PAGE_SIZE < total_pages demo_mapped.(alloc) →
      page_bit (memory_bitmap s'.(alloc)) (address e / PAGE_SIZE) = false ∧
      free_pages s'.(alloc) = free_pages demo_mapped.(alloc) + 1
  end.
Proof.
  apply unmap_and_free_page_correct; [exact demo_mapped_ok|lia|].
  intros e He. assert (e = replace_addr_with READ_WRITE 0x5000) as -> by (vm_compute in He; by injection He as <-).
  split; [done|]. split; [done|].
  by intros p [[_ ?]|[[_ ?]|[[_ ?]|[_ ?]]]]%demo_mapped_tables_Some.
Defined.

(** two virtual addresses select the same entries at every level exactly
    when they agree on bits 47..12: the four masks and shifts split the 48-bit
    page number without loss, and the top sixteen bits are ignored. *)
Theorem level_indices_page (va va' : Z) :
  indices va = indices va' ↔ va / PAGE_SIZE mod 2 ^ 36 = va' / PAGE_SIZE mod 2 ^ 36.
Proof. apply indices_eq_iff. Qed.

(** the page count of the range operations: for a non-empty range that
    does not wrap around, [num_pages] is the number of pages the range
    [[start, start + size)] meets; an empty range and a range that wraps panic. *)
Theorem num_pages_of_correct (start size : Z) (s : sys) :
  0 ≤ start < 2 ^ 64 → 0 ≤ size < 2 ^ 64 →
  (num_pages_of start size s =
    if (0 <? size) && (start + size <=? 2 ^ 64)
    then Returns ((start + size - 1) / PAGE_SIZE - start / PAGE_SIZE + 1, s) else Panics).
Proof.
  intros Hs Hz. unfold num_pages_of, chk, mbind, M_bind.
  destruct (Z.ltb_spec 0 size) as [Hpos|Hpos]; cbn [andb].
  2:{ destruct (fits 64 (size - 1)) eqn:E; [apply fits_spec in E; lia|done]. }
  rewrite (proj2 (fits_spec 64 (size - 1))) by lia. cbn [mret M_ret].
  destruct (Z.leb_spec (start + size) (2 ^ 64)) as [Hle|Hle].
  2:{ destruct (fits 64 (start + (size - 1))) eqn:E; [apply fits_spec in E; lia|done]. }
  rewrite (proj2 (fits_spec 64 (start + (size - 1)))) by lia. cbn [mret M_ret].
  unfold mret, M_ret. do 2 f_equal. f_equal.
  rewrite !align_to_page_spec, Z.shiftr_div_pow2 by lia. change (2 ^ 12) with 4096. unfold PAGE_SIZE.
  replace (start + (size - 1)) with (start + size - 1) by lia. Z.div_mod_to_equations. lia.
Qed.
Lemma num_pages_of_correct_witness :
  num_pages_of 0x1FFF 2 demo_sys =
    if (0 <? 2) && (0x1FFF + 2 <=? 2 ^ 64)
    then Returns ((0x1FFF + 2 - 1) / PAGE_SIZE - 0x1FFF / PAGE_SIZE + 1, demo_sys) else Panics.
Proof. apply num_pages_of_correct; lia. Defined.
