(* ===== verification/UserMap.v ===== *)
(** * User address spaces (kernel/src/arch/x86_64/user_page_mapping.rs)

    [UserPageMapper] is the address of its PML4 page; its methods run over
    [sys], the initialised page allocator with the physical memory (the
    [page_allocation] functions they call take the lock and unwrap it,
    PageAlloc.with_allocator).  [UnmapMemTask] and [MapMemTask] are resumable
    loops: a call of [run] asks [should_suspend] before every page, and the
    model gives it the list of the answers. *)
From S2P Require Import Prelude Paging PageAlloc PageTables.

Inductive UserPageMapperError : Type := UserPageAlreadyExists | UserOutOfMemory.

(** A page table is reached through a raw pointer, which must not be null. *)
Definition table_at (current_address : Z) : M sys () :=
  if current_address =? 0 then undefined else mret ().

(** [table[256..512].copy_from_slice(kernel_pml4)]: the slice and the source
    must have the same length, and the source is the whole table. *)
Definition copy_entries (dst dst_len src src_len : Z) : M sys () :=
  rassert (dst_len =? src_len);;
  set_ram (λ m x, if (dst <=? x) && (x <? dst + 8 * dst_len) then m (src + (x - dst)) else m x).

(** How the body of a labelled block was left. *)
Inductive flow (A : Type) : Type :=
  | Return (a : A)
  | Break (a : A).
Arguments Return {A} a.
Arguments Break {A} a.

Module UserPageMapper.
(** [UserPageMapper::new]. *)
Definition new : M sys (result Z ReservePageError) :=
  r ← find_and_reserve_page;
  match r with
  | Err e => mret (Err e)
  | Ok pml4 =>
      set_ram (λ m, fill m pml4 (8 * 256) 0);;
      s ← get;
      copy_entries (entry_addr pml4 256) (512 - 256) (address (page_table s.(alloc))) 512;;
      mret (Ok pml4)
  end.

(** The walk of [map_blank_page]: the outcome of the ['blk] block with
    [pages_used] and the parent pages created, in order of level. *)
Fixpoint map_blank_loop (levels : list (Z * Z)) (current_address virtual_address child_flags
    pages_used : Z) (parent_pages_created : list Z) :
    M sys (flow (result () UserPageMapperError) * Z * list Z) :=
  match levels with
  | [] => mret (Break (Ok ()), pages_used, parent_pages_created)
  | (i, level_mask) :: rest =>
      table_at current_address;;
      s ← get;
      let entry := entry_addr current_address (level_index i level_mask virtual_address) in
      if negb (PageTableEntry.present (read64 s.(ram) entry)) then
        pages_used ← chk 64 (pages_used + 1);
        r ← find_and_reserve_page;
        match r with
        | Err _ => mret (Break (Err UserOutOfMemory), pages_used, parent_pages_created)
        | Ok new_page =>
            set_ram (λ m, fill m new_page PAGE_SIZE 0);;
            let parent_pages_created :=
              if i <? 3 then parent_pages_created ++ [new_page] else parent_pages_created in
            let stripped_address := Z.land new_page 0x000FFFFFFFFFF000 in
            let new_entry :=
              Z.lor stripped_address (if i <? 3 then READ_WRITE_EXECUTE else child_flags) in
            set_ram (λ m, write64 m entry new_entry);;
            s ← get;
            map_blank_loop rest (address (read64 s.(ram) entry)) virtual_address child_flags
              pages_used parent_pages_created
        end
      else if i =? 3 then
        mret (Return (Err UserPageAlreadyExists), pages_used, parent_pages_created)
      else
        map_blank_loop rest (address (read64 s.(ram) entry)) virtual_address child_flags
          pages_used parent_pages_created
  end.
(** The clean-up loop. *)
Fixpoint free_created (pages : list Z) (pages_used : Z) : M sys Z :=
  match pages with
  | [] => mret pages_used
  | page :: rest =>
      free_page page;;
      pages_used ← chk 64 (pages_used - 1);
      free_created rest pages_used
  end.
(** [map_blank_page]: the result and the new value of [*pages_used]. *)
Definition map_blank_page (pml4 virtual_address flags pages_used : Z) :
    M sys (result () UserPageMapperError * Z) :=
  let child_flags := Z.lor (Z.land flags 0x8000000000000007) 5 in
  '(blk, pages_used, created) ←
    map_blank_loop LEVEL_MASKS pml4 virtual_address child_flags pages_used [];
  match blk with
  | Return r => mret (r, pages_used)
  | Break (Ok _) => mret (Ok (), pages_used)
  | Break (Err e) => pages_used ← free_created created pages_used; mret (Err e, pages_used)
  end.

(** The first loop of [unmap_page]: the (index, table) pairs, or [None] when an
    entry on the way is not present. *)
Fixpoint collect_tables (levels : list (Z * Z)) (current_address virtual_address : Z)
    (table_addresses : list (Z * Z)) : M sys (option (list (Z * Z))) :=
  match levels with
  | [] => mret (Some table_addresses)
  | (i, level_mask) :: rest =>
      table_at current_address;;
      let index := level_index i level_mask virtual_address in
      s ← get;
      let entry := read64 s.(ram) (entry_addr current_address index) in
      rassert (negb (PageTableEntry.huge_page entry));;
      if negb (PageTableEntry.present entry) then mret None
      else collect_tables rest (address entry) virtual_address
             (table_addresses ++ [(index, current_address)])
  end.
(** The second loop, over [table_addresses.iter().rev().enumerate()].  The
    emptiness test at the end of its body is a [for] loop whose [break] leaves
    only that inner loop, so it has no effect. *)
Fixpoint free_tables (tables : list (Z * Z)) (tables_checked free_table_check_depth pages_freed : Z) :
    M sys Z :=
  match tables with
  | [] => mret pages_freed
  | (prev_table_index, table) :: rest =>
      s ← get;
      let entry := entry_addr table prev_table_index in
      let page_address := address (read64 s.(ram) entry) in
      set_ram (λ m, write64 m entry ZERO);;
      free_page page_address;;
      if free_table_check_depth <=? tables_checked then mret (pages_freed + 1)
      else free_tables rest (tables_checked + 1) free_table_check_depth (pages_freed + 1)
  end.
Definition unmap_page (pml4 virtual_address free_table_check_depth : Z) : M sys Z :=
  let virtual_address := Z.land virtual_address 0x000FFFFFFFFFF000 in
  r ← collect_tables LEVEL_MASKS pml4 virtual_address [];
  match r with
  | None => mret 0
  | Some table_addresses => free_tables (rev table_addresses) 0 free_table_check_depth 0
  end.

(** [map_mem_copy_from_buffer]: the walk for one page, with the write to the
    leaf page; gives the new [start_offset] and [data_written]. *)
Fixpoint copy_walk (levels : list (Z * Z)) (current_address virtual_address : Z) (buffer : list Z)
    (start_offset data_written : Z) : M sys (result (Z * Z) ReservePageError) :=
  match levels with
  | [] => mret (Ok (start_offset, data_written))
  | (i, level_mask) :: rest =>
      table_at current_address;;
      s ← get;
      let entry := entry_addr current_address (level_index i level_mask virtual_address) in
      r ←
        (if negb (PageTableEntry.present (read64 s.(ram) entry)) then
           r ← find_and_reserve_page;
           match r with
           | Err e => mret (Err e)
           | Ok new_page =>
               let stripped_address := Z.land new_page 0x000FFFFFFFFFF000 in
               (if i <? 3 then
                  set_ram (λ m, fill m new_page PAGE_SIZE 0);;
                  set_ram (λ m, write64 m entry (Z.lor stripped_address READ_WRITE_EXECUTE))
                else set_ram (λ m, write64 m entry (Z.lor stripped_address READ)));;
               mret (Ok ())
           end
         else mret (Ok ()));
      match r with
      | Err e => mret (Err e)
      | Ok _ =>
          s ← get;
          let target := address (read64 s.(ram) entry) in
          if i =? 3 then
            left ← chk 64 (Z.of_nat (length buffer) - data_written);
            room ← chk 64 (4096 - start_offset);
            let data_to_write := Z.min left room in
            table_at target;;
            rassert (data_to_write =? left);;
            set_ram (λ m, write_bytes m (target + start_offset) (drop (Z.to_nat data_written) buffer));;
            set_ram (λ m, fill m (target + start_offset + data_to_write)
                            (4096 - (start_offset + data_to_write)) 0);;
            copy_walk rest target virtual_address buffer 0 (data_written + data_to_write)
          else copy_walk rest target virtual_address buffer start_offset data_written
      end
  end.
Fixpoint copy_pages (pages : list Z) (pml4 virtual_start_address : Z) (buffer : list Z)
    (start_offset data_written : Z) : M sys (result () ReservePageError) :=
  match pages with
  | [] => mret (Ok ())
  | page_i :: rest =>
      virtual_address ← chk 64 (virtual_start_address + Z.shiftl page_i 12);
      r ← copy_walk LEVEL_MASKS pml4 virtual_address buffer start_offset data_written;
      match r with
      | Err e => mret (Err e)
      | Ok (start_offset, data_written) =>
          copy_pages rest pml4 virtual_start_address buffer start_offset data_written
      end
  end.
Definition map_mem_copy_from_buffer (pml4 virtual_start_address size : Z) (buffer : list Z) :
    M sys (result () ReservePageError) :=
  num_pages ← num_pages_of virtual_start_address size;
  copy_pages (seqZ 0 num_pages) pml4 virtual_start_address buffer
    (Z.land virtual_start_address 0xFFF) 0.

(** The walk [unmap_mem], [change_flags] and [change_flags_relaxing] share:
    parent entries are followed whether or not they are present, and [act] is
    done on the leaf entry if it is present. *)
Fixpoint leaf_walk (levels : list (Z * Z)) (current_address virtual_address : Z)
    (act : Z → M sys ()) : M sys () :=
  match levels with
  | [] => mret ()
  | (i, level_mask) :: rest =>
      table_at current_address;;
      s ← get;
      let entry := entry_addr current_address (level_index i level_mask virtual_address) in
      let e := read64 s.(ram) entry in
      rassert (negb (PageTableEntry.huge_page e));;
      if i =? 3 then
        if negb (PageTableEntry.present e) then mret () else act entry
      else leaf_walk rest (address e) virtual_address act
  end.
Definition for_pages (pml4 start_address size : Z) (act : Z → M sys ()) : M sys () :=
  let actual_start_address := Z.land start_address 0x000FFFFFFFFFF000 in
  num_pages ← num_pages_of start_address size;
  for_each (λ page_i,
    virtual_address ← chk 64 (actual_start_address + Z.shiftl page_i 12);
    leaf_walk LEVEL_MASKS pml4 virtual_address act) (seqZ 0 num_pages).

Definition unmap_mem (pml4 start_address size : Z) : M sys () :=
  for_pages pml4 start_address size (λ entry,
    s ← get;
    free_page (address (read64 s.(ram) entry));;
    set_ram (λ m, write64 m entry ZERO)).
Definition change_flags (pml4 start_address size flags : Z) : M sys () :=
  let actual_flags := Z.lor (Z.land flags 0x80000000000001FE) 1 in
  for_pages pml4 start_address size (λ entry,
    set_ram (λ m, write64 m entry (Z.lor (address (read64 m entry)) actual_flags))).
Definition change_flags_relaxing (pml4 start_address size flags : Z) : M sys () :=
  let relaxation_flags := Z.lor (Z.land flags 0x6) 1 in
  let no_execute_mask :=
    if Z.land flags (Z.shiftl 1 63) =? 0 then unot 64 (Z.shiftl 1 63) else unot 64 0 in
  for_pages pml4 start_address size (λ entry,
    set_ram (λ m, write64 m entry
      (Z.land (Z.lor (address (read64 m entry)) relaxation_flags) no_execute_mask))).

(** [free_page_tree] at level [3 - below]: huge pages are [todo!]. *)
Fixpoint free_page_tree (below : nat) (node : Z) : M sys () :=
  if negb (PageTableEntry.present node) then mret ()
  else if PageTableEntry.huge_page node then panic
  else
    match below with
    | O => mret ()
    | S below =>
        for_each (λ i,
          s ← get;
          let entry := read64 s.(ram) (entry_addr (address node) i) in
          if PageTableEntry.present entry then free_page_tree below entry else mret ())
          (seqZ 0 512)
    end;;
    free_page (address node).
(** Dropping the mapper: the lower half of the PML4, then the PML4 page itself
    (the drop glue of its field). *)
Definition drop (pml4 : Z) : M sys () :=
  for_each (λ i,
    s ← get;
    let entry := read64 s.(ram) (entry_addr pml4 i) in
    if PageTableEntry.present entry then free_page_tree 3 entry else mret ()) (seqZ 0 256);;
  free_page pml4.
End UserPageMapper.

(** ** The resumable tasks *)

(** The number of parent tables to check: [4 - i] for the first level [i] at
    which the two addresses select different entries, 0 if there is none. *)
Definition free_table_check_depth (page_address next_page_address : Z) : Z :=
  match list_find (λ '(i, level_mask),
          Z.land page_address level_mask ≠ Z.land next_page_address level_mask) LEVEL_MASKS with
  | Some (_, (i, _)) => 4 - i
  | None => 0
  end.

Module UnmapMemTask.
Record t : Type := Build { current_address : Z; pages_left : Z; pages_freed : Z }.
Definition new (start_address num_pages : Z) : t := Build start_address num_pages 0.
(** One iteration of the loop of [run], after [should_suspend]. *)
Definition step (pml4 : Z) (self : t) : M sys (t * option Z) :=
  let page_address := current_address self in
  next_page_address ← chk 64 (page_address + 4096);
  let depth := if pages_left self =? 0 then 3
               else free_table_check_depth page_address next_page_address in
  freed ← UserPageMapper.unmap_page pml4 page_address depth;
  pages_freed ← chk 64 (pages_freed self + freed);
  pages_left ← chk 64 (pages_left self - 1);
  mret (Build next_page_address pages_left pages_freed,
        if pages_left =? 0 then Some pages_freed else None).
End UnmapMemTask.

Inductive MapMemError : Type := OutOfMemory.

Module SegmentFlags.
Record t : Type := Build { read : bool; write : bool; execute : bool }.
End SegmentFlags.

Module MapMemTask.
Inductive MapMemState : Type :=
  | Mapping (pages_left flags : Z)
  | FailRewinding (error : MapMemError).
Record t : Type := Build {
  start_address : Z;
  current_address : Z;
  pages_allocated : Z;
  state : MapMemState;
}.
Definition segment_entry (flags : SegmentFlags.t) : Z :=
  from_data (PageTableData.Build true (SegmentFlags.write flags) (SegmentFlags.read flags)
    false false false false false false 0 (negb (SegmentFlags.execute flags))).
Definition new (start_address num_pages : Z) (flags : SegmentFlags.t) : t :=
  Build start_address start_address 0 (Mapping num_pages (segment_entry flags)).
(** [page_address.saturating_sub(4096)]. *)
Definition previous_page (page_address : Z) : Z := Z.max 0 (page_address - 4096).
Definition step (pml4 : Z) (self : t) : M sys (t * option (result Z MapMemError)) :=
  let page_address := current_address self in
  match state self with
  | Mapping pages_left flags =>
      next_page_address ← chk 64 (page_address + 4096);
      '(r, pages_allocated) ←
        UserPageMapper.map_blank_page pml4 page_address flags (pages_allocated self);
      match r with
      | Err UserOutOfMemory =>
          mret (Build (start_address self) (previous_page page_address) pages_allocated
                  (FailRewinding OutOfMemory), None)
      | Err UserPageAlreadyExists => panic
      | Ok _ =>
          pages_left ← chk 64 (pages_left - 1);
          mret (Build (start_address self) next_page_address pages_allocated
                  (Mapping pages_left flags),
                if pages_left =? 0 then Some (Ok pages_allocated) else None)
      end
  | FailRewinding error =>
      let next_page_address := previous_page page_address in
      let depth := if page_address =? start_address self then 3
                   else free_table_check_depth page_address next_page_address in
      freed ← UserPageMapper.unmap_page pml4 page_address depth;
      pages_allocated ← chk 64 (pages_allocated self - freed);
      let self' := Build (start_address self) next_page_address pages_allocated
                     (FailRewinding error) in
      if page_address =? start_address self then
        rassert (pages_allocated =? 0);;
        mret (self', Some (Err error))
      else mret (self', None)
  end.
End MapMemTask.

(** [run] of either task: [answers] are the results of the successive calls of
    [should_suspend]; a list that runs out is a run that is still going. *)
Fixpoint run_task {T R} (step : T → M sys (T * option R)) (answers : list bool) (self : T) :
    M sys (T * Poll R) :=
  match answers with
  | [] => out_of_fuel
  | true :: _ => mret (self, Pending)
  | false :: answers =>
      '(self, done) ← step self;
      match done with
      | Some r => mret (self, Ready r)
      | None => run_task step answers self
      end
  end.
Definition UnmapMemTask_run (pml4 : Z) := run_task (UnmapMemTask.step pml4).
Definition MapMemTask_run (pml4 : Z) := run_task (MapMemTask.step pml4).

(** The page task does not move the start of its segment. *)
Lemma map_step_start pm task s task' r s' : MapMemTask.step pm task s = Returns (task', r, s') →
  MapMemTask.start_address task' = MapMemTask.start_address task.
Proof.
  unfold MapMemTask.step. destruct (MapMemTask.state task).
  - intros (n & s1 & _ & (a & s2 & _ & H)%bind_returns)%bind_returns.
    destruct a as [[u|[]] pages]; [apply bind_returns in H as (? & ? & _ & H)|..]; by inversion H.
  - intros (n & s1 & _ & (a & s2 & _ & H)%bind_returns)%bind_returns.
    case_match; [apply bind_returns in H as (? & ? & _ & H)|]; by inversion H.
Qed.
Lemma map_run_start pm answers task s task' p s' : MapMemTask_run pm answers task s = Returns (task', p, s') →
  MapMemTask.start_address task' = MapMemTask.start_address task.
Proof.
  unfold MapMemTask_run. revert task s. induction answers as [|[] answers IH]; intros task s; cbn; [done|by intros [= <-]|].
  intros ([t1 d] & s1 & E & H)%bind_returns. apply map_step_start in E.
  destruct d; [by inversion H; subst|]. apply IH in H. congruence.
Qed.

(** ** A mapper cannot be constructed *)

(** [UserPageMapper::new] never returns a mapper: the kernel half
    [pml4_table[256..512]] has 256 entries and is filled with
    [copy_from_slice] from the whole 512-entry kernel table, which panics.
    Whatever the allocator and the memory hold, the call panics or reports that
    no page is free. *)
Theorem new_never_succeeds (s : sys) :
  UserPageMapper.new s = Panics ∨ ∃ s', UserPageMapper.new s = Returns (Err ReservePageErr, s').
Proof.
  unfold UserPageMapper.new, mbind, M_bind.
  assert (find_and_reserve_page s = Panics ∨ ∃ r s', find_and_reserve_page s = Returns (r, s')) as [->|(r & s' & ->)];
    [|by left|].
  - unfold find_and_reserve_page, mbind, M_bind, get. cbv beta iota.
    destruct (first_free _ _) as [[j byte]|]; [|by eauto].
    unfold chk. destruct (fits 64 (free_pages (alloc s) - 1)); [|by left].
    unfold set_alloc, modify, mret, M_ret. destruct (fits _ _); [|by left].
    unfold rassert. destruct (negb _); [|by left]. right. by eauto.
  - destruct r as [pml4|[]]; [by left|]. right. by eauto.
Qed.

(** ** Suspension *)

(** The task driven by its caller: each slice is a call of [run] that is
    suspended after [k] pages. *)
Fixpoint drive {T R} (step : T → M sys (T * option R)) (slices : list nat) (self : T) :
    M sys (T * Poll R) :=
  match slices with
  | [] => mret (self, Pending)
  | k :: slices =>
      '(self, p) ← run_task step (replicate k false ++ [true]) self;
      match p with
      | Ready r => mret (self, Ready r)
      | Pending => drive step slices self
      end
  end.

Lemma run_task_split {T R} (step : T → M sys (T * option R)) k answers self s :
  run_task step (replicate k false ++ answers) self s =
  match run_task step (replicate k false ++ [true]) self s with
  | Returns ((self', Pending), s') => run_task step answers self' s'
  | o => o
  end.
Proof.
  revert self s. induction k as [|k IH]; intros self s; cbn [replicate app run_task]; [done|].
  unfold mbind, M_bind. destruct (step self s) as [[[self1 [r|]] s1]| | |]; [done| |done..].
  apply IH.
Qed.

Lemma drive_run {T R} (step : T → M sys (T * option R)) slices self s :
  drive step slices self s = run_task step (replicate (sum_list slices) false ++ [true]) self s.
Proof.
  revert self s. induction slices as [|k slices IH]; intros self s; [done|].
  cbn [drive sum_list]. rewrite replicate_add, <-app_assoc, run_task_split.
  unfold mbind, M_bind. destruct (run_task _ _ self s) as [[[self1 []] s1]| | |]; try done.
Qed.

(** suspension is transparent: driving an [UnmapMemTask] or a [MapMemTask]
    through any sequence of calls of [run], each suspended after the given
    number of pages, has the same outcome (task, result, memory, allocator,
    panics included) as one call that is suspended after as many pages in
    all. *)
Theorem suspension_transparent (pml4 : Z) (slices : list nat) :
  (∀ self s, drive (UnmapMemTask.step pml4) slices self s =
     UnmapMemTask_run pml4 (replicate (sum_list slices) false ++ [true]) self s) ∧
  (∀ self s, drive (MapMemTask.step pml4) slices self s =
     MapMemTask_run pml4 (replicate (sum_list slices) false ++ [true]) self s).
Proof. split; intros; apply drive_run. Qed.

(** ** The rewind of a failed mapping *)

(** No lower-level table hangs off the PML4. *)
Definition pml4_empty (s : sys) (pml4 : Z) : Prop := pml4 ≠ 0 ∧ ∀ i, 0 ≤ i < 512 →
  PageTableEntry.present (read64 s.(ram) (entry_addr pml4 i)) = false ∧
  PageTableEntry.huge_page (read64 s.(ram) (entry_addr pml4 i)) = false.

Lemma level_index_bound i mask va : 0 ≤ level_index i mask va < 512.
Proof. unfold level_index. apply Z.mod_pos_bound. lia. Qed.
Lemma first_free_full bm i : Forall (λ b, b = 0xFF) bm → first_free bm i = None.
Proof. intros H. revert i. induction H as [|b bm -> _ IH]; intros i; cbn; [done|apply IH]. Qed.
Lemma unmap_page_empty s pml4 va depth :
  pml4_empty s pml4 → UserPageMapper.unmap_page pml4 va depth s = Returns (0, s).
Proof.
  intros [Hnz He]. unfold UserPageMapper.unmap_page, LEVEL_MASKS. cbn [UserPageMapper.collect_tables].
  unfold table_at, mbind, M_bind, get. rewrite (proj2 (Z.eqb_neq pml4 0) Hnz). cbn [mret M_ret].
  destruct (He (level_index 0 0xFF8000000000 (Z.land va 0x000FFFFFFFFFF000))) as [-> ->];
    [apply level_index_bound|done].
Qed.
Lemma map_blank_page_full s pml4 va flags used :
  pml4_empty s pml4 → Forall (λ b, b = 0xFF) (memory_bitmap s.(alloc)) → 0 ≤ used < 2 ^ 64 - 1 →
  UserPageMapper.map_blank_page pml4 va flags used s = Returns ((Err UserOutOfMemory, used + 1), s).
Proof.
  intros [Hnz He] Hfull Hu. unfold UserPageMapper.map_blank_page, LEVEL_MASKS.
  cbn [UserPageMapper.map_blank_loop].
  unfold table_at, mbind, M_bind, get. rewrite (proj2 (Z.eqb_neq pml4 0) Hnz). cbn [mret M_ret].
  destruct (He (level_index 0 0xFF8000000000 va)) as [-> _]; [apply level_index_bound|].
  cbn [negb]. unfold chk. rewrite (proj2 (fits_spec 64 (used + 1))) by lia. cbn [mret M_ret].
  unfold find_and_reserve_page, mbind, M_bind, get. rewrite first_free_full by done. done.
Qed.

(** a [MapMemTask] that runs out of memory on its first page never
    completes.  The rewind starts one page below the range, so it never meets
    the page at [start_address] that ends it: with every page in use and an
    empty address space, however many pages the task is allowed before it is
    suspended, it is still pending, and it never reports [OutOfMemory]. *)
Theorem map_task_out_of_memory_diverges (s : sys) (pml4 start num_pages : Z)
    (flags : SegmentFlags.t) (k : nat) :
  pml4_empty s pml4 → Forall (λ b, b = 0xFF) (memory_bitmap s.(alloc)) →
  0 < start < 2 ^ 64 - 4096 → start mod PAGE_SIZE = 0 →
  ∃ self', MapMemTask_run pml4 (replicate k false ++ [true]) (MapMemTask.new start num_pages flags) s
    = Returns ((self', Pending), s).
Proof.
  intros He Hfull Hs Hal. destruct k as [|k]; [by eexists|]. cbn [replicate app].
  unfold MapMemTask_run. cbn [run_task]. unfold mbind at 1, M_bind at 1.
  assert (MapMemTask.step pml4 (MapMemTask.new start num_pages flags) s =
    Returns ((MapMemTask.Build start (start - 4096) 1 (MapMemTask.FailRewinding OutOfMemory), None), s)) as ->.
  { unfold MapMemTask.step, MapMemTask.new. cbn [MapMemTask.state MapMemTask.current_address
      MapMemTask.pages_allocated MapMemTask.start_address].
    unfold mbind, M_bind, chk. rewrite (proj2 (fits_spec 64 (start + 4096))) by lia. cbn [mret M_ret].
    rewrite map_blank_page_full by (done || lia).
    assert (4096 ≤ start) as Hge by (unfold PAGE_SIZE in Hal; Z.div_mod_to_equations; lia).
    unfold MapMemTask.previous_page. by rewrite Z.max_r by lia. }
  assert (∀ cur, cur < start → ∃ self', run_task (MapMemTask.step pml4) (replicate k false ++ [true])
    (MapMemTask.Build start cur 1 (MapMemTask.FailRewinding OutOfMemory)) s = Returns ((self', Pending), s)) as H.
  { induction k as [|k IH]; intros cur Hcur; [by eexists|]. cbn [replicate app run_task].
    unfold mbind at 1, M_bind at 1.
    unfold MapMemTask.step at 1. cbn [MapMemTask.state MapMemTask.current_address
      MapMemTask.pages_allocated MapMemTask.start_address].
    rewrite (proj2 (Z.eqb_neq cur start)) by lia. unfold mbind, M_bind.
    rewrite unmap_page_empty by done. cbn [chk]. change (1 - 0) with 1.
    apply IH. unfold MapMemTask.previous_page. lia. }
  apply H. lia.
Qed.
Lemma map_task_out_of_memory_diverges_witness :
  ∃ self', MapMemTask_run 0x8000 (replicate 100 false ++ [true])
      (MapMemTask.new 0x400000 4 (SegmentFlags.Build true true false))
      (Sys {| memory_bitmap := [0xFF; 0xFF]; total_pages := 16; free_pages := 0; page_table := 0x1000 |}
        (λ _, 0))
    = Returns ((self', Pending),
      Sys {| memory_bitmap := [0xFF; 0xFF]; total_pages := 16; free_pages := 0; page_table := 0x1000 |}
        (λ _, 0)).
Proof.
  apply map_task_out_of_memory_diverges; [|by repeat constructor|lia|done].
  split; [done|]. intros i Hi. by replace (read64 _ _) with 0 by done.
Defined.

(** ** Unmapping a page *)

(** What the walk of a user address space finds. *)
Definition user_walk (s : sys) (pml4 virtual_address : Z) : option Z :=
  walk s.(ram) pml4 (indices virtual_address).
(** No huge pages hang off the tables. *)
Definition no_huge (m : memory) (tables : gmap (list Z) Z) : Prop :=
  ∀ p a i, tables !! p = Some a → 0 ≤ i < 512 →
    PageTableEntry.huge_page (read64 m (entry_addr a i)) = false.

(** Freeing only touches the allocator's books, and never panics while the
    bitmap covers the managed pages. *)
Definition counts (k : Z) (pa : PageAllocatorInternal) : Prop :=
  0 ≤ total_pages pa ≤ num_bits (memory_bitmap pa) ∧ 0 ≤ free_pages pa ∧ free_pages pa + k < 2 ^ 64.
Lemma wp_free_any s addr k : 0 ≤ addr → 0 < k → counts k s.(alloc) →
  wp (free_page addr) (λ _ s', s'.(ram) = s.(ram) ∧ counts (k - 1) s'.(alloc)) s.
Proof.
  intros Ha Hk (Ht & Hf & Hroom). unfold free_page. rewrite wp_bind, wp_get.
  destruct (Z.leb_spec (total_pages (alloc s)) (addr / BYTE_RATIO * 8 + addr / PAGE_SIZE mod 8)) as [|Hin].
  { rewrite wp_ret. unfold counts. split; [done|]. split_and!; lia. }
  assert (0 ≤ addr / BYTE_RATIO) as H0 by (apply Z.div_pos; [lia|done]).
  pose proof (Z.mod_pos_bound (addr / PAGE_SIZE) 8 ltac:(lia)) as H8.
  destruct (lookup_lt_is_Some_2 (memory_bitmap (alloc s)) (Z.to_nat (addr / BYTE_RATIO))) as [byte Hl].
  { unfold num_bits in Ht. lia. }
  rewrite Hl. rewrite wp_bind, wp_unwrap. exists byte. split; [done|].
  rewrite wp_bind, wp_chk. split; [lia|]. rewrite wp_set_alloc. cbn [alloc ram].
  split; [done|]. unfold counts. cbn [total_pages free_pages memory_bitmap].
  rewrite num_bits_insert. lia.
Qed.
Lemma address_nonneg e : 0 ≤ address e.
Proof.
  unfold address. rewrite address_unextended_shift.
  destruct (negb _); [apply Z.lor_nonneg; split; [|done]|]; apply Z.land_nonneg; by right.
Qed.

(** One round of the second loop. *)
Lemma wp_free_tables_cons s idx table rest checked depth freed k (Q : Z → sys → Prop) :
  0 < k → counts k s.(alloc) →
  (∀ s', s'.(ram) = write64 s.(ram) (entry_addr table idx) ZERO → counts (k - 1) s'.(alloc) →
     wp (if depth <=? checked then mret (freed + 1)
         else UserPageMapper.free_tables rest (checked + 1) depth (freed + 1)) Q s') →
  wp (UserPageMapper.free_tables ((idx, table) :: rest) checked depth freed) Q s.
Proof.
  intros Hk Hc HQ. cbn [UserPageMapper.free_tables]. kernel_simpl. cbn [alloc ram].
  eapply wp_mono; [apply (wp_free_any _ _ k); [apply address_nonneg|done|done]|].
  intros [] s' [Hr Hc']. by apply HQ.
Qed.

(** The walk to a mapped page: the chain of tables it goes through. *)
Record chain (pml4 : Z) (tables : gmap (list Z) Z) (m : memory) (va : Z) (t1 t2 t3 : Z) (e : Z) : Prop := {
  chain_t1 : tables !! [level_index 0 0xFF8000000000 va] = Some t1;
  chain_t2 : tables !! [level_index 0 0xFF8000000000 va; level_index 1 0x007FC0000000 va] = Some t2;
  chain_t3 : tables !! [level_index 0 0xFF8000000000 va; level_index 1 0x007FC0000000 va;
                        level_index 2 0x00003FE00000 va] = Some t3;
  chain_p0 : PageTableEntry.present (read64 m (entry_addr pml4 (level_index 0 0xFF8000000000 va))) = true;
  chain_p1 : PageTableEntry.present (read64 m (entry_addr t1 (level_index 1 0x007FC0000000 va))) = true;
  chain_p2 : PageTableEntry.present (read64 m (entry_addr t2 (level_index 2 0x00003FE00000 va))) = true;
  chain_a0 : address (read64 m (entry_addr pml4 (level_index 0 0xFF8000000000 va))) = t1;
  chain_a1 : address (read64 m (entry_addr t1 (level_index 1 0x007FC0000000 va))) = t2;
  chain_a2 : address (read64 m (entry_addr t2 (level_index 2 0x00003FE00000 va))) = t3;
  chain_collect : ∀ s, s.(ram) = m →
    UserPageMapper.collect_tables LEVEL_MASKS pml4 va [] s =
    Returns (Some [(level_index 0 0xFF8000000000 va, pml4); (level_index 1 0x007FC0000000 va, t1);
                   (level_index 2 0x00003FE00000 va, t2); (level_index 3 0x0000001FF000 va, t3)], s);
}.
Lemma walk_chain pml4 s tables va e :
  space_ok pml4 s tables → no_huge s.(ram) tables → user_walk s pml4 va = Some e →
  ∃ t1 t2 t3, chain pml4 tables s.(ram) va t1 t2 t3 e.
Proof.
  intros Hk Hh Hw. pose proof (kernel_pt _ _ _ Hk) as Hok. pose proof (pt_root _ _ _ _ Hok) as Hr.
  unfold user_walk, indices in Hw. cbn [LEVEL_MASKS map] in Hw.
  assert (∀ p a, tables !! p = Some a → (a =? 0) = false) as Hnz.
  { intros p a Hp. destruct (pt_frames _ _ _ _ Hok p a Hp). apply Z.eqb_neq. lia. }
  pose proof (λ mask i, level_index_bound i mask va) as Hb.
  pose proof (Hb 0xFF8000000000 0) as H0. pose proof (Hb 0x007FC0000000 1) as H1.
  pose proof (Hb 0x00003FE00000 2) as H2. pose proof (Hb 0x0000001FF000 3) as H3.
  set (i0 := level_index 0 0xFF8000000000 va) in *. set (i1 := level_index 1 0x007FC0000000 va) in *.
  set (i2 := level_index 2 0x00003FE00000 va) in *. set (i3 := level_index 3 0x0000001FF000 va) in *.
  cbn [walk] in Hw.
  destruct (PageTableEntry.present (read64 (ram s) (entry_addr pml4 i0))) eqn:P0; [|done].
  pose proof (pt_child_some _ _ _ _ _ Hok Hr ltac:(cbn; lia) H0 P0) as C0. cbn [app] in C0.
  set (t1 := address (read64 (ram s) (entry_addr pml4 i0))) in *.
  destruct (PageTableEntry.present (read64 (ram s) (entry_addr t1 i1))) eqn:P1; [|done].
  pose proof (pt_child_some _ _ _ _ _ Hok C0 ltac:(cbn; lia) H1 P1) as C1. cbn [app] in C1.
  set (t2 := address (read64 (ram s) (entry_addr t1 i1))) in *.
  destruct (PageTableEntry.present (read64 (ram s) (entry_addr t2 i2))) eqn:P2; [|done].
  pose proof (pt_child_some _ _ _ _ _ Hok C1 ltac:(cbn; lia) H2 P2) as C2. cbn [app] in C2.
  set (t3 := address (read64 (ram s) (entry_addr t2 i2))) in *.
  destruct (PageTableEntry.present (read64 (ram s) (entry_addr t3 i3))) eqn:P3; [|done].
  exists t1, t2, t3. split; [done..|]. intros s0 E.
  unfold LEVEL_MASKS. cbn [UserPageMapper.collect_tables].
  fold i0 i1 i2 i3. unfold table_at, mbind, M_bind, get, rassert.
  rewrite (Hnz _ _ Hr). cbn [mret M_ret]. rewrite E, P0, (Hh _ _ _ Hr H0). cbn [negb app mret M_ret].
  fold t1. rewrite (Hnz _ _ C0). cbn [mret M_ret]. rewrite E, P1, (Hh _ _ _ C0 H1). cbn [negb app mret M_ret].
  fold t2. rewrite (Hnz _ _ C1). cbn [mret M_ret]. rewrite E, P2, (Hh _ _ _ C1 H2). cbn [negb app mret M_ret].
  fold t3. rewrite (Hnz _ _ C2). cbn [mret M_ret]. rewrite E, P3, (Hh _ _ _ C2 H3). done.
Qed.

Lemma indices_strip va : indices (Z.land va 0x000FFFFFFFFFF000) = indices va.
Proof. unfold indices. cbn [LEVEL_MASKS map]. by rewrite !level_index_strip by done. Qed.
Lemma read_other_entry root bm m0 tables m p q a b i j v :
  pt_ok root bm m0 tables → tables !! p = Some a → tables !! q = Some b →
  0 ≤ i < 512 → 0 ≤ j < 512 → p ≠ q →
  read64 (write64 m (entry_addr a i) v) (entry_addr b j) = read64 m (entry_addr b j).
Proof.
  intros. apply read64_write64_ne.
  eapply (entry_disjoint m0 tables p q a b i j); try done. congruence.
Qed.

(** The memory after clearing the entries of the chain from the leaf up, and
    the walks in it. *)
Lemma cleared_walks pml4 bm tables m va t1 t2 t3 e :
  pt_ok pml4 bm m tables → chain pml4 tables m va t1 t2 t3 e →
  let m1 := write64 m (entry_addr t3 (level_index 3 0x0000001FF000 va)) ZERO in
  let m2 := write64 m1 (entry_addr t2 (level_index 2 0x00003FE00000 va)) ZERO in
  let m3 := write64 m2 (entry_addr t1 (level_index 1 0x007FC0000000 va)) ZERO in
  let m4 := write64 m3 (entry_addr pml4 (level_index 0 0xFF8000000000 va)) ZERO in
  walk m1 pml4 (indices va) = None ∧
  ∀ j, Forall (λ m, walk m pml4 [level_index 0 0xFF8000000000 va; level_index 1 0x007FC0000000 va;
    level_index 2 0x00003FE00000 va; j] = None) [m2; m3; m4].
Proof.
  intros Hok Hc m1 m2 m3 m4. pose proof (pt_root _ _ _ _ Hok) as Hr.
  destruct Hc as [C1 C2 C3 P0 P1 P2 A0 A1 A2 _]. unfold indices. cbn [LEVEL_MASKS map].
  pose proof (λ mask i, level_index_bound i mask va) as Hb.
  pose proof (Hb 0xFF8000000000 0) as H0. pose proof (Hb 0x007FC0000000 1) as H1.
  pose proof (Hb 0x00003FE00000 2) as H2. pose proof (Hb 0x0000001FF000 3) as H3.
  set (i0 := level_index 0 0xFF8000000000 va) in *. set (i1 := level_index 1 0x007FC0000000 va) in *.
  set (i2 := level_index 2 0x00003FE00000 va) in *. set (i3 := level_index 3 0x0000001FF000 va) in *.
  clearbody i0 i1 i2 i3.
  pose proof (λ mm p a i q b j, read_other_entry pml4 bm m tables mm p q a b i j ZERO Hok) as F.
  assert (∀ mm a i, read64 (write64 mm (entry_addr a i) ZERO) (entry_addr a i) = 0) as Z0
    by (intros; by rewrite read64_write64_eq).
  cbn [walk].
  assert (read64 m1 (entry_addr pml4 i0) = read64 m (entry_addr pml4 i0)) as R10
    by (eapply (F m _ t3 i3 [] pml4 i0); done).
  assert (read64 m1 (entry_addr t1 i1) = read64 m (entry_addr t1 i1)) as R11
    by (eapply (F m _ t3 i3 [i0] t1 i1); done).
  assert (read64 m1 (entry_addr t2 i2) = read64 m (entry_addr t2 i2)) as R12
    by (eapply (F m _ t3 i3 [i0; i1] t2 i2); done).
  assert (read64 m2 (entry_addr pml4 i0) = read64 m (entry_addr pml4 i0)) as R20
    by (rewrite <-R10; eapply (F m1 _ t2 i2 [] pml4 i0); done).
  assert (read64 m2 (entry_addr t1 i1) = read64 m (entry_addr t1 i1)) as R21
    by (rewrite <-R11; eapply (F m1 _ t2 i2 [i0] t1 i1); done).
  assert (read64 m3 (entry_addr pml4 i0) = read64 m (entry_addr pml4 i0)) as R30
    by (rewrite <-R20; eapply (F m2 _ t1 i1 [] pml4 i0); done).
  split.
  - rewrite R10, P0, A0, R11, P1, A1, R12, P2, A2. unfold m1. by rewrite Z0.
  - intros j. repeat constructor.
    + rewrite R20, P0, A0, R21, P1, A1. unfold m2. by rewrite Z0.
    + rewrite R30, P0, A0. unfold m3. by rewrite Z0.
    + unfold m4. by rewrite Z0.
Qed.

(** Two addresses of the same 2 MiB block go through the same page table. *)
Lemma same_block_indices va va' : va' / 2 ^ 21 mod 2 ^ 27 = va / 2 ^ 21 mod 2 ^ 27 →
  ∃ i, indices va' = [level_index 0 0xFF8000000000 va; level_index 1 0x007FC0000000 va;
    level_index 2 0x00003FE00000 va; i].
Proof.
  intros E. pose proof (indices_spec va) as H. unfold indices in H. cbn [LEVEL_MASKS map] in H.
  injection H as -> -> -> _. exists (va' / 2 ^ 12 mod 512). rewrite indices_spec.
  replace (2 ^ 39) with (2 ^ 21 * (512 * 512)) by done. replace (2 ^ 30) with (2 ^ 21 * 512) by done.
  rewrite <-!Z.div_div by done. change (2 ^ 27) with (512 * (512 * 512)) in E.
  generalize dependent (va / 2 ^ 21). generalize dependent (va' / 2 ^ 21). intros x y E.
  rewrite !Z.rem_mul_r in E by done.
  pose proof (Z.mod_pos_bound x 512). pose proof (Z.mod_pos_bound y 512).
  pose proof (Z.mod_pos_bound (x / 512) 512). pose proof (Z.mod_pos_bound (y / 512) 512).
  generalize dependent (x mod 512). generalize dependent (y mod 512).
  generalize dependent (x / 512 mod 512). generalize dependent (y / 512 mod 512).
  generalize dependent (x / 512 / 512 mod 512). generalize dependent (y / 512 / 512 mod 512).
  intros. repeat f_equal; lia.
Qed.

(** [unmap_page] of a mapped page frees [free_table_check_depth + 1] pages
    (four at most), whatever the tables hold: the emptiness check of its loop
    has no effect.  The page is unmapped; and with a depth of one or more its
    page table is freed with it, so that every other page of the same 2 MiB
    block is unmapped as well. *)
Theorem unmap_page_frees_tables (s : sys) (pml4 : Z) (tables : gmap (list Z) Z)
    (virtual_address depth e : Z) :
  space_ok pml4 s tables → no_huge s.(ram) tables → counts 4 s.(alloc) → 0 ≤ depth →
  user_walk s pml4 virtual_address = Some e →
  ∃ s', UserPageMapper.unmap_page pml4 virtual_address depth s = Returns (Z.min (depth + 1) 4, s') ∧
  user_walk s' pml4 virtual_address = None ∧
  (1 ≤ depth → ∀ va', va' / 2 ^ 21 mod 2 ^ 27 = virtual_address / 2 ^ 21 mod 2 ^ 27 →
     user_walk s' pml4 va' = None).
Proof.
  intros Hk Hh Hc Hd Hw. unfold UserPageMapper.unmap_page.
  set (va := Z.land virtual_address 0x000FFFFFFFFFF000).
  assert (indices virtual_address = indices va) as Ei by (symmetry; apply indices_strip).
  unfold user_walk in Hw. rewrite Ei in Hw.
  destruct (walk_chain pml4 s tables va e Hk Hh Hw) as (t1 & t2 & t3 & Hch).
  destruct (cleared_walks _ _ _ _ _ _ _ _ _ (kernel_pt _ _ _ Hk) Hch) as [Hleaf Hblock].
  assert (wp (UserPageMapper.free_tables (rev [(level_index 0 0xFF8000000000 va, pml4);
    (level_index 1 0x007FC0000000 va, t1); (level_index 2 0x00003FE00000 va, t2);
    (level_index 3 0x0000001FF000 va, t3)]) 0 depth 0) (λ r s', r = Z.min (depth + 1) 4 ∧
    walk s'.(ram) pml4 (indices va) = None ∧
    (1 ≤ depth → ∀ j, walk s'.(ram) pml4 [level_index 0 0xFF8000000000 va;
      level_index 1 0x007FC0000000 va; level_index 2 0x00003FE00000 va; j] = None)) s) as Hfree.
  { cbn [rev app]. clearbody va. clear Ei Hw Hch.
    assert (∀ m, (∀ j, walk m pml4 [level_index 0 0xFF8000000000 va; level_index 1 0x007FC0000000 va;
      level_index 2 0x00003FE00000 va; j] = None) → walk m pml4 (indices va) = None) as Hall
      by (intros m Hj; apply Hj).
    apply (wp_free_tables_cons _ _ _ _ _ _ _ 4); [lia|done|]. intros s1 R1 Hc1.
    destruct (Z.leb_spec depth 0). { rewrite wp_ret, R1. split; [lia|]. split; [done|lia]. }
    apply (wp_free_tables_cons _ _ _ _ _ _ _ 3); [lia|done|]. intros s2 R2 Hc2. rewrite R1 in R2.
    destruct (Z.leb_spec depth (0 + 1)).
    { rewrite wp_ret, R2. split; [lia|].
      assert (∀ j, walk _ pml4 _ = None) as Hj by (intros j; by apply (Forall_inv (Hblock j))). auto. }
    apply (wp_free_tables_cons _ _ _ _ _ _ _ 2); [lia|done|]. intros s3 R3 Hc3. rewrite R2 in R3.
    destruct (Z.leb_spec depth (0 + 1 + 1)).
    { rewrite wp_ret, R3. split; [lia|].
      assert (∀ j, walk _ pml4 _ = None) as Hj
        by (intros j; by apply (Forall_inv (Forall_inv_tail (Hblock j)))). auto. }
    apply (wp_free_tables_cons _ _ _ _ _ _ _ 1); [lia|done|]. intros s4 R4 Hc4. rewrite R3 in R4.
    assert (∀ j, walk (ram s4) pml4 _ = None) as Hj
      by (intros j; rewrite R4; apply (Forall_inv (Forall_inv_tail (Forall_inv_tail (Hblock j))))).
    destruct (Z.leb_spec depth (0 + 1 + 1 + 1)); rewrite ?wp_ret; cbn [UserPageMapper.free_tables];
      rewrite ?wp_ret; (split; [lia|auto]). }
  apply wp_returns in Hfree as (r & s' & Hrun & -> & Hva & Hall). exists s'. split; [|split].
  - unfold mbind, M_bind. rewrite (chain_collect _ _ _ _ _ _ _ _ Hch) by done. exact Hrun.
  - unfold user_walk. by rewrite Ei.
  - intros H1 va' Hb.
    destruct (same_block_indices virtual_address va' Hb) as [j E].
    rewrite <-(level_index_strip 0), <-(level_index_strip 1), <-(level_index_strip 2) in E by done.
    unfold user_walk. rewrite E. by apply Hall.
Qed.
Lemma unmap_page_frees_tables_witness :
  ∃ s', UserPageMapper.unmap_page 0x1000 0x5000 1 demo_mapped = Returns (Z.min (1 + 1) 4, s') ∧
  user_walk s' 0x1000 0x5000 = None ∧
  (1 ≤ 1 → ∀ va', va' / 2 ^ 21 mod 2 ^ 27 = 0x5000 / 2 ^ 21 mod 2 ^ 27 →
     user_walk s' 0x1000 va' = None).
Proof.
  apply (unmap_page_frees_tables demo_mapped 0x1000 demo_mapped_tables 0x5000 1
    (replace_addr_with READ_WRITE 0x5000));
    [exact demo_mapped_ok| |unfold counts; split_and!; vm_compute; done|lia|vm_compute; reflexivity].
  assert (forallb (λ a, forallb (λ i, negb (PageTableEntry.huge_page
    (read64 (ram demo_mapped) (entry_addr a i)))) (seqZ 0 512)) [0x1000; 0x2000; 0x3000; 0x4000] = true) as H
    by (vm_compute; reflexivity).
  intros p a i Hp Hi. rewrite forallb_forall in H. specialize (H a).
  rewrite forallb_forall in H. apply negb_true_iff, H; [|apply list_elem_of_In, elem_of_seqZ; lia].
  apply demo_mapped_tables_Some in Hp as [[_ ->]|[[_ ->]|[[_ ->]|[_ ->]]]]; cbn; auto.
Defined.

(** Comparing the bits of one level's mask compares that level's index. *)
Lemma level_mask_eq x y k : 0 ≤ k →
  Z.land x (Z.shiftl (Z.ones 9) k) = Z.land y (Z.shiftl (Z.ones 9) k) ↔
  x / 2 ^ k mod 512 = y / 2 ^ k mod 512.
Proof.
  intros Hk. rewrite <-!Z.shiftr_div_pow2 by done. change 512 with (2 ^ 9).
  rewrite <-!Z.land_ones by lia. split; intros E; apply Z.bits_inj'; intros i Hi.
  - pose proof (f_equal (λ z, Z.testbit z (i + k)) E) as Eb. cbv beta in Eb.
    rewrite !Z.land_spec, !Z.shiftl_spec in Eb by lia. rewrite !Z.land_spec, !Z.shiftr_spec by lia.
    by replace (i + k - k) with i in Eb by lia.
  - rewrite !Z.land_spec, !Z.shiftl_spec by lia.
    destruct (decide (i < k)); [by rewrite !(Z.testbit_neg_r _ (i - k)), !andb_false_r by lia|].
    pose proof (f_equal (λ z, Z.testbit z (i - k)) E) as Eb. cbv beta in Eb.
    rewrite !Z.land_spec, !Z.shiftr_spec in Eb by lia. by replace (i - k + k) with i in Eb by lia.
Qed.
Lemma next_page_index m b : 0 ≤ m → 0 < b →
  (m / b mod 512 = (m + 1) / b mod 512) ↔ (m + 1) mod b ≠ 0.
Proof.
  intros Hm Hb. assert ((m + 1) / b = m / b + (if (m + 1) mod b =? 0 then 1 else 0)) as ->.
  { pose proof (Z.div_mod m b ltac:(lia)) as Em. pose proof (Z.mod_pos_bound m b Hb) as Hr.
    destruct (decide (m mod b + 1 = b)) as [Er|Er].
    - rewrite <-(Z.div_unique (m + 1) b (m / b + 1) 0), <-(Z.mod_unique (m + 1) b (m / b + 1) 0) by lia. cbn; lia.
    - rewrite <-(Z.div_unique (m + 1) b (m / b) (m mod b + 1)) by lia.
      rewrite (proj2 (Z.eqb_neq _ 0)); [lia|].
      rewrite <-(Z.mod_unique (m + 1) b (m / b) (m mod b + 1)) by lia. lia. }
  generalize (m / b). intros q. destruct (Z.eqb_spec ((m + 1) mod b) 0) as [|E].
  - split; [|done]. intros H. exfalso. Z.div_mod_to_equations. lia.
  - by rewrite Z.add_0_r.
Qed.

(** the number of parent tables to check after a page is the number of
    tables whose range ends with that page, and so is never less than one: with
    [n] the number of the next page, it is four when [512 ^ 3] divides [n],
    three when [512 ^ 2] does, two when 512 does, one otherwise. *)
Theorem free_table_check_depth_spec (page : Z) :
  0 ≤ page →
  free_table_check_depth (page * PAGE_SIZE) (page * PAGE_SIZE + 4096) =
    if (page + 1) mod 512 ^ 3 =? 0 then 4 else if (page + 1) mod 512 ^ 2 =? 0 then 3
    else if (page + 1) mod 512 =? 0 then 2 else 1.
Proof.
  intros Hp. replace (page * PAGE_SIZE + 4096) with ((page + 1) * PAGE_SIZE) by (unfold PAGE_SIZE; lia).
  assert (∀ k, 12 ≤ k → ∀ x, x * PAGE_SIZE / 2 ^ k = x / 2 ^ (k - 12)) as Ediv.
  { intros k Hk x. replace (2 ^ k) with (2 ^ (k - 12) * PAGE_SIZE)
      by (change PAGE_SIZE with (2 ^ 12); rewrite <-Z.pow_add_r by lia; f_equal; lia).
    rewrite Z.div_mul_cancel_r; [done| |done]. pose proof (Z.pow_pos_nonneg 2 (k - 12)). lia. }
  assert (∀ k, 12 ≤ k →
    Z.land (page * PAGE_SIZE) (Z.shiftl (Z.ones 9) k) = Z.land ((page + 1) * PAGE_SIZE) (Z.shiftl (Z.ones 9) k)
    ↔ (page + 1) mod 2 ^ (k - 12) ≠ 0) as Elev.
  { intros k Hk. etrans; [apply level_mask_eq; lia|]. rewrite !Ediv by lia. apply next_page_index; [done|].
    apply Z.pow_pos_nonneg; lia. }
  unfold free_table_check_depth, LEVEL_MASKS. cbn [list_find].
  change 0xFF8000000000 with (Z.shiftl (Z.ones 9) 39). change 0x007FC0000000 with (Z.shiftl (Z.ones 9) 30).
  change 0x00003FE00000 with (Z.shiftl (Z.ones 9) 21). change 0x0000001FF000 with (Z.shiftl (Z.ones 9) 12).
  change (512 ^ 3) with (2 ^ (39 - 12)). change (512 ^ 2) with (2 ^ (30 - 12)).
  replace 512 with (2 ^ (21 - 12)) at 1 by done.
  destruct (Z.eqb_spec ((page + 1) mod 2 ^ (39 - 12)) 0) as [E0|E0].
  { case_decide as D; [done|]. exfalso. apply (Elev 39) in D; [done|lia]. }
  case_decide as D0; [by apply Elev in E0|]. clear D0.
  destruct (Z.eqb_spec ((page + 1) mod 2 ^ (30 - 12)) 0) as [E1|E1].
  { case_decide as D; [done|]. exfalso. apply (Elev 30) in D; [done|lia]. }
  case_decide as D1; [by apply Elev in E1|]. clear D1.
  destruct (Z.eqb_spec ((page + 1) mod 2 ^ (21 - 12)) 0) as [E2|E2].
  { case_decide as D; [done|]. exfalso. apply (Elev 21) in D; [done|lia]. }
  case_decide as D2; [by apply Elev in E2|]. clear D2.
  case_decide as D3; [done|]. exfalso. rename D3 into Hn. apply (Elev 12) in Hn; [|lia].
  change (2 ^ (12 - 12)) with 1 in Hn. by rewrite Z.mod_1_r in Hn.
Qed.
Lemma free_table_check_depth_spec_witness :
  free_table_check_depth (0x1FF * PAGE_SIZE) (0x1FF * PAGE_SIZE + 4096) =
    if (0x1FF + 1) mod 512 ^ 3 =? 0 then 4 else if (0x1FF + 1) mod 512 ^ 2 =? 0 then 3
    else if (0x1FF + 1) mod 512 =? 0 then 2 else 1.
Proof. apply free_table_check_depth_spec. lia. Defined.
