(* ===== verification/UserSpace.v ===== *)
(** * Mapping a user's pages (kernel/src/arch/x86_64/user_page_mapping.rs)

    What [map_blank_page] does to an address space, on every one of its results,
    and what a [MapMemTask] does that is given enough memory.  The address space
    is described by [space_ok] of PageTables, with the root table of the mapper
    in place of the kernel's. *)
From S2P Require Import Prelude Paging PageAlloc PageTables UserMap.

(** The flags of a user page: [(flags.0 & 0x8000_0000_0000_0007) | 5]. *)
Definition child_entry (flags : Z) : Z := Z.lor (Z.land flags 0x8000000000000007) 5.

(** An entry for the page at [f] with the flags [c]. *)
Definition flags_only (c : Z) : Prop := 0 ≤ c ∧ Z.land c FLAG_MASK = c ∧ PageTableEntry.present c = true.
Lemma child_entry_flags flags : flags_only (child_entry flags).
Proof.
  unfold flags_only, child_entry. split; [|split].
  - apply Z.lor_nonneg. split; [apply Z.land_nonneg; by right|done].
  - rewrite Z.land_lor_distr_l, <-Z.land_assoc. done.
  - unfold PageTableEntry.present. by rewrite Z.lor_spec, orb_true_r.
Qed.
Lemma parent_entry_flags : flags_only READ_WRITE_EXECUTE.
Proof. by vm_compute. Qed.
Lemma user_entry f c : flags_only c → 0 ≤ f < 2 ^ 51 → f mod PAGE_SIZE = 0 →
  0 ≤ Z.lor f c < 2 ^ 64 ∧ PageTableEntry.present (Z.lor f c) = true ∧ address (Z.lor f c) = f.
Proof.
  intros (H0 & Hc & Hp) Hf Hm. split; [|split].
  - rewrite <-Hc, <-(land_ADDR_MASK_id f) by (done || lia).
    apply (replace_addr_with_bound c f); lia.
  - unfold PageTableEntry.present in *. by rewrite Z.lor_spec, Hp, orb_true_r.
  - rewrite <-Hc. by apply address_addr_flags.
Qed.
Lemma parent_entry_user f : f mod PAGE_SIZE = 0 → Z.testbit (Z.lor f READ_WRITE_EXECUTE) 2 = false.
Proof.
  intros Hm. rewrite Z.lor_spec. change (Z.testbit READ_WRITE_EXECUTE 2) with false. rewrite orb_false_r.
  replace f with (Z.shiftl (f / 4096) 12); [by rewrite Z.shiftl_spec_low|].
  rewrite Z.shiftl_mul_pow2 by lia. unfold PAGE_SIZE in Hm. Z.div_mod_to_equations; lia.
Qed.

(** ** What a call has done to the address space *)

(** No table above the leaves has an entry that lets user code through. *)
Definition supervisor_tables (m : memory) (tables : gmap (list Z) Z) : Prop :=
  ∀ p a i, tables !! p = Some a → (length p < 3)%nat → 0 ≤ i < 512 →
    PageTableEntry.present (read64 m (entry_addr a i)) = true → PageTableEntry.user_accessable (read64 m (entry_addr a i)) = false.

(** The tables after a call that found [tables]: those there were, and pages
    that were free; the contents of every other page in use are as before. *)
Record extends (pml4 : Z) (s : sys) (tables : gmap (list Z) Z) (s' : sys) (tables' : gmap (list Z) Z) : Prop := {
  ext_ok : space_ok pml4 s' tables';
  ext_grows : grows s.(alloc) s'.(alloc);
  ext_tables : tables ⊆ tables';
  ext_new : ∀ p a, tables' !! p = Some a →
    tables !! p = Some a ∨ page_bit (memory_bitmap s.(alloc)) (a / PAGE_SIZE) = false;
  ext_data : data_kept s tables s';
  ext_supervisor : supervisor_tables s.(ram) tables → supervisor_tables s'.(ram) tables';
}.
(** Page [n] was free; it is in use, is no table and holds zeroes. *)
Record blank_page (s s' : sys) (tables' : gmap (list Z) Z) (n : Z) : Prop := {
  blank_pos : 0 < n;
  blank_free : page_bit (memory_bitmap s.(alloc)) n = false;
  blank_used : page_bit (memory_bitmap s'.(alloc)) n = true;
  blank_no_table : ∀ p, tables' !! p ≠ Some (n * PAGE_SIZE);
  blank_zero : ∀ x, n * PAGE_SIZE ≤ x < (n + 1) * PAGE_SIZE → s'.(ram) x = 0;
}.

Lemma extends_refl pml4 s tables : space_ok pml4 s tables → extends pml4 s tables s tables.
Proof. intros Hk. split; [done|done|done|by left|by intros x|done]. Qed.
Lemma extends_trans pml4 s tables s1 tables1 s2 tables2 :
  extends pml4 s tables s1 tables1 → extends pml4 s1 tables1 s2 tables2 → extends pml4 s tables s2 tables2.
Proof.
  intros [K1 G1 T1 N1 D1 S1] [K2 G2 T2 N2 D2 S2]. split; [done|by trans (alloc s1)|by trans tables1| | |auto].
  - intros p a Hp. destruct (pt_frames _ _ _ _ (kernel_pt _ _ _ K2) p a Hp) as (_ & _ & Ha & _).
    destruct (N2 p a Hp) as [Hp1|Hb]; [by apply N1|right].
    apply not_true_is_false. intros Hb'.
    rewrite (grows_bits _ _ G1) in Hb; [done|apply Z.div_pos; unfold PAGE_SIZE; lia|done].
  - intros x Hx Hu Hnt. rewrite D2; [by apply D1|done| |].
    + apply (grows_bits _ _ G1); [apply Z.div_pos; [lia|done]|done].
    + intros p a Hp E. destruct (N1 p a Hp) as [Hp0|Hb]; [by apply (Hnt p a)|congruence].
Qed.

(** A reserved page that becomes a table. *)
Lemma extends_table pml4 s tables s1 p cur x f e :
  let s' := Sys (alloc s1) (write64 (fill (ram s1) f PAGE_SIZE 0) (entry_addr cur x) e) in
  space_ok pml4 s tables → tables !! p = Some cur → (length p < 3)%nat → 0 ≤ x < 512 →
  PageTableEntry.present (read64 (ram s) (entry_addr cur x)) = false → reserve_post s (Ok f) s1 →
  0 ≤ e < 2 ^ 64 → PageTableEntry.present e = true → address e = f → PageTableEntry.user_accessable e = false →
  extends pml4 s tables s' (<[p ++ [x] := f]> tables).
Proof.
  intros s' Hk Hp Hlen Hx Hpres Hres Heb Hpe Hae Hue.
  destruct (reserve_space _ _ _ _ _ Hk Hres) as (_ & _ & Hfree & _ & Hgr & _).
  destruct (enter_table _ s tables s1 p cur x f e Hk Hp Hlen Hx Hpres Hres Heb Hpe Hae) as (Hk' & _ & Hzero & Hrest).
  split; [done|done| | | |].
  - apply insert_subseteq. rewrite (pt_child _ _ _ _ (kernel_pt _ _ _ Hk) p cur x Hp Hlen Hx). cbn zeta.
    by rewrite Hpres.
  - intros q b [[<- <-]|[_ Hq]]%lookup_insert_Some; [by right|by left].
  - apply (data_kept_install pml4 s tables s1 s' p (p ++ [x]) cur x e f); done.
  - intros Hs q b j [[<- <-]|[Hne Hq]]%lookup_insert_Some Hl Hj; cbn [ram s']; [by rewrite Hzero|].
    destruct (decide ((q, j) = (p, x))) as [[= -> ->]|Hqj]; [|rewrite (Hrest q b j Hq Hj Hqj); by apply (Hs q b j)].
    assert (b = cur) as -> by congruence. by rewrite read64_write64_eq.
Qed.

(** ** The walk of [map_blank_page] *)

(** What is known when the ['blk] block is left.  [created] are the parent pages
    of the levels above; when memory runs out the block has added [more] to them,
    at most [lim] pages, the first of which is entered in a table that was there before. *)
Definition blank_post (pml4 va child : Z) (lim : nat) (s : sys) (tables : gmap (list Z) Z) (used : Z) (created : list Z)
    (out : flow (result () UserPageMapperError) * Z * list Z) (s' : sys) : Prop :=
  let old := mapping s.(ram) tables in
  match out with
  | (Return (Err UserPageAlreadyExists), used', _) => is_Some (old (indices va)) ∧ s' = s ∧ used' = used
  | (Break (Ok _), used', _) => old (indices va) = None ∧ ∃ tables' n,
      extends pml4 s tables s' tables' ∧ blank_page s s' tables' n ∧
      used' - used = free_pages s.(alloc) - free_pages s'.(alloc) ∧ used < used' ≤ used + Z.of_nat lim + 1 ∧
      ∀ idx, Forall (λ i, 0 ≤ i < 512) idx → mapping s'.(ram) tables' idx =
        if decide (idx = indices va) then Some (Z.lor (n * PAGE_SIZE) child) else old idx
  | (Break (Err UserOutOfMemory), used', created') => old (indices va) = None ∧ ∃ tables' more,
      extends pml4 s tables s' tables' ∧ created' = created ++ ((λ n, n * PAGE_SIZE) <$> more) ∧
      used' = used + Z.of_nat (length more) + 1 ∧ free_pages s'.(alloc) = 0 ∧
      free_pages s.(alloc) = Z.of_nat (length more) ∧ (length more ≤ lim)%nat ∧ NoDup more ∧
      Forall (λ n, 0 < n ∧ page_bit (memory_bitmap s.(alloc)) n = false) more ∧
      (∀ k, 0 ≤ k → page_bit (memory_bitmap s'.(alloc)) k = bool_decide (k ∈ more) || page_bit (memory_bitmap s.(alloc)) k) ∧
      (∀ n, head more = Some n → ∃ p x cur, tables !! p = Some cur ∧ (length p < 3)%nat ∧ 0 ≤ x < 512 ∧
         tables' !! (p ++ [x]) = Some (n * PAGE_SIZE)) ∧
      ∀ idx, Forall (λ i, 0 ≤ i < 512) idx → mapping s'.(ram) tables' idx = old idx
  | _ => False
  end.

(** What is done once a table is entered was done without it. *)
Lemma blank_post_table pml4 va child lim s tables used created s1 p cur x n e out s2 :
  let s' := Sys (alloc s1) (write64 (fill (ram s1) (n * PAGE_SIZE) PAGE_SIZE 0) (entry_addr cur x) e) in
  let tables1 := <[p ++ [x] := n * PAGE_SIZE]> tables in
  space_ok pml4 s tables → tables !! p = Some cur → (length p < 3)%nat → 0 ≤ x < 512 →
  reserve_post s (Ok (n * PAGE_SIZE)) s1 → extends pml4 s tables s' tables1 →
  mapping (ram s) tables (indices va) = None →
  (∀ idx, Forall (λ i, 0 ≤ i < 512) idx → mapping (ram s') tables1 idx = mapping (ram s) tables idx) →
  blank_post pml4 va child lim s' tables1 (used + 1) (created ++ [n * PAGE_SIZE]) out s2 →
  blank_post pml4 va child (S lim) s tables used created out s2.
Proof.
  intros s' tables1 Hk Hp Hlen Hx Hres Hext Hun Hmap Hout.
  destruct Hres as (_ & n' & En & Hn & Hfree & _ & Hbits & _ & Hcount & _).
  assert (n' = n) as -> by (unfold PAGE_SIZE in En; lia). clear En.
  destruct out as [[[[[]|[]]|[u|[]]] used'] created']; try done; cbn [blank_post] in *.
  - destruct Hout as ([? E] & _). rewrite Hmap in E by apply indices_bound. congruence.
  - destruct Hout as (_ & tables' & k & He & Hb & Hu & Hlt & Hm). split; [done|]. exists tables', k.
    split; [by apply (extends_trans _ _ _ s' tables1)|]. split; [|split; [cbn in Hu; lia|split; [lia|]]].
    + destruct Hb as [B0 B1 B2 B3 B4]. split; try done. cbn in B1.
      rewrite Hbits in B1 by lia. apply orb_false_iff in B1; tauto.
    + intros idx Hi. rewrite Hm by done. by rewrite Hmap.
  - destruct Hout as (_ & tables' & more & He & -> & -> & Hz & Hc & Hl & Hnd & Hall & Hb & _ & Hm).
    change (alloc s') with (alloc s1) in *.
    assert (n ∉ more) as Hni.
    { intros Hin. rewrite Forall_forall in Hall. destruct (Hall n Hin) as [_ E].
      rewrite Hbits, Z.eqb_refl in E by lia. done. }
    split; [done|]. exists tables', (n :: more).
    split; [by apply (extends_trans _ _ _ s' tables1)|].
    split; [by rewrite <-app_assoc|]. cbn [length]. do 4 (split; [lia|]).
    split; [by apply NoDup_cons|]. split; [constructor; [by split; [lia|]|]|split; [|split]].
    + eapply Forall_impl; [exact Hall|]. intros k [H0 Hk1]. split; [done|].
      rewrite Hbits in Hk1 by lia. apply orb_false_iff in Hk1; tauto.
    + intros k H0. rewrite Hb, Hbits by done.
      destruct (Z.eqb_spec k n) as [->|Hkn].
      { rewrite (bool_decide_true (n ∈ n :: more)) by (rewrite elem_of_cons; by left). apply orb_true_r. }
      f_equal. apply bool_decide_ext. rewrite elem_of_cons. naive_solver.
    + intros ? [= <-]. exists p, x, cur. split_and!; try done; try lia.
      apply (lookup_weaken tables1); [apply lookup_insert_eq|apply He].
    + intros idx Hi. rewrite Hm by done. by rewrite Hmap.
Qed.

(** The block left when no page is free. *)
Lemma blank_post_full pml4 va child lim s tables used created :
  space_ok pml4 s tables → mapping s.(ram) tables (indices va) = None →
  (∀ n, 0 ≤ n < num_bits (memory_bitmap s.(alloc)) → page_bit (memory_bitmap s.(alloc)) n = true) →
  blank_post pml4 va child lim s tables used created (Break (Err UserOutOfMemory), used + 1, created) s.
Proof.
  intros Hk Hun Hfull. split; [done|]. exists tables, [].
  assert (free_pages s.(alloc) = 0) as E.
  { rewrite (alloc_count _ (kernel_alloc _ _ _ Hk)). apply all_used_count; [|done].
    apply (alloc_bitmap_ok _ (kernel_alloc _ _ _ Hk)). }
  split; [by apply extends_refl|]. split; [by rewrite app_nil_r|]. cbn [length]. do 4 (split; [lia|]).
  split; [apply NoDup_nil_2|]. by split; [constructor|].
Qed.
(** One level of the walk, at a non-leaf level. *)
Lemma blank_step pml4 va child lim i mask rest p cur s tables used created :
  (length p < 3)%nat → (i <? 3) = true → space_ok pml4 s tables → tables !! p = Some cur →
  (∃ r, indices va = p ++ level_index i mask va :: r) → 0 ≤ used → used + 1 < 2 ^ 64 →
  (∀ s1 tables1 next used1 created1 lim1, space_ok pml4 s1 tables1 →
     tables1 !! (p ++ [level_index i mask va]) = Some next → used ≤ used1 ≤ used + 1 → (lim ≤ lim1)%nat →
     wp (UserPageMapper.map_blank_loop rest next va child used1 created1)
       (blank_post pml4 va child lim1 s1 tables1 used1 created1) s1) →
  wp (UserPageMapper.map_blank_loop ((i, mask) :: rest) cur va child used created)
    (blank_post pml4 va child (S lim) s tables used created) s.
Proof.
  intros Hlen Hi Hk Hp [r Hr] Hu0 Hu IH. cbn [UserPageMapper.map_blank_loop].
  destruct (pt_frames _ _ _ _ (kernel_pt _ _ _ Hk) p cur Hp) as (_ & _ & Hcur & _).
  unfold table_at. rewrite (proj2 (Z.eqb_neq cur 0)) by lia. kernel_simpl.
  pose proof (level_index_bound i mask va) as Hx. set (x := level_index i mask va) in *.
  apply Z.ltb_lt in Hi as Hi'. rewrite (proj2 (Z.eqb_neq i 3)) by lia.
  pose proof (pt_child _ _ _ _ (kernel_pt _ _ _ Hk) p cur x Hp Hlen Hx) as Hc. cbn zeta in Hc.
  destruct (PageTableEntry.present (read64 (ram s) (entry_addr cur x))) eqn:Hpres; cbn [negb].
  { apply IH; [done|done|lia|lia]. }
  pose proof (prefix_unmapped _ s tables va p x r Hk Hlen Hr Hc) as Hun.
  rewrite wp_bind, wp_chk. split; [lia|]. rewrite wp_bind. apply (wp_mono _ (reserve_post s)).
  { apply wp_find_and_reserve_page; apply Hk. }
  intros [f|[]] s1 Hres.
  2:{ destruct Hres as (_ & -> & Hfull). rewrite wp_ret. by apply blank_post_full. }
  pose proof Hres as (_ & n & -> & _).
  destruct (reserve_space _ _ _ _ _ Hk Hres) as (Hfa & Hfb & _). set (f := n * PAGE_SIZE) in *.
  destruct (user_entry f READ_WRITE_EXECUTE parent_entry_flags) as (Heb & Hpe & Hae); [lia|done|].
  kernel_simpl. cbn [ram alloc]. rewrite Hi.
  change 0x000FFFFFFFFFF000 with ADDR_MASK. rewrite (land_ADDR_MASK_id f) by (done || lia).
  rewrite read64_write64_eq by done. rewrite Hae.
  destruct (enter_table _ s tables s1 p cur x f _ Hk Hp Hlen Hx Hpres Hres Heb Hpe Hae) as (Hk' & Hm' & _).
  eapply wp_mono; [apply (IH _ _ _ _ _ lim Hk'); [by rewrite lookup_insert_eq|lia|done]|].
  intros out s2. apply blank_post_table; try done.
  apply extends_table; try done. by apply parent_entry_user.
Qed.

(** The frame of a page that has just been reserved and cleared. *)
Lemma extends_leaf pml4 s tables s1 cur i0 i1 i2 i3 n e :
  let f := n * PAGE_SIZE in
  let s' := Sys (alloc s1) (write64 (fill (ram s1) f PAGE_SIZE 0) (entry_addr cur i3) e) in
  space_ok pml4 s tables → tables !! [i0; i1; i2] = Some cur → Forall (λ i, 0 ≤ i < 512) [i0; i1; i2; i3] →
  reserve_post s (Ok f) s1 → 0 ≤ e < 2 ^ 64 → PageTableEntry.present e = true →
  extends pml4 s tables s' tables ∧ blank_page s s' tables n ∧
  ∀ idx, Forall (λ i, 0 ≤ i < 512) idx → mapping (ram s') tables idx =
    if decide (idx = [i0; i1; i2; i3]) then Some e else mapping (ram s) tables idx.
Proof.
  intros f s' Hk Hp Hi Hres Heb Hpe.
  destruct (reserve_space _ _ _ _ _ Hk Hres) as (Hfa & Hfb & Hfree & Hused & Hgr & Hk1 & Hframe).
  assert (f / PAGE_SIZE = n) as En by (by apply Z.div_mul). rewrite En in Hfree, Hused.
  assert (∀ p b, tables !! p = Some b → b / PAGE_SIZE ≠ n ∧ b mod PAGE_SIZE = 0) as Hne.
  { intros p b Hq. destruct (pt_frames _ _ _ _ (kernel_pt _ _ _ Hk) p b Hq) as (_ & Hb & _ & Hu).
    split; [congruence|done]. }
  destruct (Hne _ _ Hp) as [Hnc Hca]. pose proof Hi as Hi3. rewrite !Forall_cons in Hi3.
  pose proof Hres as (_ & _ & _ & _ & _ & _ & _ & _ & _ & _ & _ & Hram).
  assert (∀ x, x / PAGE_SIZE ≠ cur / PAGE_SIZE → ram s' x = if decide (x / PAGE_SIZE = n) then 0 else ram s x) as Hm.
  { intros x Hx. unfold s'. cbn [ram]. rewrite Hram. unfold write64, write_le, fill, entry_addr, f, PAGE_SIZE in *.
    destruct (Z.leb_spec (cur + 8 * i3) x) as [A|A], (Z.ltb_spec x (cur + 8 * i3 + Z.of_nat 8)) as [B|B]; cbn [andb];
      [exfalso; clear - A B Hx Hca Hi3; Z.div_mod_to_equations; lia|..];
      destruct (Z.leb_spec (n * 4096) x) as [C|C], (Z.ltb_spec x (n * 4096 + 4096)) as [D|D]; cbn [andb];
      case_decide as F; try done; exfalso; clear - C D F; Z.div_mod_to_equations; lia. }
  assert (∀ q b j, tables !! q = Some b → 0 ≤ j < 512 →
    read64 (fill (ram s1) f PAGE_SIZE 0) (entry_addr b j) = read64 (ram s) (entry_addr b j)) as Hfr.
  { intros q b j Hq Hj. rewrite read64_fill_out; [by apply (Hframe q)|]. destruct (Hne q b Hq) as [Hnb Hba].
    clear - Hnb Hba Hj. unfold entry_addr, f, PAGE_SIZE in *. Z.div_mod_to_equations. lia. }
  destruct (write_leaf (root:=pml4) (bitmap:=memory_bitmap (alloc s1)) (fill (ram s1) f PAGE_SIZE 0)
    tables i0 i1 i2 i3 cur e) as [Hpt' Hmap']; [|done|done|done|].
  { apply (pt_ok_reads _ _ (ram s1)); [apply Hk1|]. intros q b j Hq Hj. rewrite (Hfr q b j) by done. symmetry. by apply (Hframe q b j). }
  split; [split; [split; [apply Hk1..|done]|done|done|by left| |]|split; [split|]].
  - intros x Hx Hu Hnt. rewrite Hm by (intros E; by apply (Hnt _ _ Hp)). rewrite decide_False by congruence. done.
  - intros Hs q b j Hq Hl Hj. unfold s'. cbn [ram].
    rewrite read64_write64_ne; [rewrite (Hfr q b j Hq Hj); by apply (Hs q b j)|].
    apply (entry_disjoint (root:=pml4) (bitmap:=memory_bitmap (alloc s)) (ram s) tables [i0; i1; i2] q cur b i3 j);
      [apply Hk|done|done|tauto|done|]. intros [= <- _]. cbn in Hl. lia.
  - unfold f, PAGE_SIZE in Hfb. lia.
  - done.
  - done.
  - intros p Hq. apply (Hne p _ Hq). by apply Z.div_mul.
  - intros x Hx. assert (x / PAGE_SIZE = n) as E by (unfold PAGE_SIZE in *; Z.div_mod_to_equations; lia).
    rewrite Hm by congruence. by rewrite decide_True.
  - intros idx Hb. cbn [ram]. rewrite Hmap' by done. rewrite Hpe. case_decide; [done|]. by apply mapping_frame.
Qed.

(** The leaf level. *)
Lemma blank_leaf pml4 va child lim mask cur s tables used created i0 i1 i2 :
  flags_only child → space_ok pml4 s tables → tables !! [i0; i1; i2] = Some cur →
  indices va = [i0; i1; i2; level_index 3 mask va] → 0 ≤ used → used + 1 < 2 ^ 64 →
  wp (UserPageMapper.map_blank_loop [(3, mask)] cur va child used created)
    (blank_post pml4 va child lim s tables used created) s.
Proof.
  intros Hchild Hk Hp Hidx Hu0 Hu. cbn [UserPageMapper.map_blank_loop].
  destruct (pt_frames _ _ _ _ (kernel_pt _ _ _ Hk) _ cur Hp) as (_ & _ & Hcur & _).
  unfold table_at. rewrite (proj2 (Z.eqb_neq cur 0)) by lia. kernel_simpl.
  set (x := level_index 3 mask va) in *. change (3 =? 3) with true. change (3 <? 3) with false.
  assert (mapping (ram s) tables (indices va) =
    if PageTableEntry.present (read64 (ram s) (entry_addr cur x))
    then Some (read64 (ram s) (entry_addr cur x)) else None) as Hm.
  { rewrite Hidx. cbn [mapping]. by rewrite Hp. }
  destruct (PageTableEntry.present (read64 (ram s) (entry_addr cur x))); cbn [negb].
  { rewrite wp_ret. cbn [blank_post]. rewrite Hm. split; [by eexists|done]. }
  rewrite wp_bind, wp_chk. split; [lia|]. rewrite wp_bind. apply (wp_mono _ (reserve_post s)).
  { apply wp_find_and_reserve_page; apply Hk. }
  intros [f|[]] s1 Hres.
  2:{ destruct Hres as (_ & -> & Hfull). rewrite wp_ret. by apply blank_post_full. }
  pose proof Hres as (_ & n & -> & _ & _ & _ & _ & _ & Hcount & _).
  destruct (reserve_space _ _ _ _ _ Hk Hres) as (Hfa & Hfb & _). set (f := n * PAGE_SIZE) in *.
  destruct (user_entry f child Hchild) as (Heb & Hpe & _); [lia|done|].
  kernel_simpl. cbn [ram alloc].
  change 0x000FFFFFFFFFF000 with ADDR_MASK. rewrite (land_ADDR_MASK_id f) by (done || lia).
  pose proof (indices_bound va) as Hb. rewrite Hidx in Hb.
  destruct (extends_leaf pml4 s tables s1 cur i0 i1 i2 x n (Z.lor f child) Hk Hp Hb Hres Heb Hpe) as (He & Hbl & Hmap).
  split; [done|].
  exists tables, n. split; [done|]. split; [done|]. cbn [alloc]. do 2 (split; [lia|]). by rewrite Hidx.
Qed.

Lemma wp_map_blank_loop pml4 va child s tables used :
  flags_only child → space_ok pml4 s tables → 0 ≤ used → used + 4 < 2 ^ 64 →
  wp (UserPageMapper.map_blank_loop LEVEL_MASKS pml4 va child used [])
    (blank_post pml4 va child 3 s tables used []) s.
Proof.
  intros Hchild Hk Hu0 Hu. unfold LEVEL_MASKS.
  apply (blank_step _ _ _ _ _ _ _ []); try done; [cbn; lia|apply Hk|by eexists|lia|].
  intros s1 t1 n1 u1 c1 l1 Hk1 Hn1 Hu1 Hl1. cbn [app] in Hn1. destruct l1 as [|l1]; [lia|].
  apply (blank_step _ _ _ _ _ _ _ [level_index 0 0xFF8000000000 va]); try done; [cbn; lia|by eexists|lia|lia|].
  intros s2 t2 n2 u2 c2 l2 Hk2 Hn2 Hu2 Hl2. cbn [app] in Hn2. destruct l2 as [|l2]; [lia|].
  apply (blank_step _ _ _ _ _ _ _ [level_index 0 0xFF8000000000 va; level_index 1 0x007FC0000000 va]);
    try done; [cbn; lia|by eexists|lia|lia|].
  intros s3 t3 n3 u3 c3 l3 Hk3 Hn3 Hu3 _. cbn [app] in Hn3. eapply blank_leaf; try done; lia.
Qed.

(** ** The clean-up *)

Lemma wp_free_created ns used s :
  alloc_ok s.(alloc) → NoDup ns → Z.of_nat (length ns) ≤ used < 2 ^ 64 →
  Forall (λ n, 0 < n < total_pages s.(alloc) ∧ page_bit (memory_bitmap s.(alloc)) n = true) ns →
  wp (UserPageMapper.free_created ((λ n, n * PAGE_SIZE) <$> ns) used) (λ used' s',
    used' = used - Z.of_nat (length ns) ∧ s'.(ram) = s.(ram) ∧ alloc_ok s'.(alloc) ∧
    num_bits (memory_bitmap s'.(alloc)) = num_bits (memory_bitmap s.(alloc)) ∧
    total_pages s'.(alloc) = total_pages s.(alloc) ∧ page_table s'.(alloc) = page_table s.(alloc) ∧
    free_pages s'.(alloc) = free_pages s.(alloc) + Z.of_nat (length ns) ∧
    ∀ k, 0 ≤ k → page_bit (memory_bitmap s'.(alloc)) k =
      negb (bool_decide (k ∈ ns)) && page_bit (memory_bitmap s.(alloc)) k) s.
Proof.
  revert used s. induction ns as [|n ns IH]; intros used s Hok Hnd Hu Hall; cbn [fmap list_fmap UserPageMapper.free_created].
  { rewrite wp_ret. cbn [length]. by split_and!; try lia. }
  apply NoDup_cons in Hnd as [Hni Hnd]. apply Forall_cons in Hall as [[Hn Hbit] Hall]. cbn [length] in *.
  pose proof (page_bit_range _ n ltac:(lia) Hbit) as Hr.
  pose proof (count_free_nonneg (memory_bitmap (alloc s))) as Hcf. pose proof (alloc_count _ Hok) as Hc.
  pose proof (bitmap_addressable _ (alloc_bitmap_ok _ Hok)) as Hadr.
  rewrite wp_bind. eapply wp_mono; [apply (wp_free_page s n Hok); unfold PAGE_SIZE in *; lia|].
  intros [] s1 (Hram & _ & Hin). destruct (Hin ltac:(lia)) as (Hbits & Hnb & Ht & Hpt & Hfree & Hok1 & _).
  rewrite wp_bind, wp_chk. split; [lia|].
  eapply wp_mono; [apply IH; [by apply Hok1|done|lia|]|].
  { rewrite Forall_forall in *. intros k Hk. destruct (Hall k Hk) as [H1 H2]. rewrite Ht. split; [done|].
    rewrite Hbits, H2 by lia. rewrite (proj2 (Z.eqb_neq k n)); [done|]. by intros ->. }
  intros used' s' (-> & Hram' & Hok' & Hnb' & Ht' & Hpt' & Hfree' & Hbits').
  split_and!; try done; try congruence; try lia; try apply Hok'.
  intros k Hk. rewrite Hbits', Hbits by done. destruct (Z.eqb_spec k n) as [->|Hkn].
  - rewrite (bool_decide_true (n ∈ n :: ns)) by (rewrite elem_of_cons; by left). by rewrite andb_false_r.
  - rewrite (bool_decide_ext (k ∈ n :: ns) (k ∈ ns)); [done|]. rewrite elem_of_cons. naive_solver.
Qed.

(** The walks of a user address space, read off its tables. *)
Lemma mapping_user_walk pml4 s tables va :
  space_ok pml4 s tables → mapping s.(ram) tables (indices va) = user_walk s pml4 va.
Proof.
  intros Hk. unfold user_walk. pose proof (indices_bound va) as Hb. rewrite indices_spec in *.
  by apply (mapping_walk (bitmap:=memory_bitmap (alloc s))); [apply Hk|].
Qed.
(** Some table has an entry for a page that is free. *)
Definition dangling (s : sys) (tables : gmap (list Z) Z) : Prop :=
  ∃ p a x, tables !! p = Some a ∧ 0 ≤ x < 512 ∧
    let e := read64 s.(ram) (entry_addr a x) in
    PageTableEntry.present e = true ∧ page_bit (memory_bitmap s.(alloc)) (address e / PAGE_SIZE) = false.
(** The two addresses are on one page. *)
Definition same_page (va va' : Z) : Prop := va / PAGE_SIZE mod 2 ^ 36 = va' / PAGE_SIZE mod 2 ^ 36.

(** What [map_blank_page] leaves, for each result. *)
Definition page_post (pml4 va flags : Z) (s : sys) (tables : gmap (list Z) Z) (used : Z)
    (out : result () UserPageMapperError * Z) (s' : sys) : Prop :=
  let '(r, used') := out in
  (∀ va', ¬ same_page va' va → user_walk s' pml4 va' = user_walk s pml4 va') ∧
  match r with
  | Ok _ => user_walk s pml4 va = None ∧ ∃ tables' n,
      extends pml4 s tables s' tables' ∧ blank_page s s' tables' n ∧
      used' - used = free_pages s.(alloc) - free_pages s'.(alloc) ∧ used < used' ≤ used + 4 ∧
      user_walk s' pml4 va = Some (Z.lor (n * PAGE_SIZE) (child_entry flags))
  | Err UserPageAlreadyExists => is_Some (user_walk s pml4 va) ∧ s' = s ∧ used' = used
  | Err UserOutOfMemory => user_walk s pml4 va = None ∧ user_walk s' pml4 va = None ∧
      s'.(alloc) = s.(alloc) ∧ used' = used + 1 ∧ free_pages s.(alloc) < 4 ∧
      (0 < free_pages s.(alloc) → dangling s' tables)
  end.

(** The state after the clean-up. *)
Lemma cleanup_post pml4 va flags s tables used used' created s1 :
  space_ok pml4 s tables → free_managed s.(alloc) → 0 ≤ used → used + 4 < 2 ^ 64 →
  blank_post pml4 va (child_entry flags) 3 s tables used [] (Break (Err UserOutOfMemory), used', created) s1 →
  wp (UserPageMapper.free_created created used')
    (λ used'' s', page_post pml4 va flags s tables used (Err UserOutOfMemory, used'') s') s1.
Proof.
  intros Hk Hm Hu0 Hu (Hun & tables' & more & He & -> & -> & Hz & Hc & Hl & Hnd & Hall & Hb & Hhead & Hmap).
  pose proof He as [Hk1 Hg Ht _ _ _]. cbn [app].
  eapply wp_mono; [apply wp_free_created; [apply Hk1|done|lia|]|].
  { rewrite Forall_forall in *. intros n Hn. destruct (Hall n Hn) as [H0 Hf]. rewrite (grows_total _ _ Hg).
    assert (page_bit (memory_bitmap (alloc s1)) n = true) as Hn1 by (rewrite Hb by lia; by rewrite bool_decide_true).
    split; [|done]. split; [done|]. apply Hm; [|done].
    pose proof (page_bit_range _ n ltac:(lia) Hn1). rewrite (grows_num _ _ Hg) in *. lia. }
  intros used'' s2 (-> & Hram & Hok & Hnb & Htot & Hpt & Hfree & Hbits).
  assert (∀ va', user_walk s2 pml4 va' = user_walk s pml4 va') as Hw.
  { intros va'. rewrite <-(mapping_user_walk pml4 s tables) by done. rewrite <-Hmap by apply indices_bound.
    rewrite (mapping_user_walk pml4 s1 tables') by done. unfold user_walk. by rewrite Hram. }
  assert (∀ k, 0 ≤ k → page_bit (memory_bitmap (alloc s2)) k = page_bit (memory_bitmap (alloc s)) k) as Hback.
  { intros k H0. rewrite Hbits, Hb by done. case_bool_decide as Hin; [|done]. cbn [negb andb].
    rewrite Forall_forall in Hall. symmetry. by apply Hall. }
  split; [by intros|]. rewrite Hw, <-(mapping_user_walk pml4 s tables va) by done. split; [done|]. split; [done|].
  split; [|split; [lia|split; [lia|]]].
  - rewrite Hz in Hfree. pose proof (kernel_alloc _ _ _ Hk) as Hok0.
    pose proof (grows_num _ _ Hg). pose proof (grows_total _ _ Hg). pose proof (grows_root _ _ Hg).
    destruct (alloc s2) as [bm2 t2 f2 p2], (alloc s) as [bm t f p]. cbn in *. f_equal; try lia; try congruence.
    apply page_bit_inj; [apply Hok|apply Hok0|congruence|]. intros k Hk0. apply Hback. lia.
  - intros Hpos. destruct more as [|n more]; [cbn in Hc; lia|].
    destruct (Hhead n eq_refl) as (p & x & cur & Hp & Hlen & Hx & Hn).
    exists p, cur, x. split; [done|]. split; [done|]. cbn zeta. rewrite Hram.
    rewrite (pt_child _ _ _ _ (kernel_pt _ _ _ Hk1) p cur x) in Hn by (try done; by eapply lookup_weaken).
    cbn zeta in Hn. destruct (PageTableEntry.present _); [|done]. injection Hn as ->. split; [done|].
    rewrite Z.div_mul by done. apply Forall_cons in Hall as [[H0 Hf] _]. rewrite Hback by lia. done.
Qed.

Lemma wp_map_blank_page pml4 va flags s tables used :
  space_ok pml4 s tables → free_managed s.(alloc) → 0 ≤ used → used + 4 < 2 ^ 64 →
  wp (UserPageMapper.map_blank_page pml4 va flags used) (page_post pml4 va flags s tables used) s.
Proof.
  intros Hk Hm Hu0 Hu. unfold UserPageMapper.map_blank_page. fold (child_entry flags).
  rewrite wp_bind. eapply wp_mono; [by apply (wp_map_blank_loop _ _ _ _ tables); [apply child_entry_flags|..]|].
  intros [[[[[]|[]]|[[]|[]]] used'] created] s1 Hpost; try done.
  - rewrite wp_ret. destruct Hpost as ([e Hw] & -> & ->). split; [done|].
    rewrite (mapping_user_walk _ _ _ _ Hk) in Hw. by split; [eexists|].
  - rewrite wp_ret. destruct Hpost as (Hun & tables' & n & He & Hb & Hcount & Hlt & Hmap).
    rewrite (mapping_user_walk _ _ _ _ Hk) in Hun.
    assert (∀ va', user_walk s1 pml4 va' = if decide (indices va' = indices va)
      then Some (Z.lor (n * PAGE_SIZE) (child_entry flags)) else user_walk s pml4 va') as Hw.
    { intros va'. rewrite <-(mapping_user_walk _ s1 tables') by apply He. rewrite Hmap by apply indices_bound.
      case_decide; [done|]. by apply mapping_user_walk. }
    split. { intros va' Hne. rewrite Hw, decide_False; [done|]. by rewrite indices_eq_iff. }
    split; [done|]. exists tables', n. split; [done|]. split; [done|]. split; [done|]. split; [lia|]. by rewrite Hw, decide_True.
  - rewrite wp_bind. eapply wp_mono; [by eapply cleanup_post|]. intros used'' s2 H. by rewrite wp_ret.
Qed.

(** ** The task *)

Lemma blank_page_extends pml4 s s1 tables1 s2 tables2 n :
  blank_page s s1 tables1 n → extends pml4 s1 tables1 s2 tables2 → blank_page s s2 tables2 n.
Proof.
  intros [B0 B1 B2 B3 B4] [K G T N D _]. split; [done|done|apply (grows_bits _ _ G); [lia|done]| |].
  - intros p Hp. destruct (N p _ Hp) as [Hp1|Hb]; [by apply (B3 p)|]. rewrite Z.div_mul in Hb by done. congruence.
  - intros x Hx. assert (x / PAGE_SIZE = n) as E by (unfold PAGE_SIZE in *; Z.div_mod_to_equations; lia).
    rewrite D; [by apply B4|unfold PAGE_SIZE in *; lia|by rewrite E|].
    intros p a Hp Ea. apply (B3 p). rewrite Hp. f_equal. rewrite <-E, <-Ea.
    destruct (pt_frames _ _ _ _ (kernel_pt _ _ _ K) p a) as (_ & Ha & _); [by eapply lookup_weaken|].
    unfold PAGE_SIZE in *. Z.div_mod_to_equations. lia.
Qed.
Lemma blank_page_before s s1 s2 tables n : grows s.(alloc) s1.(alloc) → blank_page s1 s2 tables n → blank_page s s2 tables n.
Proof.
  intros G [B0 B1 B2 B3 B4]. split; try done. apply not_true_is_false. intros E.
  rewrite (grows_bits _ _ G) in B1; [done|lia|done].
Qed.
Lemma grows_managed pa pa' : grows pa pa' → free_managed pa → free_managed pa'.
Proof.
  intros G Hm n Hn Hf. rewrite (grows_num _ _ G) in Hn. rewrite (grows_total _ _ G). apply Hm; [done|].
  apply not_true_is_false. intros E. rewrite (grows_bits _ _ G) in Hf; [done|lia|done].
Qed.
Lemma pages_apart va i : 0 < i < 2 ^ 36 → ¬ same_page va (va + PAGE_SIZE * i).
Proof.
  unfold same_page. intros Hi. replace (va + PAGE_SIZE * i) with (va + i * PAGE_SIZE) by lia.
  rewrite Z.div_add by done. generalize (va / PAGE_SIZE). intros x E. Z.div_mod_to_equations. lia.
Qed.

(** The [n] pages from [va] on are mapped, one after the other, to [frames]. *)
Record pages_mapped (pml4 va entry : Z) (n : nat) (s : sys) (tables : gmap (list Z) Z) (s' : sys)
    (tables' : gmap (list Z) Z) (frames : list Z) : Prop := {
  pm_extends : extends pml4 s tables s' tables';
  pm_length : length frames = n;
  pm_distinct : NoDup frames;
  pm_page : ∀ i f, frames !! i = Some f → blank_page s s' tables' f ∧
    user_walk s' pml4 (va + PAGE_SIZE * Z.of_nat i) = Some (Z.lor (f * PAGE_SIZE) entry);
  pm_others : ∀ va', (∀ i, 0 ≤ i < Z.of_nat n → ¬ same_page va' (va + PAGE_SIZE * i)) →
    user_walk s' pml4 va' = user_walk s pml4 va';
}.

(** One page more. *)
Lemma pages_mapped_cons pml4 va entry n s tables s1 tables1 s2 tables2 f frames :
  Z.of_nat (S n) ≤ 2 ^ 36 → extends pml4 s tables s1 tables1 → blank_page s s1 tables1 f →
  user_walk s1 pml4 va = Some (Z.lor (f * PAGE_SIZE) entry) →
  (∀ va', ¬ same_page va' va → user_walk s1 pml4 va' = user_walk s pml4 va') →
  pages_mapped pml4 (va + PAGE_SIZE) entry n s1 tables1 s2 tables2 frames →
  pages_mapped pml4 va entry (S n) s tables s2 tables2 (f :: frames).
Proof.
  intros Hn He Hb Hw Ho [E2 L2 D2 P2 O2]. split.
  - by eapply extends_trans.
  - cbn. by rewrite L2.
  - apply NoDup_cons. split; [|done]. intros [i Hi]%list_elem_of_lookup. apply P2 in Hi as [[_ Hfree _ _ _] _].
    destruct Hb as [_ _ Hused _ _]. congruence.
  - intros [|i] g Hi; cbn in Hi.
    + injection Hi as <-. split; [by eapply blank_page_extends|].
      replace (va + PAGE_SIZE * Z.of_nat 0) with va by lia. rewrite O2; [done|]. intros i Hi.
      replace (va + PAGE_SIZE + PAGE_SIZE * i) with (va + PAGE_SIZE * (i + 1)) by lia. apply pages_apart. lia.
    + destruct (P2 i g Hi) as [Hg Hwg]. split; [by eapply blank_page_before; [apply He|]|].
      by replace (va + PAGE_SIZE * Z.of_nat (S i)) with (va + PAGE_SIZE + PAGE_SIZE * Z.of_nat i) by lia.
  - intros va' Hne. rewrite O2.
    + apply Ho. replace va with (va + PAGE_SIZE * 0) by lia. apply Hne. lia.
    + intros i Hi. replace (va + PAGE_SIZE + PAGE_SIZE * i) with (va + PAGE_SIZE * (i + 1)) by lia. apply Hne. lia.
Qed.

(** Nothing mapped from an empty range. *)
Lemma pages_mapped_nil pml4 va entry s tables : space_ok pml4 s tables → pages_mapped pml4 va entry 0 s tables s tables [].
Proof. intros Hk. split; [by apply extends_refl|done|apply NoDup_nil_2|done|done]. Qed.

(** One step of the task, when four pages are free. *)
Lemma wp_map_step pml4 va start used pages entry s tables (Q : MapMemTask.t * option (result Z MapMemError) → sys → Prop) :
  space_ok pml4 s tables → free_managed s.(alloc) → 4 ≤ free_pages s.(alloc) → user_walk s pml4 va = None →
  0 ≤ va → va + PAGE_SIZE < 2 ^ 64 → 0 < pages < 2 ^ 64 → 0 ≤ used → used + 4 < 2 ^ 64 →
  (∀ used1 s1 tables1 f, extends pml4 s tables s1 tables1 → blank_page s s1 tables1 f →
     used1 - used = free_pages s.(alloc) - free_pages s1.(alloc) → used < used1 ≤ used + 4 →
     user_walk s1 pml4 va = Some (Z.lor (f * PAGE_SIZE) (child_entry entry)) →
     (∀ va', ¬ same_page va' va → user_walk s1 pml4 va' = user_walk s pml4 va') →
     Q (MapMemTask.Build start (va + PAGE_SIZE) used1 (MapMemTask.Mapping (pages - 1) entry),
        if pages - 1 =? 0 then Some (Ok used1) else None) s1) →
  wp (MapMemTask.step pml4 (MapMemTask.Build start va used (MapMemTask.Mapping pages entry))) Q s.
Proof.
  intros Hk Hm Hfree Hun Hva Hend Hp Hu0 Hu HQ. unfold MapMemTask.step.
  cbn [MapMemTask.state MapMemTask.current_address MapMemTask.start_address MapMemTask.pages_allocated].
  change 4096 with PAGE_SIZE. rewrite wp_bind, wp_chk. split; [unfold PAGE_SIZE in *; lia|].
  rewrite wp_bind. eapply wp_mono; [by apply (wp_map_blank_page _ _ _ _ tables)|].
  intros [[u|[]] used1] s1 [Ho Hr].
  - destruct Hr as (_ & tables1 & f & He & Hb & Hcount & Hle & Hw).
    rewrite wp_bind, wp_chk. split; [lia|]. rewrite wp_ret. by apply (HQ used1 s1 tables1 f).
  - destruct Hr as ([e E] & _). congruence.
  - destruct Hr as (_ & _ & _ & _ & Hlow & _). lia.
Qed.

(** The room a task of [n] pages needs: four pages for each, which is enough
    for the page and for the tables on the way to it. *)
Definition room_for (n : nat) (used : Z) (s : sys) : Prop :=
  4 * Z.of_nat n ≤ free_pages s.(alloc) ∧ 0 ≤ used ∧ used + free_pages s.(alloc) + 4 < 2 ^ 64.

Lemma wp_map_run pml4 n : ∀ va start used entry s tables answers,
  space_ok pml4 s tables → free_managed s.(alloc) → room_for (S n) used s →
  0 ≤ va → va + PAGE_SIZE * Z.of_nat (S n) < 2 ^ 64 → Z.of_nat (S n) ≤ 2 ^ 36 →
  (∀ i, 0 ≤ i < Z.of_nat (S n) → user_walk s pml4 (va + PAGE_SIZE * i) = None) →
  wp (MapMemTask_run pml4 (replicate (S n) false ++ answers)
        (MapMemTask.Build start va used (MapMemTask.Mapping (Z.of_nat (S n)) entry)))
    (λ '(_, p) s', ∃ used' tables' frames, p = Ready (Ok used') ∧
       used' - used = free_pages s.(alloc) - free_pages s'.(alloc) ∧
       pages_mapped pml4 va (child_entry entry) (S n) s tables s' tables' frames) s.
Proof.
  unfold MapMemTask_run. induction n as [|n IH]; intros va start used entry s tables answers Hk Hm (Hfree & Hu0 & Hu) Hva Hend Hn Hun;
    cbn [replicate app run_task]; rewrite wp_bind; specialize (Hun 0 ltac:(lia)) as Hun0;
    rewrite Z.mul_0_r, Z.add_0_r in Hun0;
    (apply (wp_map_step _ _ _ _ _ _ _ tables); [done|done|lia|done|lia|unfold PAGE_SIZE in *; lia|lia|lia|lia|]);
    intros used1 s1 tables1 f He Hb Hcount Hle Hw Ho.
  - change (Z.of_nat 1 - 1 =? 0) with true. cbv iota beta. rewrite wp_ret. exists used1, tables1, [f]. split; [done|]. split; [done|].
    eapply pages_mapped_cons; [done|done|done|done|done|]. apply pages_mapped_nil, He.
  - pose proof (ext_grows _ _ _ _ _ He) as Hg. replace (Z.of_nat (S (S n)) - 1) with (Z.of_nat (S n)) by lia.
    rewrite (proj2 (Z.eqb_neq _ 0)) by lia. cbv iota beta.
    eapply wp_mono; [apply (IH _ _ _ _ s1 tables1 answers)|].
    + apply He.
    + by apply (grows_managed _ _ Hg).
    + unfold room_for. lia.
    + unfold PAGE_SIZE; lia.
    + unfold PAGE_SIZE in *; lia.
    + lia.
    + intros i Hi. replace (va + PAGE_SIZE + PAGE_SIZE * i) with (va + PAGE_SIZE * (i + 1)) by lia.
      rewrite Ho; [apply Hun; lia|]. intros E%eq_sym. by apply (pages_apart va (i + 1)); [lia|].
    + intros [task p] s2 (used2 & tables2 & frames & -> & Hcount2 & Hpm). exists used2, tables2, (f :: frames).
      split; [done|]. split; [lia|]. by eapply pages_mapped_cons.
Qed.

(** ** The theorems *)

(** C14: [map_blank_page] on a well-formed address space, for each of its results.
    [Ok]: the page was unmapped; it is now mapped, with the flags asked for, to
    a page that was free, holds zeroes and is no table, and [pages_used] counts
    the pages taken.  [PageAlreadyExists]: nothing changed.  [OutOfMemory]: fewer
    than four pages were free, no translation changed and every page taken was
    given back.  But [pages_used] is one too high, and when there was a free page
    at all the tables keep an entry for a page that is free again.  In every case
    the other pages translate as before. *)
Theorem map_blank_page_correct (s : sys) (tables : gmap (list Z) Z) (pml4 virtual_address flags used : Z) :
  space_ok pml4 s tables → free_managed s.(alloc) → 0 ≤ used → used + 4 < 2 ^ 64 →
  ∃ r used' s', UserPageMapper.map_blank_page pml4 virtual_address flags used s = Returns ((r, used'), s') ∧
  (∀ va', ¬ same_page va' virtual_address → user_walk s' pml4 va' = user_walk s pml4 va') ∧
  match r with
  | Ok _ => user_walk s pml4 virtual_address = None ∧ ∃ tables' n, extends pml4 s tables s' tables' ∧
      blank_page s s' tables' n ∧ used' - used = free_pages s.(alloc) - free_pages s'.(alloc) ∧
      user_walk s' pml4 virtual_address = Some (Z.lor (n * PAGE_SIZE) (child_entry flags))
  | Err UserPageAlreadyExists => is_Some (user_walk s pml4 virtual_address) ∧ s' = s ∧ used' = used
  | Err UserOutOfMemory => free_pages s.(alloc) < 4 ∧ user_walk s' pml4 virtual_address = None ∧
      s'.(alloc) = s.(alloc) ∧ used' = used + 1 ∧ (0 < free_pages s.(alloc) → dangling s' tables)
  end.
Proof.
  intros Hk Hm Hu0 Hu. pose proof (wp_map_blank_page pml4 virtual_address flags s tables used Hk Hm Hu0 Hu) as Hw.
  apply wp_returns in Hw as ([r used'] & s' & E & Ho & Hr). exists r, used', s'. split; [done|]. split; [done|].
  destruct r as [u|[]]; [|done|tauto].
  destruct Hr as (Hun & tables' & n & He & Hb & Hc & _ & Hw). split; [done|]. by exists tables', n.
Qed.
Lemma demo_space_ok : space_ok 0x1000 demo_sys demo_tables.
Proof. exact demo_sys_ok. Qed.
Lemma map_blank_page_correct_witness :
  ∃ r used' s', UserPageMapper.map_blank_page 0x1000 0x12345000 READ_WRITE 0 demo_sys = Returns ((r, used'), s') ∧
  (∀ va', ¬ same_page va' 0x12345000 → user_walk s' 0x1000 va' = user_walk demo_sys 0x1000 va') ∧
  match r with
  | Ok _ => user_walk demo_sys 0x1000 0x12345000 = None ∧ ∃ tables' n, extends 0x1000 demo_sys demo_tables s' tables' ∧
      blank_page demo_sys s' tables' n ∧ used' - 0 = free_pages demo_sys.(alloc) - free_pages s'.(alloc) ∧
      user_walk s' 0x1000 0x12345000 = Some (Z.lor (n * PAGE_SIZE) (child_entry READ_WRITE))
  | Err UserPageAlreadyExists => is_Some (user_walk demo_sys 0x1000 0x12345000) ∧ s' = demo_sys ∧ used' = 0
  | Err UserOutOfMemory => free_pages demo_sys.(alloc) < 4 ∧ user_walk s' 0x1000 0x12345000 = None ∧
      s'.(alloc) = demo_sys.(alloc) ∧ used' = 0 + 1 ∧ (0 < free_pages demo_sys.(alloc) → dangling s' demo_tables)
  end.
Proof. apply map_blank_page_correct; [exact demo_space_ok|by apply free_managed_all|done|done]. Defined.

(** The whole run, on a task that has just been made. *)
Lemma map_task_run (s : sys) (tables : gmap (list Z) Z) (pml4 start : Z) (n : nat)
    (flags : SegmentFlags.t) (answers : list bool) :
  space_ok pml4 s tables → free_managed s.(alloc) → (0 < n)%nat → 4 * Z.of_nat n ≤ free_pages s.(alloc) →
  0 ≤ start → start + PAGE_SIZE * Z.of_nat n < 2 ^ 64 → Z.of_nat n ≤ 2 ^ 36 →
  (∀ i, 0 ≤ i < Z.of_nat n → user_walk s pml4 (start + PAGE_SIZE * i) = None) →
  ∃ task used s' tables' frames,
    MapMemTask_run pml4 (replicate n false ++ answers) (MapMemTask.new start (Z.of_nat n) flags) s =
      Returns ((task, Ready (Ok used)), s') ∧ used = free_pages s.(alloc) - free_pages s'.(alloc) ∧
    pages_mapped pml4 start (child_entry (MapMemTask.segment_entry flags)) n s tables s' tables' frames.
Proof.
  intros Hk Hm Hn Hfree H0 Hend Hmax Hun. destruct n as [|n]; [lia|].
  pose proof (alloc_count _ (kernel_alloc _ _ _ Hk)) as Hc.
  pose proof (count_free_nonneg (memory_bitmap (alloc s))) as Hcf. pose proof (kernel_small _ _ _ Hk) as Hs.
  pose proof (wp_map_run pml4 n start start 0 (MapMemTask.segment_entry flags) s tables answers) as Hw.
  apply wp_returns in Hw as ([task p] & s' & E & used & tables' & frames & -> & Hu & Hpm); try done.
  - exists task, used, s', tables', frames. split; [done|]. split; [lia|done].
  - unfold room_for, PAGE_SIZE in *. lia.
Qed.
(** C15: a [MapMemTask] that has room completes.  For a range of [n] unmapped
    pages and [4 n] free pages, a run that is not suspended for [n] pages
    returns [Ok] with the number of pages taken from the allocator.  The pages
    of the range are then mapped, each to a page of its own that was free and
    holds zeroes, with the flags of the segment; every other page translates as
    before, the contents of every page in use are kept, and the address space is
    well formed. *)
Theorem map_task_correct (s : sys) (tables : gmap (list Z) Z) (pml4 start : Z) (n : nat)
    (flags : SegmentFlags.t) (answers : list bool) :
  space_ok pml4 s tables → free_managed s.(alloc) → (0 < n)%nat → 4 * Z.of_nat n ≤ free_pages s.(alloc) →
  0 ≤ start → start + PAGE_SIZE * Z.of_nat n < 2 ^ 64 → Z.of_nat n ≤ 2 ^ 36 →
  (∀ i, 0 ≤ i < Z.of_nat n → user_walk s pml4 (start + PAGE_SIZE * i) = None) →
  ∃ task used s' tables' frames,
    MapMemTask_run pml4 (replicate n false ++ answers) (MapMemTask.new start (Z.of_nat n) flags) s =
      Returns ((task, Ready (Ok used)), s') ∧ used = free_pages s.(alloc) - free_pages s'.(alloc) ∧
    pages_mapped pml4 start (child_entry (MapMemTask.segment_entry flags)) n s tables s' tables' frames.
Proof. apply map_task_run. Qed.
Lemma map_task_correct_witness :
  ∃ task used s' tables' frames,
    MapMemTask_run 0x1000 (replicate 3 false ++ [true])
      (MapMemTask.new 0x1FF000 (Z.of_nat 3) (SegmentFlags.Build true true false)) demo_sys =
      Returns ((task, Ready (Ok used)), s') ∧ used = free_pages demo_sys.(alloc) - free_pages s'.(alloc) ∧
    pages_mapped 0x1000 0x1FF000 (child_entry (MapMemTask.segment_entry (SegmentFlags.Build true true false))) 3
      demo_sys demo_tables s' tables' frames.
Proof.
  apply map_task_correct; [exact demo_space_ok|by apply free_managed_all|lia|done|done|done|done|].
  intros i Hi. assert (i = 0 ∨ i = 1 ∨ i = 2) as [-> | [-> | ->]] by lia; vm_compute; reflexivity.
Defined.

(** *** Who may use the pages *)

(** The processor lets user code use an address when every entry of the walk is
    present and has the user bit. *)
Fixpoint user_may_access (m : memory) (table : Z) (idx : list Z) : bool :=
  match idx with
  | [] => true
  | i :: rest =>
      let e := read64 m (entry_addr table i) in
      PageTableEntry.present e && PageTableEntry.user_accessable e && user_may_access m (address e) rest
  end.
(** The pages that [map_blank_page] maps are out of the reach of user code: the
    parent tables are entered with [READ_WRITE_EXECUTE], which has no user bit.
    In an address space all of whose tables were made by this function, user code
    may access no address, whatever is mapped. *)
Theorem mapped_pages_denied (s s' : sys) (tables : gmap (list Z) Z) (pml4 virtual_address flags used used' : Z) :
  space_ok pml4 s tables → free_managed s.(alloc) → 0 ≤ used → used + 4 < 2 ^ 64 →
  supervisor_tables s.(ram) tables →
  UserPageMapper.map_blank_page pml4 virtual_address flags used s = Returns ((Ok (), used'), s') →
  ∀ va, user_may_access s'.(ram) pml4 (indices va) = false.
Proof.
  intros Hk Hm Hu0 Hu Hs E va.
  pose proof (wp_map_blank_page pml4 virtual_address flags s tables used Hk Hm Hu0 Hu) as Hw.
  unfold wp in Hw. rewrite E in Hw. destruct Hw as (_ & _ & tables' & n & He & _).
  pose proof (ext_supervisor _ _ _ _ _ He Hs) as Hs'.
  pose proof (pt_root _ _ _ _ (kernel_pt _ _ _ (ext_ok _ _ _ _ _ He))) as Hr.
  unfold indices. cbn [LEVEL_MASKS map user_may_access].
  pose proof (level_index_bound 0 0xFF8000000000 va) as Hx.
  set (x := level_index 0 0xFF8000000000 va) in *.
  destruct (PageTableEntry.present (read64 (ram s') (entry_addr pml4 x))) eqn:Hp; [|done].
  rewrite (Hs' [] pml4 x Hr ltac:(cbn; lia) Hx Hp). done.
Qed.
