(* ===== verification/UserUnmap.v ===== *)
(** * Unmapping a user's pages (kernel/src/arch/x86_64/user_page_mapping.rs)

    What [unmap_page] and an [UnmapMemTask] do to the walks of an address space.
    Unmapping frees tables that other entries may still be below, so the tables do
    not stay well formed in the sense of PageTables.v; [tables_ok] is what is kept:
    a present entry leads to a known table, which nothing says is still in use. *)
From S2P Require Import Prelude Paging PageAlloc PageTables UserMap.

(** [tables] gives the address of the table at each path of indices, whether or
    not an entry still leads to it. *)
Record tables_ok (pml4 : Z) (m : memory) (tables : gmap (list Z) Z) : Prop := {
  tb_root : tables !! [] = Some pml4;
  tb_frames : ∀ p a, tables !! p = Some a → (length p ≤ 3)%nat ∧ a mod PAGE_SIZE = 0 ∧ 0 < a;
  tb_inj : ∀ p q a, tables !! p = Some a → tables !! q = Some a → p = q;
  tb_child : ∀ p a i, tables !! p = Some a → (length p < 3)%nat → 0 ≤ i < 512 →
    PageTableEntry.present (read64 m (entry_addr a i)) = true →
    tables !! (p ++ [i]) = Some (address (read64 m (entry_addr a i)));
  tb_huge : no_huge m tables;
}.
Lemma space_tables_ok pml4 s tables : space_ok pml4 s tables → no_huge s.(ram) tables → tables_ok pml4 s.(ram) tables.
Proof.
  intros [_ _ _ [Hr Hf Hi Hc _]] Hh. split; try done.
  - intros p a Hp. destruct (Hf p a Hp) as (? & ? & ? & _). split_and!; [done|done|lia].
  - intros p a i Hp Hl Hi' Hpres. specialize (Hc p a i Hp Hl Hi'). cbn zeta in Hc. by rewrite Hpres in Hc.
Qed.

(** ** Clearing entries *)

(** The entries a walk goes through, each with its table. *)
Fixpoint path (m : memory) (a : Z) (idx : list Z) : list (Z * Z) :=
  match idx with
  | [] => []
  | i :: rest => (i, a) :: path m (address (read64 m (entry_addr a i))) rest
  end.
(** The entry is one of a known table. *)
Definition known_entry (tables : gmap (list Z) Z) (it : Z * Z) : Prop :=
  (∃ p, tables !! p = Some it.2) ∧ 0 ≤ it.1 < 512.
Definition clear (m : memory) (it : Z * Z) : memory := write64 m (entry_addr it.2 it.1) ZERO.

Section clear.
Context {pml4 : Z} {tables : gmap (list Z) Z}.
Implicit Types m : memory.

(** An entry is cleared, or reads as before. *)
Lemma clear_read m it a i : tables_ok pml4 m tables → known_entry tables it → known_entry tables (i, a) →
  it = (i, a) ∧ read64 (clear m it) (entry_addr a i) = ZERO ∨
  it ≠ (i, a) ∧ read64 (clear m it) (entry_addr a i) = read64 m (entry_addr a i).
Proof.
  intros Hok [[q Hq] Hj] [[p Hp] Hi]. destruct it as [j b]. cbn [fst snd] in *.
  destruct (decide ((j, b) = (i, a))) as [[= -> ->]|Hne].
  { left. split; [done|]. by apply read64_write64_eq. }
  right. split; [done|]. apply read64_write64_ne. unfold entry_addr. cbn [fst snd].
  destruct (tb_frames _ _ _ Hok q b Hq) as (_ & Hb & _). destruct (tb_frames _ _ _ Hok p a Hp) as (_ & Ha & _).
  destruct (decide (a = b)) as [->|Hab]; [assert (i ≠ j) by congruence; lia|].
  unfold PAGE_SIZE in *. Z.div_mod_to_equations. lia.
Qed.
Lemma clear_ok m it : tables_ok pml4 m tables → known_entry tables it → tables_ok pml4 (clear m it) tables.
Proof.
  intros Hok Hit. pose proof Hok as [Hr Hf Hi Hc Hh]. split; try done.
  - intros p a i Hp Hl Hi' Hpres. destruct (clear_read m it a i Hok Hit) as [[_ E]|[_ E]]; [by split; [eexists|]| |].
    + by rewrite E in Hpres.
    + rewrite E in *. by apply Hc.
  - intros p a i Hp Hi'. destruct (clear_read m it a i Hok Hit) as [[_ ->]|[_ ->]]; [by split; [eexists|]|done|].
    by apply (Hh p).
Qed.
(** The entries of the second memory are those of the first, or cleared. *)
Definition cleared (m m' : memory) : Prop := ∀ a i, known_entry tables (i, a) →
  read64 m' (entry_addr a i) = ZERO ∨ read64 m' (entry_addr a i) = read64 m (entry_addr a i).
Lemma clear_cleared m it : tables_ok pml4 m tables → known_entry tables it → cleared m (clear m it).
Proof. intros Hok Hit a i Hi. destruct (clear_read m it a i Hok Hit Hi) as [[_ E]|[_ E]]; [by left|by right]. Qed.
(** The order in which two entries are cleared does not matter. *)
Lemma clear_swap m x y : tables_ok pml4 m tables → known_entry tables x → known_entry tables y →
  cleared (clear m y) (clear (clear m x) y).
Proof.
  intros Hok Hx Hy a i Hi. pose proof (clear_ok m x Hok Hx) as Hok1.
  destruct (clear_read (clear m x) y a i Hok1 Hy Hi) as [[_ E]|[Hne E]]; [by left|]. rewrite E.
  destruct (clear_read m y a i Hok Hy Hi) as [[Ey _]|[_ E2]]; [done|]. rewrite E2. by apply clear_cleared.
Qed.
(** A walk in such a memory finds nothing, or what it found. *)
Lemma cleared_walk m m' p a idx : tables_ok pml4 m tables → cleared m m' → tables !! p = Some a →
  Forall (λ i, 0 ≤ i < 512) idx → (length p + length idx = 4)%nat →
  walk m' a idx = None ∨ walk m' a idx = walk m a idx.
Proof.
  intros Hok Hm. revert p a. induction idx as [|i idx IH]; intros p a Hp Hb Hl; [by left|].
  apply Forall_cons in Hb as [Hi Hb]. cbn [length] in Hl. cbn [walk].
  destruct (Hm a i) as [E|E]; [by split; [eexists|]|rewrite E; by left|rewrite E].
  destruct (PageTableEntry.present (read64 m (entry_addr a i))) eqn:Hpres; [|by left].
  destruct idx as [|j idx]; [by right|].
  apply (IH (p ++ [i])); [|done|rewrite length_app; cbn in *; lia].
  apply (tb_child _ _ _ Hok); [done|cbn in Hl; lia|done|done].
Qed.
(** Without an entry of its path, a walk finds nothing. *)
Lemma clear_path m p a idx idx' k it : tables_ok pml4 m tables → tables !! p = Some a →
  Forall (λ i, 0 ≤ i < 512) idx → Forall (λ i, 0 ≤ i < 512) idx' → (length p + length idx = 4)%nat → length idx' = length idx →
  is_Some (walk m a idx) → path m a idx !! k = Some it → take (S k) idx' = take (S k) idx → known_entry tables it →
  walk (clear m it) a idx' = None.
Proof.
  intros Hok. revert p a idx' k. induction idx as [|i idx IH]; intros p a idx' k Hp Hb Hb' Hl Hl' Hw Hk Et Hit; [done|].
  destruct idx' as [|i' idx']; [done|]. cbn in Et. injection Et as -> Et.
  apply Forall_cons in Hb as [Hi Hb]. apply Forall_cons in Hb' as [_ Hb']. cbn [length] in Hl, Hl'. cbn [walk].
  destruct (clear_read m it a i Hok Hit) as [[_ ->]|[Hne ->]]; [by split; [eexists|]|done|].
  cbn [walk] in Hw. destruct (PageTableEntry.present (read64 m (entry_addr a i))) eqn:Hpres; [|done].
  destruct k as [|k]; cbn in Hk; [by simplify_eq|].
  destruct idx as [|j idx]; [done|]. destruct idx' as [|j' idx']; [done|].
  apply (IH (p ++ [i]) _ _ k); [|done|done|rewrite length_app; cbn in *; lia|cbn in *; lia|done..].
  apply (tb_child _ _ _ Hok); [done|cbn in Hl; lia|done|done].
Qed.
End clear.

(** ** [unmap_page] *)

(** The walk of [unmap_page]: it finds the entries on the way to a mapped page, and
    nothing on the way to one that is not. *)
Lemma collect_run {pml4 tables} levels va : ∀ p a acc s, tables_ok pml4 s.(ram) tables → tables !! p = Some a →
  let idx := (λ '(i, mask), level_index i mask va) <$> levels in
  (length p + length idx = 4)%nat → (0 < length levels)%nat →
  UserPageMapper.collect_tables levels a va acc s =
    Returns (match walk s.(ram) a idx with Some _ => Some (acc ++ path s.(ram) a idx) | None => None end, s) ∧
  (is_Some (walk s.(ram) a idx) → Forall (known_entry tables) (path s.(ram) a idx)).
Proof.
  induction levels as [|[i mask] levels IH]; intros p a acc s Hok Hp idx Hl Hpos; [cbn in Hpos; lia|].
  subst idx. cbn [fmap list_fmap length walk path UserPageMapper.collect_tables] in *.
  pose proof (level_index_bound i mask va) as Hi. set (x := level_index i mask va) in *.
  destruct (tb_frames _ _ _ Hok p a Hp) as (_ & _ & Ha). pose proof (tb_huge _ _ _ Hok p a x Hp Hi) as Hh.
  unfold table_at, mbind, M_bind, get, rassert. rewrite (proj2 (Z.eqb_neq a 0)) by lia. cbn [mret M_ret].
  rewrite Hh. cbn [negb mret M_ret].
  destruct (PageTableEntry.present (read64 (ram s) (entry_addr a x))) eqn:Hpres; cbn [negb]; [|by split; [|intros []]].
  assert (known_entry tables (x, a)) as Hx by (by split; [eexists|]).
  destruct levels as [|l levels].
  { cbn. split; [done|]. by constructor. }
  assert (tables !! (p ++ [x]) = Some (address (read64 (ram s) (entry_addr a x)))) as Hc
    by (apply (tb_child _ _ _ Hok); [done|cbn in Hl; lia|done|done]).
  destruct (IH (p ++ [x]) _ (acc ++ [(x, a)]) s Hok Hc) as [E Hk]; [rewrite length_app; cbn in *; lia|cbn; lia|].
  cbn [fmap list_fmap] in *. destruct l as [j mask']. cbn [fmap list_fmap] in *. rewrite E. split.
  - by rewrite <-app_assoc.
  - intros Hw. constructor; [done|]. by apply Hk.
Qed.

(** Every page of the second memory translates as in the first, or not at all. *)
Definition shrinks (pml4 : Z) (m m' : memory) : Prop := ∀ va,
  walk m' pml4 (indices va) = None ∨ walk m' pml4 (indices va) = walk m pml4 (indices va).
#[export] Instance shrinks_preorder pml4 : PreOrder (shrinks pml4).
Proof.
  split; [by right|]. intros m1 m2 m3 H12 H23 va.
  destruct (H23 va) as [Hn|Hn]; [by left|rewrite Hn; apply H12].
Qed.
Lemma shrinks_none pml4 m m' va : shrinks pml4 m m' → walk m pml4 (indices va) = None → walk m' pml4 (indices va) = None.
Proof. intros H E. by destruct (H va) as [Hn|Hn]; rewrite Hn. Qed.
Lemma cleared_shrinks {pml4 tables} m m' : tables_ok pml4 m tables → cleared (tables:=tables) m m' → shrinks pml4 m m'.
Proof.
  intros Hok Hm va. apply (cleared_walk (pml4:=pml4) (tables:=tables) m m' []); [done|done|apply Hok|apply indices_bound|done].
Qed.
Lemma clear_shrinks {pml4 tables} m it : tables_ok pml4 m tables → known_entry tables it → shrinks pml4 m (clear m it).
Proof. intros Hok Hit. by eapply cleared_shrinks, clear_cleared. Qed.
Lemma counts_le k k' pa : counts k pa → k' ≤ k → counts k' pa.
Proof. unfold counts. lia. Qed.

(** What freeing some tables has done; [room] bounds what the allocator's counter
    can still count. *)
Record freed_some (pml4 : Z) (tables : gmap (list Z) Z) (s : sys) (room : Z) (s' : sys) : Prop := {
  fs_tables : tables_ok pml4 s'.(ram) tables;
  fs_counts : counts room s'.(alloc);
  fs_shrinks : shrinks pml4 s.(ram) s'.(ram);
}.
Lemma wp_free_tables {pml4 tables} depth l : ∀ checked freed k s, tables_ok pml4 s.(ram) tables → Forall (known_entry tables) l →
  Z.of_nat (length l) ≤ k → counts k s.(alloc) → checked ≤ depth →
  wp (UserPageMapper.free_tables l checked depth freed) (λ r s',
    r = freed + Z.min (Z.of_nat (length l)) (depth - checked + 1) ∧
    freed_some pml4 tables s (k - (r - freed)) s') s.
Proof.
  induction l as [|[i a] l IH]; intros checked freed k s Hok Hl Hk Hc Hd; cbn [length] in *.
  { cbn [UserPageMapper.free_tables]. rewrite wp_ret. split; [lia|]. split; [done|eapply counts_le; [exact Hc|lia]|done]. }
  apply Forall_cons in Hl as [Hx Hl]. apply (wp_free_tables_cons s i a l checked depth freed k); [lia|done|].
  intros s1 E1 Hc1. change (write64 (ram s) (entry_addr a i) ZERO) with (clear (ram s) (i, a)) in E1.
  assert (tables_ok pml4 (ram s1) tables) as Hok1 by (rewrite E1; by apply clear_ok).
  assert (shrinks pml4 (ram s) (ram s1)) as Hs1 by (rewrite E1; by eapply clear_shrinks).
  destruct (Z.leb_spec depth checked) as [Hle|Hlt].
  - rewrite wp_ret. split; [lia|]. split; [done|eapply counts_le; [exact Hc1|lia]|done].
  - eapply wp_mono; [apply (IH (checked + 1) (freed + 1) (k - 1) s1); [done|done|lia|done|lia]|].
    intros r s' [-> [H1 H2 H3]]. split; [lia|]. split; [done|eapply counts_le; [exact H2|lia]|by trans (ram s1)].
Qed.

(** The pages of a 2 MiB block share the first three indices. *)
Definition same_block (va va' : Z) : Prop := va' / 2 ^ 21 mod 2 ^ 27 = va / 2 ^ 21 mod 2 ^ 27.

(** What unmapping a page does, and how many pages it frees. *)
Record page_unmapped (pml4 va depth : Z) (tables : gmap (list Z) Z) (s : sys) (freed : Z) (s' : sys) : Prop := {
  pu_gone : user_walk s' pml4 va = None;
  pu_block : is_Some (user_walk s pml4 va) → 1 ≤ depth → ∀ va', same_block va va' → user_walk s' pml4 va' = None;
  pu_freed : freed = match user_walk s pml4 va with Some _ => Z.min 4 (depth + 1) | None => 0 end;
}.
(** The second loop, on the entries of a walk that found a page. *)
Lemma wp_free_path pml4 tables va depth k s x0 x1 i2 a2 i3 a3 e : tables_ok pml4 s.(ram) tables → counts k s.(alloc) → 4 ≤ k → 0 ≤ depth →
  walk s.(ram) pml4 (indices va) = Some e → path s.(ram) pml4 (indices va) = [x0; x1; (i2, a2); (i3, a3)] →
  Forall (known_entry tables) [x0; x1; (i2, a2); (i3, a3)] →
  wp (UserPageMapper.free_tables [(i3, a3); (i2, a2); x1; x0] 0 depth 0)
    (λ r s', page_unmapped pml4 va depth tables s r s' ∧ freed_some pml4 tables s (k - r) s') s.
Proof.
  intros Hok Hc Hk Hd Hw Ep Hknown. rewrite !Forall_cons in Hknown. destruct Hknown as (K0 & K1 & K2 & K3 & _).
  apply (wp_free_tables_cons s i3 a3 _ 0 depth 0 k); [lia|done|]. intros s1 E1 Hc1.
  change (write64 _ _ _) with (clear (ram s) (i3, a3)) in E1.
  assert (tables_ok pml4 (ram s1) tables) as Hok1 by (rewrite E1; by apply clear_ok).
  assert (walk (ram s1) pml4 (indices va) = None) as Hgone.
  { rewrite E1. apply (clear_path (pml4:=pml4) (tables:=tables) _ [] _ (indices va) _ 3);
      [done|apply Hok|apply indices_bound|apply indices_bound|done|done|by rewrite Hw|by rewrite Ep|done|done]. }
  destruct (Z.leb_spec depth 0) as [Hd0|Hd0].
  { rewrite wp_ret. split; [split; [done|lia|unfold user_walk; rewrite Hw; lia]|].
    split; [done|eapply counts_le; [exact Hc1|lia]|rewrite E1; by eapply clear_shrinks]. }
  apply (wp_free_tables_cons s1 i2 a2 _ (0 + 1) depth (0 + 1) (k - 1)); [lia|done|]. intros s2 E2 Hc2.
  change (write64 _ _ _) with (clear (ram s1) (i2, a2)) in E2.
  assert (tables_ok pml4 (ram s2) tables) as Hok2 by (rewrite E2; by apply clear_ok).
  assert (∀ va', same_block va va' → walk (ram s2) pml4 (indices va') = None) as Hblock.
  { intros va' Hb. rewrite E2, E1. eapply shrinks_none.
    - eapply cleared_shrinks; [|by eapply (clear_swap (pml4:=pml4) (tables:=tables))]. by apply clear_ok.
    - apply (clear_path (pml4:=pml4) (tables:=tables) _ [] _ (indices va) _ 2);
        [done|apply Hok|apply indices_bound|apply indices_bound|done|done|by rewrite Hw|by rewrite Ep| |done].
      destruct (same_block_indices va va' Hb) as [i ->]. done. }
  assert (shrinks pml4 (ram s) (ram s2)) as Hs2.
  { trans (ram s1); [rewrite E1; by eapply clear_shrinks|rewrite E2; by eapply clear_shrinks]. }
  eapply (wp_mono _ (λ r s', r = Z.min 4 (depth + 1) ∧ freed_some pml4 tables s2 (k - r) s')).
  - destruct (Z.leb_spec depth (0 + 1)) as [Hd1|Hd1].
    + rewrite wp_ret. split; [lia|]. split; [done|eapply counts_le; [exact Hc2|lia]|done].
    + eapply wp_mono; [apply (wp_free_tables (pml4:=pml4) (tables:=tables) depth [x1; x0] _ _ (k - 1 - 1)); [done|by rewrite !Forall_cons|cbn; lia|exact Hc2|lia]|].
      intros r s' [-> [T' C' S']]. cbn [length] in *. split; [lia|]. split; [done|eapply counts_le; [exact C'|lia]|done].
  - intros r s' [-> [T' C' S']]. split.
    + split; [|intros _ _ va' Hb; by eapply shrinks_none, Hblock|unfold user_walk; by rewrite Hw].
      eapply shrinks_none; [exact S'|]. rewrite E2. eapply shrinks_none; [by eapply clear_shrinks|done].
    + split; [done|done|by trans (ram s2)].
Qed.
Lemma wp_unmap_page pml4 tables va depth k s : tables_ok pml4 s.(ram) tables → counts k s.(alloc) → 4 ≤ k → 0 ≤ depth →
  wp (UserPageMapper.unmap_page pml4 va depth)
    (λ r s', page_unmapped pml4 va depth tables s r s' ∧ freed_some pml4 tables s (k - r) s') s.
Proof.
  intros Hok Hc Hk Hd. unfold UserPageMapper.unmap_page. set (va0 := Z.land va 0x000FFFFFFFFFF000).
  assert (indices va = indices va0) as Ei by (symmetry; apply indices_strip).
  destruct (collect_run LEVEL_MASKS va0 [] pml4 [] s Hok (tb_root _ _ _ Hok)) as [E Hknown]; [done|cbn; lia|].
  change ((λ '(i, mask), level_index i mask va0) <$> LEVEL_MASKS) with (indices va0) in *.
  rewrite wp_bind. unfold wp at 1. rewrite E. rewrite <-Ei in *. clear E.
  destruct (walk (ram s) pml4 (indices va)) as [e|] eqn:Hw.
  2:{ rewrite wp_ret. split; [|split; [done|eapply counts_le; [exact Hc|lia]|done]].
      split; [done|unfold user_walk; rewrite Hw; by intros []|unfold user_walk; by rewrite Hw]. }
  specialize (Hknown ltac:(done)). cbn [app].
  assert (∃ x0 x1 x2 x3, path (ram s) pml4 (indices va) = [x0; x1; x2; x3]) as (x0 & x1 & [i2 a2] & [i3 a3] & Ep) by (by do 4 eexists).
  rewrite Ep in *. cbn [rev app]. by eapply wp_free_path.
Qed.

(** ** The task *)

Lemma free_table_check_depth_bound a b : 0 ≤ free_table_check_depth a b ≤ 4.
Proof.
  unfold free_table_check_depth. destruct (list_find _ LEVEL_MASKS) as [[j [i mask]]|] eqn:E; [|lia].
  apply list_find_Some in E as (Hj & _ & _). unfold LEVEL_MASKS in Hj.
  destruct j as [|[|[|[|j]]]]; cbn in Hj; simplify_eq; lia.
Qed.
(** One step. *)
Lemma wp_unmap_step pml4 tables va pages freed k s (Q : UnmapMemTask.t * option Z → sys → Prop) :
  tables_ok pml4 s.(ram) tables → counts k s.(alloc) → 4 ≤ k → 0 ≤ va → va + PAGE_SIZE < 2 ^ 64 → 0 < pages < 2 ^ 64 →
  0 ≤ freed → freed + 4 < 2 ^ 64 →
  (∀ r s', page_unmapped pml4 va (free_table_check_depth va (va + PAGE_SIZE)) tables s r s' →
     freed_some pml4 tables s (k - r) s' → 0 ≤ r ≤ 4 →
     Q (UnmapMemTask.Build (va + PAGE_SIZE) (pages - 1) (freed + r), if pages - 1 =? 0 then Some (freed + r) else None) s') →
  wp (UnmapMemTask.step pml4 (UnmapMemTask.Build va pages freed)) Q s.
Proof.
  intros Hok Hc Hk Hva Hend Hp Hf0 Hf HQ. unfold UnmapMemTask.step.
  cbn [UnmapMemTask.current_address UnmapMemTask.pages_left UnmapMemTask.pages_freed].
  change 4096 with PAGE_SIZE. rewrite wp_bind, wp_chk. split; [unfold PAGE_SIZE in *; lia|].
  rewrite (proj2 (Z.eqb_neq pages 0)) by lia.
  pose proof (free_table_check_depth_bound va (va + PAGE_SIZE)) as Hd.
  rewrite wp_bind. eapply wp_mono; [apply (wp_unmap_page pml4 tables va _ k s); [done|done|done|lia]|].
  intros r s' [Hpu Hfs].
  assert (0 ≤ r ≤ 4) as Hr by (rewrite (pu_freed _ _ _ _ _ _ _ Hpu); destruct (user_walk s pml4 va); lia).
  rewrite wp_bind, wp_chk. split; [lia|]. rewrite wp_bind, wp_chk. split; [lia|]. rewrite wp_ret. by apply HQ.
Qed.

(** What a completed task has done to [n] pages from [va]. *)
Record range_unmapped (pml4 va : Z) (n : nat) (tables : gmap (list Z) Z) (s : sys) (k freed : Z) (s' : sys) : Prop := {
  ru_gone : ∀ i, 0 ≤ i < Z.of_nat n → user_walk s' pml4 (va + PAGE_SIZE * i) = None;
  ru_freed : 0 ≤ freed ≤ 4 * Z.of_nat n;
  ru_none : (∀ i, 0 ≤ i < Z.of_nat n → user_walk s pml4 (va + PAGE_SIZE * i) = None) → freed = 0;
  ru_state : freed_some pml4 tables s (k - freed) s';
}.
Lemma range_unmapped_nil pml4 va tables s k : tables_ok pml4 s.(ram) tables → counts k s.(alloc) →
  range_unmapped pml4 va 0 tables s k 0 s.
Proof. intros Hok Hc. split; [lia|lia|done|]. split; [done|eapply counts_le; [exact Hc|lia]|done]. Qed.
(** One more page in front. *)
Lemma range_unmapped_cons pml4 va depth n tables s k r s1 freed s2 : 0 ≤ depth → 0 ≤ r ≤ 4 →
  page_unmapped pml4 va depth tables s r s1 → freed_some pml4 tables s (k - r) s1 →
  range_unmapped pml4 (va + PAGE_SIZE) n tables s1 (k - r) freed s2 →
  range_unmapped pml4 va (S n) tables s k (r + freed) s2.
Proof.
  intros Hd Hr [Hgone _ Hfreed] [_ _ Hs1] [Hg Hf Hn [T C S2]].
  assert (∀ i, va + PAGE_SIZE + PAGE_SIZE * i = va + PAGE_SIZE * (i + 1)) as Ei by lia.
  split; [|lia| |split; [done|eapply counts_le; [exact C|lia]|by trans (ram s1)]].
  - intros i Hi. destruct (decide (i = 0)) as [->|Hne].
    { rewrite Z.mul_0_r, Z.add_0_r. by eapply shrinks_none. }
    specialize (Hg (i - 1) ltac:(lia)). rewrite Ei in Hg. by replace (i - 1 + 1) with i in Hg by lia.
  - intros Hun. rewrite Hn.
    + specialize (Hun 0 ltac:(lia)). rewrite Z.mul_0_r, Z.add_0_r in Hun. rewrite Hun in Hfreed. lia.
    + intros i Hi. eapply shrinks_none; [exact Hs1|]. rewrite Ei. apply Hun. lia.
Qed.
Lemma wp_unmap_run pml4 tables n : ∀ va freed k s answers, tables_ok pml4 s.(ram) tables → counts k s.(alloc) →
  4 * Z.of_nat (S n) ≤ k → 0 ≤ va → va + PAGE_SIZE * Z.of_nat (S n) < 2 ^ 64 → 0 ≤ freed → freed + 4 * Z.of_nat (S n) < 2 ^ 64 →
  wp (UnmapMemTask_run pml4 (replicate (S n) false ++ answers) (UnmapMemTask.Build va (Z.of_nat (S n)) freed))
    (λ '(_, p) s', ∃ total, p = Ready (freed + total) ∧ range_unmapped pml4 va (S n) tables s k total s') s.
Proof.
  unfold UnmapMemTask_run. induction n as [|n IH]; intros va freed k s answers Hok Hc Hk Hva Hend Hf0 Hf;
    cbn [replicate app run_task]; rewrite wp_bind;
    (apply (wp_unmap_step pml4 tables _ _ _ k); [done|done|lia|done|unfold PAGE_SIZE in *; lia|unfold PAGE_SIZE in *; lia|lia|lia|]);
    intros r s1 Hpu Hfs Hr; pose proof (free_table_check_depth_bound va (va + PAGE_SIZE)) as Hd.
  - change (Z.of_nat 1 - 1 =? 0) with true. cbv iota beta. rewrite wp_ret. exists (r + 0). split; [by rewrite Z.add_0_r|].
    eapply range_unmapped_cons; [apply Hd|done|done|done|]. apply range_unmapped_nil; apply Hfs.
  - replace (Z.of_nat (S (S n)) - 1) with (Z.of_nat (S n)) by lia.
    rewrite (proj2 (Z.eqb_neq _ 0)) by lia. cbv iota beta.
    eapply wp_mono; [apply (IH _ _ (k - r) s1 answers); [apply Hfs|apply Hfs|lia|unfold PAGE_SIZE; lia|unfold PAGE_SIZE in *; lia|lia|lia]|].
    intros [task p] s2 (total & -> & Hru). exists (r + total). split; [by rewrite Z.add_assoc|].
    eapply range_unmapped_cons; [apply Hd|done|done|done|done].
Qed.
(** A run of the task. *)
Lemma unmap_task_run pml4 tables n start s answers : space_ok pml4 s tables → no_huge s.(ram) tables → (0 < n)%nat →
  counts (4 * Z.of_nat n) s.(alloc) → 0 ≤ start → start + PAGE_SIZE * Z.of_nat n < 2 ^ 64 →
  wp (UnmapMemTask_run pml4 (replicate n false ++ answers) (UnmapMemTask.new start (Z.of_nat n)))
    (λ '(_, p) s', ∃ freed, p = Ready freed ∧ s'.(alloc).(free_pages) ≤ s.(alloc).(free_pages) + freed ∧
       range_unmapped pml4 start n tables s (2 ^ 64 - 1 - s.(alloc).(free_pages)) freed s') s.
Proof.
  intros Hk Hh Hn Hc Hs Hend. destruct n as [|n]; [lia|]. destruct Hc as (Ht & Hf & Hroom).
  eapply wp_mono; [apply (wp_unmap_run pml4 tables n start 0 (2 ^ 64 - 1 - s.(alloc).(free_pages)) s answers)|];
    [by apply space_tables_ok|split_and!; lia|lia|done|done|done|lia|].
  intros [task p] s' (freed & -> & Hru). exists freed. split; [done|]. split; [|done].
  destruct (fs_counts _ _ _ _ _ (ru_state _ _ _ _ _ _ _ _ Hru)) as (_ & _ & H). lia.
Qed.

(** A page that does not end its block: one table is checked, and the pages that
    follow in the block are in the block of this one. *)
Lemma block_depth page : 0 ≤ page → page mod 512 < 511 →
  free_table_check_depth (page * PAGE_SIZE) (page * PAGE_SIZE + PAGE_SIZE) = 1.
Proof.
  intros Hp Hb. change (page * PAGE_SIZE + PAGE_SIZE) with (page * PAGE_SIZE + 4096).
  rewrite free_table_check_depth_spec by done.
  rewrite !(proj2 (Z.eqb_neq _ 0)); [done|Z.div_mod_to_equations; lia..].
Qed.
Lemma block_pages page i : 0 ≤ page → 0 ≤ i → page mod 512 + i < 512 →
  same_block (page * PAGE_SIZE) (page * PAGE_SIZE + PAGE_SIZE * i).
Proof.
  intros Hp Hi Hb. unfold same_block. change (2 ^ 21) with (PAGE_SIZE * 512). rewrite <-!Z.div_div by done.
  replace (page * PAGE_SIZE + PAGE_SIZE * i) with ((page + i) * PAGE_SIZE) by lia. rewrite !Z.div_mul by done.
  f_equal. Z.div_mod_to_equations. lia.
Qed.
Lemma wp_unmap_block pml4 tables n page k s answers : tables_ok pml4 s.(ram) tables → counts k s.(alloc) →
  4 * Z.of_nat (S (S n)) ≤ k → k < 2 ^ 64 → 0 ≤ page → page mod 512 + Z.of_nat (S (S n)) ≤ 512 →
  PAGE_SIZE * (page + Z.of_nat (S (S n))) < 2 ^ 64 → is_Some (user_walk s pml4 (page * PAGE_SIZE)) →
  wp (UnmapMemTask_run pml4 (replicate (S (S n)) false ++ answers) (UnmapMemTask.new (page * PAGE_SIZE) (Z.of_nat (S (S n)))))
    (λ '(_, p) s', p = Ready 2 ∧ counts (k - 2) s'.(alloc) ∧
      ∀ i, 0 ≤ i < Z.of_nat (S (S n)) → user_walk s' pml4 (page * PAGE_SIZE + PAGE_SIZE * i) = None) s.
Proof.
  intros Hok Hc Hk Hmax Hp Hb Hend [e He]. unfold UnmapMemTask_run, UnmapMemTask.new. cbn [replicate app run_task]. rewrite wp_bind.
  apply (wp_unmap_step pml4 tables _ _ _ k);
    [done|done|lia|unfold PAGE_SIZE; lia|unfold PAGE_SIZE in *; lia|lia|lia|lia|].
  intros r s1 Hpu Hfs Hr. rewrite block_depth in Hpu by lia. destruct Hpu as [_ Hblock Hfreed].
  rewrite He in Hfreed, Hblock. change (Z.min 4 (1 + 1)) with 2 in Hfreed. subst r.
  assert (∀ i, 0 ≤ i < Z.of_nat (S (S n)) → user_walk s1 pml4 (page * PAGE_SIZE + PAGE_SIZE * i) = None) as Hun
    by (intros i Hi; apply Hblock; [done|lia|apply block_pages; lia]).
  replace (Z.of_nat (S (S n)) - 1) with (Z.of_nat (S n)) by lia. rewrite (proj2 (Z.eqb_neq _ 0)) by lia. cbv iota beta.
  eapply wp_mono; [apply (wp_unmap_run pml4 tables n _ _ (k - 2) s1 answers);
    [apply Hfs|apply Hfs|lia|unfold PAGE_SIZE; lia|unfold PAGE_SIZE in *; lia|lia|lia]|].
  intros [task p] s2 (total & -> & [_ _ Hnone [_ C S2]]). specialize (Hnone ltac:(intros i Hi;
    replace (page * PAGE_SIZE + PAGE_SIZE + PAGE_SIZE * i) with (page * PAGE_SIZE + PAGE_SIZE * (i + 1)) by lia; apply Hun; lia)).
  subst total. split; [done|]. split; [eapply counts_le; [exact C|lia]|].
  intros i Hi. eapply shrinks_none; [exact S2|by apply Hun].
Qed.

(** ** The theorems *)

(** C16: an [UnmapMemTask] completes, and the range is unmapped.  A run that is not
    suspended for [n] pages returns the number of pages freed, at most four for
    each; no page of the range is mapped any more, any other page translates as
    before or not at all, and the allocator counts no more pages than were freed.
    When nothing was mapped in the range, nothing is freed. *)
Theorem unmap_task_correct (s : sys) (tables : gmap (list Z) Z) (pml4 start : Z) (n : nat) (answers : list bool) :
  space_ok pml4 s tables → no_huge s.(ram) tables → (0 < n)%nat → counts (4 * Z.of_nat n) s.(alloc) →
  0 ≤ start → start + PAGE_SIZE * Z.of_nat n < 2 ^ 64 →
  ∃ task freed s',
    UnmapMemTask_run pml4 (replicate n false ++ answers) (UnmapMemTask.new start (Z.of_nat n)) s =
      Returns ((task, Ready freed), s') ∧
    0 ≤ freed ≤ 4 * Z.of_nat n ∧ s'.(alloc).(free_pages) ≤ s.(alloc).(free_pages) + freed ∧
    (∀ i, 0 ≤ i < Z.of_nat n → user_walk s' pml4 (start + PAGE_SIZE * i) = None) ∧
    shrinks pml4 s.(ram) s'.(ram) ∧
    ((∀ i, 0 ≤ i < Z.of_nat n → user_walk s pml4 (start + PAGE_SIZE * i) = None) → freed = 0).
Proof.
  intros Hk Hh Hn Hc Hs Hend. pose proof (unmap_task_run pml4 tables n start s answers Hk Hh Hn Hc Hs Hend) as H.
  apply wp_returns in H as ([task p] & s' & E & freed & -> & Hle & [Hg Hf Hnone [_ _ Hsh]]).
  by exists task, freed, s'.
Qed.
Lemma demo_mapped_no_huge : no_huge (ram demo_mapped) demo_mapped_tables.
Proof.
  assert (forallb (λ a, forallb (λ i, negb (PageTableEntry.huge_page
    (read64 (ram demo_mapped) (entry_addr a i)))) (seqZ 0 512)) [0x1000; 0x2000; 0x3000; 0x4000] = true) as H
    by (vm_compute; reflexivity).
  intros p a i Hp Hi. rewrite forallb_forall in H. specialize (H a).
  rewrite forallb_forall in H. apply negb_true_iff, H; [|apply list_elem_of_In, elem_of_seqZ; lia].
  apply demo_mapped_tables_Some in Hp as [[_ ->]|[[_ ->]|[[_ ->]|[_ ->]]]]; cbn; auto.
Qed.
Lemma unmap_task_correct_witness :
  ∃ task freed s',
    UnmapMemTask_run 0x1000 (replicate 3 false ++ [true]) (UnmapMemTask.new 0x4000 (Z.of_nat 3)) demo_mapped =
      Returns ((task, Ready freed), s') ∧
    0 ≤ freed ≤ 4 * Z.of_nat 3 ∧ s'.(alloc).(free_pages) ≤ demo_mapped.(alloc).(free_pages) + freed ∧
    (∀ i, 0 ≤ i < Z.of_nat 3 → user_walk s' 0x1000 (0x4000 + PAGE_SIZE * i) = None) ∧
    shrinks 0x1000 demo_mapped.(ram) s'.(ram) ∧
    ((∀ i, 0 ≤ i < Z.of_nat 3 → user_walk demo_mapped 0x1000 (0x4000 + PAGE_SIZE * i) = None) → freed = 0).
Proof.
  apply (unmap_task_correct demo_mapped demo_mapped_tables);
    [exact demo_mapped_ok|exact demo_mapped_no_huge|lia|unfold counts; split_and!; vm_compute; done|done|done].
Defined.

(** But the pages themselves are not freed.  When the first of several pages is
    mapped, freeing it frees the table that maps the others, whose pages are then
    out of reach: whatever the range maps in one 2 MiB block, exactly two pages are
    freed, the first page and the table. *)
Theorem unmap_task_leaks (s : sys) (tables : gmap (list Z) Z) (pml4 page : Z) (n : nat) (answers : list bool) :
  space_ok pml4 s tables → no_huge s.(ram) tables → (1 < n)%nat → counts (4 * Z.of_nat n) s.(alloc) →
  0 ≤ page → page mod 512 + Z.of_nat n ≤ 512 → PAGE_SIZE * (page + Z.of_nat n) < 2 ^ 64 →
  is_Some (user_walk s pml4 (page * PAGE_SIZE)) →
  ∃ task s',
    UnmapMemTask_run pml4 (replicate n false ++ answers) (UnmapMemTask.new (page * PAGE_SIZE) (Z.of_nat n)) s =
      Returns ((task, Ready 2), s') ∧
    s'.(alloc).(free_pages) ≤ s.(alloc).(free_pages) + 2 ∧
    ∀ i, 0 ≤ i < Z.of_nat n → user_walk s' pml4 (page * PAGE_SIZE + PAGE_SIZE * i) = None.
Proof.
  intros Hk Hh Hn (Ht & Hf & Hroom) Hp Hb Hend Hmapped. destruct n as [|[|n]]; [lia..|].
  pose proof (wp_unmap_block pml4 tables n page (2 ^ 64 - 1 - s.(alloc).(free_pages)) s answers) as H.
  apply wp_returns in H as ([task p] & s' & E & -> & (_ & _ & Hc) & Hgone);
    [|by apply space_tables_ok|split_and!; lia|lia|lia|done..].
  exists task, s'. split; [done|]. split; [lia|done].
Qed.
Lemma unmap_task_leaks_witness :
  ∃ task s',
    UnmapMemTask_run 0x1000 (replicate 2 false ++ [true]) (UnmapMemTask.new (5 * PAGE_SIZE) (Z.of_nat 2)) demo_mapped =
      Returns ((task, Ready 2), s') ∧
    s'.(alloc).(free_pages) ≤ demo_mapped.(alloc).(free_pages) + 2 ∧
    ∀ i, 0 ≤ i < Z.of_nat 2 → user_walk s' 0x1000 (5 * PAGE_SIZE + PAGE_SIZE * i) = None.
Proof.
  apply (unmap_task_leaks demo_mapped demo_mapped_tables);
    [exact demo_mapped_ok|exact demo_mapped_no_huge|lia|unfold counts; split_and!; vm_compute; done|done|done|done|].
  vm_compute. by eexists.
Defined.
