(* ===== verification/VirtMap.v ===== *)
(** * The older page mapper (kernel/src/arch/x86_64/virtual_page_mapping.rs)

    [VirtualPageMapper] has the methods of [UserPageMapper] but for the task
    interface.  [unmap_mem], [change_flags], [change_flags_relaxing],
    [free_page_tree], [new] and [drop] are the same code, line for line;
    [map_mem_copy_from_buffer] differs: it allocates a table at every level
    without looking at the entry it replaces. *)
From S2P Require Import Prelude Paging PageAlloc PageTables UserMap.

Module VirtualPageMapper.
Definition new : M sys (result Z ReservePageError) := UserPageMapper.new.

(** [map_mem_copy_from_buffer]: the walk for one page. *)
Fixpoint copy_walk (levels : list (Z * Z)) (current_address virtual_address : Z) (buffer : list Z)
    (start_offset data_written : Z) : M sys (result (Z * Z) ReservePageError) :=
  match levels with
  | [] => mret (Ok (start_offset, data_written))
  | (i, level_mask) :: rest =>
      table_at current_address;;
      let entry := entry_addr current_address (level_index i level_mask virtual_address) in
      r ← find_and_reserve_page;
      match r with
      | Err e => mret (Err e)
      | Ok new_page =>
          let stripped_address := Z.land new_page 0x000FFFFFFFFFF000 in
          (if i <? 3 then
             set_ram (λ m, fill m new_page PAGE_SIZE 0);;
             set_ram (λ m, write64 m entry (Z.lor stripped_address READ_WRITE_EXECUTE))
           else set_ram (λ m, write64 m entry (Z.lor stripped_address READ)));;
          s ← get;
          let target := address (read64 s.(ram) entry) in
          if i =? 3 then
            left ← chk 64 (Z.of_nat (length buffer) - data_written);
            room ← chk 64 (4096 - start_offset);
            let data_to_write := Z.min left room in
            table_at target;;
            rassert (data_to_write =? left);;
            set_ram (λ m, write_bytes m (target + start_offset) (drop (Z.to_nat data_written) buffer));;
            set_ram (λ m, fill m (target + start_offset + data_to_write)
                            (4096 - (start_offset + data_to_write)) 0);;
            copy_walk rest target virtual_address buffer 0 (data_written + data_to_write)
          else copy_walk rest target virtual_address buffer start_offset data_written
      end
  end.
Fixpoint copy_pages (pages : list Z) (pml4 virtual_start_address : Z) (buffer : list Z)
    (start_offset data_written : Z) : M sys (result () ReservePageError) :=
  match pages with
  | [] => mret (Ok ())
  | page_i :: rest =>
      virtual_address ← chk 64 (virtual_start_address + Z.shiftl page_i 12);
      r ← copy_walk LEVEL_MASKS pml4 virtual_address buffer start_offset data_written;
      match r with
      | Err e => mret (Err e)
      | Ok (start_offset, data_written) =>
          copy_pages rest pml4 virtual_start_address buffer start_offset data_written
      end
  end.
Definition map_mem_copy_from_buffer (pml4 virtual_start_address size : Z) (buffer : list Z) :
    M sys (result () ReservePageError) :=
  num_pages ← num_pages_of virtual_start_address size;
  copy_pages (seqZ 0 num_pages) pml4 virtual_start_address buffer
    (Z.land virtual_start_address 0xFFF) 0.

Definition unmap_mem (pml4 start_address size : Z) : M sys () :=
  UserPageMapper.unmap_mem pml4 start_address size.
Definition change_flags (pml4 start_address size flags : Z) : M sys () :=
  UserPageMapper.change_flags pml4 start_address size flags.
Definition change_flags_relaxing (pml4 start_address size flags : Z) : M sys () :=
  UserPageMapper.change_flags_relaxing pml4 start_address size flags.
Definition free_page_tree (below : nat) (node : Z) : M sys () :=
  UserPageMapper.free_page_tree below node.
Definition drop (pml4 : Z) : M sys () := UserPageMapper.drop pml4.
End VirtualPageMapper.

(** ** Partial correctness: what holds if the code returns *)

Definition returns_only {S A} (m : M S A) (Q : A → Prop) : Prop :=
  ∀ s r s', m s = Returns (r, s') → Q r.
Lemma returns_bind {S A B} (m : M S A) (f : A → M S B) (P : A → Prop) (Q : B → Prop) :
  returns_only m P → (∀ a, P a → returns_only (f a) Q) → returns_only (m ≫= f) Q.
Proof.
  intros Hm Hf s r s'. unfold mbind, M_bind. destruct (m s) as [[a s1]| | |] eqn:E; try done.
  intros H. eapply Hf; [by eapply Hm|done].
Qed.
Lemma returns_ret {S A} (a : A) (Q : A → Prop) : Q a → returns_only (mret a : M S A) Q.
Proof. by intros HQ s r s' [= <- <-]. Qed.
Lemma returns_any {S A} (m : M S A) : returns_only m (λ _, True).
Proof. by intros s r s'. Qed.
Lemma returns_rassert {S} b : returns_only (rassert b : M S ()) (λ _, b = true).
Proof. by intros s r s'; destruct b. Qed.
Lemma returns_mono {S A} (m : M S A) (P Q : A → Prop) :
  returns_only m P → (∀ a, P a → Q a) → returns_only m Q.
Proof. intros H1 H2 s r s' E. by eapply H2, H1. Qed.
Lemma returns_chk {S} w x : returns_only (chk w x : M S Z) (λ y, y = x).
Proof. unfold chk. destruct (fits w x); [by apply returns_ret|by intros s r s']. Qed.
(** Go through code whose results do not matter. *)
Ltac returns_skip := eapply returns_bind; [apply returns_any|]; intros ? _.

(** The last two writes of a walk, for a buffer that does not fit the page. *)
Definition walk_fails (r : result (Z * Z) ReservePageError) : Prop := ∃ e, r = Err e.
Definition too_long (buffer : list Z) (start_offset data_written : Z) : Prop :=
  4096 - start_offset < Z.of_nat (length buffer) - data_written.

Lemma user_copy_walk_fails current va buffer off written :
  too_long buffer off written →
  returns_only (UserPageMapper.copy_walk LEVEL_MASKS current va buffer off written) walk_fails.
Proof.
  intros Hlong. unfold LEVEL_MASKS.
  do 3 (cbn [UserPageMapper.copy_walk]; returns_skip; returns_skip; returns_skip;
    match goal with |- returns_only (match ?x with _ => _ end) _ => destruct x as [[]|e] end;
    [|apply returns_ret; by exists e]; returns_skip; cbv zeta;
    match goal with |- context [?a =? 3] => change (a =? 3) with false end; cbv iota).
  cbn [UserPageMapper.copy_walk]. returns_skip. returns_skip. returns_skip.
  match goal with |- returns_only (match ?x with _ => _ end) _ => destruct x as [[]|e] end;
    [|apply returns_ret; by exists e]. returns_skip. cbv zeta. change (3 =? 3) with true. cbv iota.
  eapply returns_bind; [apply returns_chk|]. intros left ->.
  eapply returns_bind; [apply returns_chk|]. intros room ->. returns_skip.
  eapply returns_bind; [apply returns_rassert|]. intros [] E. apply Z.eqb_eq in E.
  unfold too_long in *. lia.
Qed.
Lemma virtual_copy_walk_fails current va buffer off written :
  too_long buffer off written →
  returns_only (VirtualPageMapper.copy_walk LEVEL_MASKS current va buffer off written) walk_fails.
Proof.
  intros Hlong. unfold LEVEL_MASKS.
  do 3 (cbn [VirtualPageMapper.copy_walk]; returns_skip; returns_skip;
    match goal with |- returns_only (match ?x with _ => _ end) _ => destruct x as [?|e] end;
    [|apply returns_ret; by exists e]; returns_skip; returns_skip; cbv zeta;
    match goal with |- context [?a =? 3] => change (a =? 3) with false end; cbv iota).
  cbn [VirtualPageMapper.copy_walk]. returns_skip. returns_skip.
  match goal with |- returns_only (match ?x with _ => _ end) _ => destruct x as [?|e] end;
    [|apply returns_ret; by exists e]. returns_skip. returns_skip. cbv zeta.
  change (3 =? 3) with true. cbv iota.
  eapply returns_bind; [apply returns_chk|]. intros left ->.
  eapply returns_bind; [apply returns_chk|]. intros room ->. returns_skip.
  eapply returns_bind; [apply returns_rassert|]. intros [] E. apply Z.eqb_eq in E.
  unfold too_long in *. lia.
Qed.

(** in both mappers [map_mem_copy_from_buffer] never succeeds with a
    buffer that goes past the end of its first page: the slice written has the
    length of the room left in the page, the slice copied is all of the rest of
    the buffer, and [copy_from_slice] panics on the difference.  Multi-page
    buffers can only panic or report that no page is free. *)
Theorem copy_from_buffer_single_page (pml4 start size : Z) (buffer : list Z) (s s' : sys) :
  0 ≤ start < 2 ^ 64 → 0 < size → start + size ≤ 2 ^ 64 →
  4096 - start mod 4096 < Z.of_nat (length buffer) →
  UserPageMapper.map_mem_copy_from_buffer pml4 start size buffer s ≠ Returns (Ok (), s') ∧
  VirtualPageMapper.map_mem_copy_from_buffer pml4 start size buffer s ≠ Returns (Ok (), s').
Proof.
  intros Hs Hz Hw Hlong.
  assert (Z.land start 0xFFF = start mod 4096) as Eoff by (change 0xFFF with (Z.ones 12); by rewrite Z.land_ones).
  assert (too_long buffer (Z.land start 0xFFF) 0) as Htl by (unfold too_long; rewrite Eoff; lia).
  assert (∀ S, returns_only (num_pages_of (S:=S) start size) (λ n, 1 ≤ n)) as Hn.
  { intros S t r t'. unfold num_pages_of. unfold mbind, M_bind, chk.
    destruct (fits 64 (size - 1)); [|done]. cbn [mret M_ret].
    destruct (fits 64 (start + (size - 1))); [|done]. cbn [mret M_ret]. intros [= <- _].
    rewrite !align_to_page_spec, Z.shiftr_div_pow2 by lia. change (2 ^ 12) with 4096. unfold PAGE_SIZE.
    Z.div_mod_to_equations. lia. }
  split; intros E.
  - assert (returns_only (UserPageMapper.map_mem_copy_from_buffer pml4 start size buffer)
      (λ r, ∃ e, r = Err e)) as H; [|by destruct (H _ _ _ E)].
    eapply returns_bind; [apply Hn|]. intros n Hn1. cbv beta in Hn1. rewrite seqZ_cons by lia.
    cbn [UserPageMapper.copy_pages]. returns_skip.
    eapply returns_bind; [by apply user_copy_walk_fails|]. intros ? [e ->].
    apply returns_ret. by exists e.
  - assert (returns_only (VirtualPageMapper.map_mem_copy_from_buffer pml4 start size buffer)
      (λ r, ∃ e, r = Err e)) as H; [|by destruct (H _ _ _ E)].
    eapply returns_bind; [apply Hn|]. intros n Hn1. cbv beta in Hn1. rewrite seqZ_cons by lia.
    cbn [VirtualPageMapper.copy_pages]. returns_skip.
    eapply returns_bind; [by apply virtual_copy_walk_fails|]. intros ? [e ->].
    apply returns_ret. by exists e.
Qed.
Lemma copy_from_buffer_single_page_witness :
  UserPageMapper.map_mem_copy_from_buffer 0x1000 0x400FFE 3 [1; 2; 3] demo_sys ≠ Returns (Ok (), demo_sys) ∧
  VirtualPageMapper.map_mem_copy_from_buffer 0x1000 0x400FFE 3 [1; 2; 3] demo_sys ≠ Returns (Ok (), demo_sys).
Proof. apply copy_from_buffer_single_page; [lia|lia|lia|vm_compute; reflexivity]. Defined.
