(* ===== verification/VmaStore.v ===== *)
(** * Node storage of the VMA tree (kernel/src/vma.rs)

    The nodes of the red-black tree live in [NodeStoragePage]s, pages of the
    physical page allocator that hold an array of nodes and a usage bitmap; the
    pages form a doubly linked list.  The model keeps the contents of the
    storage pages as records, by page address; a [NodePtr] is a page and an
    index, or the [temp_node] field of the list itself.  [pages_used] is the
    counter the callers pass by reference. *)
From S2P Require Import Prelude Paging PageAlloc.

Inductive NodeColor : Type := Red | Black.
#[export] Instance NodeColor_eq_dec : EqDecision NodeColor.
Proof. solve_decision. Defined.
Inductive Side : Type := Left | Right.
#[export] Instance Side_eq_dec : EqDecision Side.
Proof. solve_decision. Defined.
(** [!side]. *)
Definition side_not (side : Side) : Side := match side with Left => Right | Right => Left end.
Definition color_bit (c : NodeColor) : Z := match c with Red => 0 | Black => 1 end.

(** Pointers to nodes.  A [BranchNodePtr] or [LeafNodePtr] points into a node,
    at a fixed offset: it is the same pointer here. *)
Inductive NodePtr : Type :=
  | Entry (page index : Z)
  | TempNode.
#[export] Instance NodePtr_eq_dec : EqDecision NodePtr.
Proof. solve_decision. Defined.

(** The [NodeFlags] bit field. *)
Module NodeFlags.
Definition readable (f : Z) : bool := Z.testbit f 0.
Definition writable (f : Z) : bool := Z.testbit f 1.
Definition executable (f : Z) : bool := Z.testbit f 2.
Definition locked (f : Z) : bool := Z.testbit f 31.
Definition set_readable (f : Z) (b : bool) : Z := set_bit f 0 b.
Definition set_writable (f : Z) (b : bool) : Z := set_bit f 1 b.
Definition set_executable (f : Z) (b : bool) : Z := set_bit f 2 b.
Definition set_locked (f : Z) (b : bool) : Z := set_bit f 31 b.
(** [From<SegmentFlags>]. *)
Definition from_segment (read write execute : bool) : Z :=
  set_executable (set_writable (set_readable 0 read) write) execute.
End NodeFlags.

Inductive LeafNode : Type :=
  | Empty (size : Z)
  | Used (flags : Z).

Record BranchNode : Type := {
  packed_fields : Z;
  max_empty_area_size : Z;
  parent : option NodePtr;
  left : NodePtr;
  right : NodePtr;
}.

Inductive Node : Type :=
  | Branch (b : BranchNode)
  | Leaf (l : LeafNode).

(** [Node::placeholder]. *)
Definition placeholder : Node := Leaf (Empty 0).

(** [!0b11] on a [usize]. *)
Definition PIVOT_MASK : Z := unot 64 3.
(** [BranchNode::new]. *)
Definition BranchNode_new (pivot : Z) (is_temp_null : bool) (color : NodeColor)
    (parent : option NodePtr) (left right : NodePtr) : BranchNode :=
  {| packed_fields := Z.lor (Z.lor (Z.land pivot PIVOT_MASK) (Z.shiftl (Z.b2z is_temp_null) 1)) (color_bit color);
     max_empty_area_size := 0; parent := parent; left := left; right := right |}.
Definition pivot (b : BranchNode) : Z := Z.land (packed_fields b) PIVOT_MASK.
Definition branch_color (b : BranchNode) : NodeColor :=
  if Z.land (packed_fields b) 1 =? 0 then Red else Black.
Definition is_temp_null (b : BranchNode) : bool := negb (Z.land (packed_fields b) 2 =? 0).
(** [branch[side]]. *)
Definition child (b : BranchNode) (side : Side) : NodePtr :=
  match side with Left => left b | Right => right b end.

(** ** Storage pages *)

(** The size of a [Node]: the five words of a [BranchNode]; the discriminant is
    in the niche of its non-null child pointers. *)
Definition size_of_Node : Z := 40.
(** [NodeStoragePage::MAX_NODES]: the loop, started at the number of nodes that
    fit without the bitmap. *)
Fixpoint max_nodes_loop (fuel : nat) (space current_num_entries : Z) : Z :=
  match fuel with
  | O => current_num_entries
  | S fuel =>
      let extra_bitmap_len := if current_num_entries mod 8 =? 0 then 0 else 1 in
      let bitmap_byte_size := current_num_entries / 8 + extra_bitmap_len in
      let entries_byte_size := current_num_entries * size_of_Node in
      if entries_byte_size + bitmap_byte_size <=? space then current_num_entries
      else max_nodes_loop fuel space (current_num_entries - 1)
  end.
Definition MAX_NODES : Z :=
  let max_array_and_bitmap_space := PAGE_SIZE - 3 * 8 in
  let current_num_entries := max_array_and_bitmap_space / size_of_Node in
  max_nodes_loop (Z.to_nat current_num_entries) max_array_and_bitmap_space current_num_entries.
Definition BITMAP_LEN : Z := MAX_NODES / 8 + (if 0 <? MAX_NODES mod 8 then 1 else 0).
Definition INITIAL_USAGE_BITMAP : list Z :=
  let last_byte_entries := MAX_NODES mod 8 in
  if last_byte_entries =? 0 then replicate (Z.to_nat BITMAP_LEN) 0
  else <[Z.to_nat (BITMAP_LEN - 1) := unot 8 (Z.shiftr 0x80 (last_byte_entries - 1) - 1)]>
         (replicate (Z.to_nat BITMAP_LEN) 0).

Record NodeStoragePage : Type := {
  entries : list Node;
  next_page : option Z;
  prev_page : option Z;
  free_entries : Z;
  usage_bitmap : list Z;
}.
(** [NodeStoragePage::new_with_prev_page]. *)
Definition new_with_prev_page (prev_page : option Z) : NodeStoragePage :=
  {| entries := replicate (Z.to_nat MAX_NODES) placeholder; next_page := None;
     prev_page := prev_page; free_entries := MAX_NODES; usage_bitmap := INITIAL_USAGE_BITMAP |}.

(** The scan of [NodeStoragePage::find_and_reserve_node]; [None] is the
    [unreachable!] at its end. *)
Fixpoint first_free_entry (bitmap : list Z) (byte_index : Z) : option (Z * Z * Z) :=
  match bitmap with
  | [] => None
  | byte :: rest =>
      if byte =? 0xFF then first_free_entry rest (byte_index + 1)
      else let bit_index := leading_zeros 8 (unot 8 byte) in
           Some (byte_index, Z.lor byte (Z.shiftr 0x80 bit_index), byte_index * 8 + bit_index)
  end.
(** [NodeStoragePage::find_and_reserve_node], on the page itself: the index of
    the entry, [None] when the page is full. *)
Definition page_reserve (page : NodeStoragePage) : outcome (option Z * NodeStoragePage) :=
  if free_entries page =? 0 then Returns (None, page)
  else match first_free_entry (usage_bitmap page) 0 with
       | None => Panics
       | Some (byte_index, byte, entry_index) =>
           if entry_index <? MAX_NODES then
             Returns (Some entry_index,
               {| entries := entries page; next_page := next_page page; prev_page := prev_page page;
                  free_entries := free_entries page - 1;
                  usage_bitmap := <[Z.to_nat byte_index := byte]> (usage_bitmap page) |})
           else Panics
       end.

(** The state of a [VMATree]: its root, the storage list ([head], [temp_node]),
    the storage pages, the page counter of the caller and the page allocator. *)
Record vma : Type := Vma {
  root : NodePtr;
  head : Z;
  temp_node : Node;
  pages : gmap Z NodeStoragePage;
  pages_used : Z;
  mem : sys;
}.
Definition set_root (p : NodePtr) : M vma () :=
  modify (λ s, Vma p (head s) (temp_node s) (pages s) (pages_used s) (mem s)).
Definition set_pages (f : gmap Z NodeStoragePage → gmap Z NodeStoragePage) : M vma () :=
  modify (λ s, Vma (root s) (head s) (temp_node s) (f (pages s)) (pages_used s) (mem s)).
Definition set_pages_used (n : Z) : M vma () :=
  modify (λ s, Vma (root s) (head s) (temp_node s) (pages s) n (mem s)).
Definition in_mem {A} (m : M sys A) : M vma A :=
  zoom mem (λ t s, Vma (root s) (head s) (temp_node s) (pages s) (pages_used s) t) m.

(** Storage pages through raw pointers. *)
Definition get_page (p : Z) : M vma NodeStoragePage := s ← get; deref (pages s !! p).
Definition put_page (p : Z) (page : NodeStoragePage) : M vma () := set_pages (insert p page).

(** Reading and writing a node: entries of a storage page are readable as long
    as the page exists, reserved or not. *)
Definition node_at (s : vma) (p : NodePtr) : option Node :=
  match p with
  | TempNode => Some (temp_node s)
  | Entry page i => if i <? 0 then None else pg ← pages s !! page; entries pg !! Z.to_nat i
  end.
Definition set_node (s : vma) (p : NodePtr) (n : Node) : vma :=
  match p with
  | TempNode => Vma (root s) (head s) n (pages s) (pages_used s) (mem s)
  | Entry page i =>
      Vma (root s) (head s) (temp_node s)
        (alter (λ pg, {| entries := <[Z.to_nat i := n]> (entries pg); next_page := next_page pg;
             prev_page := prev_page pg; free_entries := free_entries pg;
             usage_bitmap := usage_bitmap pg |}) page (pages s))
        (pages_used s) (mem s)
  end.
Definition read_node (p : NodePtr) : M vma Node := s ← get; deref (node_at s p).
Definition write_node (p : NodePtr) (n : Node) : M vma () :=
  read_node p;; modify (λ s, set_node s p n).

(** [PageBox::try_new_in(page, PhysicalBlockAllocator)]: a storage page is
    never larger than a page, so only the reservation can fail. *)
Definition try_new_page (page : NodeStoragePage) : M vma (option Z) :=
  r ← in_mem find_and_reserve_page;
  match r with
  | Err _ => mret None
  | Ok p => put_page p page;; mret (Some p)
  end.
Definition drop_page (p : Z) : M vma () :=
  set_pages (delete p);; in_mem (free_page p).

(** [NodeStoragePage::find_and_reserve_node] on the page at [p]. *)
Definition page_find_and_reserve_node (p : Z) : M vma (option NodePtr) :=
  page ← get_page p;
  '(i, page) ← lift (page_reserve page);
  put_page p page;;
  mret (Entry p <$> i).
(** The loop of [NodeStorageList::find_and_reserve_node]: a node, or the last
    page of the list. *)
Fixpoint find_page_loop (fuel : nat) (current_page_ptr : Z) : M vma (NodePtr + Z) :=
  match fuel with
  | O => out_of_fuel
  | S fuel =>
      page ← get_page current_page_ptr;
      if 0 <? free_entries page then
        r ← page_find_and_reserve_node current_page_ptr;
        node ← unwrap r;
        mret (inl node)
      else match next_page page with
           | Some next_page_ptr => find_page_loop fuel next_page_ptr
           | None => mret (inr current_page_ptr)
           end
  end.
Inductive VMAMapError : Type := SegmentAlreadyExists | OutOfMemory | OutOfAddressSpace.
Definition find_and_reserve_node : M vma (result NodePtr VMAMapError) :=
  s ← get;
  r ← find_page_loop (S (size (pages s))) (head s);
  match r with
  | inl node => mret (Ok node)
  | inr last_page =>
      used ← chk 64 (pages_used s + 1);
      set_pages_used used;;
      new_page ← try_new_page (new_with_prev_page (Some last_page));
      match new_page with
      | None => mret (Err OutOfMemory)
      | Some p =>
          r ← page_find_and_reserve_node p;
          node ← unwrap r;
          page ← get_page last_page;
          put_page last_page {| entries := entries page; next_page := Some p; prev_page := prev_page page;
            free_entries := free_entries page; usage_bitmap := usage_bitmap page |};;
          mret (Ok node)
      end
  end.

Definition new_empty_leaf (size : Z) : M vma (result NodePtr VMAMapError) :=
  r ← find_and_reserve_node;
  match r with
  | Err e => mret (Err e)
  | Ok node_ptr => write_node node_ptr (Leaf (Empty size));; mret (Ok node_ptr)
  end.
Definition new_used_leaf (flags : Z) : M vma (result NodePtr VMAMapError) :=
  r ← find_and_reserve_node;
  match r with
  | Err e => mret (Err e)
  | Ok node_ptr => write_node node_ptr (Leaf (Used flags));; mret (Ok node_ptr)
  end.
Definition new_branch (pivot : Z) (parent : option NodePtr) (left right : NodePtr) :
    M vma (result NodePtr VMAMapError) :=
  r ← find_and_reserve_node;
  match r with
  | Err e => mret (Err e)
  | Ok node_ptr =>
      write_node node_ptr (Branch (BranchNode_new pivot false Black parent left right));;
      mret (Ok node_ptr)
  end.

(** [NodeStoragePage::unreserve_node]: [true] when the page unlinked itself. *)
Definition unreserve_node (p i : Z) : M vma bool :=
  rassert (i <? MAX_NODES);;
  page ← get_page p;
  free1 ← chk 64 (free_entries page + 1);
  match (if free1 =? MAX_NODES then prev_page page else None) with
  | Some prev =>
      match next_page page with
      | Some next =>
          n ← get_page next;
          put_page next {| entries := entries n; next_page := next_page n; prev_page := prev_page page;
            free_entries := free_entries n; usage_bitmap := usage_bitmap n |}
      | None => mret ()
      end;;
      q ← get_page prev;
      put_page prev {| entries := entries q; next_page := next_page page; prev_page := prev_page q;
        free_entries := free_entries q; usage_bitmap := usage_bitmap q |};;
      mret true
  | None =>
      byte ← unwrap (usage_bitmap page !! Z.to_nat (i / 8));
      put_page p {| entries := entries page; next_page := next_page page; prev_page := prev_page page;
        free_entries := free1;
        usage_bitmap := <[Z.to_nat (i / 8) := Z.land byte (unot 8 (Z.shiftr 0x80 (i mod 8)))]>
          (usage_bitmap page) |};;
      mret false
  end.
(** [NodePtr::free]: the storage page is found by masking the address of the
    node, which the temporary node does not have. *)
Definition free_node (p : NodePtr) : M vma () :=
  write_node p placeholder;;
  match p with
  | TempNode => undefined
  | Entry page i =>
      storage_page_needs_freeing ← unreserve_node page i;
      if storage_page_needs_freeing : bool then drop_page page else mret ()
  end.

(** ** The capacity of a storage page *)

(** [n] reservations on one page, in order. *)
Fixpoint reserve_many (n : nat) (page : NodeStoragePage) : outcome (list Z * NodeStoragePage) :=
  match n with
  | O => Returns ([], page)
  | S n =>
      match page_reserve page with
      | Returns (Some i, page) =>
          match reserve_many n page with
          | Returns (l, page) => Returns (i :: l, page)
          | o => o
          end
      | Returns (None, page) => Panics
      | Panics => Panics
      | Undefined => Undefined
      | OutOfFuel => OutOfFuel
      end
  end.

(** a fresh storage page has room for 96 of the 101 nodes it counts as
    free: the first 96 reservations give the entries 0 to 95 in order, and the
    97th panics.  The initial bitmap sets the bits of the last five entries
    (96..100) in its last byte where its comment says it sets the bits past the
    end, so after entry 95 the first clear bit is the bit of entry 101. *)
Theorem storage_page_capacity (prev : option Z) (n : nat) :
  MAX_NODES = 101 ∧ free_entries (new_with_prev_page prev) = 101 ∧
  ((n ≤ 96)%nat → ∃ page', reserve_many n (new_with_prev_page prev) = Returns (seqZ 0 (Z.of_nat n), page') ∧
     free_entries page' = 101 - Z.of_nat n) ∧
  ((96 < n)%nat → reserve_many n (new_with_prev_page prev) = Panics).
Proof.
  split; [done|]. split; [done|].
  assert (∀ n k page, reserve_many (n + k) page =
    match reserve_many n page with
    | Returns (l, page) => match reserve_many k page with Returns (l', page) => Returns (l ++ l', page) | o => o end
    | o => o end) as Happ.
  { clear n. induction n as [|n IH]; intros k page; cbn [reserve_many Nat.add].
    { by destruct (reserve_many k page) as [[]| | |]. }
    destruct (page_reserve page) as [[[i|] page1]| | |]; [|done..]. rewrite IH.
    destruct (reserve_many n page1) as [[l page2]| | |]; [|done..].
    by destruct (reserve_many k page2) as [[]| | |]. }
  assert (∀ prev, reserve_many 97 (new_with_prev_page prev) = Panics) as H97
    by (intros p; vm_compute; reflexivity).
  split.
  - intros Hn.
    assert (Forall (λ k, match reserve_many k (new_with_prev_page prev) with
      | Returns (l, page') => l = seqZ 0 (Z.of_nat k) ∧ free_entries page' = 101 - Z.of_nat k
      | _ => False end) (seq 0 97)) as H.
    { clear n Hn H97. apply Forall_forall. intros k Hk. apply elem_of_seq in Hk.
      do 97 (destruct k as [|k]; [vm_compute; done|]). lia. }
    rewrite Forall_forall in H. specialize (H n ltac:(apply elem_of_seq; lia)).
    destruct (reserve_many n _) as [[l page']| | |]; [|done..]. destruct H as [-> ?]. eauto.
  - intros Hn. replace n with (97 + (n - 97))%nat by lia. by rewrite Happ, H97.
Qed.
Lemma storage_page_capacity_witness :
  ∃ page', reserve_many 3 (new_with_prev_page None) = Returns (seqZ 0 (Z.of_nat 3), page') ∧
     free_entries page' = 101 - Z.of_nat 3.
Proof. apply (storage_page_capacity None 3). lia. Defined.

(** ** What the tree needs from its storage *)

(** Storage that holds nodes: the reserved ones are readable and bounded in
    number, and writing nodes neither reserves nor frees any.  [room] stands for
    what the operations that change the reservations need. *)
Class NodeStore (room : nat → vma → Prop) (reserved : vma → NodePtr → Prop) : Prop := {
  source_write : ∀ s p n,
    (∀ q, reserved (set_node s p n) q ↔ reserved s q) ∧ (∀ k, room k s → room k (set_node s p n));
  source_readable : ∀ s p, reserved s p → is_Some (node_at s p);
  source_bound : ∀ s l, NoDup l → Forall (reserved s) l →
    (length l ≤ S (size (pages s) * Z.to_nat MAX_NODES))%nat;
  source_root : ∀ s p, let s' := Vma p (head s) (temp_node s) (pages s) (pages_used s) (mem s) in
    (∀ q, reserved s' q ↔ reserved s q) ∧ (∀ k, room k s → room k s');
}.
(** A source of nodes: while there is room it hands out nodes that are not
    reserved, and touches no node that is.  Insertion is verified against this
    interface. *)
Class NodeSource (reserve : M vma (result NodePtr VMAMapError))
    (room : nat → vma → Prop) (reserved : vma → NodePtr → Prop) : Prop := {
  #[global] source_store :: NodeStore room reserved;
  source_reserve : ∀ s k, room (S k) s →
    wp reserve (λ r s', ∃ p, r = Ok p ∧ ¬ reserved s p ∧
      (∀ q, reserved s' q ↔ q = p ∨ reserved s q) ∧
      (∀ q, reserved s q → node_at s' q = node_at s q) ∧ room k s' ∧
      root s' = root s ∧ pages_used s' = pages_used s ∧ mem s' = mem s ∧
      size (pages s') = size (pages s)) s;
  source_mono : ∀ s k, room (S k) s → room k s;
}.
(** A sink of nodes: while there is room, freeing a reserved node other than the
    temporary one takes it out of the reserved nodes, and touches no other.
    Deletion is verified against this interface. *)
Class NodeSink (free : NodePtr → M vma ())
    (room : nat → vma → Prop) (reserved : vma → NodePtr → Prop) : Prop := {
  #[global] sink_store :: NodeStore room reserved;
  sink_free : ∀ s p k, room (S k) s → reserved s p → p ≠ TempNode →
    wp (free p) (λ _ s',
      (∀ q, reserved s' q ↔ q ≠ p ∧ reserved s q) ∧
      (∀ q, q ≠ p → node_at s' q = node_at s q) ∧ room k s' ∧
      root s' = root s ∧ pages_used s' = pages_used s ∧ mem s' = mem s ∧
      size (pages s') = size (pages s)) s;
  sink_mono : ∀ s k, room (S k) s → room k s;
}.

(** *** The head page as a source *)

(** The entries of a page that are free, among those the page can hand out. *)
Definition clear_entries (bitmap : list Z) : list Z :=
  filter (λ i, page_bit bitmap i = false) (seqZ 0 MAX_NODES).
Record page_ok (pg : NodeStoragePage) : Prop := {
  page_bytes : Forall (λ b, 0 ≤ b < 256) (usage_bitmap pg);
  page_bitmap_len : length (usage_bitmap pg) = Z.to_nat BITMAP_LEN;
  page_entries_len : length (entries pg) = Z.to_nat MAX_NODES;
}.
Definition head_room (k : nat) (s : vma) : Prop :=
  ∃ pg, pages s !! head s = Some pg ∧ page_ok pg ∧ Z.of_nat k ≤ free_entries pg ∧
    (k ≤ length (clear_entries (usage_bitmap pg)))%nat.
Definition node_reserved (s : vma) (p : NodePtr) : Prop :=
  match p with
  | TempNode => False
  | Entry page i => ∃ pg, pages s !! page = Some pg ∧ page_ok pg ∧ 0 ≤ i < MAX_NODES ∧
      page_bit (usage_bitmap pg) i = true
  end.

Lemma first_free_entry_spec bm j :
  first_free_entry bm j =
    '(byte_index, byte) ← first_free bm j;
    let bit_index := leading_zeros 8 (unot 8 byte) in
    Some (byte_index, Z.lor byte (Z.shiftr 0x80 bit_index), byte_index * 8 + bit_index).
Proof.
  revert j. induction bm as [|b bm IH]; intros j; cbn; [done|].
  destruct (b =? 255); [apply IH|done].
Qed.
(** The scan finds the lowest clear bit and sets it. *)
Lemma first_free_entry_lowest bm i :
  Forall (λ b, 0 ≤ b < 256) bm → 0 ≤ i < num_bits bm → page_bit bm i = false →
  ∃ j byte e, first_free_entry bm 0 = Some (j, byte, e) ∧ 0 ≤ e ≤ i ∧ page_bit bm e = false ∧
    (∀ k, 0 ≤ k < e → page_bit bm k = true) ∧
    Forall (λ b, 0 ≤ b < 256) (<[Z.to_nat j := byte]> bm) ∧
    (∀ k, 0 ≤ k → page_bit (<[Z.to_nat j := byte]> bm) k = (k =? e) || page_bit bm k).
Proof.
  intros Hb Hi Hclear. rewrite first_free_entry_spec.
  destruct (first_free bm 0) as [[j byte]|] eqn:E.
  2:{ exfalso. apply first_free_None in E. rewrite page_bit_full in Hclear; [done|lia|].
      destruct (lookup_lt_is_Some_2 bm (Z.to_nat (i / 8))) as [b Hl];
        [unfold num_bits in Hi; Z.div_mod_to_equations; lia|].
      rewrite Hl. f_equal. by apply (Forall_lookup_1 (λ b, b = 255) _ _ _ E Hl). }
  apply first_free_Some in E as (Hj & Hl & Hne & Hprev). rewrite Z.sub_0_r in *.
  pose proof (Forall_lookup_1 _ _ _ _ Hb Hl) as Hbyte. cbn beta in Hbyte.
  pose proof (lookup_lt_Some _ _ _ Hl) as Hlen.
  destruct (reserve_byte byte Hbyte Hne) as (Hbi & Hc & Hb' & _ & Hbits & Hlow).
  set (b := leading_zeros 8 (unot 8 byte)) in *.
  exists j, (Z.lor byte (Z.shiftr 0x80 b)), (j * 8 + b).
  assert (∀ k, 0 ≤ k < 8 → page_bit bm (j * 8 + k) = Z.testbit byte (7 - k)) as Hpb.
  { intros k Hk. rewrite Z.mul_comm. by apply page_bit_byte. }
  assert (∀ k, 0 ≤ k < j * 8 + b → page_bit bm k = true) as Hbelow.
  { intros k Hk. destruct (decide (k < j * 8)).
    - apply page_bit_full; [lia|]. apply Hprev. Z.div_mod_to_equations. lia.
    - replace k with (j * 8 + (k - j * 8)) by lia. rewrite Hpb by lia. apply Hlow; lia. }
  split_and!; try done; try lia.
  - destruct (decide (i < j * 8 + b)); [|lia]. rewrite Hbelow in Hclear by lia. done.
  - by rewrite Hpb.
  - by apply Forall_insert.
  - intros k Hk. rewrite page_bit_insert by lia.
    pose proof (Z.mod_pos_bound k 8 ltac:(lia)) as Hk8.
    destruct (Z.eqb_spec (k / 8) j) as [Ej|Ej].
    + rewrite Hbits by lia. rewrite <-Hpb by lia.
      replace (j * 8 + k mod 8) with k by (Z.div_mod_to_equations; lia). f_equal.
      destruct (Z.eqb_spec (k mod 8) b), (Z.eqb_spec k (j * 8 + b)); Z.div_mod_to_equations; lia.
    + destruct (Z.eqb_spec k (j * 8 + b)); [|done]. exfalso. Z.div_mod_to_equations. lia.
Qed.

(** Reserving takes the first of the clear entries. *)
Lemma clear_entries_elem bm i : i ∈ clear_entries bm ↔ 0 ≤ i < MAX_NODES ∧ page_bit bm i = false.
Proof. unfold clear_entries. rewrite list_elem_of_filter, elem_of_seqZ. naive_solver lia. Qed.
Lemma clear_entries_remove bm bm' e :
  e ∈ clear_entries bm → (∀ k, 0 ≤ k → page_bit bm' k = (k =? e) || page_bit bm k) →
  S (length (clear_entries bm')) = length (clear_entries bm).
Proof.
  intros He Hbits. apply clear_entries_elem in He as [He Hc].
  assert (clear_entries bm ≡ₚ e :: clear_entries bm') as ->; [|done].
  apply NoDup_Permutation.
  - apply NoDup_filter, NoDup_seqZ.
  - constructor; [|apply NoDup_filter, NoDup_seqZ]. rewrite clear_entries_elem, Hbits by lia.
    rewrite Z.eqb_refl. naive_solver.
  - intros i. rewrite elem_of_cons, !clear_entries_elem.
    destruct (decide (0 ≤ i < MAX_NODES)) as [Hi|]; [|naive_solver lia].
    rewrite Hbits by lia. destruct (Z.eqb_spec i e) as [->|]; naive_solver.
Qed.

Lemma page_reserve_spec pg k :
  page_ok pg → Z.of_nat (S k) ≤ free_entries pg →
  (S k ≤ length (clear_entries (usage_bitmap pg)))%nat →
  ∃ i pg', page_reserve pg = Returns (Some i, pg') ∧ 0 ≤ i < MAX_NODES ∧
    page_bit (usage_bitmap pg) i = false ∧ page_ok pg' ∧
    (∀ j, 0 ≤ j → page_bit (usage_bitmap pg') j = (j =? i) || page_bit (usage_bitmap pg) j) ∧
    entries pg' = entries pg ∧ prev_page pg' = prev_page pg ∧ free_entries pg' = free_entries pg - 1 ∧
    Z.of_nat k ≤ free_entries pg' ∧ (k ≤ length (clear_entries (usage_bitmap pg')))%nat.
Proof.
  intros Hok Hfree Hclear. unfold page_reserve. rewrite (proj2 (Z.eqb_neq _ 0)) by lia.
  destruct (clear_entries (usage_bitmap pg)) as [|i0 rest] eqn:Ec; [cbn in Hclear; lia|].
  assert (i0 ∈ clear_entries (usage_bitmap pg)) as H0 by (rewrite Ec; apply elem_of_cons; by left).
  pose proof H0 as H0'. apply clear_entries_elem in H0' as [Hi0 Hc0].
  destruct (first_free_entry_lowest (usage_bitmap pg) i0) as (j & byte & e & Hff & He & Hce & _ & Hb & Hbits);
    [apply Hok| |done|].
  { unfold num_bits. rewrite (page_bitmap_len _ Hok). change (Z.to_nat BITMAP_LEN) with 13%nat.
    change MAX_NODES with 101 in Hi0. lia. }
  rewrite Hff. rewrite (proj2 (Z.ltb_lt e MAX_NODES)) by lia.
  assert (e ∈ clear_entries (usage_bitmap pg)) as Hee by (apply clear_entries_elem; split; [lia|done]).
  pose proof (clear_entries_remove _ _ e Hee Hbits) as Hlen. rewrite Ec in Hlen.
  eexists e, _. split; [done|]. split_and!; try done; try lia.
  - split; cbn [usage_bitmap entries]; [done|by rewrite length_insert; apply Hok|apply Hok].
  - cbn [free_entries]. lia.
  - cbn [usage_bitmap]. lia.
Qed.

Lemma lookup_alter_page (ps : gmap Z NodeStoragePage) f p q :
  alter f p ps !! q = if decide (q = p) then f <$> ps !! q else ps !! q.
Proof. case_decide; subst; [by rewrite lookup_alter_eq|by rewrite lookup_alter_ne]. Qed.

(** Writing a node that can be read changes that node and no other. *)
Lemma node_at_set s p n q : is_Some (node_at s p) →
  node_at (set_node s p n) q = if decide (q = p) then Some n else node_at s q.
Proof.
  destruct p as [page i|].
  2:{ intros _. destruct q as [page j|]; [|by rewrite decide_True]. by rewrite decide_False. }
  cbn [node_at]. intros Hs. destruct (Z.ltb_spec i 0) as [|Hi]; [by destruct Hs|].
  destruct (pages s !! page) as [pg|] eqn:Hpg; [|by destruct Hs]. cbn in Hs.
  apply lookup_lt_is_Some in Hs.
  destruct q as [page' j|]; [|by rewrite decide_False]. cbn [node_at set_node pages].
  destruct (Z.ltb_spec j 0); [by rewrite decide_False by (intros [= -> ->]; lia)|].
  rewrite lookup_alter_page. destruct (decide (page' = page)) as [->|].
  2:{ by rewrite decide_False by congruence. }
  rewrite Hpg. cbn. rewrite list_lookup_insert.
  destruct (decide (Entry page j = Entry page i)) as [[= ->]|E].
  - by rewrite decide_True.
  - rewrite decide_False; [done|]. intros [Eij _]. apply E. f_equal. lia.
Qed.
Lemma size_set_node s p n : size (pages (set_node s p n)) = size (pages s).
Proof.
  destruct p as [page i|]; [|done]. cbn [set_node pages].
  rewrite <-!size_dom. by rewrite dom_alter_L.
Qed.
Lemma node_reserved_some s p : node_reserved s p → is_Some (node_at s p).
Proof.
  destruct p as [page i|]; [|done]. intros (pg & Hpg & Hok & Hi & _). cbn.
  destruct (Z.ltb_spec i 0); [lia|]. rewrite Hpg. cbn.
  apply lookup_lt_is_Some. rewrite (page_entries_len _ Hok). lia.
Qed.
Lemma node_reserved_write s p n :
  (∀ q, node_reserved (set_node s p n) q ↔ node_reserved s q) ∧
  (∀ k, head_room k s → head_room k (set_node s p n)).
Proof.
  destruct p as [page i|]; [|done].
  set (upd := λ pg, {| entries := <[Z.to_nat i := n]> (entries pg); next_page := next_page pg;
             prev_page := prev_page pg; free_entries := free_entries pg;
             usage_bitmap := usage_bitmap pg |}).
  assert (∀ pg, page_ok (upd pg) ↔ page_ok pg) as Hupd.
  { intros x. split; intros [H1 H2 H3]; split; cbn in *; rewrite ?length_insert in *; done. }
  split.
  - intros [page' j|]; [|done]. cbn [node_reserved set_node pages]. fold upd.
    setoid_rewrite lookup_alter_page. case_decide as E; [|done]. subst page'.
    destruct (pages s !! page) as [pg|]; cbn; [|naive_solver].
    split; intros (x & [= <-] & Hx & Hj & Hb).
    + exists pg. by rewrite Hupd in Hx.
    + exists (upd pg). by rewrite Hupd.
  - intros k (pgh & Hh & Hokh & H1 & H2). unfold head_room. cbn [set_node head pages]. fold upd.
    rewrite lookup_alter_page. case_decide; [|by eauto]. rewrite Hh. exists (upd pgh). by rewrite Hupd.
Qed.
(** There are at most as many reserved nodes as the pages have entries. *)
Lemma node_reserved_bound s l : NoDup l → Forall (node_reserved s) l →
  (length l ≤ size (pages s) * Z.to_nat MAX_NODES)%nat.
Proof.
  intros Hnd Hl.
  set (all := '(p, _) ← map_to_list (pages s); Entry p <$> seqZ 0 MAX_NODES).
  assert (length all = size (pages s) * Z.to_nat MAX_NODES)%nat as <-.
  { unfold all. rewrite <-length_map_to_list. induction (map_to_list (pages s)) as [|[p pg] ps IH]; [done|].
    rewrite bind_cons, length_app, length_fmap, length_seqZ, IH. cbn [length]. lia. }
  apply submseteq_length, NoDup_submseteq; [done|]. intros p Hp.
  rewrite Forall_forall in Hl. specialize (Hl p Hp). destruct p as [page i|]; [|done].
  destruct Hl as (pg & Hpg & _ & Hi & _). unfold all. apply list_elem_of_bind.
  exists (page, pg). split; [|by apply elem_of_map_to_list].
  apply list_elem_of_fmap. exists i. split; [done|]. apply elem_of_seqZ. lia.
Qed.

(** The temporary node of the list can be in a tree, too. *)
Definition temp_reserved (s : vma) (p : NodePtr) : Prop := p = TempNode ∨ node_reserved s p.
Lemma temp_reserved_bound s l : NoDup l → Forall (temp_reserved s) l →
  (length l ≤ S (size (pages s) * Z.to_nat MAX_NODES))%nat.
Proof.
  intros Hnd Hl.
  assert (∀ l, NoDup l → TempNode ∉ l → Forall (temp_reserved s) l →
    (length l ≤ size (pages s) * Z.to_nat MAX_NODES)%nat) as H.
  { intros l' Hnd' Ht Hl'. apply node_reserved_bound; [done|]. rewrite Forall_forall in Hl' |- *.
    intros p Hp. by destruct (Hl' p Hp) as [->|]. }
  destruct (decide (TempNode ∈ l)) as [Hin|Hin]; [|by apply le_S, H].
  apply list_elem_of_split in Hin as (l1 & l2 & ->). rewrite <-Permutation_middle in Hnd, Hl.
  apply NoDup_cons in Hnd as [Hn Hnd]. apply Forall_cons in Hl as [_ Hl].
  rewrite <-Permutation_middle. cbn. by apply le_n_S, H.
Qed.

Lemma head_reserve s k : head_room (S k) s →
  wp find_and_reserve_node (λ r s', ∃ p, r = Ok p ∧ p ≠ TempNode ∧ ¬ node_reserved s p ∧
    (∀ q, node_reserved s' q ↔ q = p ∨ node_reserved s q) ∧
    (∀ q, node_at s' q = node_at s q) ∧ head_room k s' ∧
    root s' = root s ∧ pages_used s' = pages_used s ∧ mem s' = mem s ∧
    size (pages s') = size (pages s) ∧
    (∀ p pg', pages s' !! p = Some pg' → ∃ pg, pages s !! p = Some pg ∧ prev_page pg' = prev_page pg ∧
       (free_entries pg' = free_entries pg ∨ 0 ≤ free_entries pg' ∧ free_entries pg' = free_entries pg - 1))) s.
Proof.
  intros (pg & Hpg & Hok & Hfree & Hclear).
  destruct (page_reserve_spec pg k Hok Hfree Hclear) as
    (i & pg' & Hres & Hi & Hbit & Hok' & Hbits & Hent & Hprev & Hcount & Hfree' & Hclear').
  unfold find_and_reserve_node. rewrite wp_bind, wp_get, wp_bind. cbn [find_page_loop].
  rewrite wp_bind. unfold get_page at 1. rewrite wp_bind, wp_get, wp_deref. exists pg. split; [done|].
  rewrite (proj2 (Z.ltb_lt 0 (free_entries pg))) by lia.
  rewrite wp_bind. unfold page_find_and_reserve_node. rewrite wp_bind. unfold get_page.
  rewrite wp_bind, wp_get, wp_deref. exists pg. split; [done|]. rewrite wp_bind, wp_lift.
  exists (Some i, pg'). split; [done|]. rewrite wp_bind. unfold put_page, set_pages. rewrite wp_modify, wp_ret.
  rewrite wp_bind, wp_unwrap. exists (Entry (head s) i). split; [done|]. rewrite !wp_ret.
  exists (Entry (head s) i). split; [done|]. split_and!; try done.
  + intros (pg1 & Hpg1 & _ & _ & Hb). rewrite Hpg in Hpg1. injection Hpg1 as <-. congruence.
  + intros [page j|]; cbn [node_reserved pages]; [|naive_solver].
    destruct (decide (page = head s)) as [->|Hne].
    2:{ rewrite lookup_insert_ne by done. naive_solver. }
    rewrite lookup_insert_eq, Hpg. split.
    * intros (x & [= <-] & _ & Hj & Hb). rewrite Hbits in Hb by lia.
      destruct (Z.eqb_spec j i) as [->|]; [by left|right]. by exists pg.
    * intros [[= ->]|(x & [= <-] & _ & Hj & Hb)]; exists pg'; (split; [done|]); (split; [done|]);
        (split; [done|]); rewrite Hbits by lia; [by rewrite Z.eqb_refl|by rewrite Hb, orb_true_r].
  + intros [page j|]; [|done]. cbn [node_at pages].
    destruct (j <? 0); [done|].
    destruct (decide (page = head s)) as [->|Hne]; [|by rewrite lookup_insert_ne].
    rewrite lookup_insert_eq, Hpg. cbn. by rewrite Hent.
  + exists pg'. cbn [pages head]. rewrite lookup_insert_eq. done.
  + cbn [pages]. by rewrite map_size_insert_Some.
  + intros q x. cbn [pages]. destruct (decide (q = head s)) as [->|Hne].
    * rewrite lookup_insert_eq. intros [= <-]. exists pg. split; [done|]. split; [done|]. right. lia.
    * rewrite lookup_insert_ne by done. intros Hx. exists x. auto.
Qed.

#[export] Instance head_page_source : NodeSource find_and_reserve_node head_room node_reserved.
Proof.
  split.
  - split; [apply node_reserved_write|apply node_reserved_some| |done].
    intros s l Hnd Hl. by apply le_S, node_reserved_bound.
  - intros s k Hr. eapply wp_mono; [by apply head_reserve|].
    intros r s' (p & -> & _ & Hp). exists p. naive_solver.
  - intros s k (pg & Hpg & Hok & H1 & H2). exists pg. split_and!; [done|done|lia|lia].
Qed.
Lemma temp_store room : NodeStore room node_reserved → NodeStore room temp_reserved.
Proof.
  intros [Hw _ _ Hr]. split.
  - intros s p n. split; [|apply Hw]. intros q. unfold temp_reserved. by rewrite (proj1 (Hw s p n)).
  - intros s p [->|]; [by eexists|by apply node_reserved_some].
  - apply temp_reserved_bound.
  - intros s p. split; [|apply Hr]. intros q. unfold temp_reserved. by rewrite (proj1 (Hr s p)).
Qed.
Lemma head_page_temp_source : NodeSource find_and_reserve_node head_room temp_reserved.
Proof.
  split; [apply temp_store, (source_store (reserve := find_and_reserve_node))| |apply source_mono].
  intros s k Hr. eapply wp_mono; [by apply head_reserve|].
  intros r s' (p & -> & Hpt & Hp & Hres & Hsame & Hrest). exists p. split; [done|].
  unfold temp_reserved. destruct Hrest as (? & ? & ? & ? & ? & _). split; [tauto|]. split; [|by auto].
  intros q. rewrite Hres. tauto.
Qed.
