(* ===== verification/VmaTree.v ===== *)
(** * The VMA tree (kernel/src/vma.rs, [VMATree])

    A red-black tree over the user address range whose leaves are the used and
    the empty areas, as the code has it: nodes linked by pointers, updated in
    place.  Every loop that follows pointers has fuel for as many steps as there
    are nodes ([tree_fuel]). *)
From S2P Require Import Prelude Paging PageAlloc VmaStore.

(** [arch::process::HIGHEST_USER_ADDRESS]. *)
Definition HIGHEST_USER_ADDRESS : Z := 0x00007FFFFFFFFFFF.

Definition tree_fuel (s : vma) : nat := S (S (size (pages s) * Z.to_nat MAX_NODES)).
Definition with_fuel {A} (f : nat → M vma A) : M vma A := s ← get; f (tree_fuel s).

(** ** Node accessors *)

(** A read through a [BranchNodePtr]: undefined if [p] does not point into a
    branch. *)
Definition read_branch (p : NodePtr) : M vma BranchNode :=
  n ← read_node p; match n with Branch b => mret b | Leaf _ => undefined end.
Definition modify_branch (p : NodePtr) (f : BranchNode → BranchNode) : M vma () :=
  b ← read_branch p; write_node p (Branch (f b)).
Definition unwrap_branch (p : NodePtr) : M vma NodePtr :=
  n ← read_node p; match n with Branch _ => mret p | Leaf _ => panic end.
Definition unwrap_leaf (p : NodePtr) : M vma NodePtr :=
  n ← read_node p; match n with Leaf _ => mret p | Branch _ => panic end.
Definition read_leaf (p : NodePtr) : M vma LeafNode :=
  n ← read_node p; match n with Leaf l => mret l | Branch _ => undefined end.
Definition is_branch (p : NodePtr) : M vma bool :=
  n ← read_node p; mret (match n with Branch _ => true | Leaf _ => false end).
Definition is_leaf (p : NodePtr) : M vma bool :=
  n ← read_node p; mret (match n with Branch _ => false | Leaf _ => true end).
Definition is_empty_leaf (p : NodePtr) : M vma bool :=
  n ← read_node p; mret (match n with Leaf (Empty _) => true | _ => false end).
Definition is_used_leaf (p : NodePtr) : M vma bool :=
  n ← read_node p; mret (match n with Leaf (Used _) => true | _ => false end).
(** [NodePtr::color]: leaves are black. *)
Definition color (p : NodePtr) : M vma NodeColor :=
  n ← read_node p; mret (match n with Branch b => branch_color b | Leaf _ => Black end).
(** [BranchNodePtr::color]. *)
Definition color_of_branch (p : NodePtr) : M vma NodeColor := b ← read_branch p; mret (branch_color b).

Definition with_parent (q : option NodePtr) (b : BranchNode) : BranchNode :=
  {| packed_fields := packed_fields b; max_empty_area_size := max_empty_area_size b; parent := q;
     left := left b; right := right b |}.
Definition with_child (side : Side) (p : NodePtr) (b : BranchNode) : BranchNode :=
  {| packed_fields := packed_fields b; max_empty_area_size := max_empty_area_size b; parent := parent b;
     left := (match side with Left => p | Right => left b end);
     right := (match side with Left => right b | Right => p end) |}.
Definition with_packed (f : Z → Z) (b : BranchNode) : BranchNode :=
  {| packed_fields := f (packed_fields b); max_empty_area_size := max_empty_area_size b;
     parent := parent b; left := left b; right := right b |}.
Definition with_max (n : Z) (b : BranchNode) : BranchNode :=
  {| packed_fields := packed_fields b; max_empty_area_size := n; parent := parent b;
     left := left b; right := right b |}.
Definition set_pivot (p : NodePtr) (pv : Z) : M vma () :=
  modify_branch p (with_packed (λ x, Z.lor (Z.land x 3) (Z.land pv PIVOT_MASK))).
Definition recolor (c : NodeColor) (x : Z) : Z := Z.lor (Z.land x (unot 64 1)) (color_bit c).
Definition set_color (p : NodePtr) (c : NodeColor) : M vma () := modify_branch p (with_packed (recolor c)).
Definition set_max_empty_area_size (p : NodePtr) (n : Z) : M vma () := modify_branch p (with_max n).

Definition is_left_side (p : NodePtr) : M vma (option bool) :=
  b ← read_branch p;
  match parent b with
  | None => mret None
  | Some q => qb ← read_branch q; mret (Some (bool_decide (p = left qb)))
  end.
Definition is_right_side (p : NodePtr) : M vma (option bool) :=
  b ← read_branch p;
  match parent b with
  | None => mret None
  | Some q => qb ← read_branch q; mret (Some (bool_decide (p = right qb)))
  end.
Definition get_parent (p : NodePtr) : M vma NodePtr := b ← read_branch p; unwrap (parent b).
Definition get_grandparent (p : NodePtr) : M vma NodePtr := q ← get_parent p; get_parent q.
Definition get_sibling (p : NodePtr) : M vma NodePtr :=
  q ← get_parent p;
  qb ← read_branch q;
  if decide (p = left qb) then mret (right qb)
  else if decide (p = right qb) then mret (left qb)
  else panic.

(** The largest empty area below a node. *)
Definition node_max (n : Node) : Z :=
  match n with
  | Branch b => max_empty_area_size b
  | Leaf (Used _) => 0
  | Leaf (Empty size) => size
  end.
Definition recalculate_max_empty_area_size (p : NodePtr) : M vma () :=
  b ← read_branch p;
  l ← read_node (left b);
  r ← read_node (right b);
  set_max_empty_area_size p (Z.max (node_max l) (node_max r)).

(** [LeafNodePtr] accessors; the pointer casts assert the kind of leaf. *)
Definition unwrap_empty_size (p : NodePtr) : M vma Z :=
  l ← read_leaf p; match l with Empty size => mret size | Used _ => panic end.
Definition unwrap_empty_set_size (p : NodePtr) (new_size : Z) : M vma () :=
  unwrap_empty_size p;; write_node p (Leaf (Empty new_size)).
Definition unwrap_flags (p : NodePtr) : M vma Z :=
  l ← read_leaf p; match l with Used flags => mret flags | Empty _ => panic end.
Definition set_used_flags (p : NodePtr) (f : Z → Z) : M vma () :=
  flags ← unwrap_flags p; write_node p (Leaf (Used (f flags))).

(** ** Searching *)

Record LeafInfo : Type := {
  leaf : NodePtr;
  parent_and_side : option (NodePtr * Side);
  leaf_start : Z;
  leaf_end : Z;
}.
Fixpoint get_leaf_loop (fuel : nat) (current_node : NodePtr)
    (current_parent_and_side : option (NodePtr * Side)) (current_start current_end addr : Z) :
    M vma LeafInfo :=
  match fuel with
  | O => out_of_fuel
  | S fuel =>
      n ← read_node current_node;
      match n with
      | Branch branch =>
          if addr <? pivot branch then
            rassert (pivot branch <=? current_end);;
            get_leaf_loop fuel (left branch) (Some (current_node, Left)) current_start (pivot branch) addr
          else
            rassert (current_start <=? pivot branch);;
            get_leaf_loop fuel (right branch) (Some (current_node, Right)) (pivot branch) current_end addr
      | Leaf _ =>
          e ← chk 64 (current_end - 1);
          mret {| leaf := current_node; parent_and_side := current_parent_and_side;
                  leaf_start := current_start; leaf_end := e |}
      end
  end.
Definition get_leaf_containing (addr : Z) : M vma LeafInfo :=
  rassert (addr <=? HIGHEST_USER_ADDRESS);;
  s ← get;
  get_leaf_loop (tree_fuel s) (root s) None 0 (HIGHEST_USER_ADDRESS + 1) addr.

Fixpoint find_min_loop (fuel : nat) (node : NodePtr) : M vma NodePtr :=
  match fuel with
  | O => out_of_fuel
  | S fuel =>
      b ← read_branch node;
      l ← is_branch (left b);
      if l : bool then find_min_loop fuel (left b) else mret node
  end.
Definition find_min (node : NodePtr) : M vma NodePtr := with_fuel (λ n, find_min_loop n node).
(** [min_leaf] and [max_leaf]: the outermost leaf on a side. *)
Fixpoint edge_leaf_loop (fuel : nat) (side : Side) (node : NodePtr) : M vma NodePtr :=
  match fuel with
  | O => out_of_fuel
  | S fuel =>
      n ← read_node node;
      match n with
      | Branch b => edge_leaf_loop fuel side (child b side)
      | Leaf _ => mret node
      end
  end.
Definition min_leaf (node : NodePtr) : M vma NodePtr := with_fuel (λ n, edge_leaf_loop n Left node).
Definition max_leaf (node : NodePtr) : M vma NodePtr := with_fuel (λ n, edge_leaf_loop n Right node).

(** ** Updating *)

Fixpoint update_max_loop (fuel : nat) (current_branch_ptr : option NodePtr) : M vma () :=
  match current_branch_ptr with
  | None => mret ()
  | Some p =>
      match fuel with
      | O => out_of_fuel
      | S fuel =>
          b ← read_branch p;
          l ← read_node (left b);
          r ← read_node (right b);
          set_max_empty_area_size p (Z.max (Z.max 0 (node_max l)) (node_max r));;
          update_max_loop fuel (parent b)
      end
  end.
Definition update_max_empty_area_data (lowest_branch : NodePtr) : M vma () :=
  with_fuel (λ n, update_max_loop n (Some lowest_branch)).

(** The three-way match on [is_left_side] that replaces a child by [new_node]. *)
Definition replace_in_parent (old_branch new_node : NodePtr) : M vma () :=
  side ← is_left_side old_branch;
  match side with
  | Some is_left => q ← get_parent old_branch;
      modify_branch q (with_child (if is_left : bool then Left else Right) new_node)
  | None => set_root new_node
  end.
Definition set_parent_if_branch (p : NodePtr) (q : option NodePtr) : M vma () :=
  n ← read_node p;
  match n with Branch b => write_node p (Branch (with_parent q b)) | Leaf _ => mret () end.
Definition replace_node (old_branch new_node : NodePtr) : M vma () :=
  replace_in_parent old_branch new_node;;
  b ← read_branch old_branch;
  set_parent_if_branch new_node (parent b).

(** [left_rotate] ([side] is [Left]) and [right_rotate]. *)
Definition rotate (side : Side) (node : NodePtr) : M vma () :=
  b ← read_branch node;
  let up_node := child b (side_not side) in
  up ← unwrap_branch up_node;
  u ← read_branch up;
  modify_branch node (with_child (side_not side) (child u side));;
  set_parent_if_branch (child u side) (Some node);;
  b ← read_branch node;
  modify_branch up (with_parent (parent b));;
  replace_in_parent node up_node;;
  modify_branch up (with_child side node);;
  modify_branch node (with_parent (Some up));;
  recalculate_max_empty_area_size node;;
  recalculate_max_empty_area_size up.
Definition left_rotate (node : NodePtr) : M vma () := rotate Left node.
Definition right_rotate (node : NodePtr) : M vma () := rotate Right node.

(** One iteration of [fix_insert], with [side] the side of [k]'s parent. *)
Definition fix_insert_step (side : Side) (k : NodePtr) : M vma NodePtr :=
  g ← get_grandparent k;
  gb ← read_branch g;
  let u := child gb (side_not side) in
  c ← color u;
  match c with
  | Red =>
      u ← unwrap_branch u;
      set_color u Black;;
      q ← get_parent k; set_color q Black;;
      g ← get_grandparent k; set_color g Red;;
      get_grandparent k
  | Black =>
      inner ← (match side with Left => is_right_side k | Right => is_left_side k end);
      inner ← unwrap inner;
      k ← (if inner : bool then k ← get_parent k; rotate side k;; mret k else mret k);
      q ← get_parent k; set_color q Black;;
      g ← get_grandparent k; set_color g Red;;
      g ← get_grandparent k;
      rotate (side_not side) g;;
      mret k
  end.
Fixpoint fix_insert_loop (fuel : nat) (k : NodePtr) : M vma () :=
  match fuel with
  | O => out_of_fuel
  | S fuel =>
      q ← get_parent k;
      c ← color_of_branch q;
      match c with
      | Black => mret ()
      | Red =>
          r ← is_right_side q;
          r ← unwrap r;
          k ← fix_insert_step (if r : bool then Right else Left) k;
          s ← get;
          if decide (k = root s) then mret () else fix_insert_loop fuel k
      end
  end.
Definition fix_insert (node : NodePtr) : M vma () :=
  b ← is_branch node;
  rassert b;;
  with_fuel (λ n, fix_insert_loop n node);;
  s ← get;
  r ← unwrap_branch (root s);
  set_color r Black.

Definition link_in_branch (new_branch : NodePtr) (new_parent_and_side : option (NodePtr * Side)) :
    M vma () :=
  match new_parent_and_side with
  | Some (new_parent, side) =>
      modify_branch new_parent (with_child side new_branch);;
      b ← unwrap_branch new_branch;
      set_color b Red;;
      pb ← read_branch new_parent;
      match parent pb with Some _ => fix_insert new_branch | None => mret () end
  | None => set_root new_branch
  end;;
  b ← unwrap_branch new_branch;
  update_max_empty_area_data b.

(** The four cases of [VMATree::insert].  On a failed reservation the nodes
    already reserved are freed. *)

(** The segment is the whole gap. *)
Definition insert_whole (gap : LeafInfo) (flags : Z) : M vma (result NodePtr VMAMapError) :=
  write_node (leaf gap) (Leaf (Used flags));;
  match fst <$> parent_and_side gap with Some p => update_max_empty_area_data p | None => mret () end;;
  mret (Ok (leaf gap)).
(** The segment is at the end of the gap. *)
Definition insert_at_end (gap : LeafInfo) (start flags : Z) : M vma (result NodePtr VMAMapError) :=
  r ← new_used_leaf flags;
  match r with
  | Err err => mret (Err err)
  | Ok new_used =>
      r ← new_branch start (fst <$> parent_and_side gap) (leaf gap) new_used;
      match r with
      | Err err => free_node new_used;; mret (Err err)
      | Ok new_br =>
          p ← unwrap_leaf (leaf gap);
          unwrap_empty_set_size p (start - leaf_start gap);;
          link_in_branch new_br (parent_and_side gap);;
          mret (Ok new_used)
      end
  end.
(** The segment is at the start of the gap. *)
Definition insert_at_start (gap : LeafInfo) (end_ flags : Z) : M vma (result NodePtr VMAMapError) :=
  r ← new_used_leaf flags;
  match r with
  | Err err => mret (Err err)
  | Ok new_used =>
      r ← new_branch (end_ + 1) (fst <$> parent_and_side gap) new_used (leaf gap);
      match r with
      | Err err => free_node new_used;; mret (Err err)
      | Ok new_br =>
          p ← unwrap_leaf (leaf gap);
          unwrap_empty_set_size p (leaf_end gap - end_);;
          link_in_branch new_br (parent_and_side gap);;
          mret (Ok new_used)
      end
  end.
(** The segment is in the middle of the gap. *)
Definition insert_inside (gap : LeafInfo) (start end_ flags : Z) : M vma (result NodePtr VMAMapError) :=
  r ← new_used_leaf flags;
  match r with
  | Err err => mret (Err err)
  | Ok new_used =>
      r ← new_empty_leaf (leaf_end gap - end_);
      match r with
      | Err err => free_node new_used;; mret (Err err)
      | Ok new_empty =>
          r ← new_branch (end_ + 1) (fst <$> parent_and_side gap) new_used new_empty;
          match r with
          | Err err => free_node new_empty;; free_node new_used;; mret (Err err)
          | Ok new_end_branch =>
              r ← find_and_reserve_node;
              match r with
              | Err err =>
                  free_node new_end_branch;; free_node new_empty;; free_node new_used;;
                  mret (Err err)
              | Ok new_start_branch =>
                  link_in_branch new_end_branch (parent_and_side gap);;
                  used ← get_leaf_containing start;
                  rassert (leaf_end used =? end_);;
                  write_node new_start_branch
                    (Branch (BranchNode_new start false Black (fst <$> parent_and_side used)
                               (leaf gap) (leaf used)));;
                  p ← unwrap_leaf (leaf gap);
                  unwrap_empty_set_size p (start - leaf_start gap);;
                  link_in_branch new_start_branch (parent_and_side used);;
                  mret (Ok (leaf used))
              end
          end
      end
  end.
Definition insert_node (start len flags : Z) : M vma (result NodePtr VMAMapError) :=
  end1 ← chk 64 (start + len);
  end_ ← chk 64 (end1 - 1);
  gap ← get_leaf_containing start;
  let gap_start := leaf_start gap in
  let gap_end := leaf_end gap in
  e ← is_empty_leaf (leaf gap);
  rassert e;;
  rassert (gap_start <=? start);;
  rassert (end_ <=? gap_end);;
  if (gap_start =? start) && (end_ =? gap_end) then insert_whole gap flags
  else if (gap_start <? start) && (end_ =? gap_end) then insert_at_end gap start flags
  else if (gap_start =? start) && (end_ <? gap_end) then insert_at_start gap end_ flags
  else if (gap_start <? start) && (end_ <? gap_end) then insert_inside gap start end_ flags
  else panic.

(** ** Deletion *)

(** The first or only child kept when a branch has a leaf child; [kept] is
    asserted by its sibling not being a used leaf. *)
Definition assert_not_used (p : NodePtr) : M vma () := u ← is_used_leaf p; rassert (negb u).
Definition delete_node_with_zero_or_one_child (node : NodePtr) : M vma (NodePtr * option NodePtr) :=
  b ← read_branch node;
  let up := parent b in
  lb ← is_branch (left b);
  if lb : bool then
    replace_node node (left b);;
    b ← read_branch node;
    assert_not_used (right b);;
    free_node (right b);;
    b ← read_branch node;
    mret (left b, up)
  else
    rb ← is_branch (right b);
    if rb : bool then
      replace_node node (right b);;
      b ← read_branch node;
      assert_not_used (left b);;
      free_node (left b);;
      b ← read_branch node;
      mret (right b, up)
    else
      new_child ←
        (match branch_color b with
         | Black =>
             write_node TempNode (Branch (BranchNode_new 0 true Black None (left b) (right b)));;
             mret TempNode
         | Red =>
             lu ← is_used_leaf (left b);
             if lu : bool then
               assert_not_used (right b);; free_node (right b);; mret (left b)
             else
               assert_not_used (left b);; free_node (left b);; mret (right b)
         end);
      replace_node node new_child;;
      mret (new_child, up).

Definition handle_red_sibling (node sibling : NodePtr) : M vma () :=
  set_color sibling Black;;
  q ← get_parent node; set_color q Red;;
  l ← is_left_side node; l ← unwrap l;
  if l : bool then q ← get_parent node; left_rotate q
  else
    r ← is_right_side node; r ← unwrap r;
    if r : bool then q ← get_parent node; right_rotate q else panic.

Definition handle_black_sibling_at_least_one_red_child (node sibling : NodePtr) : M vma () :=
  l ← is_left_side node; is_left ← unwrap l;
  sb ← read_branch sibling;
  outer ← color (child sb (if is_left : bool then Right else Left));
  sibling ←
    (if (is_left : bool) && bool_decide (outer = Black) then
       sl ← unwrap_branch (left sb);
       set_color sl Black;;
       set_color sibling Red;;
       right_rotate sibling;;
       q ← get_parent node; qb ← read_branch q;
       unwrap_branch (right qb)
     else if negb is_left && bool_decide (outer = Black) then
       sr ← unwrap_branch (right sb);
       set_color sr Black;;
       set_color sibling Red;;
       left_rotate sibling;;
       q ← get_parent node; qb ← read_branch q;
       unwrap_branch (left qb)
     else mret sibling);
  q ← get_parent node; c ← color_of_branch q;
  set_color sibling c;;
  set_color q Black;;
  sb ← read_branch sibling;
  if (is_left : bool) then
    r ← unwrap_branch (right sb); set_color r Black;;
    q ← get_parent node; left_rotate q
  else
    r ← unwrap_branch (left sb); set_color r Black;;
    q ← get_parent node; right_rotate q.

(** The loop of [fix_delete]: the value of [node] when it is left. *)
Fixpoint fix_delete_loop (fuel : nat) (node : NodePtr) : M vma NodePtr :=
  match fuel with
  | O => out_of_fuel
  | S fuel =>
      s ← get;
      if decide (node = root s) then mret node
      else
        x ← get_sibling node;
        sibling ← unwrap_branch x;
        c ← color_of_branch sibling;
        sibling ← (match c with
                   | Red => handle_red_sibling node sibling;; x ← get_sibling node; unwrap_branch x
                   | Black => mret sibling
                   end);
        sb ← read_branch sibling;
        lc ← color (left sb);
        both ← (match lc with
                | Black => rc ← color (right sb); mret (bool_decide (rc = Black))
                | Red => mret false
                end);
        if both : bool then
          set_color sibling Red;;
          q ← get_parent node;
          c ← color_of_branch q;
          match c with
          | Red => set_color q Black;; mret node
          | Black => fix_delete_loop fuel q
          end
        else handle_black_sibling_at_least_one_red_child node sibling;; mret node
  end.
Definition fix_delete (node : NodePtr) : M vma () :=
  node ← with_fuel (λ n, fix_delete_loop n node);
  s ← get;
  if decide (node = root s) then set_color node Black else mret ().

Definition delete_branch (delete_branch : NodePtr) : M vma () :=
  b ← read_branch delete_branch;
  ll ← is_leaf (left b);
  rl ← is_leaf (right b);
  '(moved_up_node, moved_up_node_parent, delete_node_color) ←
    (if (ll : bool) || rl then
       '(m, mp) ← delete_node_with_zero_or_one_child delete_branch;
       c ← color_of_branch delete_branch;
       free_node delete_branch;;
       mret (m, mp, c)
     else
       r ← unwrap_branch (right b);
       successor ← find_min r;
       sb ← read_branch successor;
       set_pivot delete_branch (pivot sb);;
       set_max_empty_area_size delete_branch (max_empty_area_size sb);;
       '(m, mp) ← delete_node_with_zero_or_one_child successor;
       c ← color_of_branch successor;
       free_node successor;;
       mret (m, mp, c));
  match delete_node_color with
  | Black =>
      moved_up_branch ← unwrap_branch moved_up_node;
      fix_delete moved_up_branch;;
      mb ← read_branch moved_up_branch;
      if is_temp_null mb then
        let left_child := left mb in
        let right_child := right mb in
        lu ← is_used_leaf left_child;
        if lu : bool then
          assert_not_used right_child;;
          n ← read_node left_child;
          write_node moved_up_node n;;
          free_node left_child;; free_node right_child
        else
          n ← read_node right_child;
          write_node moved_up_node n;;
          free_node left_child;; free_node right_child
      else mret ()
  | Red => mret ()
  end;;
  match moved_up_node_parent with
  | Some p => update_max_empty_area_data p
  | None => mret ()
  end.

(** The walk up from the freed area: the first branch whose neighbouring leaves
    are both empty is deleted, and the walk starts again ([true]). *)
Fixpoint join_walk (fuel : nat) (current_branch : option NodePtr) : M vma bool :=
  match current_branch with
  | None => mret false
  | Some branch =>
      match fuel with
      | O => out_of_fuel
      | S fuel =>
          b ← read_branch branch;
          left_max ← max_leaf (left b);
          right_min ← min_leaf (right b);
          l ← read_leaf left_max;
          r ← read_leaf right_min;
          match l, r with
          | Empty ls, Empty rs =>
              combined_size ← chk 64 (ls + rs);
              unwrap_empty_set_size left_max combined_size;;
              unwrap_empty_set_size right_min combined_size;;
              delete_branch branch;;
              mret true
          | _, _ => join_walk fuel (parent b)
          end
      end
  end.
Fixpoint gap_join_loop (fuel : nat) (addr : Z) : M vma () :=
  match fuel with
  | O => out_of_fuel
  | S fuel =>
      info ← get_leaf_containing addr;
      let p := fst <$> parent_and_side info in
      match p with Some p => update_max_empty_area_data p | None => mret () end;;
      again ← with_fuel (λ n, join_walk n p);
      if again : bool then gap_join_loop fuel addr else mret ()
  end.
(** [VMATree::delete]. *)
Definition delete_leaf (addr : Z) : M vma () :=
  info ← get_leaf_containing addr;
  u ← is_used_leaf (leaf info);
  rassert u;;
  write_node (leaf info) (Leaf (Empty (leaf_end info + 1 - leaf_start info)));;
  match parent_and_side info with
  | None => mret ()
  | Some (p, side) =>
      pb ← read_branch p;
      let sibling := child pb (side_not side) in
      e ← is_empty_leaf sibling;
      (if e : bool then
         l ← unwrap_leaf (leaf info);
         ls ← unwrap_empty_size l;
         r ← unwrap_leaf sibling;
         rs ← unwrap_empty_size r;
         combined_size ← chk 64 (ls + rs);
         unwrap_empty_set_size l combined_size;;
         unwrap_empty_set_size r combined_size;;
         delete_branch p
       else mret ());;
      with_fuel (λ n, gap_join_loop n addr)
  end.

(** [VMATree::drop]: every node is freed, children first. *)
Fixpoint drop_subtree (fuel : nat) (node : NodePtr) : M vma () :=
  match fuel with
  | O => out_of_fuel
  | S fuel =>
      n ← read_node node;
      match n with
      | Branch b => drop_subtree fuel (left b);; drop_subtree fuel (right b)
      | Leaf _ => mret ()
      end;;
      free_node node
  end.
Definition drop_tree : M vma () :=
  s ← get; with_fuel (λ n, drop_subtree n (root s)).

(** [NodeStorageList::new], with the counter of the caller and a root yet to be
    set; the list's own first page is not counted in [pages_used]. *)
Definition NodeStorageList_new (pages_used : Z) (s : sys) : outcome (result vma () * sys) :=
  match find_and_reserve_page s with
  | Returns (Err _, s) => Returns (Err (), s)
  | Returns (Ok p, s) =>
      Returns (Ok (Vma TempNode p placeholder {[ p := new_with_prev_page None ]} pages_used s), s)
  | Panics => Panics
  | Undefined => Undefined
  | OutOfFuel => OutOfFuel
  end.
(** [VMATree::new]. *)
Definition VMATree_new (pages_used : Z) (s : sys) : outcome (result vma () * sys) :=
  match NodeStorageList_new pages_used s with
  | Returns (Err e, s) => Returns (Err e, s)
  | Returns (Ok storage, s) =>
      match (r ← new_empty_leaf HIGHEST_USER_ADDRESS;
             match r with Ok node => mret node | Err _ => panic end) storage with
      | Returns (node, v) =>
          Returns (Ok (Vma node (head v) (temp_node v) (pages v) (VmaStore.pages_used v) (mem v)), mem v)
      | Panics => Panics
      | Undefined => Undefined
      | OutOfFuel => OutOfFuel
      end
  | Panics => Panics
  | Undefined => Undefined
  | OutOfFuel => OutOfFuel
  end.
