(* ===== verification/VmaSpec.v ===== *)
(** * The address space as a tree of areas

    The abstract side of the VMA tree: a binary tree of areas with the pointers
    it is stored at, its contents as a list of areas with bounds, and the
    properties an address space has.  Contexts (a tree with a hole, innermost
    frame first) are the focus the pointer code works at. *)
From S2P Require Import Prelude VmaStore.

Inductive tree : Type :=
  | TLeaf (p : NodePtr) (l : LeafNode)
  | TBranch (p : NodePtr) (c : NodeColor) (pv mx : Z) (l r : tree).

Definition ptr (t : tree) : NodePtr := match t with TLeaf p _ => p | TBranch p _ _ _ _ _ => p end.
Fixpoint ptrs (t : tree) : list NodePtr :=
  match t with
  | TLeaf p _ => [p]
  | TBranch p _ _ _ l r => p :: ptrs l ++ ptrs r
  end.
(** The node with a child on each side, named from one side. *)
Definition TB (side : Side) (p : NodePtr) (c : NodeColor) (pv mx : Z) (near far : tree) : tree :=
  match side with Left => TBranch p c pv mx near far | Right => TBranch p c pv mx far near end.

Definition tcolor (t : tree) : NodeColor :=
  match t with TLeaf _ _ => Black | TBranch _ c _ _ _ _ => c end.
Definition leaf_max (l : LeafNode) : Z := match l with Empty size => size | Used _ => 0 end.
Definition tmax (t : tree) : Z :=
  match t with TLeaf _ l => leaf_max l | TBranch _ _ _ mx _ _ => mx end.

(** ** Contents *)

Record area : Type := Area { area_start : Z; area_end : Z; area_ptr : NodePtr; area_leaf : LeafNode }.
(** The areas between the bounds [lo] and [hi] (exclusive), in order. *)
Fixpoint areas (lo hi : Z) (t : tree) : list area :=
  match t with
  | TLeaf p l => [Area lo hi p l]
  | TBranch _ _ pv _ l r => areas lo pv l ++ areas pv hi r
  end.
(** Every area is a non-empty range of whole pages, and an empty area records
    its size. *)
Definition area_ok (a : area) : Prop :=
  area_start a < area_end a ∧ area_start a mod 4096 = 0 ∧
  match area_leaf a with Empty size => size = area_end a - area_start a | Used _ => True end.

(** ** Red-black trees *)

Definition height_of (c : NodeColor) : nat := match c with Red => 0 | Black => 1 end.
Fixpoint bh (t : tree) : option nat :=
  match t with
  | TLeaf _ _ => Some O
  | TBranch _ c _ _ l r =>
      match bh l, bh r with
      | Some a, Some b => if decide (a = b) then Some (a + height_of c)%nat else None
      | _, _ => None
      end
  end.
Fixpoint no_red_red (t : tree) : Prop :=
  match t with
  | TLeaf _ _ => True
  | TBranch _ c _ _ l r =>
      (c = Red → tcolor l = Black ∧ tcolor r = Black) ∧ no_red_red l ∧ no_red_red r
  end.
(** The largest empty area of every subtree is recorded. *)
Fixpoint max_ok (t : tree) : Prop :=
  match t with
  | TLeaf _ _ => True
  | TBranch _ _ _ mx l r => mx = Z.max (Z.max 0 (tmax l)) (tmax r) ∧ max_ok l ∧ max_ok r
  end.
(** ... of every subtree but those that contain [x]. *)
Fixpoint max_ok_but (x : NodePtr) (t : tree) : Prop :=
  match t with
  | TLeaf _ _ => True
  | TBranch p _ _ mx l r =>
      (x ∈ p :: ptrs l ++ ptrs r ∨ mx = Z.max (Z.max 0 (tmax l)) (tmax r)) ∧
      max_ok_but x l ∧ max_ok_but x r
  end.
Definition leaf_pos (l : LeafNode) : Prop := 0 ≤ leaf_max l.
(** The fields that live in a branch's word are whole: pivots are multiples of
    four, below [2 ^ 64]. *)
Fixpoint pivots_ok (t : tree) : Prop :=
  match t with
  | TLeaf _ l => leaf_pos l
  | TBranch _ _ pv mx l r => 0 ≤ pv < 2 ^ 64 ∧ pv mod 4 = 0 ∧ 0 ≤ mx ∧ pivots_ok l ∧ pivots_ok r
  end.

(** ** Contexts *)

Record frame : Type := Frame {
  f_side : Side; f_ptr : NodePtr; f_color : NodeColor; f_pivot : Z; f_max : Z; f_other : tree }.
Definition ctx : Type := list frame.
Definition fill1 (f : frame) (t : tree) : tree :=
  TB (f_side f) (f_ptr f) (f_color f) (f_pivot f) (f_max f) t (f_other f).
Definition plug (c : ctx) (t : tree) : tree := foldl (λ t f, fill1 f t) t c.
Definition ctx_parent (c : ctx) : option NodePtr :=
  match c with [] => None | f :: _ => Some (f_ptr f) end.
Definition ctx_ptrs (c : ctx) : list NodePtr := flat_map (λ f, f_ptr f :: ptrs (f_other f)) c.

Lemma plug_cons f c t : plug (f :: c) t = plug c (fill1 f t).
Proof. done. Qed.
Lemma ptrs_TB side p c pv mx x y : ptrs (TB side p c pv mx x y) ≡ₚ p :: ptrs x ++ ptrs y.
Proof. destruct side; cbn; [done|]. by rewrite Permutation_app_comm. Qed.
Lemma ptrs_fill1 f t : ptrs (fill1 f t) ≡ₚ f_ptr f :: ptrs t ++ ptrs (f_other f).
Proof. apply ptrs_TB. Qed.
Lemma ptrs_plug c t : ptrs (plug c t) ≡ₚ ptrs t ++ ctx_ptrs c.
Proof.
  revert t. induction c as [|f c IH]; intros t; cbn [ctx_ptrs flat_map]; [by rewrite app_nil_r|].
  rewrite plug_cons, IH, ptrs_fill1. fold (ctx_ptrs c). cbn [app].
  rewrite <-Permutation_middle. apply perm_skip. by rewrite <-app_assoc.
Qed.
Lemma ptr_in_ptrs t : ptr t ∈ ptrs t.
Proof. destruct t; cbn; apply elem_of_cons; by left. Qed.

(** Plugging trees with the same contents. *)
Lemma areas_TB_ext side p c pv mx x x' y lo hi :
  (∀ lo hi, areas lo hi x = areas lo hi x') →
  areas lo hi (TB side p c pv mx x y) = areas lo hi (TB side p c pv mx x' y).
Proof. intros H. destruct side; cbn; by rewrite H. Qed.
Lemma areas_plug_ext c t t' lo hi :
  (∀ lo hi, areas lo hi t = areas lo hi t') → areas lo hi (plug c t) = areas lo hi (plug c t').
Proof.
  revert t t'. induction c as [|f c IH]; intros t t' H; [apply H|].
  rewrite !plug_cons. apply IH. intros lo' hi'. by apply areas_TB_ext.
Qed.
(** The bounds of the hole, and the areas around it. *)
Fixpoint hole (lo hi : Z) (c : ctx) : Z * Z :=
  match c with
  | [] => (lo, hi)
  | f :: c =>
      let '(l, h) := hole lo hi c in
      match f_side f with Left => (l, f_pivot f) | Right => (f_pivot f, h) end
  end.
Lemma areas_plug lo hi c : ∃ before after, ∀ t',
  areas lo hi (plug c t') = before ++ areas (fst (hole lo hi c)) (snd (hole lo hi c)) t' ++ after.
Proof.
  induction c as [|f c (before & after & IH)]; [by exists [], []; intros; rewrite app_nil_r|].
  cbn [hole]. destruct (hole lo hi c) as [l h]. cbn [fst snd] in IH.
  destruct (f_side f) eqn:Es; cbn [fst snd].
  - exists before, (areas (f_pivot f) h (f_other f) ++ after). intros t'.
    rewrite plug_cons, IH. unfold fill1, TB. rewrite Es. cbn [areas]. by rewrite <-!app_assoc.
  - exists (before ++ areas l (f_pivot f) (f_other f)), after. intros t'.
    rewrite plug_cons, IH. unfold fill1, TB. rewrite Es. cbn [areas]. by rewrite <-!app_assoc.
Qed.

(** Trees that differ in colours and recorded sizes only. *)
Lemma max_ok_but_notin x t : x ∉ ptrs t → max_ok_but x t → max_ok t.
Proof.
  induction t as [|p c pv mx l IHl r IHr]; [done|]. intros Hx (Hm & Hl & Hr). cbn in *.
  split; [by destruct Hm|]. split; [apply IHl|apply IHr]; try done; set_solver.
Qed.
Lemma max_ok_but_of x t : max_ok t → max_ok_but x t.
Proof. induction t; cbn; [done|]. intros (? & ? & ?). auto. Qed.
Lemma tmax_nonneg t : pivots_ok t → 0 ≤ tmax t.
Proof. destruct t; cbn; [done|tauto]. Qed.

(** A tree at one of its pointers. *)
Lemma tree_zipper t x : x ∈ ptrs t → ∃ c t', t = plug c t' ∧ ptr t' = x.
Proof.
  induction t as [p l|p cl pv mx l IHl r IHr]; cbn; intros Hx.
  - apply list_elem_of_singleton in Hx as ->. by exists [], (TLeaf p l).
  - apply elem_of_cons in Hx as [->|[Hx|Hx]%elem_of_app].
    + by exists [], (TBranch p cl pv mx l r).
    + destruct (IHl Hx) as (c & t' & -> & <-). exists (c ++ [Frame Left p cl pv mx r]), t'.
      split; [|done]. unfold plug. by rewrite foldl_app.
    + destruct (IHr Hx) as (c & t' & -> & <-). exists (c ++ [Frame Right p cl pv mx l]), t'.
      split; [|done]. unfold plug. by rewrite foldl_app.
Qed.
Lemma ctx_length c t : (length c < length (ptrs (plug c t)))%nat.
Proof.
  rewrite ptrs_plug, length_app. assert (0 < length (ptrs t))%nat by (destruct t; cbn; lia).
  assert (length c ≤ length (ctx_ptrs c))%nat; [|lia].
  clear t H. induction c as [|f c IH]; cbn [ctx_ptrs flat_map length]; [lia|].
  rewrite length_app. cbn [length]. fold (ctx_ptrs c). lia.
Qed.

(** ** Contexts of red-black trees *)

Definition pivot_ok (pv : Z) : Prop := 0 ≤ pv < 2 ^ 64 ∧ pv mod 4 = 0.
Record frame_ok (f : frame) : Prop := {
  frame_pivot : pivot_ok (f_pivot f);
  frame_max : 0 ≤ f_max f;
  frame_pivots : pivots_ok (f_other f);
  frame_max_ok : max_ok (f_other f);
  frame_rr : no_red_red (f_other f);
}.
(** A context whose hole takes a tree of black height [h]. *)
Fixpoint ctx_ok (c : ctx) (h : nat) : Prop :=
  match c with
  | [] => True
  | f :: c =>
      frame_ok f ∧ bh (f_other f) = Some h ∧
      (f_color f = Red → tcolor (f_other f) = Black ∧ ∃ g c', c = g :: c' ∧ f_color g = Black) ∧
      ctx_ok c (h + height_of (f_color f))
  end.

Lemma bh_TB side p c pv mx x y h :
  bh x = Some h → bh y = Some h → bh (TB side p c pv mx x y) = Some (h + height_of c)%nat.
Proof. intros Hx Hy. destruct side; cbn; rewrite Hx, Hy; by rewrite decide_True. Qed.
Lemma bh_TB_inv side p c pv mx x y n :
  bh (TB side p c pv mx x y) = Some n →
  ∃ h, bh x = Some h ∧ bh y = Some h ∧ n = (h + height_of c)%nat.
Proof.
  destruct side; cbn; destruct (bh x) as [a|], (bh y) as [b|]; try done; case_decide; try done;
    subst; intros [= <-]; eauto.
Qed.
Lemma rr_TB side p c pv mx x y : no_red_red (TB side p c pv mx x y) ↔
  (c = Red → tcolor x = Black ∧ tcolor y = Black) ∧ no_red_red x ∧ no_red_red y.
Proof. destruct side; cbn; tauto. Qed.
Lemma tcolor_TB side p c pv mx x y : tcolor (TB side p c pv mx x y) = c.
Proof. by destruct side. Qed.
Lemma pivots_TB side p c pv mx x y : pivots_ok (TB side p c pv mx x y) ↔
  pivot_ok pv ∧ 0 ≤ mx ∧ pivots_ok x ∧ pivots_ok y.
Proof. unfold pivot_ok. destruct side; cbn; tauto. Qed.
Lemma max_TB side p c pv mx x y : max_ok (TB side p c pv mx x y) ↔
  mx = Z.max (Z.max 0 (tmax x)) (tmax y) ∧ max_ok x ∧ max_ok y.
Proof. destruct side; cbn; [done|]. split; intros (-> & ? & ?); (split; [lia|done]). Qed.
Lemma max_but_TB z side p c pv mx x y : max_ok_but z (TB side p c pv mx x y) ↔
  (z ∈ p :: ptrs x ++ ptrs y ∨ mx = Z.max (Z.max 0 (tmax x)) (tmax y)) ∧ max_ok_but z x ∧ max_ok_but z y.
Proof.
  destruct side; cbn; [done|].
  assert (z ∈ p :: ptrs y ++ ptrs x ↔ z ∈ p :: ptrs x ++ ptrs y) as -> by (by rewrite Permutation_app_comm).
  replace (Z.max (Z.max 0 (tmax y)) (tmax x)) with (Z.max (Z.max 0 (tmax x)) (tmax y)) by lia. tauto.
Qed.
Lemma TB_of_branch side p c pv mx l r : ∃ x y, TBranch p c pv mx l r = TB side p c pv mx x y.
Proof. destruct side; eexists _, _; reflexivity. Qed.
Lemma TB_flip side p c pv mx x y : TB (side_not side) p c pv mx y x = TB side p c pv mx x y.
Proof. by destruct side. Qed.

Lemma plug_ok c h t :
  ctx_ok c h → bh t = Some h → no_red_red t → pivots_ok t →
  (tcolor t = Red → ∀ f c', c = f :: c' → f_color f = Black) →
  is_Some (bh (plug c t)) ∧ no_red_red (plug c t) ∧ pivots_ok (plug c t).
Proof.
  revert h t. induction c as [|f c IH]; intros h t; [by eauto|].
  intros (Hf & Hoh & Hred & Hc) Hh Hrr Hp Hcol. rewrite plug_cons.
  apply (IH (h + height_of (f_color f))%nat); [done|by apply bh_TB| | |].
  - apply rr_TB. split; [|split; [done|apply Hf]]. intros E. split; [|by apply Hred].
    destruct (tcolor t); [|done]. by rewrite (Hcol eq_refl f c eq_refl) in E.
  - apply pivots_TB. split_and!; try done; apply Hf.
  - unfold fill1. rewrite tcolor_TB. intros E g c' ->.
    destruct (Hred E) as (_ & g' & c'' & [= <- <-] & ?). done.
Qed.
(** The context of a subtree of a red-black tree. *)
Lemma plug_ok_inv c t n :
  bh (plug c t) = Some n → no_red_red (plug c t) → pivots_ok (plug c t) → max_ok (plug c t) →
  tcolor (plug c t) = Black →
  ∃ h, bh t = Some h ∧ ctx_ok c h ∧ no_red_red t ∧ pivots_ok t ∧ max_ok t ∧
    (tcolor t = Red → ∃ f c', c = f :: c' ∧ f_color f = Black).
Proof.
  revert t. induction c as [|f c IH]; intros t Hh Hrr Hp Hm Hb.
  { exists n. split_and!; try done. cbn in Hb. by rewrite Hb. }
  rewrite plug_cons in *. destruct (IH _ Hh Hrr Hp Hm Hb) as (h' & Hh' & Hc & Hrr' & Hp' & Hm' & Hcol).
  apply bh_TB_inv in Hh' as (h & Ht & Ho & ->). apply rr_TB in Hrr' as (Hr & Hrt & Hro).
  apply pivots_TB in Hp' as (Hpv & Hmx & Hpt & Hpo). apply max_TB in Hm' as (_ & Hmt & Hmo).
  unfold fill1 in Hcol. rewrite tcolor_TB in Hcol.
  exists h. split_and!; try done.
  - split; [done|]. split; [done|]. split; [|done]. intros E. split; [by apply Hr|]. by apply Hcol.
  - intros E. exists f, c. split; [done|]. destruct (f_color f); [|done].
    destruct (Hr eq_refl) as [E' _]. congruence.
Qed.

(** Trees up to the recorded sizes. *)
Fixpoint strip (t : tree) : tree :=
  match t with
  | TLeaf p l => TLeaf p l
  | TBranch p c pv _ l r => TBranch p c pv 0 (strip l) (strip r)
  end.
Definition remax (t : tree) : tree :=
  match t with
  | TLeaf p l => TLeaf p l
  | TBranch p c pv _ l r => TBranch p c pv (Z.max (Z.max 0 (tmax l)) (tmax r)) l r
  end.
(** Refreshing the recorded sizes from the hole to the root. *)
Fixpoint refresh (c : ctx) (t : tree) : tree :=
  match c with
  | [] => remax t
  | f :: c => refresh c (fill1 f (remax t))
  end.
Lemma strip_remax t : strip (remax t) = strip t.
Proof. by destruct t. Qed.
Lemma strip_plug c t t' : strip t = strip t' → strip (plug c t) = strip (plug c t').
Proof.
  revert t t'. induction c as [|f c IH]; intros t t' E; [done|]. rewrite !plug_cons. apply IH.
  unfold fill1, TB. by destruct (f_side f); cbn; rewrite E.
Qed.
Lemma strip_refresh c t : strip (refresh c t) = strip (plug c t).
Proof.
  revert t. induction c as [|f c IH]; intros t; cbn [refresh]; [apply strip_remax|].
  rewrite IH, plug_cons. apply strip_plug. unfold fill1, TB.
  by destruct (f_side f); cbn; rewrite strip_remax.
Qed.
Lemma strip_facts t t' : strip t = strip t' →
  ptr t = ptr t' ∧ ptrs t = ptrs t' ∧ tcolor t = tcolor t' ∧ bh t = bh t' ∧
  (no_red_red t ↔ no_red_red t') ∧ (∀ lo hi, areas lo hi t = areas lo hi t').
Proof.
  revert t'. induction t as [p l|p c pv mx l IHl r IHr]; intros [p' l'|p' c' pv' mx' l' r'] E; try done.
  - by injection E as -> ->.
  - injection E as -> -> -> El Er. destruct (IHl _ El) as (_ & Hl & Cl & Bl & Nl & Al).
    destruct (IHr _ Er) as (_ & Hr & Cr & Br & Nr & Ar). cbn. rewrite Hl, Hr, Cl, Cr, Bl, Br, Nl, Nr.
    split_and!; try done. intros. by rewrite Al, Ar.
Qed.
Lemma refresh_pivots c t : pivots_ok (plug c t) → pivots_ok (refresh c t).
Proof.
  revert t. induction c as [|f c IH]; intros t; cbn [refresh].
  - destruct t; cbn; [done|]. intros (? & ? & ? & ? & ?). split_and!; try done; lia.
  - rewrite plug_cons. intros H. apply IH. revert H. generalize c. clear IH c. intros c. 
    assert (∀ t t', (pivots_ok t → pivots_ok t') → pivots_ok (plug c t) → pivots_ok (plug c t')) as Hpl.
    { induction c as [|g c IH]; intros u u' E; [done|]. rewrite !plug_cons. apply IH.
      unfold fill1. rewrite !pivots_TB. naive_solver. }
    apply Hpl. unfold fill1. rewrite !pivots_TB. intros (? & ? & ? & ?). split_and!; try done.
    destruct t; cbn in *; [done|]. naive_solver lia.
Qed.
Lemma refresh_max c t :
  Forall (λ f, max_ok (f_other f)) c →
  (match t with TLeaf _ _ => True | TBranch _ _ _ _ l r => max_ok l ∧ max_ok r end) →
  max_ok (refresh c t).
Proof.
  revert t. induction c as [|f c IH]; intros t Hc Ht; cbn [refresh].
  - destruct t; cbn; tauto.
  - apply Forall_cons in Hc as [Hf Hc]. apply IH; [done|].
    assert (max_ok (remax t)) by (destruct t; cbn; tauto).
    unfold fill1, TB. by destruct (f_side f).
Qed.
(** The sizes recorded off the path to [x] are right, so a refresh from [x] makes
    them all right. *)
Lemma max_but_plug x c t : x ∈ ptrs t → NoDup (ptrs (plug c t)) →
  max_ok_but x (plug c t) → max_ok_but x t ∧ Forall (λ f, max_ok (f_other f)) c.
Proof.
  revert t. induction c as [|f c IH]; intros t Hx Hnd Hm; [by auto|].
  rewrite plug_cons in *.
  destruct (IH (fill1 f t)) as [Hf Hc]; [rewrite ptrs_fill1; set_solver|done|done|].
  apply max_but_TB in Hf as (_ & Ht & Ho). split; [done|]. constructor; [|done].
  apply (max_ok_but_notin x); [|done]. intros Hxo.
  rewrite ptrs_plug, ptrs_fill1 in Hnd. cbn [app] in Hnd.
  apply NoDup_cons in Hnd as [_ Hnd]. rewrite <-app_assoc in Hnd.
  apply NoDup_app in Hnd as (_ & Hd & _). apply (Hd x Hx), elem_of_app. by left.
Qed.
Lemma max_but_plug_2 x c t : x ∈ ptrs t → max_ok_but x t → Forall (λ f, max_ok (f_other f)) c →
  max_ok_but x (plug c t).
Proof.
  revert t. induction c as [|f c IH]; intros t Hx Hm Hc; [done|].
  apply Forall_cons in Hc as [Hf Hc]. rewrite plug_cons. apply IH; [rewrite ptrs_fill1; set_solver| |done].
  apply max_but_TB. split; [left; set_solver|]. split; [done|]. by apply max_ok_but_of.
Qed.
Lemma ctx_ok_max c h : ctx_ok c h → Forall (λ f, max_ok (f_other f)) c.
Proof.
  revert h. induction c as [|f c IH]; intros h; [done|]. intros (Hf & _ & _ & Hc).
  constructor; [apply Hf|by eapply IH].
Qed.
