(* ===== verification/VmaRepr.v ===== *)
(** * Pointer trees represent abstract trees

    [zip_ok s c t]: in state [s] the VMA tree is the abstract tree [plug c t],
    with parent pointers, at pairwise distinct reserved nodes.  The rules below
    run the pointer operations at the focus [t]. *)
From S2P Require Import Prelude Paging PageAlloc VmaStore VmaTree VmaSpec.

(** ** The packed word of a branch *)

Lemma land_PIVOT_MASK x : 0 ≤ x < 2 ^ 64 → Z.land x PIVOT_MASK = x - x mod 4.
Proof.
  intros Hx. assert (x - x mod 4 = Z.shiftl (Z.shiftr x 2) 2) as ->.
  { rewrite Z.shiftl_mul_pow2, Z.shiftr_div_pow2 by lia. change (2 ^ 2) with 4.
    Z.div_mod_to_equations. lia. }
  change PIVOT_MASK with (Z.shiftl (Z.ones 62) 2). apply Z.bits_inj'. intros i Hi.
  rewrite Z.land_spec, !Z.shiftl_spec by lia.
  destruct (decide (i < 2)); [by rewrite !(Z.testbit_neg_r _ (i - 2)), andb_false_r by lia|].
  rewrite Z.shiftr_spec, testbit_ones by lia. replace (i - 2 + 2) with i by lia.
  destruct (Z.ltb_spec (i - 2) 62); [by rewrite andb_true_r|].
  rewrite (testbit_above 64) by lia. done.
Qed.
Definition pack (c : NodeColor) (pv : Z) : Z := pv + color_bit c.
Lemma pack_lor c pv : pivot_ok pv → pack c pv = Z.lor pv (color_bit c).
Proof.
  intros [Hb Hm]. unfold pack. destruct c; [by rewrite Z.lor_0_r, Z.add_0_r|].
  cbn [color_bit]. rewrite <-Z.add_lor_land.
  assert (Z.land pv 1 = 0) as ->; [|lia].
  change 1 with (Z.ones 1). rewrite Z.land_ones by lia. change (2 ^ 1) with 2. Z.div_mod_to_equations. lia.
Qed.
Lemma pack_bound c pv : pivot_ok pv → 0 ≤ pack c pv < 2 ^ 64.
Proof.
  intros [Hb Hm]. unfold pack. change (2 ^ 64) with (4 * 2 ^ 62) in *. generalize dependent (2 ^ 62). intros.
  destruct c; cbn [color_bit]; Z.div_mod_to_equations; lia.
Qed.
Lemma land_pack_mask c pv : pivot_ok pv → Z.land (pack c pv) PIVOT_MASK = pv.
Proof.
  intros H. rewrite land_PIVOT_MASK by (by apply pack_bound). destruct H as [_ Hm].
  unfold pack. destruct c; cbn [color_bit]; Z.div_mod_to_equations; lia.
Qed.
Lemma land_pack_1 c pv : pivot_ok pv → Z.land (pack c pv) 1 = color_bit c.
Proof.
  intros [_ Hm]. unfold pack. change 1 with (Z.ones 1) at 1. rewrite Z.land_ones by lia. change (2 ^ 1) with 2.
  destruct c; cbn [color_bit]; Z.div_mod_to_equations; lia.
Qed.
Lemma recolor_pack c c' pv : pivot_ok pv → recolor c (pack c' pv) = pack c pv.
Proof.
  intros H. unfold recolor. rewrite (pack_lor c) by done. f_equal.
  assert (∀ x, 0 ≤ x < 2 ^ 64 → Z.land x (unot 64 1) = x - x mod 2) as Hm.
  { intros x Hx. assert (x - x mod 2 = Z.shiftl (Z.shiftr x 1) 1) as ->.
    { rewrite Z.shiftl_mul_pow2, Z.shiftr_div_pow2 by lia. change (2 ^ 1) with 2.
      Z.div_mod_to_equations. lia. }
    change (unot 64 1) with (Z.shiftl (Z.ones 63) 1). apply Z.bits_inj'. intros i Hi.
    rewrite Z.land_spec, !Z.shiftl_spec by lia.
    destruct (decide (i < 1)); [by rewrite !(Z.testbit_neg_r _ (i - 1)), andb_false_r by lia|].
    rewrite Z.shiftr_spec, testbit_ones by lia. replace (i - 1 + 1) with i by lia.
    destruct (Z.ltb_spec (i - 1) 63); [by rewrite andb_true_r|].
    rewrite (testbit_above 64) by lia. done. }
  rewrite Hm by (by apply pack_bound). destruct H as [_ H4]. unfold pack.
  destruct c'; cbn [color_bit]; Z.div_mod_to_equations; lia.
Qed.

(** ** Branches from abstract fields *)

Definition mkb (side : Side) (c : NodeColor) (pv mx : Z) (par : option NodePtr) (near far : NodePtr) :
    BranchNode :=
  {| packed_fields := pack c pv; max_empty_area_size := mx; parent := par;
     left := (match side with Left => near | Right => far end);
     right := (match side with Left => far | Right => near end) |}.

Section mkb.
Context (side : Side) (c : NodeColor) (pv mx : Z) (par : option NodePtr) (x y : NodePtr).
Lemma mkb_pivot : pivot_ok pv → pivot (mkb side c pv mx par x y) = pv.
Proof. apply land_pack_mask. Qed.
Lemma mkb_color : pivot_ok pv → branch_color (mkb side c pv mx par x y) = c.
Proof. intros H. unfold branch_color. cbn. rewrite land_pack_1 by done. by destruct c. Qed.
Lemma mkb_recolor c' : pivot_ok pv →
  with_packed (recolor c') (mkb side c pv mx par x y) = mkb side c' pv mx par x y.
Proof. intros H. unfold with_packed, mkb. cbn. by rewrite recolor_pack. Qed.
Lemma mkb_child : child (mkb side c pv mx par x y) side = x.
Proof. by destruct side. Qed.
Lemma mkb_child_not : child (mkb side c pv mx par x y) (side_not side) = y.
Proof. by destruct side. Qed.
Lemma mkb_with_child z : with_child side z (mkb side c pv mx par x y) = mkb side c pv mx par z y.
Proof. by destruct side. Qed.
Lemma mkb_with_child_not z :
  with_child (side_not side) z (mkb side c pv mx par x y) = mkb side c pv mx par x z.
Proof. by destruct side. Qed.
Lemma mkb_with_parent q : with_parent q (mkb side c pv mx par x y) = mkb side c pv mx q x y.
Proof. done. Qed.
Lemma mkb_with_max n : with_max n (mkb side c pv mx par x y) = mkb side c pv n par x y.
Proof. done. Qed.
Lemma mkb_flip : mkb (side_not side) c pv mx par y x = mkb side c pv mx par x y.
Proof. by destruct side. Qed.
End mkb.
Lemma BranchNode_new_mkb side pv c par x y : pivot_ok pv →
  BranchNode_new pv false c par (match side with Left => x | Right => y end)
    (match side with Left => y | Right => x end) = mkb side c pv 0 par x y.
Proof.
  intros H. unfold BranchNode_new, mkb. f_equal. rewrite land_PIVOT_MASK by apply H.
  destruct H as [Hb Hm]. rewrite Hm, Z.sub_0_r, pack_lor by done. cbn. by rewrite Z.lor_0_r.
Qed.

(** ** Representation *)

Fixpoint repr (N : NodePtr → option Node) (par : option NodePtr) (t : tree) : Prop :=
  match t with
  | TLeaf p l => N p = Some (Leaf l)
  | TBranch p c pv mx l r =>
      N p = Some (Branch (mkb Left c pv mx par (ptr l) (ptr r))) ∧ repr N (Some p) l ∧ repr N (Some p) r
  end.
Fixpoint reprc (N : NodePtr → option Node) (rt h : NodePtr) (c : ctx) : Prop :=
  match c with
  | [] => rt = h
  | f :: c =>
      N (f_ptr f) = Some (Branch (mkb (f_side f) (f_color f) (f_pivot f) (f_max f) (ctx_parent c) h
                                    (ptr (f_other f)))) ∧
      repr N (Some (f_ptr f)) (f_other f) ∧ reprc N rt (f_ptr f) c
  end.

Lemma repr_TB N par side p c pv mx x y :
  repr N par (TB side p c pv mx x y) ↔
  N p = Some (Branch (mkb side c pv mx par (ptr x) (ptr y))) ∧ repr N (Some p) x ∧ repr N (Some p) y.
Proof. destruct side; cbn; [done|]. tauto. Qed.
Lemma ptr_TB side p c pv mx x y : ptr (TB side p c pv mx x y) = p.
Proof. by destruct side. Qed.
Lemma tmax_TB side p c pv mx x y : tmax (TB side p c pv mx x y) = mx.
Proof. by destruct side. Qed.
Lemma repr_ext N N' par t : (∀ x, x ∈ ptrs t → N' x = N x) → repr N par t → repr N' par t.
Proof.
  revert par. induction t as [p l|p c pv mx l IHl r IHr]; cbn; intros par H.
  - by rewrite H by set_solver.
  - intros (H1 & H2 & H3). rewrite H by set_solver. split; [done|].
    split; [apply IHl|apply IHr]; try done; intros; apply H; set_solver.
Qed.
Lemma reprc_ext N N' rt h c : (∀ x, x ∈ ctx_ptrs c → N' x = N x) → reprc N rt h c → reprc N' rt h c.
Proof.
  revert h. induction c as [|f c IH]; cbn; intros h H; [done|]. intros (H1 & H2 & H3).
  fold (ctx_ptrs c) in H. split; [by rewrite H by set_solver|].
  split; [eapply repr_ext; [|done]|apply IH; [|done]]; intros; apply H; set_solver.
Qed.
(** Giving the root of a tree another parent. *)
Lemma repr_reparent N N' par par' t :
  (∀ x, x ∈ ptrs t → x ≠ ptr t → N' x = N x) → NoDup (ptrs t) →
  (∀ b, N (ptr t) = Some (Branch b) → N' (ptr t) = Some (Branch (with_parent par' b))) →
  (∀ l, N (ptr t) = Some (Leaf l) → N' (ptr t) = Some (Leaf l)) →
  repr N par t → repr N' par' t.
Proof.
  destruct t as [p l|p c pv mx l r]; cbn; intros Hx Hnd Hb Hl; [auto|].
  intros (H1 & H2 & H3). apply NoDup_cons in Hnd as [Hp _]. rewrite elem_of_app in Hp.
  split; [by rewrite (Hb _ H1)|].
  split; (eapply repr_ext; [|done]); intros x Hin; apply Hx; try (intros ->); set_solver.
Qed.
Lemma repr_node N par t : repr N par t → ∃ n, N (ptr t) = Some n ∧ node_max n = tmax t ∧
  (match n with Branch b => parent b = par | Leaf _ => True end).
Proof. destruct t; cbn; [intros ->|intros (-> & _)]; eexists; split; done. Qed.
Lemma repr_color N par t n : repr N par t → pivots_ok t → N (ptr t) = Some n →
  match n with Branch b => branch_color b | Leaf _ => Black end = tcolor t.
Proof.
  destruct t; cbn; [by intros -> _ [= <-]|]. intros (-> & _) (? & ? & _) [= <-]. by apply mkb_color.
Qed.

Section tree.
Context {room : nat → vma → Prop} {reserved : vma → NodePtr → Prop}
  `{Hsrc : !NodeStore room reserved}.

(** What writing nodes leaves alone. *)
Record kept (s s' : vma) : Prop := {
  kept_reserved : ∀ q, reserved s' q ↔ reserved s q;
  kept_room : ∀ k, room k s → room k s';
  kept_size : size (pages s') = size (pages s);
  kept_used : pages_used s' = pages_used s;
  kept_mem : mem s' = mem s;
}.
(** What the operations on branches leave alone: the leaves, too. *)
Record evolves (s s' : vma) : Prop := {
  ev_kept : kept s s';
  ev_leaf : ∀ q l, node_at s q = Some (Leaf l) → node_at s' q = Some (Leaf l);
}.
#[export] Instance kept_preorder : PreOrder kept.
Proof.
  split; [by split|]. intros s1 s2 s3 [] []. split; try congruence; [|auto].
  intros q. etrans; eauto.
Qed.
#[export] Instance evolves_preorder : PreOrder evolves.
Proof. split; [by split|]. intros s1 s2 s3 [] []. split; [by trans s2|auto]. Qed.

Definition zip_ok (s : vma) (c : ctx) (t : tree) : Prop :=
  reprc (node_at s) (root s) (ptr t) c ∧ repr (node_at s) (ctx_parent c) t ∧
  NoDup (ptrs t ++ ctx_ptrs c) ∧ Forall (reserved s) (ptrs t ++ ctx_ptrs c).

Lemma zip_up s f c t : zip_ok s (f :: c) t ↔ zip_ok s c (fill1 f t).
Proof.
  unfold zip_ok. cbn [reprc ctx_parent]. unfold fill1. rewrite ptr_TB, repr_TB.
  assert (ptrs t ++ ctx_ptrs (f :: c) ≡ₚ
    ptrs (TB (f_side f) (f_ptr f) (f_color f) (f_pivot f) (f_max f) t (f_other f)) ++ ctx_ptrs c) as E.
  { rewrite ptrs_TB. cbn [ctx_ptrs flat_map app]. fold (ctx_ptrs c).
    rewrite <-Permutation_middle. by rewrite <-app_assoc. }
  rewrite E. tauto.
Qed.
Lemma zip_plug s c t : zip_ok s c t ↔ zip_ok s [] (plug c t).
Proof.
  revert t. induction c as [|f c IH]; intros t; [done|]. by rewrite zip_up, IH.
Qed.

(** ** Rules for single accesses *)

Lemma wp_read_node p n (Q : Node → vma → Prop) s :
  node_at s p = Some n → Q n s → wp (read_node p) Q s.
Proof. intros H HQ. unfold read_node. rewrite wp_bind, wp_get, wp_deref. eauto. Qed.
Lemma wp_read_branch p b (Q : BranchNode → vma → Prop) s :
  node_at s p = Some (Branch b) → Q b s → wp (read_branch p) Q s.
Proof. intros H HQ. unfold read_branch. rewrite wp_bind. eapply wp_read_node; [done|]. by rewrite wp_ret. Qed.
Lemma wp_unwrap_branch p b (Q : NodePtr → vma → Prop) s :
  node_at s p = Some (Branch b) → Q p s → wp (unwrap_branch p) Q s.
Proof. intros H HQ. unfold unwrap_branch. rewrite wp_bind. eapply wp_read_node; [done|]. by rewrite wp_ret. Qed.
Lemma kept_set_node s p n : kept s (set_node s p n).
Proof.
  split; [apply source_write|apply source_write|apply size_set_node|by destruct p|by destruct p].
Qed.
(** A write, with the new contents as an equation. *)
Lemma wp_write_node p n (Q : () → vma → Prop) s :
  is_Some (node_at s p) →
  (∀ s', (∀ q, node_at s' q = if decide (q = p) then Some n else node_at s q) →
     root s' = root s → kept s s' → Q () s') →
  wp (write_node p n) Q s.
Proof.
  intros [m Hm] HQ. unfold write_node. rewrite wp_bind. eapply wp_read_node; [done|].
  rewrite wp_modify. apply HQ; [intros; apply node_at_set; eauto|by destruct p|apply kept_set_node].
Qed.
Lemma wp_write_branch p b b' (Q : () → vma → Prop) s :
  node_at s p = Some (Branch b) →
  (∀ s', (∀ q, node_at s' q = if decide (q = p) then Some (Branch b') else node_at s q) →
     root s' = root s → evolves s s' → Q () s') →
  wp (write_node p (Branch b')) Q s.
Proof.
  intros H HQ. apply wp_write_node; [by eexists|]. intros s' HN Hr Hk. apply HQ; [done|done|].
  split; [done|]. intros q l Hq. rewrite HN, decide_False; [done|]. intros ->. congruence.
Qed.
Lemma wp_modify_branch p f b (Q : () → vma → Prop) s :
  node_at s p = Some (Branch b) →
  (∀ s', (∀ q, node_at s' q = if decide (q = p) then Some (Branch (f b)) else node_at s q) →
     root s' = root s → evolves s s' → Q () s') →
  wp (modify_branch p f) Q s.
Proof.
  intros H HQ. unfold modify_branch. rewrite wp_bind. eapply wp_read_branch; [done|].
  by eapply wp_write_branch.
Qed.
Lemma wp_set_root p (Q : () → vma → Prop) s :
  (∀ s', (∀ q, node_at s' q = node_at s q) → root s' = p → evolves s s' → Q () s') → wp (set_root p) Q s.
Proof.
  intros HQ. unfold set_root. rewrite wp_modify. apply HQ; [by intros []|done|].
  destruct (source_root s p) as [H1 H2]. split; [by split|]. by intros [].
Qed.
End tree.
