(* ===== verification/VmaOps.v ===== *)
(** * The pointer operations of the VMA tree, at a focus

    Rotation, recolouring, the search for a leaf and the refresh of the
    recorded sizes, each as what it does to the focused tree and its context. *)
From S2P Require Import Prelude Paging PageAlloc VmaStore VmaTree VmaSpec VmaRepr.

(** Look a node up through the equations of the writes so far. *)
Ltac distinct := solve [congruence | tauto | intros ->; tauto | intros ->; eauto | intros <-; eauto | eauto].
Ltac heap_step :=
  match goal with
  | H : ∀ q, node_at ?s q = _ |- context [node_at ?s ?x] => rewrite (H x)
  | H : ∀ q, q ∉ _ → node_at ?s q = _ |- context [node_at ?s ?x] => rewrite (H x) by distinct
  | |- context [decide (?x = ?x)] => rewrite (decide_True (P := x = x)) by reflexivity
  | |- context [decide (?x = ?y)] => rewrite (decide_False (P := x = y)) by distinct
  end.
Ltac heap := repeat heap_step.

Section ops.
Context {room : nat → vma → Prop} {reserved : vma → NodePtr → Prop}
  `{Hsrc : !NodeStore room reserved}.
Abbreviation zip_ok := (zip_ok (reserved := reserved)).
Abbreviation evolves := (evolves (room := room) (reserved := reserved)).

(** [is_left_side] and the replacement of a child in the parent. *)
Lemma wp_is_left_side s c p b (Q : option bool → vma → Prop) :
  node_at s p = Some (Branch b) → parent b = ctx_parent c →
  reprc (node_at s) (root s) p c → p ∉ ctx_ptrs c →
  Q (match c with [] => None | f :: _ => Some (bool_decide (f_side f = Left)) end) s →
  wp (is_left_side p) Q s.
Proof.
  intros Hp Hpar Hc Hnot HQ. unfold is_left_side. rewrite wp_bind. eapply wp_read_branch; [done|].
  rewrite Hpar. destruct c as [|f c]; cbn [ctx_parent]; [by rewrite wp_ret|].
  destruct Hc as (Hf & _). rewrite wp_bind. eapply wp_read_branch; [done|]. rewrite wp_ret.
  assert (p ≠ ptr (f_other f)) as Hne.
  { intros ->. apply Hnot. cbn. apply elem_of_cons. right. apply elem_of_app. left. apply ptr_in_ptrs. }
  replace (bool_decide (p = _)) with (bool_decide (f_side f = Left)); [done|].
  destruct (f_side f); cbn; apply bool_decide_ext; naive_solver.
Qed.
Lemma wp_replace_in_parent s c old new b (Q : () → vma → Prop) :
  node_at s old = Some (Branch b) → parent b = ctx_parent c →
  reprc (node_at s) (root s) old c → NoDup (ctx_ptrs c) → old ∉ ctx_ptrs c →
  (∀ s', (∀ x, x ∉ ctx_ptrs c → node_at s' x = node_at s x) →
     reprc (node_at s') (root s') new c → evolves s s' → Q () s') →
  wp (replace_in_parent old new) Q s.
Proof.
  intros Hp Hpar Hc Hnd Hnot HQ. unfold replace_in_parent. rewrite wp_bind.
  eapply wp_is_left_side; [done..|]. destruct c as [|f c].
  { apply wp_set_root. intros s' HN Hr Hev. apply HQ; [by intros; rewrite HN|done|done]. }
  cbn [ctx_ptrs flat_map app] in Hnd, Hnot. fold (ctx_ptrs c) in Hnd, Hnot.
  rewrite wp_bind. unfold get_parent. rewrite wp_bind. eapply wp_read_branch; [done|].
  rewrite wp_unwrap. exists (f_ptr f). split; [by rewrite Hpar|].
  destruct Hc as (Hf & Ho & Hc). eapply wp_modify_branch; [done|]. intros s' HN Hr Hev.
  apply NoDup_cons in Hnd as [Hfp Hnd]. rewrite elem_of_app in Hfp.
  apply HQ; [|split; [|split]|done].
  - intros x Hx. rewrite HN, decide_False; [done|]. intros ->. apply Hx. cbn. apply elem_of_cons. by left.
  - rewrite HN, decide_True by done.
    by destruct (f_side f); rewrite bool_decide_decide; [rewrite decide_True|rewrite decide_False].
  - eapply repr_ext; [|done]. intros x Hx. rewrite HN, decide_False; [done|]. intros ->. tauto.
  - rewrite Hr. eapply reprc_ext; [|done]. intros x Hx. rewrite HN, decide_False; [done|]. intros ->. tauto.
Qed.

Lemma wp_set_parent_if_branch s p n q (Q : () → vma → Prop) :
  node_at s p = Some n →
  (∀ s', (∀ x, node_at s' x = if decide (x = p)
            then Some (match n with Branch b => Branch (with_parent q b) | Leaf l => Leaf l end)
            else node_at s x) → root s' = root s → evolves s s' → Q () s') →
  wp (set_parent_if_branch p q) Q s.
Proof.
  intros Hp HQ. unfold set_parent_if_branch. rewrite wp_bind. eapply wp_read_node; [done|].
  destruct n as [b|l].
  - by eapply wp_write_branch.
  - rewrite wp_ret. apply HQ; [|done|reflexivity]. intros x. case_decide; [congruence|done].
Qed.

(** [recalculate_max_empty_area_size] on a node with represented children. *)
Lemma wp_recalculate s side p c pv mx par x y (Q : () → vma → Prop) :
  repr (node_at s) par (TB side p c pv mx x y) →
  (∀ s', (∀ q, node_at s' q = if decide (q = p)
            then Some (Branch (mkb side c pv (Z.max (tmax x) (tmax y)) par (ptr x) (ptr y)))
            else node_at s q) → root s' = root s → evolves s s' → Q () s') →
  wp (recalculate_max_empty_area_size p) Q s.
Proof.
  rewrite repr_TB. intros (Hp & Hx & Hy) HQ.
  destruct (repr_node _ _ _ Hx) as (nx & Ex & Mx & _), (repr_node _ _ _ Hy) as (ny & Ey & My & _).
  unfold recalculate_max_empty_area_size. rewrite wp_bind. eapply wp_read_branch; [done|].
  destruct side; cbn [left right mkb].
  - rewrite wp_bind. eapply wp_read_node; [done|]. rewrite wp_bind. eapply wp_read_node; [done|].
    eapply wp_modify_branch; [done|]. rewrite Mx, My. done.
  - rewrite wp_bind. eapply wp_read_node; [done|]. rewrite wp_bind. eapply wp_read_node; [done|].
    eapply wp_modify_branch; [done|]. rewrite Mx, My, Z.max_comm. done.
Qed.

(** A focus rebuilt from the same nodes. *)
Lemma zip_rearrange s s' c t t' :
  NoDup (ptrs t ++ ctx_ptrs c) → Forall (reserved s) (ptrs t ++ ctx_ptrs c) → evolves s s' →
  ptrs t' ≡ₚ ptrs t → reprc (node_at s') (root s') (ptr t') c → repr (node_at s') (ctx_parent c) t' →
  zip_ok s' c t'.
Proof.
  intros Hnd Hres Hev Hp Hc Ht. split_and!; [done|done|by rewrite Hp|].
  rewrite Hp. eapply Forall_impl; [exact Hres|]. intros x. apply Hev.
Qed.

(** Rotation at the focus. *)
(** The nodes that take part in a rotation are pairwise different. *)
Lemma rotate_apart (p q : NodePtr) A B D C : NoDup (p :: q :: A ++ B ++ D ++ C) →
  (p ≠ q ∧ p ∉ A ∧ p ∉ B ∧ p ∉ D ∧ p ∉ C) ∧ (q ∉ A ∧ q ∉ B ∧ q ∉ D ∧ q ∉ C) ∧ NoDup B ∧ NoDup C ∧
  (∀ x, x ∈ A → x ∈ B → False) ∧ (∀ x, x ∈ A → x ∈ C → False) ∧ (∀ x, x ∈ B → x ∈ D → False) ∧
  (∀ x, x ∈ B → x ∈ C → False) ∧ (∀ x, x ∈ D → x ∈ C → False).
Proof.
  intros Hnd. apply NoDup_cons in Hnd as [Hp Hnd]. apply NoDup_cons in Hnd as [Hq Hnd].
  rewrite elem_of_cons, !elem_of_app in Hp. rewrite !elem_of_app in Hq.
  apply NoDup_app in Hnd as (_ & Xa & Hnd). apply NoDup_app in Hnd as (Ndb & Xb & Hnd).
  apply NoDup_app in Hnd as (_ & Xd & Ndc).
  split; [tauto|]. split; [tauto|]. split; [done|]. split; [done|]. split_and!; intros x H1 H2.
  - apply (Xa x H1), elem_of_app; tauto.
  - apply (Xa x H1); rewrite !elem_of_app; tauto.
  - apply (Xb x H1), elem_of_app; tauto.
  - apply (Xb x H1); rewrite !elem_of_app; tauto.
  - by apply (Xd x H1).
Qed.
Lemma ptrs_TB_TB side p c1 pv1 mx1 a q c2 pv2 mx2 b d l :
  ptrs (TB side p c1 pv1 mx1 a (TB side q c2 pv2 mx2 b d)) ++ l ≡ₚ p :: q :: ptrs a ++ ptrs b ++ ptrs d ++ l.
Proof.
  rewrite ptrs_TB, (ptrs_TB side q). cbn [app]. apply perm_skip.
  rewrite <-Permutation_middle. cbn [app]. apply perm_skip. by rewrite <-!app_assoc.
Qed.
Lemma wp_rotate side s c p c1 pv1 mx1 a q c2 pv2 mx2 b d (Q : () → vma → Prop) :
  zip_ok s c (TB side p c1 pv1 mx1 a (TB side q c2 pv2 mx2 b d)) →
  (∀ s', let m := Z.max (tmax a) (tmax b) in
     zip_ok s' c (TB side q c2 pv2 (Z.max m (tmax d)) (TB side p c1 pv1 m a b) d) →
     evolves s s' → Q () s') →
  wp (rotate side p) Q s.
Proof.
  intros (Hc & Ht & Hnd & Hres) HQ. rewrite ptr_TB in Hc.
  destruct (rotate_apart p q (ptrs a) (ptrs b) (ptrs d) (ctx_ptrs c)) as ((Hpq & Hpa & Hpb & Hpd & Hpc) &
    (Hqa & Hqb & Hqd & Hqc) & Ndb & Ndc & Dab & Dac & Dbd & Dbc & Ddc); [by rewrite <-ptrs_TB_TB|].
  pose proof (ptr_in_ptrs b) as Hbb. pose proof (ptr_in_ptrs a) as Haa. pose proof (ptr_in_ptrs d) as Hdd.
  rewrite repr_TB, ptr_TB in Ht. destruct Ht as (Np & Ra & Ht). rewrite repr_TB in Ht.
  destruct Ht as (Nq & Rb & Rd). destruct (repr_node _ _ _ Rb) as (nb & Nb & _).
  unfold rotate. rewrite wp_bind. eapply wp_read_branch; [done|]. rewrite mkb_child_not.
  rewrite wp_bind. eapply wp_unwrap_branch; [done|]. rewrite wp_bind. eapply wp_read_branch; [done|].
  rewrite mkb_child. rewrite wp_bind. eapply wp_modify_branch; [done|]. rewrite mkb_with_child_not.
  intros s1 N1 R1 E1. rewrite wp_bind. eapply (wp_set_parent_if_branch _ _ nb); [by heap|].
  intros s2 N2 R2 E2. rewrite wp_bind. eapply wp_read_branch; [by heap|]. cbn [parent mkb].
  rewrite wp_bind. eapply wp_modify_branch; [by heap|]. rewrite mkb_with_parent.
  intros s3 N3 R3 E3. rewrite wp_bind. eapply (wp_replace_in_parent _ c); [by heap|done| |done|done|].
  { rewrite R3, R2, R1. eapply reprc_ext; [|done]. intros x Hx. by heap. }
  intros s4 N4 C4 E4. rewrite wp_bind. eapply wp_modify_branch; [by heap|]. rewrite mkb_with_child.
  intros s5 N5 R5 E5. rewrite wp_bind. eapply wp_modify_branch; [by heap|]. rewrite mkb_with_parent.
  intros s6 N6 R6 E6. rewrite wp_bind.
  assert (repr (node_at s6) (Some p) a) as Ra6 by (eapply repr_ext; [|done]; intros x Hx; by heap).
  assert (repr (node_at s6) (Some q) d) as Rd6 by (eapply repr_ext; [|done]; intros x Hx; by heap).
  assert (repr (node_at s6) (Some p) b) as Rb6.
  { apply (repr_reparent (node_at s) _ (Some q)); [|exact Ndb| | |done].
    - intros x Hx Hne. by heap.
    - intros b0 Hb0. heap. rewrite Nb in Hb0. by injection Hb0 as ->.
    - intros l Hl. heap. rewrite Nb in Hl. by injection Hl as ->. }
  eapply (wp_recalculate _ side p c1 pv1 mx1 (Some q) a b).
  { rewrite repr_TB. split; [by heap|done]. }
  intros s7 N7 R7 E7. eapply (wp_recalculate _ side q c2 pv2 mx2 (ctx_parent c) (TB side p c1 pv1 (Z.max (tmax a) (tmax b)) a b) d).
  { rewrite repr_TB, ptr_TB, repr_TB. split; [by heap|]. split; [split; [by heap|]|].
    - split; (eapply repr_ext; [|done]); intros x Hx; by heap.
    - eapply repr_ext; [|done]; intros x Hx; by heap. }
  intros s8 N8 R8 E8.
  assert (evolves s s8) as Ev.
  { etrans; [exact E1|]. etrans; [exact E2|]. etrans; [exact E3|]. etrans; [exact E4|].
    etrans; [exact E5|]. etrans; [exact E6|]. etrans; [exact E7|exact E8]. }
  apply HQ; [|done]. apply (zip_rearrange s _ c (TB side p c1 pv1 mx1 a (TB side q c2 pv2 mx2 b d)));
    [done|done|done| | |].
  - rewrite !ptrs_TB. cbn [app]. rewrite <-Permutation_middle. rewrite perm_swap.
    do 2 apply perm_skip. by rewrite <-!app_assoc.
  - rewrite ptr_TB, R8, R7, R6, R5. eapply reprc_ext; [|done]. intros x Hx. by heap.
  - rewrite ptr_TB, tmax_TB in N8. rewrite repr_TB, ptr_TB, repr_TB. split; [by heap|].
    split; [split; [by heap|split]|]; (eapply repr_ext; [|done]); intros x Hx; by heap.
Qed.
End ops.
