(* ===== verification/VmaInsert.v ===== *)
(** * Insertion into the VMA tree

    The search, the rebalancing loop and [insert], proved against the abstract
    trees of VmaSpec.v for any source of nodes. *)
From S2P Require Import Prelude Paging PageAlloc VmaStore VmaTree VmaSpec VmaRepr VmaOps.

Section insert.
Context {room : nat → vma → Prop} {reserved : vma → NodePtr → Prop}
  `{Hsrc : !NodeStore room reserved}.
Abbreviation zip_ok := (zip_ok (reserved := reserved)).
Abbreviation evolves := (evolves (room := room) (reserved := reserved)).

Lemma zip_fuel s c t : zip_ok s c t → (length c + 2 < tree_fuel s + 1)%nat.
Proof.
  intros (_ & _ & Hnd & Hres). pose proof (source_bound s _ Hnd Hres) as Hb.
  pose proof (ctx_length c t) as Hl. rewrite ptrs_plug in Hl. unfold tree_fuel. lia.
Qed.

(** ** A change to the node in focus *)

Lemma wp_modify_focus_pivot s f side c p cl cl' pv pv' mx mx' x y (Q : () → vma → Prop) :
  zip_ok s c (TB side p cl pv mx x y) →
  (∀ par n m, f (mkb side cl pv mx par n m) = mkb side cl' pv' mx' par n m) →
  (∀ s', zip_ok s' c (TB side p cl' pv' mx' x y) → root s' = root s → evolves s s' → Q () s') →
  wp (modify_branch p f) Q s.
Proof.
  intros (Hc & Ht & Hnd & Hres) Hf HQ. rewrite ptr_TB in Hc. pose proof Ht as Ht'.
  rewrite repr_TB in Ht'. destruct Ht' as (Hp & Hx & Hy).
  eapply wp_modify_branch; [done|]. rewrite Hf. intros s' HN Hr Hev. apply HQ; [|done|done].
  assert (p ∉ ptrs x ∧ p ∉ ptrs y ∧ p ∉ ctx_ptrs c) as (Hpx & Hpy & Hpc).
  { rewrite ptrs_TB in Hnd. cbn [app] in Hnd. apply NoDup_cons in Hnd as [Hn _].
    rewrite !elem_of_app in Hn. tauto. }
  apply (zip_rearrange (room:=room) s s' c (TB side p cl pv mx x y)); try done.
  - by rewrite !ptrs_TB.
  - rewrite ptr_TB, Hr. eapply reprc_ext; [|done]. intros z Hz. by heap.
  - rewrite repr_TB. split; [by heap|]. split; (eapply repr_ext; [|done]); intros z Hz; by heap.
Qed.
Lemma wp_modify_focus s f side c p cl cl' pv mx mx' x y (Q : () → vma → Prop) :
  zip_ok s c (TB side p cl pv mx x y) →
  (∀ par n m, f (mkb side cl pv mx par n m) = mkb side cl' pv mx' par n m) →
  (∀ s', zip_ok s' c (TB side p cl' pv mx' x y) → root s' = root s → evolves s s' → Q () s') →
  wp (modify_branch p f) Q s.
Proof. apply wp_modify_focus_pivot. Qed.
Lemma wp_set_color s side c p cl cl' pv mx x y (Q : () → vma → Prop) :
  zip_ok s c (TB side p cl pv mx x y) → pivot_ok pv →
  (∀ s', zip_ok s' c (TB side p cl' pv mx x y) → root s' = root s → evolves s s' → Q () s') →
  wp (set_color p cl') Q s.
Proof.
  intros Hz Hpv HQ. unfold set_color. eapply wp_modify_focus; [done| |done].
  intros. by apply mkb_recolor.
Qed.

(** ** Searching *)

Lemma areas_lt lo hi t : Forall (λ a, area_start a < area_end a) (areas lo hi t) → lo < hi.
Proof.
  revert lo hi. induction t as [p l|p c pv mx l IHl r IHr]; cbn; intros lo hi H.
  - by apply Forall_cons in H as [H _].
  - apply Forall_app in H as [Hl Hr]. specialize (IHl _ _ Hl). specialize (IHr _ _ Hr). lia.
Qed.
Definition ctx_head (c : ctx) : option (NodePtr * Side) :=
  match c with [] => None | f :: _ => Some (f_ptr f, f_side f) end.

(** The nodes on the longest path. *)
Fixpoint depth (t : tree) : nat :=
  match t with TLeaf _ _ => 1 | TBranch _ _ _ _ l r => S (Nat.max (depth l) (depth r)) end.
Lemma depth_ptrs t : (depth t ≤ length (ptrs t))%nat.
Proof. induction t; cbn; [lia|]. rewrite length_app. lia. Qed.
(** The search goes down to the leaf whose range holds the address. *)
Lemma wp_get_leaf_loop fuel s c t addr lo hi (Q : LeafInfo → vma → Prop) :
  zip_ok s c t → pivots_ok t → Forall (λ a, area_start a < area_end a) (areas lo hi t) →
  lo ≤ addr < hi → 0 ≤ lo → hi < 2 ^ 64 → hole 0 (HIGHEST_USER_ADDRESS + 1) c = (lo, hi) →
  (depth t ≤ fuel)%nat →
  (∀ c' p l start end_, plug c t = plug c' (TLeaf p l) →
     hole 0 (HIGHEST_USER_ADDRESS + 1) c' = (start, end_ + 1) → start ≤ addr ≤ end_ →
     Q {| leaf := p; parent_and_side := ctx_head c'; leaf_start := start; leaf_end := end_ |} s) →
  wp (get_leaf_loop fuel (ptr t) (ctx_head c) lo hi addr) Q s.
Proof.
  revert c t lo hi. induction fuel as [|fuel IH]; intros c t lo hi Hz Hp Ha Haddr Hlo Hhi Hh Hfuel HQ.
  { destruct t; cbn in Hfuel; lia. }
  cbn [get_leaf_loop]. rewrite wp_bind. pose proof Hz as (_ & Ht & _).
  destruct t as [p l|p cl pv mx l r]; cbn [ptr] in *.
  - eapply wp_read_node; [exact Ht|]. rewrite wp_bind, wp_chk. split; [lia|]. rewrite wp_ret.
    apply (HQ c p l lo (hi - 1)); [done|by rewrite Hh, Z.sub_add|lia].
  - destruct Ht as (Hn & _ & _). eapply wp_read_node; [done|].
    destruct Hp as (Hpv & H4 & Hmx & Hpl & Hpr).
    rewrite mkb_pivot by done. cbn in Ha. apply Forall_app in Ha as [Hal Har].
    pose proof (areas_lt _ _ _ Hal). pose proof (areas_lt _ _ _ Har). cbn in Hfuel.
    destruct (Z.ltb_spec addr pv); rewrite wp_bind, wp_rassert; (split; [apply Z.leb_le; lia|]).
    + cbn [left mkb]. apply (IH (Frame Left p cl pv mx r :: c) l); try done; try lia.
      * rewrite zip_up. exact Hz.
      * cbn [hole f_side f_pivot]. by rewrite Hh.
    + cbn [right mkb]. apply (IH (Frame Right p cl pv mx l :: c) r); try done; try lia.
      * rewrite zip_up. exact Hz.
      * cbn [hole f_side f_pivot]. by rewrite Hh.
Qed.
Lemma wp_get_leaf_containing s t addr (Q : LeafInfo → vma → Prop) :
  zip_ok s [] t → pivots_ok t →
  Forall (λ a, area_start a < area_end a) (areas 0 (HIGHEST_USER_ADDRESS + 1) t) →
  0 ≤ addr ≤ HIGHEST_USER_ADDRESS →
  (∀ c p l start end_, t = plug c (TLeaf p l) →
     hole 0 (HIGHEST_USER_ADDRESS + 1) c = (start, end_ + 1) → start ≤ addr ≤ end_ →
     Q {| leaf := p; parent_and_side := ctx_head c; leaf_start := start; leaf_end := end_ |} s) →
  wp (get_leaf_containing addr) Q s.
Proof.
  intros Hz Hp Ha Haddr HQ. unfold get_leaf_containing. rewrite wp_bind, wp_rassert.
  split; [apply Z.leb_le; lia|]. rewrite wp_bind, wp_get.
  pose proof Hz as (Hr & _ & Hnd & Hres). cbn [reprc] in Hr. rewrite Hr.
  apply (wp_get_leaf_loop _ s [] t); try done; [lia|].
  rewrite app_nil_r in *. pose proof (depth_ptrs t). pose proof (source_bound s _ Hnd Hres). unfold tree_fuel. lia.
Qed.

(** ** Refreshing the recorded sizes *)

Lemma wp_update_max_loop fuel s c p cl pv mx l r (Q : () → vma → Prop) :
  zip_ok s c (TBranch p cl pv mx l r) → (length c < fuel)%nat →
  (∀ s', zip_ok s' [] (refresh c (TBranch p cl pv mx l r)) → evolves s s' → Q () s') →
  wp (update_max_loop fuel (Some p)) Q s.
Proof.
  revert s c p cl pv mx l r Q. induction fuel as [|fuel IH]; intros s c p cl pv mx l r Q Hz Hfuel HQ; [lia|].
  cbn [update_max_loop]. pose proof Hz as (_ & (Hn & Hl & Hr) & _).
  destruct (repr_node _ _ _ Hl) as (nx & Ex & Mx & _), (repr_node _ _ _ Hr) as (ny & Ey & My & _).
  rewrite wp_bind. eapply wp_read_branch; [done|]. cbn [left right mkb].
  rewrite wp_bind. eapply wp_read_node; [done|]. rewrite wp_bind. eapply wp_read_node; [done|].
  rewrite Mx, My, wp_bind. unfold set_max_empty_area_size.
  apply (wp_modify_focus s _ Left c p cl cl pv mx (Z.max (Z.max 0 (tmax l)) (tmax r)) l r); [done|done|].
  intros s' Hz' _ Hev. cbn [parent mkb]. destruct c as [|f c]; cbn [ctx_parent].
  { destruct fuel; apply HQ; done. }
  rewrite zip_up in Hz'. cbn [length] in Hfuel.
  assert (∃ a b, fill1 f (TB Left p cl pv (Z.max (Z.max 0 (tmax l)) (tmax r)) l r) =
    TBranch (f_ptr f) (f_color f) (f_pivot f) (f_max f) a b) as (a & b & E)
    by (unfold fill1; destruct (f_side f); eexists _, _; done).
  rewrite E in Hz'. apply (IH s' c (f_ptr f) (f_color f) (f_pivot f) (f_max f) a b); [done|lia|].
  intros s2 Hz2 Hev2. apply HQ; [|by trans s']. cbn [refresh remax].
  change (TBranch p cl pv (Z.max (Z.max 0 (tmax l)) (tmax r)) l r)
    with (TB Left p cl pv (Z.max (Z.max 0 (tmax l)) (tmax r)) l r). by rewrite E.
Qed.
Lemma wp_update_max s c p cl pv mx l r (Q : () → vma → Prop) :
  zip_ok s c (TBranch p cl pv mx l r) →
  (∀ s', zip_ok s' [] (refresh c (TBranch p cl pv mx l r)) → evolves s s' → Q () s') →
  wp (update_max_empty_area_data p) Q s.
Proof.
  intros Hz HQ. unfold update_max_empty_area_data, with_fuel. rewrite wp_bind, wp_get.
  eapply wp_update_max_loop; [done| |done]. pose proof (zip_fuel _ _ _ Hz). lia.
Qed.

(** ** Rebalancing *)

Lemma wp_get_parent s p b q (Q : NodePtr → vma → Prop) :
  node_at s p = Some (Branch b) → parent b = Some q → Q q s → wp (get_parent p) Q s.
Proof.
  intros Hp Hq HQ. unfold get_parent. rewrite wp_bind. eapply wp_read_branch; [done|].
  rewrite wp_unwrap. eauto.
Qed.
Definition is_tbranch (t : tree) : Prop := match t with TBranch _ _ _ _ _ _ => True | TLeaf _ _ => False end.
Lemma zip_branch s c t : zip_ok s c t → is_tbranch t →
  ∃ b, node_at s (ptr t) = Some (Branch b) ∧ parent b = ctx_parent c.
Proof. intros (_ & Ht & _) Hb. destruct t; [done|]. destruct Ht as (Hn & _). eauto. Qed.
Lemma TB_branch side p c pv mx x y : is_tbranch (TB side p c pv mx x y).
Proof. by destruct side. Qed.
(** The parent and the grandparent of the focus. *)
Lemma wp_focus_parent s f c t (Q : NodePtr → vma → Prop) :
  zip_ok s (f :: c) t → is_tbranch t → Q (f_ptr f) s → wp (get_parent (ptr t)) Q s.
Proof.
  intros Hz Hb HQ. destruct (zip_branch _ _ _ Hz Hb) as (b & Hn & Hp). by eapply wp_get_parent.
Qed.
Lemma wp_focus_grandparent s f g c t (Q : NodePtr → vma → Prop) :
  zip_ok s (f :: g :: c) t → is_tbranch t → Q (f_ptr g) s → wp (get_grandparent (ptr t)) Q s.
Proof.
  intros Hz Hb HQ. unfold get_grandparent. rewrite wp_bind. eapply wp_focus_parent; [done|done|].
  rewrite zip_up in Hz. rewrite <-(ptr_TB (f_side f) (f_ptr f) (f_color f) (f_pivot f) (f_max f) t (f_other f)).
  eapply wp_focus_parent; [exact Hz|apply TB_branch|done].
Qed.
(** Only the root has no context. *)
Lemma reprc_root N rt h f c : reprc N rt h (f :: c) → rt ∈ ctx_ptrs (f :: c).
Proof.
  revert h f. induction c as [|g c IH]; intros h f (_ & _ & Hc).
  - cbn in *. subst. apply elem_of_cons. by left.
  - apply IH in Hc. cbn [ctx_ptrs flat_map] in *. set_solver.
Qed.
Lemma zip_root s c t : zip_ok s c t → (ptr t = root s ↔ c = []).
Proof.
  intros (Hc & _ & Hnd & _). destruct c as [|f c]; [split; [done|]; by cbn in Hc|].
  split; [|done]. intros E. apply reprc_root in Hc. apply NoDup_app in Hnd as (_ & Hd & _).
  destruct (Hd (ptr t)); [apply ptr_in_ptrs|by rewrite E].
Qed.
(** The focus on the sibling. *)
Lemma zip_sibling s f c t :
  zip_ok s (f :: c) t ↔
  zip_ok s (Frame (side_not (f_side f)) (f_ptr f) (f_color f) (f_pivot f) (f_max f) t :: c) (f_other f).
Proof. rewrite !zip_up. unfold fill1. cbn [f_side f_ptr f_color f_pivot f_max f_other]. by rewrite TB_flip. Qed.
(** The same tree with another root colour. *)
Definition repaint (cl : NodeColor) (t : tree) : tree :=
  match t with TLeaf p l => TLeaf p l | TBranch p _ pv mx l r => TBranch p cl pv mx l r end.
Definition frame_paint (cl : NodeColor) (f : frame) : frame :=
  Frame (f_side f) (f_ptr f) cl (f_pivot f) (f_max f) (f_other f).
Lemma wp_paint s c t cl (Q : () → vma → Prop) :
  zip_ok s c t → is_tbranch t → pivots_ok t →
  (∀ s', zip_ok s' c (repaint cl t) → evolves s s' → Q () s') → wp (set_color (ptr t) cl) Q s.
Proof.
  intros Hz Hb Hp HQ. destruct t as [|p c0 pv mx l r]; [done|]. destruct Hp as (H1 & H2 & _).
  apply (wp_set_color s Left c p c0 cl pv mx l r); [done|done|]. intros s' Hz' _. by apply HQ.
Qed.
(** Painting the parent of the focus. *)
Lemma wp_paint_parent s f c t cl (Q : () → vma → Prop) :
  zip_ok s (f :: c) t → pivot_ok (f_pivot f) →
  (∀ s', zip_ok s' (frame_paint cl f :: c) t → evolves s s' → Q () s') → wp (set_color (f_ptr f) cl) Q s.
Proof.
  intros Hz Hp HQ. rewrite zip_up in Hz.
  eapply (wp_set_color s (f_side f) c (f_ptr f)); [exact Hz|done|]. intros s' Hz' _ Hev.
  apply HQ; [|done]. by rewrite zip_up.
Qed.

(** The black-uncle case, once the focus is on the outer side. *)
Definition outer_frame (f g : frame) (t : tree) : frame :=
  let m := Z.max (tmax (f_other g)) (tmax (f_other f)) in
  Frame (f_side g) (f_ptr f) Black (f_pivot f) (Z.max m (tmax t))
    (TB (side_not (f_side g)) (f_ptr g) Red (f_pivot g) m (f_other g) (f_other f)).
Lemma wp_fix_outer s f g c t (Q : NodePtr → vma → Prop) :
  zip_ok s (f :: g :: c) t → is_tbranch t → f_side f = f_side g →
  pivot_ok (f_pivot f) → pivot_ok (f_pivot g) →
  (∀ s', zip_ok s' (outer_frame f g t :: c) t → evolves s s' → Q (ptr t) s') →
  wp (q ← get_parent (ptr t); set_color q Black;;
      g' ← get_grandparent (ptr t); set_color g' Red;;
      g' ← get_grandparent (ptr t); rotate (side_not (f_side g)) g';; mret (ptr t)) Q s.
Proof.
  intros Hz Hb Es Hpf Hpg HQ.
  rewrite wp_bind. eapply wp_focus_parent; [done|done|].
  rewrite wp_bind. eapply wp_paint_parent; [done|done|]. intros s1 Hz1 E1.
  rewrite wp_bind. eapply wp_focus_grandparent; [done|done|]. rewrite wp_bind.
  rewrite zip_up in Hz1. eapply wp_paint_parent; [exact Hz1|done|]. intros s2 Hz2 E2.
  rewrite <-zip_up in Hz2.
  rewrite wp_bind. eapply wp_focus_grandparent; [done|done|]. rewrite wp_bind. cbn [frame_paint f_ptr].
  rewrite !zip_up in Hz2. unfold fill1 in Hz2.
  cbn [frame_paint f_side f_ptr f_color f_pivot f_max f_other] in Hz2. rewrite Es in Hz2.
  rewrite <-(TB_flip (f_side g) (f_ptr f)), <-(TB_flip (f_side g) (f_ptr g)) in Hz2.
  eapply wp_rotate; [exact Hz2|]. intros s3 m Hz3 E3. rewrite wp_ret. apply HQ.
  - rewrite zip_up. unfold fill1, outer_frame. cbn [f_side f_ptr f_color f_pivot f_max f_other].
    by rewrite TB_flip in Hz3.
  - etrans; [exact E1|]. by etrans.
Qed.

(** What a rebalancing does to a subtree: a red-black tree with the same nodes
    and areas, whose recorded sizes are right away from [x]. *)
Record rebuilt (x : NodePtr) (h : nat) (T T0 : tree) : Prop := {
  rb_height : bh T = Some h;
  rb_rr : no_red_red T;
  rb_pivots : pivots_ok T;
  rb_max : max_ok_but x T;
  rb_ptrs : ptrs T ≡ₚ ptrs T0;
  rb_areas : ∀ lo hi, areas lo hi T = areas lo hi T0;
}.
Lemma areas_rotate side p c1 pv1 mx1 a q c2 pv2 mx2 b d c1' c2' mx1' mx2' lo hi :
  areas lo hi (TB side q c2' pv2 mx2' (TB side p c1' pv1 mx1' a b) d) =
  areas lo hi (TB side p c1 pv1 mx1 a (TB side q c2 pv2 mx2 b d)).
Proof. destruct side; cbn; by rewrite <-app_assoc. Qed.
Lemma ptrs_rotate side p c1 pv1 mx1 a q c2 pv2 mx2 b d c1' c2' mx1' mx2' :
  ptrs (TB side q c2' pv2 mx2' (TB side p c1' pv1 mx1' a b) d) ≡ₚ
  ptrs (TB side p c1 pv1 mx1 a (TB side q c2 pv2 mx2 b d)).
Proof.
  rewrite !ptrs_TB. cbn [app]. rewrite <-Permutation_middle, perm_swap. do 2 apply perm_skip.
  by rewrite <-!app_assoc.
Qed.
Lemma areas_fill1 f t t' lo hi : (∀ lo hi, areas lo hi t = areas lo hi t') →
  areas lo hi (fill1 f t) = areas lo hi (fill1 f t').
Proof. intros H. by apply areas_TB_ext. Qed.

(** The outer rotation rebuilds the grandparent. *)
Lemma outer_rebuilt x h f g t t0 :
  pivot_ok (f_pivot f) → pivots_ok (f_other f) → no_red_red (f_other f) → max_ok_but x (f_other f) →
  frame_ok g → f_side f = f_side g →
  bh t = Some h → bh (f_other f) = Some h → bh (f_other g) = Some h →
  no_red_red t → tcolor (f_other f) = Black → tcolor (f_other g) = Black →
  pivots_ok t → max_ok_but x t → x ∈ f_ptr f :: ptrs t ++ ptrs (f_other f) → 
  ptrs (fill1 f t) ≡ₚ ptrs t0 → (∀ lo hi, areas lo hi (fill1 f t) = areas lo hi t0) →
  rebuilt x (S h) (fill1 (outer_frame f g t) t) (fill1 g t0).
Proof.
  intros Hpf Hpo Hro Hmo Hg Es Ht Ho Hu Hrr Bo Bu Hp Hm Hx Hptr Har.
  pose proof (tmax_nonneg _ Hpo) as M1. pose proof (tmax_nonneg _ (frame_pivots _ Hg)) as M2.
  pose proof (tmax_nonneg _ Hp) as M3.
  unfold fill1, outer_frame. cbn [f_side f_ptr f_color f_pivot f_max f_other].
  set (m := Z.max (tmax (f_other g)) (tmax (f_other f))).
  assert (ptrs (TB (f_side g) (f_ptr f) Black (f_pivot f) (Z.max m (tmax t)) t
     (TB (side_not (f_side g)) (f_ptr g) Red (f_pivot g) m (f_other g) (f_other f)))
     ≡ₚ ptrs (fill1 g (fill1 f t))) as Eptr.
  { unfold fill1. rewrite Es, <-(TB_flip (f_side g) (f_ptr f) Black),
      <-(TB_flip (f_side g) (f_ptr g) (f_color g)), <-(TB_flip (f_side g) (f_ptr f) (f_color f)).
    apply ptrs_rotate. }
  split.
  - replace (S h) with (h + height_of Black)%nat by (cbn; lia).
    apply bh_TB; [done|]. replace (Some h) with (Some (h + height_of Red)%nat) by (cbn; f_equal; lia).
    by apply bh_TB.
  - apply rr_TB. split; [done|]. split; [done|]. apply rr_TB. split; [done|]. split; [apply Hg|done].
  - apply pivots_TB. split; [done|]. split; [lia|]. split; [done|]. apply pivots_TB.
    split; [apply Hg|]. split; [lia|]. split; [apply Hg|done].
  - apply max_but_TB. split; [|split; [done|]].
    + left. rewrite ptrs_TB. rewrite elem_of_cons, elem_of_app in Hx.
      rewrite elem_of_cons, elem_of_app, elem_of_cons, elem_of_app. tauto.
    + apply max_but_TB. split; [right; lia|]. split; [apply max_ok_but_of, Hg|done].
  - by rewrite Eptr, (ptrs_fill1 g (fill1 f t)), (ptrs_fill1 g t0), Hptr.
  - intros lo hi. trans (areas lo hi (fill1 g (fill1 f t))); [|by apply areas_fill1].
    unfold fill1. rewrite Es, <-(TB_flip (f_side g) (f_ptr f) Black),
      <-(TB_flip (f_side g) (f_ptr g) (f_color g)), <-(TB_flip (f_side g) (f_ptr f) (f_color f)).
    apply areas_rotate.
Qed.

(** One iteration of the loop, with a red parent.  A red uncle moves the focus
    two levels up; a black uncle ends the rebalancing below a black parent. *)
Definition step_post (x : NodePtr) (h : nat) (f g : frame) (c : ctx) (t : tree) (s : vma)
    (k : NodePtr) (s' : vma) : Prop :=
  evolves s s' ∧
  ((∃ R, zip_ok s' c R ∧ k = ptr R ∧ is_tbranch R ∧ tcolor R = Red ∧
      rebuilt x (S h) R (fill1 g (fill1 f t))) ∨
   (∃ F t', zip_ok s' (F :: c) t' ∧ k = ptr t' ∧ is_tbranch t' ∧ f_color F = Black ∧
      pivot_ok (f_pivot F) ∧ rebuilt x (S h) (fill1 F t') (fill1 g (fill1 f t)))).

Lemma wp_uncle_red s f g c t x h pu cu pvu mxu lu ru (Q : NodePtr → vma → Prop) :
  zip_ok s (f :: g :: c) t → is_tbranch t → ctx_ok (f :: g :: c) h → f_color f = Red →
  f_other g = TBranch pu cu pvu mxu lu ru → cu = Red →
  bh t = Some h → no_red_red t → pivots_ok t → max_ok_but x t → x ∈ ptrs t →
  (∀ k s', step_post x h f g c t s k s' → Q k s') →
  wp (u ← unwrap_branch pu; set_color u Black;;
      q ← get_parent (ptr t); set_color q Black;;
      g ← get_grandparent (ptr t); set_color g Red;; get_grandparent (ptr t)) Q s.
Proof.
  intros Hz Hb (Hf & Hbo & Hred & Hg & Hbg & _ & _) Ef Eu -> Ht Hrr Hp Hm Hx HQ.
  destruct (Hred Ef) as (Bo & g' & c' & [= <- <-] & Eg). rewrite Ef in Hbg. cbn in Hbg.
  assert (pivots_ok (f_other g)) as Hpu by apply Hg.
  pose proof Hz as Hzu. rewrite zip_up, zip_sibling in Hzu.
  destruct (zip_branch _ _ _ Hzu) as (b & Hn & _); [by rewrite Eu|]. rewrite Eu in Hn.
  rewrite wp_bind. eapply wp_unwrap_branch; [exact Hn|]. rewrite wp_bind.
  replace pu with (ptr (f_other g)) by (by rewrite Eu).
  eapply wp_paint; [exact Hzu|by rewrite Eu|done|]. intros s1 Hz1 E1.
  rewrite zip_sibling in Hz1. cbn [f_side f_ptr f_color f_pivot f_max f_other] in Hz1.
  assert (side_not (side_not (f_side g)) = f_side g) as Ess by (by destruct (f_side g)). rewrite Ess in Hz1.
  rewrite <-zip_up in Hz1.
  rewrite wp_bind. eapply wp_focus_parent; [exact Hz1|done|].
  rewrite wp_bind. eapply wp_paint_parent; [exact Hz1|apply Hf|]. intros s2 Hz2 E2.
  rewrite wp_bind. eapply wp_focus_grandparent; [exact Hz2|done|]. rewrite wp_bind. rewrite zip_up in Hz2.
  eapply wp_paint_parent; [exact Hz2|apply Hg|]. intros s3 Hz3 E3. rewrite <-zip_up in Hz3.
  eapply wp_focus_grandparent; [exact Hz3|done|]. cbn [frame_paint f_ptr].
  apply HQ. split; [etrans; [exact E1|by etrans]|]. left. rewrite !zip_up in Hz3.
  eexists. split; [exact Hz3|]. split; [by unfold fill1; rewrite ptr_TB|].
  split; [apply TB_branch|]. split; [by unfold fill1; rewrite tcolor_TB|].
  rewrite Eu in *. cbn [repaint frame_paint f_side f_ptr f_color f_pivot f_max f_other] in *.
  assert (bh (TBranch pu Black pvu mxu lu ru) = Some (S h)) as Hbu.
  { cbn in Hbg |- *. destruct (bh lu) as [a|], (bh ru) as [a'|]; try done. case_decide; [|done].
    injection Hbg as Ea. f_equal. lia. }
  split.
  - replace (S h) with (S h + height_of Red)%nat by (cbn; lia). apply bh_TB; [|done].
    replace (S h) with (h + height_of Black)%nat by (cbn; lia). by apply bh_TB.
  - apply rr_TB. unfold fill1. rewrite tcolor_TB. split; [done|]. split.
    + apply rr_TB. split; [done|]. split; [done|apply Hf].
    + pose proof (frame_rr _ Hg) as Hrg. rewrite Eu in Hrg. by destruct Hrg as (_ & ? & ?).
  - apply pivots_TB. split; [apply Hg|]. split; [apply Hg|]. split; [|done].
    apply pivots_TB. split; [apply Hf|]. split; [apply Hf|]. split; [done|apply Hf].
  - apply max_but_TB. split; [left; unfold fill1; rewrite ptrs_TB; set_solver|]. split.
    + apply max_but_TB. split; [left; set_solver|]. split; [done|]. apply max_ok_but_of, Hf.
    + pose proof (frame_max_ok _ Hg) as Hmg. rewrite Eu in Hmg.
      exact (max_ok_but_of x _ Hmg).
  - unfold fill1. rewrite !ptrs_TB. by rewrite Eu.
  - intros lo hi. unfold fill1. rewrite Eu. cbn [frame_paint f_side f_ptr f_color f_pivot f_max f_other]. by destruct (f_side g), (f_side f).
Qed.

Lemma wp_is_side s side f c t (Q : option bool → vma → Prop) :
  zip_ok s (f :: c) t → is_tbranch t → Q (Some (bool_decide (f_side f = side))) s →
  wp (match side with Left => is_left_side (ptr t) | Right => is_right_side (ptr t) end) Q s.
Proof.
  intros Hz Hb HQ. destruct (zip_branch _ _ _ Hz Hb) as (b & Hn & Hp).
  pose proof Hz as (Hc & _ & Hnd & _). pose proof Hc as (Hf & _).
  assert (ptr t ∉ ctx_ptrs (f :: c)) as Hnot.
  { intros Hin. apply NoDup_app in Hnd as (_ & Hd & _). by apply (Hd (ptr t)); [apply ptr_in_ptrs|]. }
  destruct side; [by eapply wp_is_left_side|].
  unfold is_right_side. rewrite wp_bind. eapply wp_read_branch; [done|]. rewrite Hp. cbn [ctx_parent].
  rewrite wp_bind. eapply wp_read_branch; [done|]. rewrite wp_ret.
  assert (ptr t ≠ ptr (f_other f)) as Hne.
  { intros E. apply Hnot. cbn. apply elem_of_cons. right. apply elem_of_app. left. rewrite E. apply ptr_in_ptrs. }
  replace (bool_decide (ptr t = _)) with (bool_decide (f_side f = Right)); [done|].
  destruct (f_side f); cbn; apply bool_decide_ext; naive_solver.
Qed.

(** Whether the branch is on the inner side of its parent. *)
Lemma wp_inner_side s f g c t (Q : option bool → vma → Prop) :
  zip_ok s (f :: g :: c) t → is_tbranch t → Q (Some (bool_decide (f_side f = side_not (f_side g)))) s →
  wp (match f_side g with Left => is_right_side (ptr t) | Right => is_left_side (ptr t) end) Q s.
Proof. intros Hz Hb HQ. pose proof (wp_is_side s (side_not (f_side g)) f (g :: c) t Q Hz Hb HQ) as H. by destruct (f_side g). Qed.
Lemma wp_uncle_black s f g c t x h (Q : NodePtr → vma → Prop) :
  zip_ok s (f :: g :: c) t → is_tbranch t → ctx_ok (f :: g :: c) h → f_color f = Red →
  tcolor (f_other g) = Black → tcolor t = Red →
  bh t = Some h → no_red_red t → pivots_ok t → max_ok_but x t → x ∈ ptrs t →
  (∀ k s', step_post x h f g c t s k s' → Q k s') →
  wp (inner ← (match f_side g with Left => is_right_side (ptr t) | Right => is_left_side (ptr t) end);
      inner ← unwrap inner;
      k ← (if inner : bool then k ← get_parent (ptr t); rotate (f_side g) k;; mret k else mret (ptr t));
      q ← get_parent k; set_color q Black;;
      g' ← get_grandparent k; set_color g' Red;;
      g' ← get_grandparent k;
      rotate (side_not (f_side g)) g';;
      mret k) Q s.
Proof.
  intros Hz Hb (Hf & Hbo & Hred & Hg & Hbg & _ & _) Ef Bu Ct Ht Hrr Hp Hm Hx HQ.
  destruct (Hred Ef) as (Bo & g' & c' & [= <- <-] & Eg). rewrite Ef in Hbg. cbn in Hbg.
  rewrite Nat.add_0_r in Hbg. rewrite wp_bind.
  eapply wp_inner_side; [done|done|].
  rewrite wp_bind, wp_unwrap. eexists. split; [done|]. rewrite wp_bind.
  destruct (decide (f_side f = side_not (f_side g))) as [Es|Es].
  - rewrite bool_decide_true by done. rewrite wp_bind. eapply wp_focus_parent; [done|done|]. rewrite wp_bind.
    destruct t as [|k ck pvk mxk lk rk]; [done|]. cbn in Ct. subst ck.
    destruct (TB_of_branch (f_side g) k Red pvk mxk lk rk) as (b & d & Et). rewrite Et in *.
    pose proof Ht as Ht'. apply bh_TB_inv in Ht' as (h' & Hhb & Hhd & Eh). cbn in Eh.
    rewrite Nat.add_0_r in Eh. subst h'. pose proof Hrr as Hrr'. apply rr_TB in Hrr' as (Hkids & Hrb & Hrd).
    destruct (Hkids eq_refl) as [Bb Bd]. pose proof Hp as Hp'. apply pivots_TB in Hp' as (Hpvk & Hmxk & Hpb & Hpd).
    pose proof Hm as Hm'. apply max_but_TB in Hm' as (_ & Hmb & Hmd).
    pose proof Hz as Hz1. rewrite zip_up in Hz1. unfold fill1 in Hz1. rewrite Es, TB_flip in Hz1.
    pose proof (tmax_nonneg _ (frame_pivots _ Hf)) as M1. pose proof (tmax_nonneg _ Hpb) as M2.
    pose proof (tmax_nonneg _ Hpd) as M3.
    eapply wp_rotate; [exact Hz1|]. cbv zeta. intros s1 Hz2 E1. rewrite wp_ret.
    set (t1 := TB (f_side g) (f_ptr f) (f_color f) (f_pivot f) (Z.max (tmax (f_other f)) (tmax b)) (f_other f) b) in *.
    set (f1 := Frame (f_side g) k Red pvk (Z.max (Z.max (tmax (f_other f)) (tmax b)) (tmax d)) d).
    assert (zip_ok s1 (f1 :: g :: c) t1) as Hz3 by (by rewrite zip_up).
    replace (f_ptr f) with (ptr t1) by (unfold t1; apply ptr_TB).
    eapply wp_fix_outer; [exact Hz3|apply TB_branch|done|done|apply Hg|]. intros s2 Hz4 E2. apply HQ.
    split; [by trans s1|]. right. eexists _, t1. split; [exact Hz4|]. split; [done|]. split; [apply TB_branch|].
    split; [done|]. split; [done|].
    apply outer_rebuilt; try done.
    + unfold t1. rewrite Ef. replace (Some h) with (Some (h + height_of Red)%nat) by (cbn; f_equal; lia).
      by apply bh_TB.
    + apply rr_TB. split; [done|]. split; [apply Hf|done].
    + apply pivots_TB. split; [apply Hf|]. split; [lia|]. split; [apply Hf|done].
    + apply max_but_TB. split; [right; lia|]. split; [apply max_ok_but_of, Hf|done].
    + rewrite ptrs_TB in Hx. cbn [app f1 f_ptr f_other]. unfold t1. rewrite ptrs_TB. set_solver.
    + unfold fill1, f1, t1. cbn [f_side f_ptr f_color f_pivot f_max f_other]. rewrite Es, TB_flip.
      apply ptrs_rotate.
    + intros lo hi. unfold fill1, f1, t1. cbn [f_side f_ptr f_color f_pivot f_max f_other].
      rewrite Es, TB_flip. apply areas_rotate.
  - rewrite bool_decide_false by done. rewrite wp_ret.
    assert (f_side f = f_side g) as Es' by (by destruct (f_side f), (f_side g)).
    eapply wp_fix_outer; [done|done|done|apply Hf|apply Hg|]. intros s1 Hz1 E1. apply HQ. split; [done|].
    right. eexists _, t. split; [exact Hz1|]. split; [done|]. split; [done|]. split; [done|]. split; [apply Hf|].
    apply outer_rebuilt; try done; try apply Hf; try set_solver. apply max_ok_but_of, Hf.
Qed.

(** The whole iteration: the uncle's colour decides. *)
Lemma wp_fix_insert_step s f g c t x h (Q : NodePtr → vma → Prop) :
  zip_ok s (f :: g :: c) t → is_tbranch t → ctx_ok (f :: g :: c) h → f_color f = Red → tcolor t = Red →
  bh t = Some h → no_red_red t → pivots_ok t → max_ok_but x t → x ∈ ptrs t →
  (∀ k s', step_post x h f g c t s k s' → Q k s') →
  wp (fix_insert_step (f_side g) (ptr t)) Q s.
Proof.
  intros Hz Hb Hctx Ef Ct Ht Hrr Hp Hm Hx HQ. unfold fix_insert_step.
  rewrite wp_bind. eapply wp_focus_grandparent; [done|done|].
  pose proof Hz as Hz'. rewrite zip_up in Hz'. pose proof Hz' as (Hc & _). destruct Hc as (Hg & Ho & _).
  rewrite wp_bind. eapply wp_read_branch; [exact Hg|]. rewrite mkb_child_not. rewrite wp_bind.
  destruct (repr_node _ _ _ Ho) as (n & Hn & _ & _).
  unfold color. rewrite wp_bind. eapply wp_read_node; [exact Hn|]. rewrite wp_ret.
  assert (pivots_ok (f_other g)) as Hpo by (destruct Hctx as (_ & _ & _ & Hgf & _); apply Hgf).
  rewrite (repr_color _ _ _ _ Ho Hpo Hn).
  destruct (tcolor (f_other g)) eqn:Eu.
  - destruct (f_other g) as [|pu cu pvu mxu lu ru] eqn:Eo; [done|]. cbn [ptr] in *.
    by eapply (wp_uncle_red s f g c t x h).
  - by eapply (wp_uncle_black s f g c t x h).
Qed.

Lemma rebuilt_plug x h c T T0 :
  ctx_ok c h → rebuilt x h T T0 → x ∈ ptrs T →
  (tcolor T = Red → ∀ f c', c = f :: c' → f_color f = Black) →
  ∃ h', rebuilt x h' (plug c T) (plug c T0).
Proof.
  intros Hc [Hh Hrr Hp Hm Hptr Har] Hx Hcol.
  destruct (plug_ok c h T) as ([h' Hh'] & Hrr' & Hp'); try done. exists h'. split; try done.
  - apply max_but_plug_2; [done|done|]. by eapply ctx_ok_max.
  - by rewrite !ptrs_plug, Hptr.
  - intros lo hi. by apply areas_plug_ext.
Qed.
Lemma rebuilt_trans x h h' T1 T2 T3 : rebuilt x h T1 T2 → rebuilt x h' T2 T3 → rebuilt x h T1 T3.
Proof.
  intros [] []. split; try done; [by etrans|]. intros. etrans; eauto.
Qed.

Lemma wp_parent_color s f c t (Q : NodeColor → vma → Prop) :
  zip_ok s (f :: c) t → pivot_ok (f_pivot f) → Q (f_color f) s → wp (color_of_branch (f_ptr f)) Q s.
Proof.
  intros ((Hf & _) & _) Hp HQ. unfold color_of_branch. rewrite wp_bind.
  eapply wp_read_branch; [exact Hf|]. rewrite wp_ret. by rewrite mkb_color.
Qed.
(** Below a black parent there is nothing to do. *)
Lemma wp_fix_insert_black fuel s f c t (Q : () → vma → Prop) :
  zip_ok s (f :: c) t → is_tbranch t → pivot_ok (f_pivot f) → f_color f = Black → Q () s →
  wp (fix_insert_loop (S fuel) (ptr t)) Q s.
Proof.
  intros Hz Hb Hp Ef HQ. cbn [fix_insert_loop]. rewrite wp_bind. eapply wp_focus_parent; [done|done|].
  rewrite wp_bind. eapply wp_parent_color; [exact Hz|done|]. by rewrite Ef, wp_ret.
Qed.
(** The loop ends with a red-black tree, but for a root that may be red. *)
Lemma wp_fix_insert_loop fuel s f c t x h (Q : () → vma → Prop) :
  zip_ok s (f :: c) t → is_tbranch t → ctx_ok (f :: c) h → tcolor t = Red →
  bh t = Some h → no_red_red t → pivots_ok t → max_ok_but x t → x ∈ ptrs t →
  (length (f :: c) < fuel)%nat →
  (∀ s' T h', zip_ok s' [] T → rebuilt x h' T (plug (f :: c) t) → evolves s s' → Q () s') →
  wp (fix_insert_loop fuel (ptr t)) Q s.
Proof.
  revert s f c t h Q. induction fuel as [fuel IH] using lt_wf_ind.
  intros s f c t h Q Hz Hb Hctx Ct Ht Hrr Hp Hm Hx Hfuel HQ.
  destruct fuel as [|fuel]; [lia|]. pose proof Hctx as (Hfo & Hbo & Hred & Hctx').
  destruct (f_color f) eqn:Ef.
  2:{ eapply wp_fix_insert_black; [done|done|apply Hfo|done|]. destruct (rebuilt_plug x h (f :: c) t t) as [h' Hr]; try done.
      { intros _ f' c' [= <- <-]. done. }
      apply (HQ s (plug (f :: c) t) h'); [by rewrite <-zip_plug|done|done]. }
  destruct (Hred eq_refl) as (Bo & g & c1 & -> & Eg). cbn [fix_insert_loop].
  rewrite wp_bind. eapply wp_focus_parent; [done|done|].
  rewrite wp_bind. eapply wp_parent_color; [exact Hz|apply Hfo|]. rewrite Ef.
  pose proof Hz as Hz'. rewrite zip_up in Hz'.
  rewrite wp_bind.
  replace (f_ptr f) with (ptr (fill1 f t)) by (unfold fill1; apply ptr_TB).
  apply (wp_is_side s Right g c1 (fill1 f t)); [done|apply TB_branch|].
  rewrite wp_bind, wp_unwrap. eexists. split; [done|]. rewrite wp_bind.
  assert ((if bool_decide (f_side g = Right) then Right else Left) = f_side g) as -> by (by destruct (f_side g)).
  apply (wp_fix_insert_step s f g c1 t x h); try done.
  intros k s1 [E1 [(R & Hz1 & -> & HbR & CR & HR)|(F & t' & Hz1 & -> & Hb1 & EF & HpF & HR)]];
    rewrite wp_bind, wp_get; cbn in Hctx'; rewrite Nat.add_0_r in Hctx';
    destruct Hctx' as (Hgo & Hbg & _ & Hctx1); rewrite Eg in Hctx1;
    (assert (x ∈ ptrs (fill1 g (fill1 f t))) as Hx0 by (rewrite !ptrs_fill1; set_solver));
    rewrite !plug_cons in HQ.
  - assert (x ∈ ptrs R) as HxR by (by rewrite (rb_ptrs _ _ _ _ HR)).
    replace (h + height_of Black)%nat with (S h) in Hctx1 by (cbn; lia).
    case_decide as Er; rewrite (zip_root s1 c1 R Hz1) in Er.
    + subst c1. rewrite wp_ret. by apply (HQ s1 R (S h)).
    + destruct c1 as [|f2 c2]; [done|].
      apply (IH fuel ltac:(lia) s1 f2 c2 R (S h)); try done; try apply HR; [cbn in *; lia|].
      intros s2 T h' Hz2 HT E2. apply (HQ s2 T h'); [done| |by trans s1].
      destruct HT as [A1 A2 A3 A4 A5 A6]. split; try done.
      * rewrite A5. rewrite !(ptrs_plug (f2 :: c2)). by rewrite (rb_ptrs _ _ _ _ HR).
      * intros lo hi. rewrite A6. by apply areas_plug_ext, HR.
  - rewrite decide_False by (by rewrite (zip_root s1 (F :: c1) t' Hz1)).
    destruct fuel as [|fuel]; [cbn in Hfuel; lia|]. eapply wp_fix_insert_black; [exact Hz1|done|done|done|].
    assert (x ∈ ptrs (fill1 F t')) as HxR by (by rewrite (rb_ptrs _ _ _ _ HR)).
    replace (h + height_of Black)%nat with (S h) in Hctx1 by (cbn; lia).
    destruct (rebuilt_plug x (S h) c1 _ _ Hctx1 HR HxR) as [h' HT].
    { unfold fill1. rewrite tcolor_TB, EF. done. }
    eapply (HQ s1); [|exact HT|done]. by rewrite zip_up, zip_plug in Hz1.
Qed.
End insert.
