(* ===== verification/VmaLink.v ===== *)
(** * [VMATree::insert]

    The link of a new branch, with its rebalancing, and the four cases of
    [insert], proved for any source of nodes; then the theorems about the
    kernel's source, the head storage page. *)
From S2P Require Import Prelude Paging PageAlloc VmaStore VmaTree VmaSpec VmaRepr VmaOps VmaInsert.

(** ** Well-formed address spaces *)

(** The shape of the tree: red-black, with whole pivots and every recorded size
    right. *)
Record tree_ok (t : tree) : Prop := {
  ok_height : is_Some (bh t);
  ok_rr : no_red_red t;
  ok_black : tcolor t = Black;
  ok_pivots : pivots_ok t;
  ok_max : max_ok t;
}.
Definition address_space (t : tree) : list area := areas 0 (HIGHEST_USER_ADDRESS + 1) t.
Definition areas_ok (l : list area) : Prop := Forall (λ a, area_start a < area_end a) l.

(** Consecutive non-empty areas from [lo] to [hi]. *)
Fixpoint chain (lo hi : Z) (l : list area) : Prop :=
  match l with
  | [] => lo = hi
  | a :: l => area_start a = lo ∧ area_start a < area_end a ∧ chain (area_end a) hi l
  end.
Lemma chain_app lo mid hi l1 l2 : chain lo mid l1 → chain mid hi l2 → chain lo hi (l1 ++ l2).
Proof.
  revert lo. induction l1 as [|a l1 IH]; intros lo; cbn; [by intros ->|]. intros (? & ? & ?). auto.
Qed.
Lemma areas_chain lo hi t : areas_ok (areas lo hi t) → chain lo hi (areas lo hi t).
Proof.
  revert lo hi. induction t as [p l|p c pv mx l IHl r IHr]; cbn; intros lo hi H.
  - apply Forall_cons in H as [H _]. done.
  - apply Forall_app in H as [Hl Hr]. eapply chain_app; eauto.
Qed.
Lemma chain_start lo hi b a r : chain lo hi (b ++ a :: r) → lo ≤ area_start a.
Proof.
  revert lo. induction b as [|a' b IH]; intros lo; cbn; [by intros (-> & _)|].
  intros (? & ? & ?%IH). lia.
Qed.
(** An address is in one area only. *)
Lemma chain_unique lo hi b1 a1 r1 b2 a2 r2 x :
  chain lo hi (b1 ++ a1 :: r1) → b1 ++ a1 :: r1 = b2 ++ a2 :: r2 →
  area_start a1 ≤ x < area_end a1 → area_start a2 ≤ x < area_end a2 →
  b1 = b2 ∧ a1 = a2 ∧ r1 = r2.
Proof.
  revert lo b2. induction b1 as [|a b1 IH]; intros lo [|a' b2]; cbn; intros Hc [= E E'] H1 H2.
  - done.
  - destruct Hc as (_ & _ & Hc). rewrite E' in Hc. apply chain_start in Hc. subst. lia.
  - destruct Hc as (_ & _ & Hc). apply chain_start in Hc. subst. lia.
  - destruct Hc as (_ & _ & Hc). destruct (IH _ b2 Hc E' H1 H2) as (-> & -> & ->). by subst.
Qed.
Lemma chain_end lo hi b a r : chain lo hi (b ++ a :: r) → area_end a ≤ hi.
Proof.
  assert (∀ lo l, chain lo hi l → lo ≤ hi) as Hle.
  { intros lo' l. revert lo'. induction l as [|x l IH]; intros lo'; cbn; [lia|]. intros (? & ? & ?%IH). lia. }
  revert lo. induction b as [|a' b IH]; intros lo; cbn; [by intros (_ & _ & ?%Hle)|].
  intros (? & ? & ?%IH). lia.
Qed.

(** Leaves and branches share no node. *)
Fixpoint branch_ptrs (t : tree) : list NodePtr :=
  match t with TLeaf _ _ => [] | TBranch p _ _ _ l r => p :: branch_ptrs l ++ branch_ptrs r end.
Lemma ptrs_split lo hi t : ptrs t ≡ₚ (area_ptr <$> areas lo hi t) ++ branch_ptrs t.
Proof.
  revert lo hi. induction t as [p l|p c pv mx l IHl r IHr]; intros lo hi; cbn; [done|].
  rewrite fmap_app, (IHl lo pv), (IHr pv hi).
  rewrite <-Permutation_middle. apply perm_skip. solve_Permutation.
Qed.
Lemma branch_in_plug c p cl pv mx l r : p ∈ branch_ptrs (plug c (TBranch p cl pv mx l r)).
Proof.
  assert (∀ t, p ∈ branch_ptrs t → p ∈ branch_ptrs (plug c t)) as H.
  { induction c as [|f c IH]; intros t Ht; [done|]. rewrite plug_cons. apply IH.
    unfold fill1, TB. destruct (f_side f); cbn; set_solver. }
  apply H. cbn. apply elem_of_cons. by left.
Qed.
Lemma branch_not_area c p cl pv mx l r lo hi :
  let t := plug c (TBranch p cl pv mx l r) in NoDup (ptrs t) → p ∉ area_ptr <$> areas lo hi t.
Proof.
  intros t Hnd Hp. rewrite (ptrs_split lo hi) in Hnd. apply NoDup_app in Hnd as (_ & Hd & _).
  apply (Hd p Hp), branch_in_plug.
Qed.
Lemma plug_leaf_area c p l lo hi : p ∈ area_ptr <$> areas lo hi (plug c (TLeaf p l)).
Proof.
  destruct (areas_plug lo hi c) as (b & a & E). rewrite E, !fmap_app. cbn. set_solver.
Qed.

Section link.
Context {room : nat → vma → Prop} {reserved : vma → NodePtr → Prop}
  `{Hsrc : !NodeStore room reserved}.
Abbreviation zip_ok := (zip_ok (reserved := reserved)).
Abbreviation evolves := (evolves (room := room) (reserved := reserved)).
Abbreviation kept := (kept (room := room) (reserved := reserved)).

(** ** Rebalancing after a link *)

Lemma repaint_branch t cl : is_tbranch t → is_tbranch (repaint cl t).
Proof. by destruct t. Qed.
Lemma rebuilt_paint x h T T0 : rebuilt x h T T0 → is_tbranch T → ∃ h', rebuilt x h' (repaint Black T) T0.
Proof.
  intros [] Hb. destruct T as [|p c pv mx l r]; [done|].
  apply (bh_TB_inv Left) in rb_height as (k & Hl & Hr & _). exists (S k). split; try done.
  - replace (S k) with (k + height_of Black)%nat by (cbn; lia). by apply (bh_TB Left).
  - destruct rb_rr as [_ Hrr]. by split.
Qed.
Lemma wp_fix_insert s f c t x h (Q : () → vma → Prop) :
  zip_ok s (f :: c) t → is_tbranch t → ctx_ok (f :: c) h → tcolor t = Red →
  bh t = Some h → no_red_red t → pivots_ok t → max_ok_but x t → x ∈ ptrs t →
  (∀ s' T h', zip_ok s' [] T → rebuilt x h' T (plug (f :: c) t) → tcolor T = Black → evolves s s' → Q () s') →
  wp (fix_insert (ptr t)) Q s.
Proof.
  intros Hz Hb Hctx Ct Ht Hrr Hp Hm Hx HQ. unfold fix_insert, is_branch.
  destruct (zip_branch _ _ _ Hz Hb) as (b & Hn & _).
  rewrite wp_bind, wp_bind. eapply wp_read_node; [done|]. rewrite wp_ret, wp_bind, wp_rassert.
  split; [done|]. unfold with_fuel. rewrite wp_bind, wp_bind, wp_get.
  eapply wp_fix_insert_loop; try done.
  { pose proof (zip_fuel _ _ _ Hz). cbn [length] in *. lia. }
  intros s1 T h1 Hz1 HR E1. rewrite wp_bind, wp_get, wp_bind.
  assert (is_tbranch T) as HbT.
  { assert (2 ≤ length (ptrs T))%nat as Hl; [|by destruct T; cbn in Hl; [lia|]].
    rewrite (rb_ptrs _ _ _ _ HR), (ptrs_plug (f :: c)), length_app. cbn [ctx_ptrs flat_map app length].
    destruct t; cbn; lia. }
  pose proof Hz1 as (Hr1 & _). cbn [reprc] in Hr1. rewrite Hr1.
  destruct (zip_branch _ _ _ Hz1 HbT) as (b1 & Hn1 & _). eapply wp_unwrap_branch; [done|].
  eapply wp_paint; [exact Hz1|done|apply HR|]. intros s2 Hz2 E2.
  destruct (rebuilt_paint _ _ _ _ HR HbT) as [h2 HR2].
  eapply HQ; [done|done|by destruct T|by trans s1].
Qed.

(** The refresh of the sizes above the linked branch completes the tree. *)
Lemma wp_refresh_rebuilt s x h T T0 (Q : () → vma → Prop) :
  zip_ok s [] T → rebuilt x h T T0 → tcolor T = Black →
  x ∈ ptrs T0 → x ∉ area_ptr <$> areas 0 0 T0 →
  (∀ s' T', zip_ok s' [] T' → tree_ok T' → ptrs T' ≡ₚ ptrs T0 →
     (∀ lo hi, areas lo hi T' = areas lo hi T0) → evolves s s' → Q () s') →
  wp (update_max_empty_area_data x) Q s.
Proof.
  intros Hz [Hh Hrr Hp Hm Hptr Har] HB Hx Hna HQ.
  assert (x ∈ ptrs T) as HxT by (by rewrite Hptr).
  destruct (tree_zipper T x HxT) as (c & t & -> & Ex).
  destruct t as [p l|p cl pv mx l r].
  { cbn in Ex. subst p. destruct Hna. rewrite <-Har. apply plug_leaf_area. }
  cbn in Ex. subst p. pose proof Hz as (_ & _ & Hnd & _). rewrite app_nil_r in Hnd.
  destruct (max_but_plug x c (TBranch x cl pv mx l r)) as [Hmt Hmc];
    [apply (ptr_in_ptrs (TBranch x cl pv mx l r))|done|done|].
  destruct (strip_facts _ _ (strip_refresh c (TBranch x cl pv mx l r))) as (_ & Eptr & Ecol & Ebh & Err & Ear).
  rewrite <-zip_plug in Hz. eapply wp_update_max; [exact Hz|]. intros s' Hz' E'.
  apply (HQ s' _ Hz'); [split| | |done].
  - rewrite Ebh, Hh. eauto.
  - by apply Err.
  - by rewrite Ecol.
  - by apply refresh_pivots.
  - apply refresh_max; [done|]. rewrite ptrs_plug in Hnd. apply NoDup_app in Hnd as (Hnd & _).
    cbn in Hnd, Hmt. apply NoDup_cons in Hnd as [Hn _]. rewrite elem_of_app in Hn.
    destruct Hmt as (_ & ? & ?). split; (apply (max_ok_but_notin x); [tauto|done]).
  - by rewrite Eptr.
  - intros lo hi. by rewrite Ear.
Qed.

(** A branch over two leaves, its gap size still to be computed. *)
Lemma leaf_branch_rebuilt nb cl pv L R :
  (∃ p1 l1 p2 l2, L = TLeaf p1 l1 ∧ R = TLeaf p2 l2 ∧ leaf_pos l1 ∧ leaf_pos l2) → pivot_ok pv →
  rebuilt nb (height_of cl) (TBranch nb cl pv 0 L R) (TBranch nb cl pv 0 L R).
Proof.
  intros (p1 & l1 & p2 & l2 & -> & -> & Hl1 & Hl2) [Hpv0 Hpv].
  split; [by destruct cl|by destruct cl| | |done|done]; cbn.
  - split_and!; try done; lia.
  - split; [left; set_solver|done].
Qed.
(** The end of [link_in_branch]: the sizes of the gaps are computed. *)
Lemma wp_finish_link s T h c nb cl pv L R (Q : () → vma → Prop) :
  let n := TBranch nb cl pv 0 L R in
  zip_ok s [] T → rebuilt nb h T (plug c n) → tcolor T = Black →
  (∀ s' T', zip_ok s' [] T' → tree_ok T' → ptrs T' ≡ₚ ptrs n ++ ctx_ptrs c →
     (∀ lo hi, areas lo hi T' = areas lo hi (plug c (TBranch nb Black pv 0 L R))) → evolves s s' → Q () s') →
  wp (b ← unwrap_branch nb; update_max_empty_area_data b) Q s.
Proof.
  intros n Hz HR HB HQ. rewrite wp_bind. pose proof Hz as (_ & _ & Hnd & _). rewrite app_nil_r in Hnd.
  rewrite (rb_ptrs _ _ _ _ HR) in Hnd.
  assert (nb ∈ ptrs (plug c n)) as Hin by (rewrite ptrs_plug; set_solver).
  assert (nb ∉ area_ptr <$> areas 0 0 (plug c n)) as Hna by (by apply branch_not_area).
  destruct (tree_zipper T nb) as (c3 & t3 & -> & Ex); [by rewrite (rb_ptrs _ _ _ _ HR)|].
  destruct t3 as [q l|q cl3 pv3 mx3 l3 r3].
  { cbn in Ex. subst q. destruct Hna. rewrite <-(rb_areas _ _ _ _ HR). apply plug_leaf_area. }
  pose proof Hz as Hz'. rewrite <-zip_plug in Hz'.
  destruct (zip_branch _ _ _ Hz') as (b & Hn & _); [done|]. rewrite Ex in Hn. eapply wp_unwrap_branch; [exact Hn|].
  eapply (wp_refresh_rebuilt s nb h); [exact Hz|exact HR|done|done|done|].
  intros s4 T' Hz4 HT' E4 E4' E5. apply (HQ s4 T' Hz4 HT'); [by rewrite E4, ptrs_plug| |done].
  intros. rewrite E4'. by apply areas_plug_ext.
Qed.
(** [link_in_branch]: the hole takes the new branch, and the tree is
    rebalanced. *)
Lemma wp_link_in_branch s c g nb pv L R (Q : () → vma → Prop) :
  let nt cl := TBranch nb cl pv 0 L R in
  reprc (node_at s) (root s) g c → repr (node_at s) (ctx_parent c) (nt Black) →
  NoDup (ptrs (nt Black) ++ ctx_ptrs c) → Forall (reserved s) (ptrs (nt Black) ++ ctx_ptrs c) →
  ctx_ok c 0 → (∃ p1 l1 p2 l2, L = TLeaf p1 l1 ∧ R = TLeaf p2 l2 ∧ leaf_pos l1 ∧ leaf_pos l2) → pivot_ok pv →
  (∀ s' T, zip_ok s' [] T → tree_ok T → ptrs T ≡ₚ ptrs (nt Black) ++ ctx_ptrs c →
     (∀ lo hi, areas lo hi T = areas lo hi (plug c (nt Black))) → evolves s s' → Q () s') →
  wp (link_in_branch nb (ctx_head c)) Q s.
Proof.
  intros nt Hc Ht Hnd Hres Hctx Hleaves Hpv HQ.
  pose proof (λ cl, leaf_branch_rebuilt nb cl pv L R Hleaves Hpv) as Hn0.
  unfold link_in_branch. rewrite wp_bind. destruct c as [|f c]; cbn [ctx_head].
  - apply wp_set_root. intros s1 HN Hr E1.
    eapply (wp_finish_link s1 (nt Black) 1 [] nb Black pv L R); [|exact (Hn0 Black)|done|].
    + split; [done|]. split; [eapply repr_ext; [|exact Ht]; intros; apply HN|]. split; [done|].
      eapply Forall_impl; [exact Hres|]. intros z. apply E1.
    + intros s2 T Hz2 HT E E' E2. apply (HQ s2 T); try done. by trans s1.
  - pose proof Hc as (Hf & Ho & Hc').
    assert (f_ptr f ∉ ptrs (nt Black) ∧ f_ptr f ∉ ptrs (f_other f) ∧ f_ptr f ∉ ctx_ptrs c) as (Df1 & Df2 & Df3).
    { cbn [ctx_ptrs flat_map app] in Hnd. fold (ctx_ptrs c) in Hnd.
      rewrite <-Permutation_middle in Hnd. apply NoDup_cons in Hnd as [Hd _].
      rewrite !elem_of_app in Hd. tauto. }
    rewrite wp_bind. eapply wp_modify_branch; [exact Hf|]. rewrite mkb_with_child. intros s1 HN Hr E1.
    assert (zip_ok s1 (f :: c) (nt Black)) as Hz1.
    { split_and!; [|by eapply repr_ext; [|exact Ht]; intros z Hz; heap|done|].
      - split; [by heap|]. split; [eapply repr_ext; [|exact Ho]; intros z Hz; by heap|].
        rewrite Hr. eapply reprc_ext; [|exact Hc']. intros z Hz. by heap.
      - eapply Forall_impl; [exact Hres|]. intros z. apply E1. }
    destruct (zip_branch _ _ _ Hz1) as (b & Hn & _); [done|]. rewrite wp_bind.
    eapply wp_unwrap_branch; [exact Hn|]. rewrite wp_bind.
    change (ptr (nt Black)) with nb in *.
    apply (wp_paint s1 (f :: c) (nt Black) Red); [done|done|apply (Hn0 Black)|].
    intros s2 Hz2 E2. cbn [repaint nt] in Hz2.
    rewrite wp_bind. pose proof Hz2 as (Hc2 & _). destruct Hc2 as (Hf2 & _).
    eapply wp_read_branch; [exact Hf2|]. cbn [parent mkb].
    assert (∀ s3 T h, zip_ok s3 [] T → rebuilt nb h T (plug (f :: c) (nt Red)) → tcolor T = Black →
      evolves s2 s3 → wp (b ← unwrap_branch nb; update_max_empty_area_data b) Q s3) as Hrest.
    { intros s3 T h3 Hz3 HR HB E3. eapply wp_finish_link; [exact Hz3|exact HR|done|].
      intros s4 T' Hz4 HT' E4 E4' E5. apply (HQ s4 T' Hz4 HT'); [done|done|].
      trans s1; [done|]. trans s2; [done|]. by trans s3. }
    pose proof (Hn0 Red) as [Hbn Hrn Hpn Hmn _ _].
    destruct c as [|g0 c0]; cbn [ctx_parent].
    + rewrite wp_ret.
      destruct (rebuilt_plug nb 0 [f] (nt Red) (nt Red)) as [h Hrb];
        [exact Hctx|by split|apply (ptr_in_ptrs (nt Red))| |].
      { intros _ f' c' [= <- <-]. destruct (f_color f) eqn:E; [|done].
        destruct Hctx as (_ & _ & Hr0 & _). destruct (Hr0 E) as (_ & ? & ? & ? & _). done. }
      eapply (Hrest s2); [by rewrite <-zip_plug|exact Hrb| |done].
      cbn. unfold fill1. rewrite tcolor_TB. destruct (f_color f) eqn:E; [|done].
      destruct Hctx as (_ & _ & Hr0 & _). destruct (Hr0 E) as (_ & ? & ? & ? & _). done.
    + change nb with (ptr (nt Red)) at 1.
      eapply (wp_fix_insert s2 f (g0 :: c0) (nt Red) nb 0); try done.
      apply (ptr_in_ptrs (nt Red)).
Qed.

(** ** Finding an area *)

Lemma ctx_head_parent c : fst <$> ctx_head c = ctx_parent c.
Proof. by destruct c. Qed.
Lemma wp_find_area_in s t x before a after (Q : LeafInfo → vma → Prop) :
  zip_ok s [] t → pivots_ok t → areas_ok (address_space t) → address_space t = before ++ a :: after →
  area_start a ≤ x < area_end a →
  (∀ c, zip_ok s c (TLeaf (area_ptr a) (area_leaf a)) → t = plug c (TLeaf (area_ptr a) (area_leaf a)) →
     (∀ t', address_space (plug c t') = before ++ areas (area_start a) (area_end a) t' ++ after) →
     Q {| leaf := area_ptr a; parent_and_side := ctx_head c; leaf_start := area_start a;
          leaf_end := area_end a - 1 |} s) →
  wp (get_leaf_containing x) Q s.
Proof.
  intros Hz Hok Ha Has Hx HQ. pose proof (areas_chain _ _ _ Ha) as Hch. fold (address_space t) in Hch.
  assert (0 ≤ area_start a ∧ area_end a ≤ HIGHEST_USER_ADDRESS + 1) as [H0 H1].
  { rewrite Has in Hch. split; [by eapply chain_start|by eapply chain_end]. }
  apply (wp_get_leaf_containing s t); [done..|lia|].
  intros c p l start end_ Et Hh Hse. destruct (areas_plug 0 (HIGHEST_USER_ADDRESS + 1) c) as (b & r & E).
  rewrite Hh in E. cbn [fst snd] in E. pose proof Has as Has'.
  rewrite Et in Has'. unfold address_space in Has'. rewrite E in Has'. cbn [areas app] in Has'.
  assert (b = before ∧ Area start (end_ + 1) p l = a ∧ r = after) as (-> & <- & ->).
  { eapply (chain_unique 0 (HIGHEST_USER_ADDRESS + 1)); [|exact Has'| |done]; [|cbn; lia].
    by rewrite Has', <-Has. }
  cbn [area_start area_end area_ptr area_leaf] in HQ. rewrite Z.add_simpl_r in HQ.
  apply (HQ c); try done. rewrite zip_plug. by rewrite <-Et.
Qed.
Lemma wp_find_area s t x before a after (Q : LeafInfo → vma → Prop) :
  zip_ok s [] t → tree_ok t → areas_ok (address_space t) → address_space t = before ++ a :: after →
  area_start a ≤ x < area_end a →
  (∀ c, zip_ok s c (TLeaf (area_ptr a) (area_leaf a)) → t = plug c (TLeaf (area_ptr a) (area_leaf a)) →
     ctx_ok c 0 → leaf_pos (area_leaf a) →
     (∀ t', address_space (plug c t') = before ++ areas (area_start a) (area_end a) t' ++ after) →
     Q {| leaf := area_ptr a; parent_and_side := ctx_head c; leaf_start := area_start a;
          leaf_end := area_end a - 1 |} s) →
  wp (get_leaf_containing x) Q s.
Proof.
  intros Hz [[n Hn] Hrr Hb Hp Hm] Ha Has Hx HQ. eapply wp_find_area_in; try done.
  intros c Hzc -> Har. destruct (plug_ok_inv c _ n Hn Hrr Hp Hm Hb) as (h & [= <-] & Hctx & _ & Hpl & _).
  by apply HQ.
Qed.

(** ** Changing a leaf *)

(** A context survives allocations and writes outside it. *)
Definition ctx_at (s : vma) (g : NodePtr) (c : ctx) : Prop :=
  reprc (node_at s) (root s) g c ∧ Forall (reserved s) (ctx_ptrs c).
Lemma write_ctx p n s s' g c :
  (∀ q, node_at s' q = if decide (q = p) then Some n else node_at s q) → root s' = root s → kept s s' →
  p ∉ ctx_ptrs c → ctx_at s g c → ctx_at s' g c.
Proof.
  intros HN Hr K Hp [Hc Hres]. split.
  - rewrite Hr. eapply reprc_ext; [|exact Hc]. intros x Hx. by heap.
  - eapply Forall_impl; [exact Hres|]. intros x. apply K.
Qed.
Lemma wp_unwrap_leaf p l (Q : NodePtr → vma → Prop) s :
  node_at s p = Some (Leaf l) → Q p s → wp (unwrap_leaf p) Q s.
Proof. intros H HQ. unfold unwrap_leaf. rewrite wp_bind. eapply wp_read_node; [done|]. by rewrite wp_ret. Qed.
Lemma wp_set_size p sz n (Q : () → vma → Prop) s :
  node_at s p = Some (Leaf (Empty sz)) →
  (∀ s', (∀ q, node_at s' q = if decide (q = p) then Some (Leaf (Empty n)) else node_at s q) →
     root s' = root s → kept s s' → Q () s') →
  wp (unwrap_empty_set_size p n) Q s.
Proof.
  intros H HQ. unfold unwrap_empty_set_size, unwrap_empty_size, read_leaf. rewrite wp_bind, wp_bind, wp_bind.
  eapply wp_read_node; [done|]. rewrite !wp_ret. apply wp_write_node; [by eexists|done].
Qed.

Lemma ctx_root_black f c h t : ctx_ok (f :: c) h → tcolor (plug (f :: c) t) = Black.
Proof.
  revert f h t. induction c as [|g c IH]; intros f h t (Hf & Hb & Hr & Hc).
  - cbn. unfold fill1. rewrite tcolor_TB. destruct (f_color f) eqn:E; [|done].
    by destruct (Hr eq_refl) as (_ & ? & ? & ? & _).
  - rewrite plug_cons. by apply (IH g (h + height_of (f_color f))%nat).
Qed.
(** Refreshing the sizes above a changed leaf. *)
Lemma wp_refresh_strip s c p l (Q : () → vma → Prop) :
  zip_ok s c (TLeaf p l) → ctx_ok c 0 → leaf_pos l →
  (∀ s' T, zip_ok s' [] T → tree_ok T → strip T = strip (plug c (TLeaf p l)) → kept s s' → Q () s') →
  wp (match ctx_parent c with Some q => update_max_empty_area_data q | None => mret () end) Q s.
Proof.
  intros Hz Hctx Hl HQ. destruct (plug_ok c 0 (TLeaf p l)) as (Hh & Hrr & Hp); try done.
  destruct c as [|f c]; cbn [ctx_parent].
  - rewrite wp_ret. by apply (HQ s (TLeaf p l)).
  - pose proof Hz as Hz'. rewrite zip_up in Hz'. pose proof (ctx_ok_max _ _ Hctx) as Hmax.
    apply Forall_cons in Hmax as [Hmf Hmc]. set (t := fill1 f (TLeaf p l)) in *.
    assert (∃ a b, t = TBranch (f_ptr f) (f_color f) (f_pivot f) (f_max f) a b ∧ max_ok a ∧ max_ok b)
      as (a & b & Et & Hma & Hmb) by (unfold t, fill1; destruct (f_side f); by eexists _, _).
    rewrite Et in Hz'. eapply wp_update_max; [exact Hz'|]. rewrite <-Et. intros s' Hz2 Hev.
    destruct (strip_facts _ _ (strip_refresh c t)) as (_ & Eptr & Ecol & Ebh & Err & Ear).
    apply (HQ s' _ Hz2); [split| |apply Hev].
    + by rewrite Ebh.
    + by apply Err.
    + rewrite Ecol. by apply (ctx_root_black f c 0 (TLeaf p l)).
    + by apply refresh_pivots.
    + apply refresh_max; [done|]. by rewrite Et.
    + exact (strip_refresh c t).
Qed.
Lemma wp_refresh_leaf s c p l (Q : () → vma → Prop) :
  zip_ok s c (TLeaf p l) → ctx_ok c 0 → leaf_pos l →
  (∀ s' T, zip_ok s' [] T → tree_ok T → ptrs T ≡ₚ p :: ctx_ptrs c →
     (∀ lo hi, areas lo hi T = areas lo hi (plug c (TLeaf p l))) → kept s s' → Q () s') →
  wp (match ctx_parent c with Some q => update_max_empty_area_data q | None => mret () end) Q s.
Proof.
  intros Hz Hctx Hl HQ. eapply wp_refresh_strip; try done. intros s' T Hz' HT E K.
  destruct (strip_facts _ _ E) as (_ & Eptr & _ & _ & _ & Ear). apply (HQ s' T); try done.
  rewrite Eptr. apply (ptrs_plug c (TLeaf p l)).
Qed.
End link.

Section insert.
Context {room : nat → vma → Prop} {reserved : vma → NodePtr → Prop}
  `{Hsrc : !NodeSource find_and_reserve_node room reserved}.
Abbreviation zip_ok := (zip_ok (reserved := reserved)).
Abbreviation evolves := (evolves (room := room) (reserved := reserved)).
Abbreviation kept := (kept (room := room) (reserved := reserved)).
Abbreviation ctx_at := (ctx_at (reserved := reserved)).

(** ** Allocating nodes *)

(** [p] is a new node that holds [n]. *)
Record grown (p : NodePtr) (n : Node) (k : nat) (s s' : vma) : Prop := {
  gr_fresh : ¬ reserved s p;
  gr_reserved : ∀ q, reserved s' q ↔ q = p ∨ reserved s q;
  gr_node : node_at s' p = Some n;
  gr_same : ∀ q, reserved s q → node_at s' q = node_at s q;
  gr_room : room k s';
  gr_root : root s' = root s;
  gr_used : pages_used s' = pages_used s;
  gr_mem : mem s' = mem s;
}.
Lemma wp_reserve s k (Q : result NodePtr VMAMapError → vma → Prop) :
  room (S k) s → (∀ p n s', grown p n k s s' → Q (Ok p) s') → wp find_and_reserve_node Q s.
Proof.
  intros Hr HQ. eapply wp_mono; [by apply source_reserve|].
  intros r s' (p & -> & Hf & Hres & Hsame & Hk & Hrt & Hu & Hm & _).
  destruct (source_readable s' p) as [n Hn]; [by apply Hres; left|]. apply (HQ p n). by split.
Qed.
Lemma wp_new_node n s k (Q : result NodePtr VMAMapError → vma → Prop) :
  room (S k) s → (∀ p s', grown p n k s s' → Q (Ok p) s') →
  wp (r ← find_and_reserve_node;
      match r with Err e => mret (Err e) | Ok p => write_node p n;; mret (Ok p) end) Q s.
Proof.
  intros Hr HQ. rewrite wp_bind. apply (wp_reserve s k); [done|]. intros p n0 s1 [Hf Hres Hn Hs Hk Hrt Hu Hm].
  rewrite wp_bind. apply wp_write_node; [by eexists|]. intros s2 HN Hrt2 [Hres2 Hk2 _ Hu2 Hm2].
  rewrite wp_ret. apply HQ. split; try congruence; [| | |by apply Hk2].
  - intros q. by rewrite Hres2, Hres.
  - by rewrite HN, decide_True.
  - intros q Hq. rewrite HN, decide_False; [by apply Hs|]. by intros ->.
Qed.
Lemma grown_some p n k s s' q : grown p n k s s' → reserved s q → reserved s' q ∧ q ≠ p.
Proof. intros [] Hq. split; [apply gr_reserved0; by right|]. by intros ->. Qed.
Lemma grown_same p n k s s' q m : grown p n k s s' → reserved s q → node_at s q = m → node_at s' q = m.
Proof. intros G Hq <-. by apply G. Qed.
Lemma grown_ctx p n k s s' g c : grown p n k s s' → ctx_at s g c → ctx_at s' g c ∧ p ∉ ctx_ptrs c.
Proof.
  intros G [Hc Hr]. rewrite Forall_forall in Hr. split; [split|].
  - rewrite (gr_root _ _ _ _ _ G). eapply reprc_ext; [|exact Hc]. intros x Hx. by apply G, Hr.
  - apply Forall_forall. intros x Hx. apply (grown_some _ _ _ _ _ _ G). by apply Hr.
  - intros Hx. apply (gr_fresh _ _ _ _ _ G). by apply Hr.
Qed.
(** ** [insert] *)

(** A gap from [lo] to [hi] once a segment is taken out of it: what is left of
    the gap before the segment, the segment, and what is left after. *)
Definition carve (lo hi start len flags : Z) (before used after : NodePtr) : list area :=
  (if lo <? start then [Area lo start before (Empty (start - lo))] else []) ++
  [Area start (start + len) used (Used flags)] ++
  (if start + len <? hi then [Area (start + len) hi after (Empty (hi - (start + len)))] else []).

(** The new address space: the gap is carved, the tree is well formed. *)
Definition carved (before after : list area) (lo hi start len flags : Z) (k : nat) (s : vma)
    (r : result NodePtr VMAMapError) (s' : vma) : Prop :=
  ∃ T x y z, r = Ok x ∧ zip_ok s' [] T ∧ tree_ok T ∧
    address_space T = before ++ carve lo hi start len flags y x z ++ after ∧
    room k s' ∧ pages_used s' = pages_used s ∧ mem s' = mem s.

(** Two leaves below a new branch take the place of a leaf. *)
Lemma wp_link_leaves s c g nb pv p1 l1 p2 l2 (Q : () → vma → Prop) :
  reprc (node_at s) (root s) g c →
  node_at s nb = Some (Branch (BranchNode_new pv false Black (ctx_parent c) p1 p2)) →
  node_at s p1 = Some (Leaf l1) → node_at s p2 = Some (Leaf l2) →
  NoDup (nb :: p1 :: p2 :: ctx_ptrs c) → Forall (reserved s) (nb :: p1 :: p2 :: ctx_ptrs c) →
  ctx_ok c 0 → leaf_pos l1 → leaf_pos l2 → pivot_ok pv →
  (∀ s' T, zip_ok s' [] T → tree_ok T → ptrs T ≡ₚ nb :: p1 :: p2 :: ctx_ptrs c →
     (∀ lo hi, areas lo hi T = areas lo hi (plug c (TBranch nb Black pv 0 (TLeaf p1 l1) (TLeaf p2 l2)))) →
     evolves s s' → Q () s') →
  wp (link_in_branch nb (ctx_head c)) Q s.
Proof.
  intros Hc Hn H1 H2 Hnd Hres Hctx Hl1 Hl2 Hpv HQ.
  rewrite (BranchNode_new_mkb Left) in Hn by done.
  apply (wp_link_in_branch s c g nb pv (TLeaf p1 l1) (TLeaf p2 l2)); try done.
  by eexists _, _, _, _.
Qed.
Lemma pivot_ok_of x : 0 ≤ x ≤ HIGHEST_USER_ADDRESS + 1 → x mod 4 = 0 → pivot_ok x.
Proof. unfold HIGHEST_USER_ADDRESS. intros ? ?. split; [lia|done]. Qed.

Section cases.
Context (s : vma) (c : ctx) (p : NodePtr) (sz lo hi start len flags : Z) (before after : list area) (k : nat).
Context (Hz : zip_ok s c (TLeaf p (Empty sz))) (Hctx : ctx_ok c 0) (Hsz : 0 ≤ sz).
Context (Har : ∀ t', address_space (plug c t') = before ++ areas lo hi t' ++ after).
Context (Hlen : 0 < len) (Hlo : lo ≤ start) (Hhi : start + len ≤ hi).
Context (Hb : 0 ≤ lo ∧ hi ≤ HIGHEST_USER_ADDRESS + 1).
Context (Hs4 : start mod 4 = 0) (Hl4 : len mod 4 = 0).
Let gap : LeafInfo :=
  {| leaf := p; parent_and_side := ctx_head c; leaf_start := lo; leaf_end := hi - 1 |}.
Abbreviation carved := (carved before after lo hi start len flags k s).

Lemma gap_facts : ctx_at s p c ∧ node_at s p = Some (Leaf (Empty sz)) ∧
  reserved s p ∧ p ∉ ctx_ptrs c ∧ NoDup (ctx_ptrs c).
Proof.
  destruct Hz as (? & ? & Hnd & Hf). cbn in Hf, Hnd. apply Forall_cons in Hf as [? ?].
  by apply NoDup_cons in Hnd as [? ?].
Qed.

Lemma wp_insert_whole : start = lo → start + len = hi → room k s → wp (insert_whole gap flags) carved s.
Proof.
  intros -> E Hroom. destruct gap_facts as (Hc & Hp & Hrp & Hpc & Hnd).
  unfold insert_whole. change (leaf gap) with p. rewrite wp_bind. apply wp_write_node; [by eexists|].
  intros s1 N1 R1 K1. cbn [gap parent_and_side]. rewrite wp_bind, ctx_head_parent.
  assert (zip_ok s1 c (TLeaf p (Used flags))) as Hz1.
  { destruct (write_ctx _ _ _ _ _ _ N1 R1 K1 Hpc Hc) as [Hc1 Hr1].
    split; [done|]. split; [cbn [repr]; by heap|]. split; [by constructor|].
    constructor; [by apply K1|done]. }
  eapply wp_refresh_leaf; [exact Hz1|done|done|]. intros s2 T Hz2 HT _ HA K2. rewrite wp_ret.
  exists T, p, p, p. split; [done|]. split; [done|]. split; [done|]. split.
  - unfold address_space. rewrite HA. fold (address_space (plug c (TLeaf p (Used flags)))). rewrite Har.
    unfold carve. rewrite (proj2 (Z.ltb_ge _ _)) by lia. rewrite (proj2 (Z.ltb_ge _ _)) by lia. cbn.
    by rewrite E.
  - destruct K1, K2. split_and!; [auto|congruence..].
Qed.

(** The shrunk gap [p] and the new leaf [u] below the new branch [nb]. *)
Lemma wp_finish_pair s1 s2 u nb n (side : Side) pv new_size (Q : result NodePtr VMAMapError → vma → Prop) :
  grown u (Leaf (Used flags)) (S k) s s1 → grown nb n k s1 s2 → pivot_ok pv → 0 ≤ new_size →
  let p1 := match side with Left => u | Right => p end in
  let p2 := match side with Left => p | Right => u end in
  let lf q := if decide (q = p) then Empty new_size else Used flags in
  n = Branch (BranchNode_new pv false Black (ctx_parent c) p1 p2) →
  (∀ s' T, zip_ok s' [] T → tree_ok T →
     address_space T = before ++ areas lo hi (TBranch nb Black pv 0 (TLeaf p1 (lf p1)) (TLeaf p2 (lf p2))) ++ after →
     room k s' → pages_used s' = pages_used s → mem s' = mem s → Q (Ok u) s') →
  wp (q ← unwrap_leaf p; unwrap_empty_set_size q new_size;; link_in_branch nb (ctx_head c);; mret (Ok u)) Q s2.
Proof.
  intros G1 G2 Hpv Hn p1 p2 lf -> HQ. destruct gap_facts as (Hc & Hp & Hrp & Hpc & Hnd).
  destruct (grown_ctx _ _ _ _ _ _ _ G1 Hc) as [Hc1 Huc]. destruct (grown_ctx _ _ _ _ _ _ _ G2 Hc1) as [Hc2 Hnc].
  destruct (grown_some _ _ _ _ _ _ G1 Hrp) as [Hrp1 Hpu].
  destruct (grown_some _ _ _ _ _ _ G2 Hrp1) as [Hrp2 Hpn].
  assert (reserved s1 u) as Hru1 by (apply G1; by left).
  destruct (grown_some _ _ _ _ _ _ G2 Hru1) as [Hru2 Hun].
  assert (node_at s2 p = Some (Leaf (Empty sz))) as Hp2
    by (by eapply grown_same; [exact G2|done|]; eapply grown_same).
  assert (node_at s2 u = Some (Leaf (Used flags))) as Hu2
    by (eapply grown_same; [exact G2|done|]; apply G1).
  pose proof (gr_node _ _ _ _ _ G2) as Hn2.
  rewrite wp_bind. eapply wp_unwrap_leaf; [exact Hp2|]. rewrite wp_bind. eapply wp_set_size; [exact Hp2|].
  intros s3 N3 R3 K3. rewrite wp_bind. destruct (write_ctx _ _ _ _ _ _ N3 R3 K3 Hpc Hc2) as [Hc3 Hr3].
  apply (wp_link_leaves s3 c p nb pv p1 (lf p1) p2 (lf p2)); [exact Hc3|by heap|..].
  - unfold p1, lf. destruct side; by heap.
  - unfold p2, lf. destruct side; by heap.
  - unfold p1, p2. destruct side; repeat constructor; set_solver.
  - assert (reserved s3 nb) by (apply K3, G2; by left). assert (reserved s3 p) by (by apply K3).
    assert (reserved s3 u) by (by apply K3). unfold p1, p2. destruct side; by repeat constructor.
  - done.
  - unfold lf. by case_decide.
  - unfold lf. by case_decide.
  - done.
  - intros s4 T Hz4 HT _ HA E4. rewrite wp_ret. apply (HQ s4 T); [done|done| | | |].
    + unfold address_space. rewrite HA. apply Har.
    + by apply E4, K3, G2.
    + destruct E4 as [[]], K3, G1, G2. congruence.
    + destruct E4 as [[]], K3, G1, G2. congruence.
Qed.
Lemma wp_insert_at_end : lo < start → start + len = hi → room (S (S k)) s →
  wp (insert_at_end gap start flags) carved s.
Proof.
  intros Hlt E Hroom. unfold insert_at_end, new_used_leaf, new_branch. rewrite wp_bind.
  apply (wp_new_node _ _ (S k)); [done|]. intros u s1 G1. rewrite wp_bind. apply (wp_new_node _ _ k); [apply G1|].
  intros nb s2 G2. cbn [gap leaf parent_and_side leaf_start] in *. rewrite ctx_head_parent in *.
  assert (p ≠ u) as Hne by (apply (grown_some _ _ _ _ _ _ G1), gap_facts).
  apply (wp_finish_pair s1 s2 u nb _ Right start (start - lo) carved G1 G2); [apply pivot_ok_of; lia|lia|done|].
  intros s' T Hz' HT HA Hk Hu Hm. exists T, u, p, p. split_and!; try done. rewrite HA.
  unfold carve. rewrite (proj2 (Z.ltb_lt _ _)) by lia. rewrite (proj2 (Z.ltb_ge _ _)) by lia.
  cbn [areas]. rewrite decide_True, decide_False by done. by rewrite E.
Qed.
Lemma wp_insert_at_start : lo = start → start + len < hi → room (S (S k)) s →
  wp (insert_at_start gap (start + len - 1) flags) carved s.
Proof.
  intros E Hlt Hroom. unfold insert_at_start, new_used_leaf, new_branch. rewrite wp_bind.
  apply (wp_new_node _ _ (S k)); [done|]. intros u s1 G1. rewrite wp_bind. apply (wp_new_node _ _ k); [apply G1|].
  intros nb s2 G2. cbn [gap leaf parent_and_side leaf_end] in *. rewrite ctx_head_parent in *.
  assert (p ≠ u) as Hne by (apply (grown_some _ _ _ _ _ _ G1), gap_facts).
  replace (start + len - 1 + 1) with (start + len) in * by lia.
  replace (hi - 1 - (start + len - 1)) with (hi - (start + len)) by lia.
  apply (wp_finish_pair s1 s2 u nb _ Left (start + len) (hi - (start + len)) carved G1 G2);
    [apply pivot_ok_of; [lia|]; Z.div_mod_to_equations; lia|lia|done|].
  intros s' T Hz' HT HA Hk Hu Hm. exists T, u, p, p. split_and!; try done. rewrite HA.
  unfold carve. rewrite (proj2 (Z.ltb_ge _ _)) by lia. rewrite (proj2 (Z.ltb_lt _ _)) by lia.
  cbn [areas]. rewrite decide_False, decide_True by done. by rewrite E.
Qed.

(** The state once the four nodes of [insert_inside] are reserved. *)
Record allocated (u e b1 b2 : NodePtr) (s' : vma) : Prop := {
  al_ctx : ctx_at s' p c;
  al_gap : node_at s' p = Some (Leaf (Empty sz));
  al_used : node_at s' u = Some (Leaf (Used flags));
  al_empty : node_at s' e = Some (Leaf (Empty (hi - (start + len))));
  al_branch : node_at s' b1 =
    Some (Branch (BranchNode_new (start + len) false Black (ctx_parent c) u e));
  al_nodup : NoDup (b2 :: b1 :: e :: u :: p :: ctx_ptrs c);
  al_reserved : Forall (reserved s') [b2; b1; e; u; p];
  al_room : room k s';
  al_pages_used : pages_used s' = pages_used s;
  al_mem : mem s' = mem s;
}.
Lemma allocated_intro u e b1 b2 n s1 s2 s3 s4 :
  grown u (Leaf (Used flags)) (S (S (S k))) s s1 →
  grown e (Leaf (Empty (hi - (start + len)))) (S (S k)) s1 s2 →
  grown b1 (Branch (BranchNode_new (start + len) false Black (ctx_parent c) u e)) (S k) s2 s3 →
  grown b2 n k s3 s4 → allocated u e b1 b2 s4.
Proof.
  intros G1 G2 G3 G4. destruct gap_facts as (Hc & Hp & Hrp & Hpc & Hnd).
  destruct (grown_ctx _ _ _ _ _ _ _ G1 Hc) as [Hc1 Huc]. destruct (grown_ctx _ _ _ _ _ _ _ G2 Hc1) as [Hc2 Hec].
  destruct (grown_ctx _ _ _ _ _ _ _ G3 Hc2) as [Hc3 Hb1c]. destruct (grown_ctx _ _ _ _ _ _ _ G4 Hc3) as [Hc4 Hb2c].
  assert (reserved s1 u) as U1 by (apply G1; by left). assert (reserved s2 e) as E2 by (apply G2; by left).
  assert (reserved s3 b1) as B3 by (apply G3; by left). assert (reserved s4 b2) as B4 by (apply G4; by left).
  destruct (grown_some _ _ _ _ _ _ G1 Hrp) as [P1 ?]. destruct (grown_some _ _ _ _ _ _ G2 P1) as [P2 ?].
  destruct (grown_some _ _ _ _ _ _ G3 P2) as [P3 ?]. destruct (grown_some _ _ _ _ _ _ G4 P3) as [P4 ?].
  destruct (grown_some _ _ _ _ _ _ G2 U1) as [U2 ?]. destruct (grown_some _ _ _ _ _ _ G3 U2) as [U3 ?].
  destruct (grown_some _ _ _ _ _ _ G4 U3) as [U4 ?]. destruct (grown_some _ _ _ _ _ _ G3 E2) as [E3 ?].
  destruct (grown_some _ _ _ _ _ _ G4 E3) as [E4 ?]. destruct (grown_some _ _ _ _ _ _ G4 B3) as [B4' ?].
  split; [done| | | | | | |apply G4| |].
  - eapply grown_same, grown_same, grown_same, grown_same; eauto.
  - eapply grown_same, grown_same, grown_same; eauto. apply G1.
  - eapply grown_same, grown_same; eauto. apply G2.
  - eapply grown_same; eauto. apply G3.
  - repeat (apply NoDup_cons; split; [rewrite ?elem_of_cons; naive_solver|]). done.
  - by repeat constructor.
  - destruct G1, G2, G3, G4. congruence.
  - destruct G1, G2, G3, G4. congruence.
Qed.

(** Linking the branch of the segment's end, and finding the segment again. *)
Lemma wp_link_end u e b1 b2 s' (Q : () → vma → Prop) :
  allocated u e b1 b2 s' → start + len < hi → areas_ok (before ++ after) →
  (∀ s2 T, zip_ok s2 [] T → tree_ok T → areas_ok (address_space T) →
     address_space T = before ++ Area lo (start + len) u (Used flags) ::
       Area (start + len) hi e (Empty (hi - (start + len))) :: after →
     node_at s2 p = Some (Leaf (Empty sz)) → reserved s2 p → reserved s2 b2 →
     NoDup (b2 :: p :: ptrs T) → room k s2 → pages_used s2 = pages_used s → mem s2 = mem s → Q () s2) →
  wp (link_in_branch b1 (ctx_head c)) Q s'.
Proof.
  intros [[Hc Hrc] Hp Hu He Hb1 Hnd Hres Hk Hpu Hm] Hlt Hao HQ.
  apply Forall_cons in Hres as [Rb2 Hres]. apply Forall_cons in Hres as [Rb1 Hres].
  apply Forall_cons in Hres as [Re Hres]. apply Forall_cons in Hres as [Ru Hres].
  apply Forall_cons in Hres as [Rp _].
  eapply (wp_link_leaves s' c p b1 (start + len) u _ e); [done|done|done|done| | |done|done|unfold leaf_pos; cbn; lia| |].
  - rewrite !NoDup_cons, !elem_of_cons in *. naive_solver.
  - by repeat constructor.
  - apply pivot_ok_of; [lia|]. Z.div_mod_to_equations. lia.
  - intros s2 T Hz2 HT HP HA E2.
    assert (address_space T = before ++ Area lo (start + len) u (Used flags) ::
       Area (start + len) hi e (Empty (hi - (start + len))) :: after) as EA
      by (unfold address_space; rewrite HA; apply Har).
    apply (HQ s2 T); [done|done| |done|by apply E2|by apply E2|by apply E2| |by apply E2| |].
    + rewrite EA. apply Forall_app in Hao as [Hao1 Hao2]. apply Forall_app. split; [done|].
      constructor; [cbn; lia|]. constructor; [cbn; lia|done].
    + rewrite HP. clear -Hnd. rewrite !NoDup_cons, !elem_of_cons in *. naive_solver.
    + destruct E2 as [[]]. congruence.
    + destruct E2 as [[]]. congruence.
Qed.
Lemma wp_insert_inside : lo < start → start + len < hi → room (S (S (S (S k)))) s → areas_ok (before ++ after) →
  wp (insert_inside gap start (start + len - 1) flags) carved s.
Proof.
  intros Hlt Hgt Hroom Hao. unfold insert_inside, new_used_leaf, new_empty_leaf, new_branch.
  cbn [gap leaf parent_and_side leaf_start leaf_end].
  replace (start + len - 1 + 1) with (start + len) by lia.
  replace (hi - 1 - (start + len - 1)) with (hi - (start + len)) by lia. rewrite ctx_head_parent.
  rewrite wp_bind. apply (wp_new_node _ _ (S (S (S k)))); [done|]. intros u s1 G1.
  rewrite wp_bind. apply (wp_new_node _ _ (S (S k))); [apply G1|]. intros e s2 G2.
  rewrite wp_bind. apply (wp_new_node _ _ (S k)); [apply G2|]. intros b1 s3 G3.
  rewrite wp_bind. apply (wp_reserve _ k); [apply G3|]. intros b2 n s4 G4.
  pose proof (allocated_intro _ _ _ _ _ _ _ _ _ G1 G2 G3 G4) as Hal. clear G1 G2 G3 G4.
  rewrite wp_bind. eapply wp_link_end; [exact Hal|done|done|]. clear Hal.
  intros s5 T Hz5 HT Hao5 HA Hp5 Rp5 Rb5 Hnd5 Hk5 Hpu5 Hm5.
  rewrite wp_bind. eapply (wp_find_area s5 T start before _ _); [done|done|done|exact HA|cbn; lia|].
  cbn [area_ptr area_leaf area_start area_end]. intros c1 Hz1 -> Hctx1 _ Har1.
  pose proof Hz1 as (Hc1 & Hu1 & Hnd1 & Hr1). cbn in Hc1, Hu1, Hnd1, Hr1. apply Forall_cons in Hr1 as [Ru Hr1].
  rewrite ptrs_plug in Hnd5. cbn [ptrs app] in Hnd5.
  apply NoDup_cons in Hnd5 as [Hb2 Hnd5]. rewrite !elem_of_cons in Hb2. pose proof Hnd5 as Hnd6.
  apply NoDup_cons in Hnd5 as [Hp Hnd5]. rewrite !elem_of_cons in Hp.
  rewrite wp_bind, wp_rassert. split; [apply Z.eqb_eq; cbn; lia|]. cbn [leaf parent_and_side].
  destruct (source_readable s5 b2 Rb5) as [n2 Hn2].
  rewrite wp_bind. apply wp_write_node; [by eexists|]. intros s6 N6 R6 K6.
  rewrite wp_bind. eapply wp_unwrap_leaf; [by heap|]. rewrite wp_bind. eapply wp_set_size; [by heap|].
  intros s7 N7 R7 K7. rewrite wp_bind, ctx_head_parent in *.
  destruct (write_ctx _ _ _ _ u c1 N6 R6 K6) as [Hc6 Hr6]; [tauto|done|].
  destruct (write_ctx _ _ _ _ u c1 N7 R7 K7) as [Hc7 Hr7]; [tauto|done|].
  assert (∀ q, reserved s5 q → reserved s7 q) as Hres57 by (intros q Hq; by apply K7, K6).
  eapply (wp_link_leaves s7 c1 u b2 start p _ u); [done|by heap|by heap|by heap| | |done|unfold leaf_pos; cbn; lia|done| |].
  - apply NoDup_cons. split; [by rewrite !elem_of_cons|done].
  - constructor; [by apply Hres57|]. constructor; [by apply Hres57|]. by constructor; [apply Hres57|].
  - apply pivot_ok_of; [lia|done].
  - intros s8 T Hz8 HT8 _ HA8 E8. rewrite wp_ret. exists T, u, p, e.
    split; [done|]. split; [done|]. split; [done|]. split.
    + unfold address_space. rewrite HA8, Har1. unfold carve. rewrite !(proj2 (Z.ltb_lt _ _)) by lia. cbn [areas].
      by rewrite <-!app_assoc.
    + split; [by apply E8, K7, K6|]. destruct E8 as [[]], K6, K7. split; congruence.
Qed.
End cases.

Lemma room_mono k n s : room (n + k) s → room k s.
Proof. induction n as [|n IH]; [done|]. intros H. by apply IH, source_mono. Qed.
(** [insert] on a gap that holds the segment: the four cases are the ways the
    segment can touch the bounds of the gap. *)
Lemma wp_insert_node s t p sz lo hi start len flags before after k :
  zip_ok s [] t → tree_ok t → areas_ok (address_space t) →
  address_space t = before ++ Area lo hi p (Empty sz) :: after → room (4 + k) s →
  0 < len → lo ≤ start → start + len ≤ hi → start mod 4 = 0 → len mod 4 = 0 →
  wp (insert_node start len flags) (carved before after lo hi start len flags k s) s.
Proof.
  intros Hz Hok Hao Has Hroom Hlen Hlo Hhi Hs4 Hl4.
  pose proof (areas_chain _ _ _ Hao) as Hch. fold (address_space t) in Hch. rewrite Has in Hch.
  pose proof (chain_start _ _ _ _ _ Hch) as B0. pose proof (chain_end _ _ _ _ _ Hch) as B1.
  cbn [area_start area_end] in *. unfold insert_node.
  assert (HIGHEST_USER_ADDRESS + 1 < 2 ^ 64) by done.
  rewrite wp_bind, wp_chk. split; [lia|]. rewrite wp_bind, wp_chk. split; [lia|].
  rewrite wp_bind. eapply (wp_find_area s t start); [done|done|done|exact Has|cbn; lia|].
  cbn [area_start area_end area_ptr area_leaf]. intros c Hzc -> Hctx Hsz Har.
  cbn [leaf leaf_start leaf_end]. unfold is_empty_leaf. rewrite wp_bind, wp_bind.
  eapply wp_read_node; [apply Hzc|]. rewrite wp_ret, !wp_bind, !wp_rassert.
  split; [done|]. rewrite wp_bind, wp_rassert. split; [apply Z.leb_le; lia|].
  rewrite wp_bind, wp_rassert. split; [apply Z.leb_le; lia|].
  assert (areas_ok (before ++ after)) as Hao'.
  { rewrite Has in Hao. apply Forall_app in Hao as [? Hao]. apply Forall_cons in Hao as [_ ?].
    by apply Forall_app. }
  destruct (Z.eqb_spec lo start), (Z.eqb_spec (start + len - 1) (hi - 1)),
    (Z.ltb_spec lo start), (Z.ltb_spec (start + len - 1) (hi - 1)); try lia; cbn [andb].
  - eapply (wp_insert_whole _ c p sz); try done; [lia..|]. by apply (room_mono k 4).
  - eapply (wp_insert_at_start _ c p sz); try done; [lia..|]. by apply (room_mono (2 + k) 2).
  - eapply (wp_insert_at_end _ c p sz); try done; [lia..|]. by apply (room_mono (2 + k) 2).
  - eapply (wp_insert_inside _ c p sz); try done; lia.
Qed.
End insert.

(** ** The kernel's trees *)

(** A VMA tree in memory: its nodes are reserved in the storage pages and form
    the well-formed tree [t]. *)
Definition vma_ok (s : vma) (t : tree) : Prop :=
  zip_ok (reserved := node_reserved) s [] t ∧ tree_ok t ∧ areas_ok (address_space t).

Lemma carve_ok lo hi start len flags p x q :
  0 < len → areas_ok (carve lo hi start len flags p x q).
Proof.
  intros Hlen. unfold carve. apply Forall_app. split; [|apply Forall_app; split].
  - destruct (Z.ltb_spec lo start); repeat constructor; cbn; lia.
  - repeat constructor. cbn. lia.
  - destruct (Z.ltb_spec (start + len) hi); repeat constructor; cbn; lia.
Qed.

Lemma length_areas t lo hi lo' hi' : length (areas lo hi t) = length (areas lo' hi' t).
Proof.
  revert lo hi lo' hi'. induction t as [|p c pv mx l IHl r IHr]; intros lo hi lo' hi'; [done|]. cbn.
  by rewrite !length_app, (IHl lo pv lo' pv), (IHr pv hi pv hi').
Qed.
(** A red-black tree is balanced. *)
Lemma bh_depth t h : bh t = Some h → no_red_red t →
  (depth t ≤ 2 * h + 1 + match tcolor t with Red => 1 | Black => 0 end)%nat ∧
  (2 ^ h ≤ length (areas 0 0 t))%nat.
Proof.
  revert h. induction t as [p l|p c pv mx l IHl r IHr]; intros h.
  { intros [= <-] _. cbn. lia. }
  intros (k & Hl & Hr & ->)%(bh_TB_inv Left) (Hc & Hrl & Hrr).
  destruct (IHl _ Hl Hrl) as [Dl Nl]. destruct (IHr _ Hr Hrr) as [Dr Nr].
  cbn [depth areas tcolor]. rewrite length_app, (length_areas l 0 pv 0 0), (length_areas r pv 0 0 0).
  destruct c; cbn [height_of].
  - destruct (Hc eq_refl) as [El Er]. rewrite El in Dl. rewrite Er in Dr. rewrite Nat.add_0_r. lia.
  - replace (k + 1)%nat with (S k) by lia. cbn [Nat.pow]. destruct (tcolor l), (tcolor r); lia.
Qed.
Lemma tree_ok_depth t : tree_ok t → (depth t ≤ 2 * Nat.log2 (length (address_space t)) + 1)%nat.
Proof.
  intros [[h Hh] Hrr Hb _ _]. destruct (bh_depth t h Hh Hrr) as [Hd Hn]. rewrite Hb in Hd.
  unfold address_space. rewrite (length_areas t 0 _ 0 0).
  apply Nat.log2_le_mono in Hn. rewrite Nat.log2_pow2 in Hn by lia. lia.
Qed.
Lemma read_node_same p s n s' : read_node p s = Returns (n, s') → s' = s.
Proof.
  unfold read_node, mbind, M_bind, get, deref. destruct (node_at s p); [|done].
  unfold mret, M_ret. by intros [= _ <-].
Qed.
(** More fuel does not change a search that returns. *)
Lemma get_leaf_loop_fuel n m cur par lo hi addr s r :
  get_leaf_loop n cur par lo hi addr s = Returns r → (n ≤ m)%nat →
  get_leaf_loop m cur par lo hi addr s = Returns r.
Proof.
  revert m cur par lo hi. induction n as [|n IH]; intros [|m] cur par lo hi;
    [intros H; by vm_compute in H..|intros _ ?; lia|].
  cbn [get_leaf_loop]. intros H Hm. unfold mbind, M_bind in *.
  destruct (read_node cur s) as [[nd s']| | |] eqn:En; [|done..].
  apply read_node_same in En as ->.
  destruct nd as [b|l]; [|done].
  destruct (addr <? pivot b); [destruct (pivot b <=? hi)|destruct (lo <=? pivot b)]; cbn in *; try done;
    (apply IH; [done|lia]).
Qed.

Lemma areas_carve_ok before gap after lo hi start len flags p x q :
  areas_ok (before ++ gap :: after) → 0 < len →
  areas_ok (before ++ carve lo hi start len flags p x q ++ after).
Proof.
  intros Hao Hlen. apply Forall_app in Hao as [H1 H2]. apply Forall_cons in H2 as [_ H2].
  apply Forall_app. split; [done|]. apply Forall_app. split; [by apply carve_ok|done].
Qed.

(** C3: inserting a page-aligned segment that lies in an empty area succeeds,
    as long as the head storage page has four free nodes: the empty area is
    replaced in the address space by what is left of it before the segment, the
    used area of the segment and what is left after it, with exact sizes; all
    other areas stay.  The result is again a well-formed tree: red-black (equal
    black heights, no red node with a red child, black root), with every
    recorded largest gap up to date, parent pointers right and no node shared.
    Each insertion uses at most four nodes, and no page of the allocator. *)
Theorem insert_correct (s : vma) (t : tree) p sz lo hi start len flags before after k :
  vma_ok s t → head_room (4 + k) s →
  address_space t = before ++ Area lo hi p (Empty sz) :: after →
  0 < len → lo ≤ start → start + len ≤ hi → start mod 4096 = 0 → len mod 4096 = 0 →
  ∃ used s' T x y, insert_node start len flags s = Returns (Ok used, s') ∧
    vma_ok s' T ∧ head_room k s' ∧
    address_space T = before ++ carve lo hi start len flags x used y ++ after ∧
    pages_used s' = pages_used s ∧ mem s' = mem s.
Proof.
  intros (Hz & Hok & Hao) Hroom Has Hlen Hlo Hhi Hs Hl.
  assert (start mod 4 = 0 ∧ len mod 4 = 0) as [Hs4 Hl4] by (Z.div_mod_to_equations; lia).
  pose proof (wp_insert_node s t p sz lo hi start len flags before after k
    Hz Hok Hao Has Hroom Hlen Hlo Hhi Hs4 Hl4) as H.
  apply wp_returns in H as (r & s' & E & T & used & x & y & -> & Hz' & HT & HA & Hk & Hpu & Hm).
  exists used, s', T, x, y. split_and!; try done. split; [done|]. split; [done|]. rewrite HA, Has in *.
  by eapply areas_carve_ok.
Qed.

(** C10: the search for an address of the user range returns, without changing
    anything, the area that holds it, with its bounds, after at most
    [2 * log2 n + 1] steps of its loop when the address space has [n] areas. *)
Theorem get_leaf_containing_correct (s : vma) (t : tree) (addr : Z) (fuel : nat) :
  vma_ok s t → 0 ≤ addr ≤ HIGHEST_USER_ADDRESS →
  (2 * Nat.log2 (length (address_space t)) + 1 ≤ fuel)%nat →
  ∃ info l, get_leaf_containing addr s = Returns (info, s) ∧
    get_leaf_loop fuel (root s) None 0 (HIGHEST_USER_ADDRESS + 1) addr s = Returns (info, s) ∧
    Area (leaf_start info) (leaf_end info + 1) (leaf info) l ∈ address_space t ∧
    leaf_start info ≤ addr ≤ leaf_end info.
Proof.
  intros (Hz & Hok & Hao) Haddr Hfuel. pose proof (tree_ok_depth t Hok) as Hd.
  set (Q := λ (info : LeafInfo) (s' : vma), ∃ l, s' = s ∧
    Area (leaf_start info) (leaf_end info + 1) (leaf info) l ∈ address_space t ∧
    leaf_start info ≤ addr ≤ leaf_end info).
  pose proof Hz as (Hr & _). cbn [reprc] in Hr.
  assert (wp (get_leaf_loop (depth t) (root s) None 0 (HIGHEST_USER_ADDRESS + 1) addr) Q s) as H.
  { rewrite Hr. apply (wp_get_leaf_loop (reserved := node_reserved) _ s [] t);
      try done; [apply Hok|lia|].
    cbn [leaf leaf_start leaf_end]. intros c' p l start end_ Et Hh Hin. cbn in Et. exists l. split; [done|].
    cbn [leaf leaf_start leaf_end]. split; [|done]. unfold address_space. rewrite Et.
    destruct (areas_plug 0 (HIGHEST_USER_ADDRESS + 1) c') as (b & a & E). rewrite E, Hh. cbn. set_solver. }
  apply wp_returns in H as (info & s' & E & l & -> & Hin & Hse).
  exists info, l. split; [|split; [|done]].
  - unfold get_leaf_containing, mbind, M_bind, rassert. rewrite (proj2 (Z.leb_le _ _)) by lia. cbn [get mret].
    unfold mret, M_ret. eapply get_leaf_loop_fuel; [exact E|].
    destruct Hz as (_ & _ & Hnd & Hres). rewrite app_nil_r in *.
    pose proof (node_reserved_bound s _ Hnd Hres). pose proof (depth_ptrs t). unfold tree_fuel. lia.
  - eapply get_leaf_loop_fuel; [exact E|]. lia.
Qed.

(** A small physical memory. *)
Definition demo_mem : sys :=
  Sys {| memory_bitmap := [0xC0; 0x00]; total_pages := 16; free_pages := 14; page_table := 0x1000 |} (λ _, 0).

(** a new tree is well formed: one empty area that spans the user range, in
    a head page with room for 95 more nodes.  The recorded size of that area is
    one byte less than the range, until the first insertion replaces it. *)
Theorem VMATree_new_correct (used p : Z) (s m : sys) :
  find_and_reserve_page s = Returns (Ok p, m) →
  ∃ v x, VMATree_new used s = Returns (Ok v, m) ∧
    vma_ok v (TLeaf x (Empty HIGHEST_USER_ADDRESS)) ∧
    address_space (TLeaf x (Empty HIGHEST_USER_ADDRESS)) =
      [Area 0 (HIGHEST_USER_ADDRESS + 1) x (Empty (HIGHEST_USER_ADDRESS + 1 - 1))] ∧
    head_room 95 v ∧ pages_used v = used ∧ mem v = m.
Proof.
  intros Hp. set (v0 := Vma TempNode p placeholder {[ p := new_with_prev_page None ]} used m).
  assert (head_room 96 v0) as Hroom.
  { exists (new_with_prev_page None). split; [apply lookup_singleton_eq|]. split; [|split; [done|vm_compute; lia]].
    split; [vm_compute; repeat constructor; done|done|done]. }
  assert (wp (new_empty_leaf HIGHEST_USER_ADDRESS) (λ r v, ∃ x, r = Ok x ∧
    grown (room := head_room) (reserved := node_reserved) x (Leaf (Empty HIGHEST_USER_ADDRESS)) 95 v0 v) v0) as H.
  { apply (wp_new_node (Leaf (Empty HIGHEST_USER_ADDRESS)) v0 95); [done|]. intros x v G. by exists x. }
  apply wp_returns in H as (r & v & E & x & -> & [_ Hres Hn _ Hk _ Hu Hm]).
  exists (Vma x (head v) (temp_node v) (pages v) (pages_used v) (mem v)), x. split_and!; try done.
  - unfold VMATree_new, NodeStorageList_new. rewrite Hp. fold v0. unfold mbind, M_bind.
    rewrite E. cbn. by rewrite Hm.
  - split; [|split].
    + split; [done|]. split; [by destruct x|]. split; [apply NoDup_singleton|].
      constructor; [|done]. specialize (Hres x). destruct x; apply Hres; by left.
    + by split; [eexists|..].
    + by repeat constructor.
Qed.
Definition demo_mem1 : sys :=
  Sys {| memory_bitmap := [0xE0; 0x00]; total_pages := 16; free_pages := 13; page_table := 0x1000 |}
    (fill (ram demo_mem) 0x2000 0x1000 0).
Lemma VMATree_new_correct_witness :
  ∃ v x, VMATree_new 0 demo_mem = Returns (Ok v, demo_mem1) ∧
    vma_ok v (TLeaf x (Empty HIGHEST_USER_ADDRESS)) ∧
    address_space (TLeaf x (Empty HIGHEST_USER_ADDRESS)) =
      [Area 0 (HIGHEST_USER_ADDRESS + 1) x (Empty (HIGHEST_USER_ADDRESS + 1 - 1))] ∧
    head_room 95 v ∧ pages_used v = 0 ∧ mem v = demo_mem1.
Proof. apply (VMATree_new_correct 0 0x2000). reflexivity. Defined.

(** A fresh tree whose only node is the first entry of its storage page. *)
Definition demo_tree : tree := TLeaf (Entry 0x1000 0) (Empty HIGHEST_USER_ADDRESS).
Definition demo_page : NodeStoragePage :=
  match page_reserve (new_with_prev_page None) with
  | Returns (_, pg) =>
      {| entries := <[O := Leaf (Empty HIGHEST_USER_ADDRESS)]> (entries pg); next_page := next_page pg;
         prev_page := prev_page pg; free_entries := free_entries pg; usage_bitmap := usage_bitmap pg |}
  | _ => new_with_prev_page None
  end.
Definition demo_vma (m : sys) : vma :=
  Vma (Entry 0x1000 0) 0x1000 placeholder {[ 0x1000 := demo_page ]} 0 m.
Lemma demo_page_ok : page_ok demo_page.
Proof. split; [vm_compute; repeat constructor; done|done..]. Qed.
Lemma demo_vma_ok m : vma_ok (demo_vma m) demo_tree.
Proof.
  split; [split_and!|split; [split|]].
  - done.
  - done.
  - cbn. repeat constructor. set_solver.
  - repeat constructor. exists demo_page. split; [done|]. split; [apply demo_page_ok|]. split; [|done].
    change MAX_NODES with 101. lia.
  - by eexists.
  - done.
  - done.
  - done.
  - done.
  - repeat constructor.
Qed.
Lemma demo_vma_room m : head_room 95 (demo_vma m).
Proof.
  exists demo_page. split; [done|]. split; [apply demo_page_ok|]. split; [done|].
  vm_compute. lia.
Qed.
Lemma insert_correct_witness (m := demo_mem) :
  ∃ used s' T x y, insert_node 0x10000 0x4000 3 (demo_vma m) = Returns (Ok used, s') ∧
    vma_ok s' T ∧ head_room 91 s' ∧
    address_space T = [] ++ carve 0 (HIGHEST_USER_ADDRESS + 1) 0x10000 0x4000 3 x used y ++ [] ∧
    pages_used s' = 0 ∧ mem s' = m.
Proof.
  apply (insert_correct (demo_vma m) demo_tree (Entry 0x1000 0) HIGHEST_USER_ADDRESS);
    [apply demo_vma_ok|apply demo_vma_room|done..].
Defined.
Lemma get_leaf_containing_correct_witness (m := demo_mem) :
  ∃ info l, get_leaf_containing 0x10000 (demo_vma m) = Returns (info, demo_vma m) ∧
    get_leaf_loop 1 (root (demo_vma m)) None 0 (HIGHEST_USER_ADDRESS + 1) 0x10000 (demo_vma m) =
      Returns (info, demo_vma m) ∧
    Area (leaf_start info) (leaf_end info + 1) (leaf info) l ∈ address_space demo_tree ∧
    leaf_start info ≤ 0x10000 ≤ leaf_end info.
Proof.
  apply (get_leaf_containing_correct (demo_vma m) demo_tree 0x10000 1);
    [apply demo_vma_ok|vm_compute; split; discriminate|vm_compute; reflexivity].
Defined.
