(* ===== verification/VmaFix.v ===== *)
(** * Rebalancing after a deletion from the VMA tree

    [fix_delete] as a change of the context of the node it is called on: the
    subtrees in the context are rearranged and recoloured so that the hole takes
    a tree whose black height is one less, below a black parent. *)
From S2P Require Import Prelude Paging PageAlloc VmaStore VmaTree VmaSpec VmaRepr VmaOps VmaInsert.

(** ** Contexts whose recorded sizes may be stale on the way to one node *)

Record frame_but (m : NodePtr) (f : frame) : Prop := {
  fb_pivot : pivot_ok (f_pivot f);
  fb_max : 0 ≤ f_max f;
  fb_pivots : pivots_ok (f_other f);
  fb_max_ok : max_ok_but m (f_other f);
  fb_rr : no_red_red (f_other f);
}.
(** A context whose hole takes a tree of black height [h]. *)
Fixpoint ctx_but (m : NodePtr) (c : ctx) (h : nat) : Prop :=
  match c with
  | [] => True
  | f :: c =>
      frame_but m f ∧ bh (f_other f) = Some h ∧
      (f_color f = Red → tcolor (f_other f) = Black ∧ ∃ g c', c = g :: c' ∧ f_color g = Black) ∧
      ctx_but m c (h + height_of (f_color f))
  end.
(** Two contexts with the same nodes and areas around the hole, below the same
    node. *)
Record around (c c' : ctx) : Prop := {
  ar_ptrs : ctx_ptrs c' ≡ₚ ctx_ptrs c;
  ar_areas : ∀ t lo hi, areas lo hi (plug c' t) = areas lo hi (plug c t);
  ar_parent : ctx_parent c' = ctx_parent c;
}.
#[export] Instance around_preorder : PreOrder around.
Proof.
  split; [by split|]. intros c1 c2 c3 [P1 A1 R1] [P2 A2 R2].
  split; [by rewrite P2|intros; by rewrite A2|congruence].
Qed.
(** What [fix_delete] makes of the context [c]: one that takes a tree of black
    height [h], below a black node. *)
Record fixed_ctx (m : NodePtr) (h : nat) (c c' : ctx) : Prop := {
  fx_ok : ctx_but m c' h;
  fx_head : ∀ f d, c' = f :: d → f_color f = Black;
  fx_around : around c c';
}.
Lemma fixed_trans m h c1 c2 c3 : around c1 c2 → fixed_ctx m h c2 c3 → fixed_ctx m h c1 c3.
Proof. intros ? []. split; [done..|by trans c2]. Qed.
(** Replacing the sibling. *)
Lemma around_other side p cf cf' pv mx mx' w w' c : ptrs w' ≡ₚ ptrs w → (∀ lo hi, areas lo hi w' = areas lo hi w) →
  around (Frame side p cf pv mx w :: c) (Frame side p cf' pv mx' w' :: c).
Proof.
  intros Hp Ha. split; [cbn; by rewrite Hp| |done]. intros t lo hi. rewrite !plug_cons.
  apply areas_plug_ext. intros lo' hi'. unfold fill1. cbn. by destruct side; cbn; rewrite Ha.
Qed.

(** The context after a rotation of the parent [f] towards the hole. *)
Definition rotated (f : frame) (cf cw : NodeColor) (q : NodePtr) (pvw : Z) (t x y : tree) : ctx :=
  let m := Z.max (tmax t) (tmax x) in
  [Frame (f_side f) (f_ptr f) cf (f_pivot f) m x; Frame (f_side f) q cw pvw (Z.max m (tmax y)) y].
Lemma rotated_around f cf cw q pvw t x y c cq mxw :
  f_other f = TB (f_side f) q cq pvw mxw x y → around (f :: c) (rotated f cf cw q pvw t x y ++ c).
Proof.
  intros Eo. unfold rotated. cbn [app]. split; [|intros u lo hi|done].
  - cbn. fold (ctx_ptrs c). rewrite Eo, ptrs_TB. cbn [app]. apply perm_skip.
    rewrite <-Permutation_middle. apply perm_skip. by rewrite <-app_assoc.
  - rewrite !plug_cons. apply areas_plug_ext. intros lo' hi'.
    unfold fill1. rewrite Eo. cbn [f_side f_ptr f_color f_pivot f_max f_other]. apply areas_rotate.
Qed.

(** [handle_black_sibling_at_least_one_red_child], seen from the side of the
    node: an inner red child is first rotated to the outside. *)
Definition rotate_inner (side : Side) (node sibling : NodePtr) : M vma NodePtr :=
  sb ← read_branch sibling;
  outer ← color (child sb (side_not side));
  if bool_decide (outer = Black) then
    near ← unwrap_branch (child sb side);
    set_color near Black;;
    set_color sibling Red;;
    rotate (side_not side) sibling;;
    q ← get_parent node; qb ← read_branch q;
    unwrap_branch (child qb (side_not side))
  else mret sibling.
Definition rotate_outer (side : Side) (node sibling : NodePtr) : M vma () :=
  q ← get_parent node; c ← color_of_branch q;
  set_color sibling c;;
  set_color q Black;;
  sb ← read_branch sibling;
  r ← unwrap_branch (child sb (side_not side)); set_color r Black;;
  q ← get_parent node; rotate side q.

Section fix_delete.
Context {room : nat → vma → Prop} {reserved : vma → NodePtr → Prop}
  `{Hsrc : !NodeStore room reserved}.
Abbreviation zip_ok := (zip_ok (reserved := reserved)).
Abbreviation evolves := (evolves (room := room) (reserved := reserved)).

(** ** Reading around the focus *)

Lemma wp_color s par t (Q : NodeColor → vma → Prop) :
  repr (node_at s) par t → pivots_ok t → Q (tcolor t) s → wp (color (ptr t)) Q s.
Proof.
  intros Ht Hp HQ. destruct (repr_node _ _ _ Ht) as (n & Hn & _ & _).
  unfold color. rewrite wp_bind. eapply wp_read_node; [exact Hn|]. rewrite wp_ret.
  by rewrite (repr_color _ _ _ _ Ht Hp Hn).
Qed.
Lemma wp_read_focus s c side p cl pv mx x y (Q : BranchNode → vma → Prop) :
  zip_ok s c (TB side p cl pv mx x y) →
  Q (mkb side cl pv mx (ctx_parent c) (ptr x) (ptr y)) s → wp (read_branch p) Q s.
Proof. intros (_ & Ht & _) HQ. rewrite repr_TB in Ht. by eapply wp_read_branch; [apply Ht|]. Qed.
Lemma wp_color_focus s c t (Q : NodeColor → vma → Prop) :
  zip_ok s c t → is_tbranch t → pivots_ok t → Q (tcolor t) s → wp (color_of_branch (ptr t)) Q s.
Proof.
  intros Hz Hb Hp HQ. destruct t as [|p cl pv mx l r]; [done|]. unfold color_of_branch. rewrite wp_bind.
  eapply (wp_read_focus s c Left); [exact Hz|]. rewrite wp_ret. destruct Hp as (? & ? & _). by rewrite mkb_color.
Qed.
Lemma wp_get_sibling s f c t (Q : NodePtr → vma → Prop) :
  zip_ok s (f :: c) t → is_tbranch t → Q (ptr (f_other f)) s → wp (get_sibling (ptr t)) Q s.
Proof.
  intros Hz Hb HQ. pose proof Hz as ((Hf & _) & _ & Hnd & _). unfold get_sibling.
  rewrite wp_bind. eapply wp_focus_parent; [done|done|]. rewrite wp_bind. eapply wp_read_branch; [exact Hf|].
  assert (ptr t ≠ ptr (f_other f)) as Hne.
  { intros E. apply NoDup_app in Hnd as (_ & Hd & _). apply (Hd (ptr t)); [apply ptr_in_ptrs|].
    cbn. apply elem_of_cons. right. apply elem_of_app. left. rewrite E. apply ptr_in_ptrs. }
  destruct (f_side f); cbn [mkb left right]; [by rewrite decide_True|].
  by rewrite decide_False, decide_True.
Qed.
Lemma wp_unwrap_focus s c t (Q : NodePtr → vma → Prop) :
  zip_ok s c t → is_tbranch t → Q (ptr t) s → wp (unwrap_branch (ptr t)) Q s.
Proof.
  intros Hz Hb HQ. destruct (zip_branch _ _ _ Hz Hb) as (b & Hn & _). by eapply wp_unwrap_branch.
Qed.
(** The focus on a child. *)
Lemma zip_child s c side p cl pv mx x y :
  zip_ok s c (TB side p cl pv mx x y) ↔ zip_ok s (Frame side p cl pv mx y :: c) x.
Proof. by rewrite zip_up. Qed.
Lemma zip_far s c side p cl pv mx x y :
  zip_ok s c (TB side p cl pv mx x y) ↔ zip_ok s (Frame (side_not side) p cl pv mx x :: c) y.
Proof. by rewrite <-TB_flip, zip_child. Qed.

(** Painting the sibling of the focus. *)
Lemma wp_paint_sibling s f c t cl (Q : () → vma → Prop) :
  zip_ok s (f :: c) t → is_tbranch (f_other f) → pivots_ok (f_other f) →
  (∀ s', zip_ok s' (Frame (f_side f) (f_ptr f) (f_color f) (f_pivot f) (f_max f) (repaint cl (f_other f)) :: c) t →
     evolves s s' → Q () s') → wp (set_color (ptr (f_other f)) cl) Q s.
Proof.
  intros Hz Hb Hp HQ. rewrite zip_sibling in Hz. eapply wp_paint; [exact Hz|done|done|].
  intros s' Hz' E. apply HQ; [|done]. rewrite zip_sibling in Hz'.
  cbn [f_side f_ptr f_color f_pivot f_max f_other] in Hz'. by destruct (f_side f).
Qed.

(** Painting the parent of the focus, in parts. *)
Lemma wp_paint_up s side p cf pv mx o c t cl (Q : () → vma → Prop) :
  zip_ok s (Frame side p cf pv mx o :: c) t → pivot_ok pv →
  (∀ s', zip_ok s' (Frame side p cl pv mx o :: c) t → evolves s s' → Q () s') → wp (set_color p cl) Q s.
Proof. apply (wp_paint_parent s (Frame side p cf pv mx o) c t cl). Qed.

(** ** A red sibling *)

Lemma branch_TB side t : is_tbranch t → ∃ p cl pv mx x y, t = TB side p cl pv mx x y.
Proof. destruct t as [|p cl pv mx l r]; [done|]. intros _. exists p, cl, pv, mx. apply TB_of_branch. Qed.
Lemma red_branch t : tcolor t = Red → is_tbranch t.
Proof. by destruct t. Qed.
Lemma tall_branch t h : bh t = Some (S h) → is_tbranch t.
Proof. by destruct t. Qed.

Lemma wp_left_side s f c t (Q : option bool → vma → Prop) :
  zip_ok s (f :: c) t → is_tbranch t → Q (Some (bool_decide (f_side f = Left))) s →
  wp (is_left_side (ptr t)) Q s.
Proof. exact (wp_is_side s Left f c t Q). Qed.
Lemma wp_right_side s f c t (Q : option bool → vma → Prop) :
  zip_ok s (f :: c) t → is_tbranch t → Q (Some (bool_decide (f_side f = Right))) s →
  wp (is_right_side (ptr t)) Q s.
Proof. exact (wp_is_side s Right f c t Q). Qed.

Lemma wp_red_sibling s f c t m h (Q : () → vma → Prop) :
  zip_ok s (f :: c) t → is_tbranch t → ctx_but m (f :: c) h → 0 ≤ tmax t → tcolor (f_other f) = Red →
  (∀ s' q pvw mxw x y, f_other f = TB (f_side f) q Red pvw mxw x y →
     let c' := rotated f Red Black q pvw t x y ++ c in
     zip_ok s' c' t → ctx_but m c' h → evolves s s' → Q () s') →
  wp (handle_red_sibling (ptr t) (ptr (f_other f))) Q s.
Proof.
  intros Hz Hb (Hf & Hbo & Hred & Hctx) Ht Ew HQ.
  assert (f_color f = Black) as Ef.
  { destruct (f_color f) eqn:E; [|done]. destruct (Hred eq_refl) as [E' _]. congruence. }
  rewrite Ef in Hctx. pose proof (red_branch _ Ew) as Hbw.
  unfold handle_red_sibling. rewrite wp_bind. eapply wp_paint_sibling; [exact Hz|done|apply Hf|].
  intros s1 Hz1 E1. rewrite wp_bind. eapply wp_focus_parent; [exact Hz1|done|]. rewrite wp_bind.
  eapply wp_paint_parent; [exact Hz1|apply Hf|]. intros s2 Hz2 E2. rewrite wp_bind.
  cbn [frame_paint f_side f_ptr f_color f_pivot f_max f_other] in Hz2.
  eapply wp_left_side; [exact Hz2|done|].
  rewrite wp_bind, wp_unwrap. eexists. split; [done|]. cbn [f_side].
  destruct (branch_TB (f_side f) _ Hbw) as (q & cw & pvw & mxw & x & y & Eo).
  pose proof Hbo as Hbo'. pose proof (fb_rr _ _ Hf) as Hrr. pose proof (fb_pivots _ _ Hf) as Hpv.
  pose proof (fb_max_ok _ _ Hf) as Hmx. rewrite Eo in Hbo', Hrr, Hpv, Hmx, Hz2, Ew. rewrite tcolor_TB in Ew. subst cw.
  apply bh_TB_inv in Hbo' as (h' & Hx & Hy & Eh). cbn in Eh. rewrite Nat.add_0_r in Eh. subst h'.
  apply rr_TB in Hrr as (Hkids & Hrx & Hry). destruct (Hkids eq_refl) as [Bx By].
  apply pivots_TB in Hpv as (Hpvw & Hmxw & Hpx & Hpy). apply max_but_TB in Hmx as (_ & Hmx & Hmy).
  pose proof (tmax_nonneg _ Hpx) as Hx0. pose proof (tmax_nonneg _ Hpy) as Hy0.
  assert (wp (rotate (f_side f) (f_ptr f)) Q s2) as Hrot.
  { pose proof Hz2 as Hz3. rewrite zip_up in Hz3. unfold fill1 in Hz3.
    cbn [f_side f_ptr f_color f_pivot f_max f_other] in Hz3.
    assert (repaint Black (TB (f_side f) q Red pvw mxw x y) = TB (f_side f) q Black pvw mxw x y) as Er
      by (by destruct (f_side f)). rewrite Er in Hz3.
    eapply wp_rotate; [exact Hz3|]. cbv zeta. intros s3 Hz4 E3.
    apply (HQ s3 q pvw mxw x y Eo); [by unfold rotated; cbn [app]; rewrite !zip_up| |by (trans s1; [done|]; trans s2)].
    split; [split; cbn [f_pivot f_max f_other]; first [apply Hf|done|lia]|]. cbn [f_other f_color height_of].
    split; [done|]. split; [by eauto|]. rewrite Nat.add_0_r.
    split; [split; cbn [f_pivot f_max f_other]; first [done|lia]|]. by cbn [f_other f_color height_of]. }
  destruct (f_side f) eqn:Es; cbn [bool_decide].
  - rewrite bool_decide_true by done. rewrite wp_bind. eapply wp_focus_parent; [exact Hz2|done|]. exact Hrot.
  - rewrite bool_decide_false by done. rewrite wp_bind.
    eapply wp_right_side; [exact Hz2|done|].
    rewrite wp_bind, wp_unwrap. eexists. split; [done|]. cbn [f_side].
    rewrite bool_decide_true by done. rewrite wp_bind. eapply wp_focus_parent; [exact Hz2|done|]. exact Hrot.
Qed.

(** ** A black sibling with a red child *)

(** With the sibling as [TB]. *)
Lemma zip_other s f c t w : zip_ok s (f :: c) t → f_other f = w →
  zip_ok s (Frame (f_side f) (f_ptr f) (f_color f) (f_pivot f) (f_max f) w :: c) t.
Proof. intros Hz <-. by destruct f. Qed.
Lemma repaint_TB cl side p c pv mx x y : repaint cl (TB side p c pv mx x y) = TB side p cl pv mx x y.
Proof. by destruct side. Qed.
(** Painting the far child of the sibling. *)
Lemma wp_paint_far s side p cf pvf mxf q cw pvw mxw x y c t cl (Q : () → vma → Prop) :
  zip_ok s (Frame side p cf pvf mxf (TB side q cw pvw mxw x y) :: c) t → is_tbranch y → pivots_ok y →
  (∀ s', zip_ok s' (Frame side p cf pvf mxf (TB side q cw pvw mxw x (repaint cl y)) :: c) t →
     evolves s s' → Q () s') → wp (r ← unwrap_branch (ptr y); set_color r cl) Q s.
Proof.
  intros Hz Hb Hp HQ. rewrite zip_sibling in Hz. cbn [f_side f_ptr f_color f_pivot f_max f_other] in Hz.
  rewrite zip_far in Hz. rewrite wp_bind. eapply wp_unwrap_focus; [exact Hz|done|].
  eapply wp_paint; [exact Hz|done|done|]. intros s1 Hz1 E1. apply HQ; [|done].
  rewrite <-zip_far in Hz1. rewrite zip_sibling in Hz1.
  cbn [f_side f_ptr f_color f_pivot f_max f_other] in Hz1. by destruct side.
Qed.
Lemma repaint_height y h : tcolor y = Red → bh y = Some h → bh (repaint Black y) = Some (S h).
Proof.
  destruct y as [|p cl pv mx l r]; [done|]. intros E. cbn in E. subst cl.
  intros (k & Hl & Hr & E)%(bh_TB_inv Left). cbn in E. rewrite Nat.add_0_r in E. subst k.
  replace (S h) with (h + height_of Black)%nat by (cbn; lia). by apply (bh_TB Left).
Qed.
Lemma repaint_but m y : max_ok_but m (repaint Black y) ↔ max_ok_but m y.
Proof. by destruct y. Qed.
Lemma repaint_pivots cl y : pivots_ok (repaint cl y) ↔ pivots_ok y.
Proof. by destruct y. Qed.
Lemma repaint_black_rr y : no_red_red y → no_red_red (repaint Black y).
Proof. destruct y; cbn; [done|]. naive_solver. Qed.
Lemma repaint_facts cl y : tmax (repaint cl y) = tmax y ∧ ptrs (repaint cl y) = ptrs y ∧
  ptr (repaint cl y) = ptr y ∧ (∀ lo hi, areas lo hi (repaint cl y) = areas lo hi y).
Proof. by destruct y. Qed.

Lemma wp_rotate_outer s f c t m h q pvw mxw x y (Q : () → vma → Prop) :
  zip_ok s (f :: c) t → is_tbranch t → ctx_but m (f :: c) (S h) → 0 ≤ tmax t →
  f_other f = TB (f_side f) q Black pvw mxw x y → tcolor y = Red →
  (∀ s' c', zip_ok s' c' t → fixed_ctx m h (f :: c) c' → evolves s s' → Q () s') →
  wp (rotate_outer (f_side f) (ptr t) (ptr (f_other f))) Q s.
Proof.
  intros Hz Hb (Hf & Hbo & Hred & Hctx) Ht Eo Ey HQ. pose proof (red_branch _ Ey) as Hby.
  pose proof Hbo as Hbo'. pose proof (fb_rr _ _ Hf) as Hrr. pose proof (fb_pivots _ _ Hf) as Hpv.
  pose proof (fb_max_ok _ _ Hf) as Hmx. rewrite Eo in Hbo', Hrr, Hpv, Hmx.
  apply bh_TB_inv in Hbo' as (h' & Hx & Hy & Eh). cbn in Eh. assert (h' = h) as -> by lia. clear Eh.
  apply rr_TB in Hrr as (_ & Hrx & Hry). apply pivots_TB in Hpv as (Hpvw & Hmxw & Hpx & Hpy).
  apply max_but_TB in Hmx as (_ & Hmx & Hmy).
  pose proof (tmax_nonneg _ Hpx) as Hx0. pose proof (tmax_nonneg _ Hpy) as Hy0.
  unfold rotate_outer. rewrite wp_bind. eapply wp_focus_parent; [exact Hz|done|].
  rewrite wp_bind. eapply wp_parent_color; [exact Hz|apply Hf|].
  rewrite wp_bind. eapply wp_paint_sibling; [exact Hz|by rewrite Eo; apply TB_branch|apply Hf|]. intros s1 Hz1 E1.
  rewrite wp_bind. eapply wp_paint_up; [exact Hz1|apply Hf|]. intros s2 Hz2 E2. rewrite Eo, repaint_TB in Hz2.
  pose proof Hz2 as Hw. rewrite zip_sibling in Hw. cbn [f_side f_ptr f_color f_pivot f_max f_other] in Hw.
  rewrite wp_bind, Eo, ptr_TB. eapply wp_read_focus; [exact Hw|]. rewrite mkb_child_not.
  assert (∀ (k : M vma ()) (R : () → vma → Prop) v, wp (r ← unwrap_branch (ptr y); set_color r Black;; k) R v ↔
    wp (r ← unwrap_branch (ptr y); set_color r Black) (λ _, wp k R) v) as Hassoc.
  { intros k R v. rewrite !wp_bind. unfold wp at 1 3. destruct (unwrap_branch (ptr y) v) as [[]| | |]; [|done..].
    by rewrite wp_bind. }
  rewrite Hassoc. eapply wp_paint_far; [exact Hz2|done|done|]. intros s3 Hz3 E3.
  rewrite wp_bind. eapply wp_focus_parent; [exact Hz3|done|]. cbn [f_ptr].
  rewrite zip_up in Hz3. unfold fill1 in Hz3. cbn [f_side f_ptr f_color f_pivot f_max f_other] in Hz3.
  eapply wp_rotate; [exact Hz3|]. cbv zeta. intros s4 Hz4 E4.
  destruct (repaint_facts Black y) as (Emx & Eptrs & _ & Ear).
  apply (HQ s4 (rotated f Black (f_color f) q pvw t x (repaint Black y) ++ c)).
  - unfold rotated. cbn [app]. by rewrite !zip_up.
  - split.
    + unfold rotated. cbn [app ctx_but f_pivot f_max f_other f_color height_of].
      split; [split; cbn [f_pivot f_max f_other]; first [apply Hf|done|lia]|]. split; [done|]. split; [done|].
      replace (h + 1)%nat with (S h) by lia. rewrite Emx.
      split; [split; cbn [f_pivot f_max f_other]|].
      * done.
      * lia.
      * by apply repaint_pivots.
      * by apply repaint_but.
      * by apply repaint_black_rr.
      * split; [by apply repaint_height|]. split; [|done]. intros E. split; [by destruct y|]. by apply Hred.
    + unfold rotated. by intros g d [= <- <-].
    + etrans; [|by eapply (rotated_around (Frame (f_side f) (f_ptr f) (f_color f) (f_pivot f) (f_max f)
        (TB (f_side f) q Black pvw mxw x (repaint Black y))))].
      destruct f as [sd p cf pvf mxf w]; cbn in *. subst w. apply around_other; [by rewrite !ptrs_TB, Eptrs|].
      intros lo hi. by destruct sd; cbn; rewrite Ear.
  - trans s1; [done|]. trans s2; [done|]. by trans s3.
Qed.

(** The context after the inner rotation: the near child [k] of the sibling is the
    new sibling, black, with the old one as its red far child. *)
Lemma inner_rotated f c m h q pvw mxw k pvk mxk e d y :
  let m1 := Z.max (tmax y) (tmax e) in
  let f' := Frame (f_side f) (f_ptr f) (f_color f) (f_pivot f) (f_max f)
    (TB (f_side f) k Black pvk (Z.max m1 (tmax d)) d (TB (f_side f) q Red pvw m1 e y)) in
  ctx_but m (f :: c) (S h) → tcolor y = Black →
  f_other f = TB (f_side f) q Black pvw mxw (TB (side_not (f_side f)) k Red pvk mxk e d) y →
  ctx_but m (f' :: c) (S h) ∧ around (f :: c) (f' :: c).
Proof.
  intros m1 f' (Hf & Hbo & Hred & Hctx) Ey Eo. pose proof (fb_rr _ _ Hf) as Hrr. pose proof (fb_pivots _ _ Hf) as Hpv.
  pose proof (fb_max_ok _ _ Hf) as Hmx. rewrite Eo in Hbo, Hrr, Hpv, Hmx.
  apply bh_TB_inv in Hbo as (h' & Hx & Hy & Eh). cbn in Eh. assert (h' = h) as -> by lia. clear Eh.
  apply rr_TB in Hrr as (_ & Hrx & Hry). apply pivots_TB in Hpv as (Hpvw & Hmxw & Hpx & Hpy).
  apply max_but_TB in Hmx as (_ & Hmx & Hmy).
  apply bh_TB_inv in Hx as (h' & He & Hd & Eh). cbn in Eh. rewrite Nat.add_0_r in Eh. subst h'.
  apply rr_TB in Hrx as (Hkids & Hre & Hrd). destruct (Hkids eq_refl) as [Be Bd].
  apply pivots_TB in Hpx as (Hpvk & Hmxk & Hpe & Hpd). apply max_but_TB in Hmx as (_ & Hme & Hmd).
  pose proof (tmax_nonneg _ Hpe) as He0. pose proof (tmax_nonneg _ Hpd) as Hd0. pose proof (tmax_nonneg _ Hpy) as Hy0.
  split; [split; [split; cbn [f_pivot f_max f_other f']|]|].
  - apply Hf.
  - apply Hf.
  - apply pivots_TB. split; [done|]. split; [lia|]. split; [done|]. apply pivots_TB. split_and!; [done|lia|done|done].
  - apply max_but_TB. rewrite tmax_TB. split; [right; lia|]. split; [done|]. apply max_but_TB. split_and!; [right; lia|done..].
  - apply rr_TB. split; [done|]. split; [done|]. by apply rr_TB.
  - cbn [f_other f_color f']. split; [|split; [|done]].
    + replace (S h) with (h + height_of Black)%nat by (cbn; lia). apply bh_TB; [done|].
      replace (Some h) with (Some (h + height_of Red)%nat) by (cbn; f_equal; lia). by apply bh_TB.
    + intros E. rewrite tcolor_TB. split; [done|]. by apply Hred.
  - unfold f'. destruct f as [sd p cf pvf mxf w]; cbn [f_side f_ptr f_color f_pivot f_max f_other] in *. subst w.
    apply around_other.
    + rewrite <-(TB_flip sd k), <-(TB_flip sd q). rewrite ptrs_rotate, TB_flip. done.
    + intros lo hi. rewrite <-(TB_flip sd k), <-(TB_flip sd q). erewrite areas_rotate. by rewrite TB_flip.
Qed.
Lemma wp_rotate_inner s f c t m h q pvw mxw x y (Q : NodePtr → vma → Prop) :
  zip_ok s (f :: c) t → is_tbranch t → ctx_but m (f :: c) (S h) →
  f_other f = TB (f_side f) q Black pvw mxw x y → (tcolor x = Black → tcolor y = Red) →
  (∀ s' q' pv' mx' x' y', tcolor y' = Red →
     let f' := Frame (f_side f) (f_ptr f) (f_color f) (f_pivot f) (f_max f) (TB (f_side f) q' Black pv' mx' x' y') in
     zip_ok s' (f' :: c) t → ctx_but m (f' :: c) (S h) → around (f :: c) (f' :: c) → evolves s s' → Q q' s') →
  wp (rotate_inner (f_side f) (ptr t) (ptr (f_other f))) Q s.
Proof.
  intros Hz Hb Hctx Eo Hxy HQ.
  pose proof (fb_pivots _ _ (proj1 Hctx)) as Hpv. rewrite Eo in Hpv. apply pivots_TB in Hpv as (Hpvw & _ & Hpx & Hpy).
  pose proof (zip_other _ _ _ _ _ Hz Eo) as Hz0.
  pose proof Hz0 as Hw. rewrite zip_sibling in Hw. cbn [f_side f_ptr f_color f_pivot f_max f_other] in Hw.
  unfold rotate_inner. rewrite Eo, ptr_TB, wp_bind. eapply wp_read_focus; [exact Hw|].
  rewrite mkb_child_not, mkb_child. pose proof Hw as Hfar. rewrite zip_far in Hfar.
  rewrite wp_bind. eapply wp_color; [apply Hfar|done|].
  destruct (tcolor y) eqn:Ey.
  { rewrite bool_decide_false by done. rewrite wp_ret. eapply HQ; [exact Ey|exact Hz0| | |done].
    - rewrite <-Eo. by destruct f.
    - rewrite <-Eo. by destruct f. }
  rewrite bool_decide_true by done. destruct (tcolor x) eqn:Ex; [|by discriminate (Hxy eq_refl)]. clear Hxy.
  pose proof (red_branch _ Ex) as Hbx. pose proof Hw as Hnear. rewrite zip_child in Hnear.
  rewrite wp_bind. eapply wp_unwrap_focus; [exact Hnear|done|]. rewrite wp_bind.
  eapply wp_paint; [exact Hnear|done|done|]. intros s1 Hz1 E1.
  rewrite <-zip_child in Hz1. rewrite wp_bind.
  eapply wp_set_color; [exact Hz1|done|]. intros s2 Hz2 _ E2.
  destruct (branch_TB (side_not (f_side f)) _ Hbx) as (k & ck & pvk & mxk & e & d & ->).
  rewrite tcolor_TB in Ex. subst ck. rewrite repaint_TB in Hz2. rewrite <-TB_flip in Hz2.
  rewrite wp_bind. eapply wp_rotate; [exact Hz2|]. cbv zeta. intros s3 Hz3 E3.
  rewrite TB_flip, TB_flip in Hz3. rewrite zip_sibling in Hz3.
  cbn [f_side f_ptr f_color f_pivot f_max f_other] in Hz3.
  assert (side_not (side_not (f_side f)) = f_side f) as Ess by (by destruct (f_side f)). rewrite Ess in Hz3.
  rewrite wp_bind. eapply wp_focus_parent; [exact Hz3|done|]. cbn [f_ptr].
  pose proof Hz3 as ((Hf3 & _) & _). cbn [f_side f_ptr f_color f_pivot f_max f_other] in Hf3.
  rewrite wp_bind. eapply wp_read_branch; [exact Hf3|]. rewrite mkb_child_not, ptr_TB.
  destruct (inner_rotated f c m h q pvw mxw k pvk mxk e d y) as [Hc3 Ha3]; [done|done|exact Eo|].
  set (m1 := Z.max (tmax y) (tmax e)) in *.
  assert (is_tbranch (TB (f_side f) k Black pvk (Z.max m1 (tmax d)) d (TB (f_side f) q Red pvw m1 e y))) as Hb3
    by apply TB_branch.
  pose proof Hz3 as Hw3. rewrite zip_sibling in Hw3. cbn [f_side f_ptr f_color f_pivot f_max f_other] in Hw3.
  pose proof (wp_unwrap_focus _ _ _ Q Hw3 Hb3) as Hun. rewrite ptr_TB in Hun. apply Hun. clear Hun.
  eapply HQ; [|exact Hz3|exact Hc3|exact Ha3|by trans s1; [|trans s2]]. apply tcolor_TB.
Qed.

Lemma wp_handle_black s f c t w (Q : () → vma → Prop) :
  zip_ok s (f :: c) t → is_tbranch t →
  wp (rotate_inner (f_side f) (ptr t) w) (λ w', wp (rotate_outer (f_side f) (ptr t) w') Q) s →
  wp (handle_black_sibling_at_least_one_red_child (ptr t) w) Q s.
Proof.
  intros Hz Hb H. unfold handle_black_sibling_at_least_one_red_child. rewrite wp_bind.
  eapply wp_left_side; [exact Hz|done|]. rewrite wp_bind, wp_unwrap. eexists. split; [done|].
  unfold rotate_inner in H. rewrite wp_bind in H. rewrite wp_bind. eapply wp_mono; [exact H|]. clear H.
  intros sb s1 H. cbv beta in H. rewrite wp_bind in H. rewrite wp_bind.
  destruct (f_side f); cbn [bool_decide side_not] in *;
    [rewrite bool_decide_true by done|rewrite bool_decide_false by done];
    (eapply wp_mono; [exact H|]); clear H; intros outer s2 H; cbv beta in H; cbn [andb negb];
    rewrite wp_bind; (destruct (bool_decide (outer = Black)); exact H).
Qed.

(** ** The loop *)

(** The loop is left at the focus or at a black node above it. *)
Definition loop_post (m : NodePtr) (h : nat) (c : ctx) (t : tree) (s : vma) (p : NodePtr) (s' : vma) : Prop :=
  ∃ d e, zip_ok s' (d ++ e) t ∧ fixed_ctx m h c (d ++ e) ∧ p = ptr (plug d t) ∧
    (d ≠ [] → tcolor (plug d t) = Black) ∧ evolves s s'.

Lemma plug_app d e t : plug (d ++ e) t = plug e (plug d t).
Proof. unfold plug. by rewrite foldl_app. Qed.

(** One iteration, once the sibling is black. *)
Definition black_sibling (rec : NodePtr → M vma NodePtr) (node sibling : NodePtr) : M vma NodePtr :=
  sb ← read_branch sibling;
  lc ← color (left sb);
  both ← (match lc with
          | Black => rc ← color (right sb); mret (bool_decide (rc = Black))
          | Red => mret false
          end);
  if both : bool then
    set_color sibling Red;;
    q ← get_parent node;
    c ← color_of_branch q;
    match c with
    | Red => set_color q Black;; mret node
    | Black => rec q
    end
  else handle_black_sibling_at_least_one_red_child node sibling;; mret node.

(** Both children of the sibling are black: it becomes red. *)
Lemma repainted_other m h f c q pvw mxw x y cf :
  ctx_but m (f :: c) (S h) → f_other f = TB (f_side f) q Black pvw mxw x y →
  tcolor x = Black → tcolor y = Black →
  let f' := Frame (f_side f) (f_ptr f) cf (f_pivot f) (f_max f) (TB (f_side f) q Red pvw mxw x y) in
  frame_but m f' ∧ bh (f_other f') = Some h ∧ around (f :: c) (f' :: c).
Proof.
  intros (Hf & Hbo & _) Eo Bx By f'. pose proof Hf as [H1 H2 H3 H4 H5]. rewrite Eo in Hbo, H3, H4, H5.
  apply bh_TB_inv in Hbo as (h' & Hx & Hy & Eh). cbn in Eh. assert (h' = h) as -> by lia.
  apply pivots_TB in H3. apply max_but_TB in H4. apply rr_TB in H5 as (_ & ? & ?). split; [split|split].
  - done.
  - done.
  - by apply pivots_TB.
  - by apply max_but_TB.
  - by apply rr_TB.
  - cbn [f' f_other]. replace (Some h) with (Some (h + height_of Red)%nat) by (cbn; f_equal; lia). by apply bh_TB.
  - destruct f as [sd p cg pvf mxf w]; cbn [f' f_side f_ptr f_color f_pivot f_max f_other] in *. subst w.
    apply around_other; [by rewrite !ptrs_TB|]. by destruct sd.
Qed.

(** The test for two black children, in the order of the sides. *)
Lemma wp_both_black {B} side s cx cy x y (k : bool → M vma B) (Q : B → vma → Prop) :
  zip_ok s cx x → zip_ok s cy y → pivots_ok x → pivots_ok y →
  wp (k (bool_decide (tcolor x = Black) && bool_decide (tcolor y = Black))) Q s →
  wp (lc ← color (match side with Left => ptr x | Right => ptr y end);
      both ← (match lc with
              | Black => rc ← color (match side with Left => ptr y | Right => ptr x end); mret (bool_decide (rc = Black))
              | Red => mret false
              end);
      k both) Q s.
Proof.
  intros Hx Hy Hpx Hpy HQ. rewrite wp_bind. destruct side.
  - eapply wp_color; [apply Hx|done|]. destruct (tcolor x); rewrite wp_bind; [by rewrite wp_ret|].
    rewrite wp_bind. eapply wp_color; [apply Hy|done|]. by rewrite wp_ret.
  - rewrite andb_comm in HQ. eapply wp_color; [apply Hy|done|]. destruct (tcolor y); rewrite wp_bind; [by rewrite wp_ret|].
    rewrite wp_bind. eapply wp_color; [apply Hx|done|]. by rewrite wp_ret.
Qed.
Lemma wp_black_sibling rec s f c t m h (Q : NodePtr → vma → Prop) :
  zip_ok s (f :: c) t → is_tbranch t → ctx_but m (f :: c) (S h) → 0 ≤ tmax t → tcolor (f_other f) = Black →
  (∀ s1 f1, zip_ok s1 c (fill1 f1 t) → ctx_but m c (S (S h)) → f_color f = Black → f_color f1 = Black →
     frame_but m f1 → bh (f_other f1) = Some h → f_ptr f1 = f_ptr f → f_max f1 = f_max f →
     around (f :: c) (f1 :: c) → evolves s s1 → wp (rec (f_ptr f)) Q s1) →
  (∀ p s', loop_post m h (f :: c) t s p s' → Q p s') →
  wp (black_sibling rec (ptr t) (ptr (f_other f))) Q s.
Proof.
  intros Hz Hb Hctx Ht Ew Hrec HQ. pose proof Hctx as (Hf & Hbo & Hred & Hc).
  destruct (branch_TB (f_side f) _ (tall_branch _ _ Hbo)) as (q & cw & pvw & mxw & x & y & Eo).
  rewrite Eo, tcolor_TB in Ew. subst cw.
  pose proof (zip_other _ _ _ _ _ Hz Eo) as Hz0. pose proof (fb_pivots _ _ Hf) as Hpv. rewrite Eo in Hpv.
  apply pivots_TB in Hpv as (Hpvw & _ & Hpx & Hpy).
  pose proof Hz0 as Hw. rewrite zip_sibling in Hw. cbn [f_side f_ptr f_color f_pivot f_max f_other] in Hw.
  pose proof Hw as Hnear. rewrite zip_child in Hnear. pose proof Hw as Hfar. rewrite zip_far in Hfar.
  unfold black_sibling. rewrite wp_bind. rewrite Eo at 1. rewrite ptr_TB. eapply wp_read_focus; [exact Hw|].
  cbn [mkb left right]. eapply wp_both_black; [exact Hnear|exact Hfar|done|done|].
  destruct (bool_decide (tcolor x = Black) && bool_decide (tcolor y = Black)) eqn:Eb.
  - apply andb_true_iff in Eb as [Bx%bool_decide_eq_true By%bool_decide_eq_true].
    rewrite wp_bind. eapply wp_paint_sibling; [exact Hz|by rewrite Eo; apply TB_branch|apply Hf|]. intros s1 Hz1 E1.
    rewrite Eo, repaint_TB in Hz1. rewrite wp_bind. eapply wp_focus_parent; [exact Hz1|done|]. cbn [f_ptr].
    rewrite wp_bind. pose proof (wp_parent_color s1 _ c t (λ cc, wp (match cc with
      | Red => set_color (f_ptr f) Black;; mret (ptr t) | Black => rec (f_ptr f) end) Q) Hz1 (fb_pivot _ _ Hf)) as Hpc.
    cbn [f_ptr f_color] in Hpc. apply Hpc. clear Hpc.
    destruct (repainted_other m h f c q pvw mxw x y Black Hctx Eo Bx By) as (Hf1 & Hb1 & Har).
    destruct (f_color f) eqn:Ef.
    + rewrite wp_bind. eapply wp_paint_up; [exact Hz1|apply Hf|]. intros s2 Hz2 E2. rewrite wp_ret.
      apply HQ. exists [], (Frame (f_side f) (f_ptr f) Black (f_pivot f) (f_max f) (TB (f_side f) q Red pvw mxw x y) :: c).
      split; [exact Hz2|]. split; [split|]; [|by intros g d [= <- <-]|done|].
      * split; [done|]. split; [done|]. split; [done|]. cbn [f_color]. replace (h + height_of Black)%nat with (S h + height_of Red)%nat by (cbn; lia). done.
      * split; [done|]. split; [done|]. by trans s1.
    + replace (S h + height_of Black)%nat with (S (S h)) in Hc by (cbn; lia).
      eapply Hrec; [|done|done| |exact Hf1|exact Hb1|done|done|exact Har|done]; [|done]. by rewrite zip_up in Hz1.
  - rewrite wp_bind. eapply wp_handle_black; [exact Hz|done|]. eapply wp_rotate_inner; [exact Hz|done|exact Hctx|exact Eo| |].
    { intros Bx. destruct (tcolor y); [done|]. by rewrite Bx in Eb. }
    intros s1 q1 pv1 mx1 x1 y1 Ey1 f1 Hz1 Hc1 Har1 E1.
    pose proof (wp_rotate_outer s1 f1 c t m h q1 pv1 mx1 x1 y1 (λ _, wp (mret (ptr t)) Q) Hz1 Hb Hc1 Ht eq_refl Ey1) as Ho.
    cbn [f1 f_side f_other] in Ho. rewrite ptr_TB in Ho. apply Ho. intros s2 c2 Hz2 Hfix E2. rewrite wp_ret. apply HQ.
    exists [], c2. split; [done|]. split; [by eapply fixed_trans|]. split; [done|]. split; [done|]. by trans s1.
Qed.

Lemma around_cons f c c' : around c c' → around (f :: c) (f :: c').
Proof.
  intros [Hp Ha _]. split; [cbn; fold (ctx_ptrs c) (ctx_ptrs c'); by rewrite Hp|by intros; rewrite !plug_cons|done].
Qed.
Lemma loop_post_up m h f f1 c t s s1 p s' :
  loop_post m (S h) c (fill1 f1 t) s1 p s' → around (f :: c) (f1 :: c) → evolves s s1 →
  frame_but m f1 → bh (f_other f1) = Some h → f_color f1 = Black → loop_post m h (f :: c) t s p s'.
Proof.
  intros (d & e & Hz & [Hok Hh Har] & -> & Hbl & E) Har1 E1 Hf1 Hb1 C1.
  exists (f1 :: d), e. split; [cbn [app]; by rewrite zip_up|]. split; [split|].
  - cbn [app ctx_but]. rewrite C1. cbn [height_of]. replace (h + 1)%nat with (S h) by lia. done.
  - by intros g d' [= <- _].
  - trans (f1 :: c); [done|]. by apply around_cons.
  - split; [done|]. split; [|by trans s1]. intros _. rewrite plug_cons.
    destruct d as [|g d]; [unfold plug, fill1; cbn; by rewrite tcolor_TB|by apply Hbl].
Qed.
Lemma loop_post_around m h c c1 t s s1 p s' :
  loop_post m h c1 t s1 p s' → around c c1 → evolves s s1 → loop_post m h c t s p s'.
Proof.
  intros (d & e & Hz & Hf & Hp & Hbl & E) Har E1. exists d, e. split; [done|].
  split; [by eapply fixed_trans|]. split; [done|]. split; [done|]. by trans s1.
Qed.

Lemma wp_fix_delete_loop fuel s c t m h (Q : NodePtr → vma → Prop) :
  zip_ok s c t → is_tbranch t → ctx_but m c (S h) → 0 ≤ tmax t → (length c < fuel)%nat →
  (∀ p s', loop_post m h c t s p s' → Q p s') → wp (fix_delete_loop fuel (ptr t)) Q s.
Proof.
  revert s c t h Q. induction fuel as [|fuel IH]; intros s c t h Q Hz Hb Hctx Ht Hfuel HQ; [lia|].
  cbn [fix_delete_loop]. rewrite wp_bind, wp_get. destruct c as [|f c].
  { rewrite decide_True by (by apply (zip_root s [] t Hz)). rewrite wp_ret. apply HQ. exists [], [].
    split; [done|]. split; [by split|]. done. }
  rewrite decide_False by (by rewrite (zip_root s (f :: c) t Hz)).
  pose proof Hctx as (Hf & Hbo & Hred & _). pose proof (tall_branch _ _ Hbo) as Hbw.
  assert (∀ s f c, zip_ok s (f :: c) t → is_tbranch (f_other f) → ∀ R : NodePtr → vma → Prop,
    R (ptr (f_other f)) s → wp (x ← get_sibling (ptr t); unwrap_branch x) R s) as Hsib.
  { intros s1 f1 c1 Hz1 Hb1 R HR. rewrite wp_bind. eapply wp_get_sibling; [exact Hz1|done|].
    rewrite zip_sibling in Hz1. by eapply wp_unwrap_focus. }
  rewrite wp_bind. eapply wp_get_sibling; [exact Hz|done|]. rewrite wp_bind.
  pose proof Hz as Hw. rewrite zip_sibling in Hw. eapply wp_unwrap_focus; [exact Hw|done|].
  rewrite wp_bind. eapply wp_color_focus; [exact Hw|done|apply Hf|]. rewrite wp_bind.
  destruct (tcolor (f_other f)) eqn:Ew.
  - rewrite wp_bind. eapply wp_red_sibling; [exact Hz|done|exact Hctx|done|done|].
    intros s1 q pvw mxw x y Eo c1 Hz1 Hc1 E1. unfold c1, rotated in Hz1, Hc1. cbn [app] in Hz1, Hc1.
    pose proof Hc1 as (Hf1 & Hbx & Hr1 & _). destruct (Hr1 eq_refl) as [Bx _]. cbn [f_other] in Hbx, Bx.
    eapply Hsib; [exact Hz1|by eapply tall_branch|]. cbn [f_other].
    eapply (wp_black_sibling _ s1 _ _ t m h Q Hz1 Hb Hc1 Ht Bx); [by intros s2 f2|].
    intros p s' Hp. apply HQ. eapply loop_post_around; [exact Hp|by eapply rotated_around|done].
  - rewrite wp_ret. eapply (wp_black_sibling _ s f c t m h Q Hz Hb Hctx Ht Ew); [|done].
    intros s1 f1 Hz1 Hc1 Ef C1 Hf1 Hb1 Ep Em Har E1.
    replace (f_ptr f) with (ptr (fill1 f1 t)) by (unfold fill1; by rewrite ptr_TB).
    eapply (IH s1 c (fill1 f1 t) (S h)); [exact Hz1|apply TB_branch|done| |cbn in Hfuel; lia|].
    + unfold fill1. rewrite tmax_TB, Em. apply Hf.
    + intros p s' Hp. apply HQ. by eapply loop_post_up.
Qed.

(** [fix_delete]: the root is painted black, and only it. *)
Definition paintable (t : tree) : Prop :=
  match t with TLeaf _ _ => False | TBranch _ c pv _ _ _ => recolor Black (pack c pv) = pack Black pv end.
Lemma plug_branch_pivot m c h t : ctx_but m c h → paintable t → paintable (plug c t).
Proof.
  revert h t. induction c as [|f c IH]; intros h t; [done|]. intros (Hf & _ & _ & Hc) _. rewrite plug_cons.
  apply (IH _ _ Hc). unfold fill1. pose proof (recolor_pack Black (f_color f) (f_pivot f) (fb_pivot _ _ Hf)).
  by destruct (f_side f).
Qed.
Lemma wp_fix_delete s c t m h (Q : () → vma → Prop) :
  zip_ok s c t → paintable t → ctx_but m c (S h) → 0 ≤ tmax t →
  (∀ s' c' t', zip_ok s' c' t' → fixed_ctx m h c c' → c' ≠ [] ∧ t' = t ∨ c' = [] ∧ t' = repaint Black t →
     evolves s s' → Q () s') →
  wp (fix_delete (ptr t)) Q s.
Proof.
  intros Hz Hpt Hctx Ht HQ. assert (is_tbranch t) as Hb by (by destruct t).
  unfold fix_delete, with_fuel. rewrite wp_bind, wp_bind, wp_get.
  eapply wp_fix_delete_loop; [exact Hz|done|exact Hctx|done| |].
  { pose proof (zip_fuel _ _ _ Hz). lia. }
  intros p s1 (d & e & Hz1 & Hfix & -> & Hbl & E1). rewrite wp_bind, wp_get.
  pose proof Hz1 as Hz2. rewrite zip_plug, plug_app, <-zip_plug in Hz2.
  case_decide as Er; rewrite (zip_root s1 e _ Hz2) in Er.
  2:{ rewrite wp_ret. eapply HQ; [exact Hz1|exact Hfix|left; split; [by destruct d, e|done]|done]. }
  subst e. rewrite app_nil_r in *.
  pose proof (plug_branch_pivot m d h t (fx_ok _ _ _ _ Hfix) Hpt) as HpT.
  destruct (plug d t) as [|p cl pv mx l r] eqn:ET; [done|].
  eapply (wp_modify_focus s1 _ Left [] p cl Black pv mx mx l r); [exact Hz2| |].
  { intros par n k. unfold with_packed, mkb. cbn. by rewrite HpT. }
  intros s2 Hz3 _ E2. cbn [TB] in Hz3. destruct d as [|f d].
  - cbn in ET. subst t. eapply HQ; [exact Hz3|exact Hfix|right; done|by trans s1].
  - specialize (Hbl ltac:(done)). cbn in Hbl. subst cl. rewrite <-ET, <-zip_plug in Hz3.
    eapply HQ; [exact Hz3|exact Hfix|by left|by trans s1].
Qed.
End fix_delete.
