(* ===== verification/VmaRemove.v ===== *)
(** * Removing a branch from the VMA tree

    [delete_node_with_zero_or_one_child] and [delete_branch], against the
    abstract trees: the branch between two empty neighbours and one of the two
    go, and the tree is red-black again.  A black branch with two leaves is
    replaced by the temporary node of the storage list, which stays in the tree
    as the remaining leaf. *)
From S2P Require Import Prelude Paging PageAlloc VmaStore VmaTree VmaSpec VmaRepr VmaOps VmaInsert VmaFix.

(** A red-black tree whose recorded sizes may be stale above [m]. *)
Record tree_but (m : NodePtr) (t : tree) : Prop := {
  but_height : is_Some (bh t);
  but_rr : no_red_red t;
  but_black : tcolor t = Black;
  but_pivots : pivots_ok t;
  but_max : max_ok_but m t;
}.
(** The hole is not below a red node, or not filled with one. *)
Definition fits (c : ctx) (t : tree) : Prop :=
  tcolor t = Red → ∃ f c', c = f :: c' ∧ f_color f = Black.

Lemma plug_but m c h t :
  ctx_but m c h → bh t = Some h → no_red_red t → pivots_ok t → fits c t →
  is_Some (bh (plug c t)) ∧ no_red_red (plug c t) ∧ pivots_ok (plug c t) ∧ tcolor (plug c t) = Black.
Proof.
  revert h t. induction c as [|f c IH]; intros h t Hc Hh Hrr Hp Hfit.
  { cbn. split_and!; [by eexists|done|done|]. destruct (tcolor t) eqn:E; [|done].
    by destruct (Hfit E) as (? & ? & ? & _). }
  destruct Hc as (Hf & Hoh & Hred & Hc). rewrite plug_cons.
  apply (IH (h + height_of (f_color f))%nat); [done|by apply bh_TB| | |].
  - apply rr_TB. split; [|split; [done|apply Hf]]. intros E. split; [|by apply Hred].
    destruct (tcolor t) eqn:Et; [|done]. destruct (Hfit Et) as (g & c' & [= <- <-] & E'). congruence.
  - apply pivots_TB. split_and!; try done; apply Hf.
  - intros E. unfold fill1 in E. rewrite tcolor_TB in E. by apply Hred.
Qed.
Lemma plug_but_inv m c d t h :
  ctx_but m c h → bh (plug d t) = Some h → no_red_red (plug d t) → pivots_ok (plug d t) →
  Forall (λ f, max_ok_but m (f_other f)) d → fits c (plug d t) →
  ∃ h', bh t = Some h' ∧ ctx_but m (d ++ c) h' ∧ no_red_red t ∧ pivots_ok t ∧ fits (d ++ c) t.
Proof.
  revert t. induction d as [|f d IH]; intros t Hc Hh Hrr Hp Hm Hfit; [by exists h|].
  apply Forall_cons in Hm as [Hmf Hm].
  rewrite plug_cons in *. destruct (IH _ Hc Hh Hrr Hp Hm Hfit) as (h' & Hh' & Hc' & Hrr' & Hp' & Hfit').
  apply bh_TB_inv in Hh' as (k & Ht & Ho & ->). apply rr_TB in Hrr' as (Hr & Hrt & Hro).
  apply pivots_TB in Hp' as (Hpv & Hmx & Hpt & Hpo).
  unfold fits, fill1 in Hfit'. rewrite tcolor_TB in Hfit'.
  exists k. split_and!; try done.
  - split; [done|]. split; [done|]. split; [|done]. intros E. split; [by apply Hr|]. by apply Hfit'.
  - intros E. exists f, (d ++ c). split; [done|]. destruct (f_color f); [|done].
    destruct (Hr eq_refl) as [E' _]. congruence.
Qed.
Lemma max_but_inv m c t : max_ok_but m (plug c t) → max_ok_but m t ∧ Forall (λ f, max_ok_but m (f_other f)) c.
Proof.
  revert t. induction c as [|f c IH]; intros t; [by split|]. rewrite plug_cons. intros H.
  apply IH in H as [(_ & ? & ?)%max_but_TB ?]. split; [done|]. by constructor.
Qed.
Lemma tree_but_inv m c t : tree_but m (plug c t) →
  ∃ h, bh t = Some h ∧ ctx_but m c h ∧ no_red_red t ∧ pivots_ok t ∧ max_ok_but m t ∧ fits c t.
Proof.
  intros [[h Hh] Hrr Hb Hp [Hm Hmc]%max_but_inv].
  destruct (plug_but_inv m [] c t h) as (k & H); try done; [intros E; congruence|].
  rewrite app_nil_r in H. naive_solver.
Qed.
Lemma refresh_but m c t :
  Forall (λ f, max_ok_but m (f_other f)) c →
  (match t with TLeaf _ _ => True | TBranch _ _ _ _ l r => max_ok_but m l ∧ max_ok_but m r end) →
  max_ok_but m (refresh c t).
Proof.
  revert t. induction c as [|f c IH]; intros t Hc Ht; cbn [refresh].
  - destruct t; cbn; [done|]. split; [by right|tauto].
  - apply Forall_cons in Hc as [Hf Hc]. apply IH; [done|].
    assert (max_ok_but m (remax t)) by (destruct t; cbn; [done|]; split; [by right|tauto]).
    unfold fill1, TB. by destruct (f_side f).
Qed.
Lemma ctx_but_max m c h : ctx_but m c h → Forall (λ f, max_ok_but m (f_other f)) c.
Proof.
  revert h. induction c as [|f c IH]; intros h; [done|]. intros (Hf & _ & _ & Hc).
  constructor; [apply Hf|by eapply IH].
Qed.

(** The end of [delete_branch]: the rebalancing, the temporary node, and the
    sizes above. *)
Definition settle (moved_up_node : NodePtr) (moved_up_node_parent : option NodePtr) (color : NodeColor) : M vma () :=
  match color with
  | Black =>
      moved_up_branch ← unwrap_branch moved_up_node;
      fix_delete moved_up_branch;;
      mb ← read_branch moved_up_branch;
      if is_temp_null mb then
        let left_child := left mb in
        let right_child := right mb in
        lu ← is_used_leaf left_child;
        if lu : bool then
          assert_not_used right_child;;
          n ← read_node left_child;
          write_node moved_up_node n;;
          free_node left_child;; free_node right_child
        else
          n ← read_node right_child;
          write_node moved_up_node n;;
          free_node left_child;; free_node right_child
      else mret ()
  | Red => mret ()
  end;;
  match moved_up_node_parent with
  | Some p => update_max_empty_area_data p
  | None => mret ()
  end.
Definition remove_low (node : NodePtr) : M vma () :=
  '(m, mp) ← delete_node_with_zero_or_one_child node;
  c ← color_of_branch node;
  free_node node;;
  settle m mp c.

Section remove.
Context {room : nat → vma → Prop} {reserved : vma → NodePtr → Prop}
  `{Hsink : !NodeSink free_node room reserved} (Htemp : ∀ s, reserved s TempNode).
Abbreviation zip_ok := (zip_ok (reserved := reserved)).
Abbreviation evolves := (evolves (room := room) (reserved := reserved)).
Abbreviation kept := (kept (room := room) (reserved := reserved)).

(** ** Single steps *)

(** What freeing keeps of the rest of the system. *)
Record trimmed (k : nat) (s s' : vma) : Prop := {
  tr_room : room k s';
  tr_used : pages_used s' = pages_used s;
  tr_mem : mem s' = mem s;
}.
Lemma trimmed_kept k s s1 s2 : kept s s1 → trimmed k s1 s2 → trimmed k s s2.
Proof. intros [] []. split; congruence. Qed.
Lemma trimmed_then k s s1 s2 : trimmed k s s1 → kept s1 s2 → trimmed k s s2.
Proof. intros [] []. split; [auto|congruence..]. Qed.
Lemma trimmed_trans k n s s1 s2 : trimmed n s s1 → trimmed k s1 s2 → trimmed k s s2.
Proof. intros [] []. split; congruence. Qed.

Lemma trimmed_mono k s s' : trimmed (S k) s s' → trimmed k s s'.
Proof. intros []. split; [by apply sink_mono|done..]. Qed.

(** Freeing a node outside the tree. *)
Lemma wp_free s c t p k (Q : () → vma → Prop) :
  zip_ok s c t → room (S k) s → reserved s p → p ≠ TempNode → p ∉ ptrs t ++ ctx_ptrs c →
  (∀ s', zip_ok s' c t → (∀ q, q ≠ p → node_at s' q = node_at s q) →
     (∀ q, reserved s q → q ≠ p → reserved s' q) → trimmed k s s' → Q () s') → wp (free_node p) Q s.
Proof.
  intros (Hc & Ht & Hnd & Hres) Hroom Hp Hpt Hnot HQ. eapply wp_mono; [by eapply sink_free|].
  intros [] s' (Hr & Hn & Hk & Hrt & Hu & Hm & _). rewrite elem_of_app in Hnot.
  apply HQ; [split; [|split; [|split; [done|]]]|done| |done].
  - rewrite Hrt. eapply reprc_ext; [|exact Hc]. intros x Hx. apply Hn. intros ->. tauto.
  - eapply repr_ext; [|exact Ht]. intros x Hx. apply Hn. intros ->. tauto.
  - rewrite Forall_forall in Hres |- *. intros x Hx. apply Hr. split; [|by apply Hres].
    intros ->. apply elem_of_app in Hx. tauto.
  - intros q Hq Hne. by apply Hr.
Qed.
(** Freeing a leaf the node no longer in the tree is the parent of. *)
Lemma wp_not_used s p n (Q : () → vma → Prop) :
  node_at s p = Some (Leaf (Empty n)) → Q () s → wp (assert_not_used p) Q s.
Proof.
  intros Hp HQ. unfold assert_not_used, is_used_leaf. rewrite wp_bind, wp_bind.
  eapply wp_read_node; [exact Hp|]. by rewrite wp_ret, wp_rassert.
Qed.
Lemma wp_is_branch s par t (Q : bool → vma → Prop) :
  repr (node_at s) par t → Q (match t with TBranch _ _ _ _ _ _ => true | TLeaf _ _ => false end) s →
  wp (is_branch (ptr t)) Q s.
Proof.
  intros Ht HQ. unfold is_branch. rewrite wp_bind.
  destruct t as [p l|p cl pv mx l r]; [|destruct Ht as (Ht & _)]; (eapply wp_read_node; [exact Ht|]); by rewrite wp_ret.
Qed.

(** [replace_node]: another tree takes the place of the node. *)
Lemma wp_replace_node s c p b par x (Q : () → vma → Prop) :
  node_at s p = Some (Branch b) → parent b = ctx_parent c → reprc (node_at s) (root s) p c →
  repr (node_at s) par x → NoDup (p :: ptrs x ++ ctx_ptrs c) → Forall (reserved s) (ptrs x ++ ctx_ptrs c) →
  (∀ s', zip_ok s' c x → (∀ q, q ∉ ptr x :: ctx_ptrs c → node_at s' q = node_at s q) → evolves s s' → Q () s') →
  wp (replace_node p (ptr x)) Q s.
Proof.
  intros Hp Hpar Hc Hx Hnd Hres HQ. apply NoDup_cons in Hnd as [Hn Hnd]. rewrite elem_of_app in Hn.
  pose proof Hnd as Hnd'. apply NoDup_app in Hnd' as (Hndx & Hxc & Hndc).
  unfold replace_node. rewrite wp_bind. eapply wp_replace_in_parent; [exact Hp|exact Hpar|exact Hc|done|tauto|].
  intros s1 N1 C1 E1. rewrite wp_bind. eapply wp_read_branch; [rewrite N1 by tauto; exact Hp|].
  destruct (repr_node _ _ _ Hx) as (n & Hnx & _). pose proof (ptr_in_ptrs x) as Hin.
  eapply (wp_set_parent_if_branch _ _ n); [rewrite N1 by auto; exact Hnx|].
  intros s2 N2 R2 E2. assert (evolves s s2) as E by (by trans s1). apply HQ; [|intros q Hq|done].
  - split; [|split; [|split; [done|]]].
    + rewrite R2. eapply reprc_ext; [|exact C1]. intros y Hy. rewrite N2, decide_False; [done|]. intros ->. by apply (Hxc _ Hin).
    + rewrite <-Hpar. apply (repr_reparent (node_at s) _ par); [|done| | |exact Hx].
      * intros y Hy Hne. rewrite N2, decide_False by done. apply N1. by apply Hxc.
      * intros b0 Hb0. rewrite N2, decide_True by done. rewrite Hnx in Hb0. by injection Hb0 as ->.
      * intros l0 Hl0. rewrite N2, decide_True by done. rewrite Hnx in Hl0. by injection Hl0 as ->.
    + eapply Forall_impl; [exact Hres|]. intros q. apply E.
  - rewrite elem_of_cons in Hq. rewrite N2, decide_False by tauto. apply N1. tauto.
Qed.

(** ** The end of a removal *)

(** The sizes above the hole. *)
Lemma wp_refresh_up s c t m h (Q : () → vma → Prop) :
  zip_ok s c t → ctx_but m c h → bh t = Some h → no_red_red t → pivots_ok t → max_ok_but m t → fits c t →
  (∀ s' T, zip_ok s' [] T → tree_but m T → ptrs T ≡ₚ ptrs t ++ ctx_ptrs c →
     (∀ lo hi, areas lo hi T = areas lo hi (plug c t)) → kept s s' → Q () s') →
  wp (match ctx_parent c with Some p => update_max_empty_area_data p | None => mret () end) Q s.
Proof.
  intros Hz Hctx Hh Hrr Hp Hm Hfit HQ.
  destruct (plug_but m c h t) as (HhT & HrrT & HpT & HbT); try done.
  destruct c as [|f c]; cbn [ctx_parent].
  { rewrite wp_ret. apply (HQ s t); [done|by split|by rewrite app_nil_r|done|done]. }
  pose proof Hz as Hz'. rewrite zip_up in Hz'. pose proof (ctx_but_max _ _ _ Hctx) as Hmax.
  apply Forall_cons in Hmax as [Hmf Hmc]. rewrite plug_cons in *. set (u := fill1 f t) in *.
  assert (∃ a b, u = TBranch (f_ptr f) (f_color f) (f_pivot f) (f_max f) a b ∧ max_ok_but m a ∧ max_ok_but m b)
    as (a & b & Eu & Hma & Hmb) by (unfold u, fill1; destruct (f_side f); by eexists _, _).
  rewrite Eu in Hz'. eapply wp_update_max; [exact Hz'|]. rewrite <-Eu. intros s' Hz2 Hev.
  destruct (strip_facts _ _ (strip_refresh c u)) as (_ & Eptr & Ecol & Ebh & Err & Ear).
  apply (HQ s' _ Hz2); [split| |done|apply Hev].
  - by rewrite Ebh.
  - by apply Err.
  - by rewrite Ecol.
  - by apply refresh_pivots.
  - apply refresh_but; [done|]. by rewrite Eu.
  - rewrite Eptr. apply (ptrs_plug (f :: c) t).
Qed.

Lemma fixed_fits m h c c' t : fixed_ctx m h c c' → c' ≠ [] → fits c' t.
Proof. intros [_ Hh _] Hne _. destruct c' as [|f d]; [done|]. exists f, d. split; [done|]. by eapply Hh. Qed.

Lemma plain_packed c pv : pivot_ok pv → Z.land (pack c pv) 2 = 0.
Proof.
  intros H. change 2 with (Z.land 3 2). rewrite Z.land_assoc.
  assert (Z.land (pack c pv) 3 = color_bit c) as ->; [|by destruct c].
  change 3 with (Z.ones 2). rewrite Z.land_ones by lia. change (2 ^ 2) with 4. destruct H as [_ H]. unfold pack.
  destruct c; cbn [color_bit]; Z.div_mod_to_equations; lia.
Qed.
Lemma repaint_tall m t h : is_tbranch t → bh t = Some h → no_red_red t → pivots_ok t → max_ok_but m t →
  let T := repaint Black t in
  is_Some (bh T) ∧ no_red_red T ∧ pivots_ok T ∧ max_ok_but m T ∧ tcolor T = Black ∧ ptrs T = ptrs t.
Proof.
  intros Hb Hh Hrr Hp Hm. destruct t as [|p cl pv mx l r]; [done|].
  destruct (bh_TB_inv Left _ _ _ _ _ _ _ Hh) as (k & Hl & Hr & _). split.
  { exists (k + 1)%nat. by apply (bh_TB Left). }
  cbn in *. naive_solver.
Qed.

(** A black branch was removed, and its place is taken by a branch. *)
Lemma wp_settle_branch s c t m h k (Q : () → vma → Prop) :
  zip_ok s c t → is_tbranch t → ctx_but m c (S h) → bh t = Some h → no_red_red t → pivots_ok t →
  max_ok_but m t → room k s →
  (∀ s' T, zip_ok s' [] T → tree_but m T → ptrs T ≡ₚ ptrs t ++ ctx_ptrs c →
     (∀ lo hi, areas lo hi T = areas lo hi (plug c t)) → trimmed k s s' → Q () s') →
  wp (settle (ptr t) (ctx_parent c) Black) Q s.
Proof.
  intros Hz Hb Hctx Hh Hrr Hp Hm Hroom HQ. unfold settle. rewrite wp_bind, wp_bind.
  eapply wp_unwrap_focus; [exact Hz|done|]. rewrite wp_bind. eapply wp_fix_delete; [exact Hz| |exact Hctx| |].
  { destruct t; [done|]. destruct Hp as (? & ? & _). by apply recolor_pack. }
  { by apply tmax_nonneg. }
  intros s1 c1 t1 Hz1 Hfix Ht1 E1. pose proof (fx_around _ _ _ _ Hfix) as [Hptr Har Hpar].
  destruct (repaint_tall m t h) as ([h1 Hh1] & Hrr1 & Hp1 & Hm1 & Hb1 & Eptr); try done.
  assert (∃ h', ctx_but m c1 h' ∧ bh t1 = Some h' ∧ no_red_red t1 ∧ pivots_ok t1 ∧ max_ok_but m t1 ∧ fits c1 t1 ∧
    ptr t1 = ptr t ∧ ptrs t1 = ptrs t ∧ is_tbranch t1 ∧ ∀ lo hi, areas lo hi t1 = areas lo hi t)
    as (h' & Hc1 & Hht & Hrrt & Hpt & Hmt & Hfit & Ep & Eps & Hbt & Ea).
  { destruct Ht1 as [[Hne ->]|[-> ->]].
    - exists h. split_and!; try done; [by destruct Hfix|by eapply fixed_fits].
    - exists h1. destruct (repaint_facts Black t) as (_ & ? & ? & ?). split_and!; try done.
      + intros E. congruence.
      + by destruct t. }
  destruct t1 as [|p cl pv mx l r]; [done|]. cbn in Ep. subst p. rewrite wp_bind.
  eapply (wp_read_focus s1 c1 Left); [exact Hz1|]. destruct Hpt as (H1 & H2 & H3). 
  assert (is_temp_null (mkb Left cl pv mx (ctx_parent c1) (ptr l) (ptr r)) = false) as ->.
  { unfold is_temp_null. cbn [packed_fields mkb]. by rewrite plain_packed. }
  rewrite wp_ret, <-Hpar. eapply wp_refresh_up; [exact Hz1|done..|].
  intros s2 T Hz2 HT HP HA K2. apply (HQ s2 T Hz2 HT).
  - by rewrite HP, Eps, Hptr.
  - intros. rewrite HA, Har. by apply areas_plug_ext.
  - destruct E1 as [[]], K2. split; [auto|congruence..].
Qed.

(** A black branch with two leaves was removed: the temporary node. *)
Definition temp_branch (pl : NodePtr) (n : Z) (pr : NodePtr) (lr : LeafNode) : tree :=
  TBranch TempNode Black 2 0 (TLeaf pl (Empty n)) (TLeaf pr lr).
Lemma wp_settle_temp s c pl n pr lr m k (Q : () → vma → Prop) :
  zip_ok s c (temp_branch pl n pr lr) → ctx_but m c 1 → leaf_pos lr → room (S (S k)) s →
  (∀ s' T, zip_ok s' [] T → tree_but m T → ptrs T ≡ₚ TempNode :: ctx_ptrs c →
     (∀ lo hi, areas lo hi T = areas lo hi (plug c (TLeaf TempNode lr))) → trimmed k s s' → Q () s') →
  wp (settle TempNode (ctx_parent c) Black) Q s.
Proof.
  intros Hz Hctx Hlr Hroom HQ. unfold settle. rewrite wp_bind, wp_bind.
  change TempNode with (ptr (temp_branch pl n pr lr)).
  eapply wp_unwrap_focus; [exact Hz|done|]. rewrite wp_bind. eapply wp_fix_delete; [exact Hz|done|exact Hctx|done|].
  intros s1 c1 t1 Hz1 Hfix Ht1 E1. pose proof (fx_around _ _ _ _ Hfix) as [Hptr Har Hpar].
  assert (t1 = temp_branch pl n pr lr) as -> by (by destruct Ht1 as [[_ ->]|[_ ->]]). clear Ht1.
  rewrite wp_bind. eapply (wp_read_focus s1 c1 Left); [exact Hz1|].
  change (is_temp_null _) with true. cbv beta iota zeta. cbn [mkb left right ptr].
  pose proof Hz1 as (Hc1 & (_ & Hl & Hr) & Hnd & Hres). cbn in Hl, Hr, Hnd, Hres.
  apply NoDup_cons in Hnd as [Hn1 Hnd]. apply NoDup_cons in Hnd as [Hn2 Hnd]. apply NoDup_cons in Hnd as [Hn3 Hnd].
  apply Forall_cons in Hres as [R1 Hres]. apply Forall_cons in Hres as [R2 Hres]. apply Forall_cons in Hres as [R3 Hres].
  rewrite !elem_of_cons in Hn1. rewrite elem_of_cons in Hn2.
  unfold is_used_leaf. rewrite wp_bind, wp_bind. eapply wp_read_node; [exact Hl|]. rewrite wp_ret.
  rewrite wp_bind. eapply wp_read_node; [exact Hr|]. rewrite wp_bind.
  apply wp_write_node; [by eapply (source_readable (room := room)) in R1|]. intros s2 N2 Rt2 K2.
  assert (zip_ok s2 c1 (TLeaf TempNode lr)) as Hz2.
  { split; [|split; [|split]].
    - rewrite Rt2. eapply reprc_ext; [|exact Hc1]. intros x Hx. rewrite N2, decide_False; [done|]. intros ->. tauto.
    - cbn [repr]. by rewrite N2, decide_True.
    - constructor; [tauto|done].
    - constructor; [by apply K2|]. eapply Forall_impl; [exact Hres|]. intros x. apply K2. }
  rewrite wp_bind. eapply (wp_free s2 c1 (TLeaf TempNode lr) pl (S k)); [exact Hz2| |by apply K2|by intros ->; tauto| |].
  { apply K2, E1, Hroom. }
  { cbn. rewrite elem_of_cons. intros [->|?]; tauto. }
  intros s3 Hz3 N3 R3' T3.
  eapply (wp_free s3 c1 (TLeaf TempNode lr) pr k); [exact Hz3|apply T3| |by intros ->; tauto| |].
  { apply R3'; [by apply K2|]. intros ->. tauto. }
  { cbn. rewrite elem_of_cons. intros [->|?]; tauto. }
  intros s4 Hz4 N4 R4 T4. rewrite <-Hpar.
  assert (fits c1 (TLeaf TempNode lr)) as Hfit by done.
  eapply wp_refresh_up; [exact Hz4|apply Hfix|done..|].
  intros s5 T Hz5 HT HP HA K5. apply (HQ s5 T Hz5 HT).
  - by rewrite HP, Hptr.
  - intros. rewrite HA. apply Har.
  - eapply trimmed_kept; [apply E1|]. eapply trimmed_kept; [exact K2|].
    eapply trimmed_trans; [exact T3|]. by eapply trimmed_then.
Qed.

(** ** Removing a branch with a leaf child *)

Lemma mkb_eta side c pv mx par x y :
  left (mkb side c pv mx par x y) = match side with Left => x | Right => y end ∧
  right (mkb side c pv mx par x y) = match side with Left => y | Right => x end.
Proof. by destruct side. Qed.
(** The last steps on the removed node, out of the tree by now. *)
Lemma wp_drop_removed s c t p side cl pv mx par x y up k (Q : () → vma → Prop) :
  zip_ok s c t → node_at s p = Some (Branch (mkb side cl pv mx par x y)) → pivot_ok pv →
  reserved s p → p ≠ TempNode → p ∉ ptrs t ++ ctx_ptrs c → room (S k) s →
  (∀ s', zip_ok s' c t → trimmed k s s' → wp (settle (ptr t) up cl) Q s') →
  wp (c ← color_of_branch p; free_node p;; settle (ptr t) up c) Q s.
Proof.
  intros Hz Hp Hpv Hr Hne Hnot Hroom HQ. unfold color_of_branch. rewrite wp_bind, wp_bind.
  eapply wp_read_branch; [exact Hp|]. rewrite wp_ret, mkb_color by done. rewrite wp_bind.
  eapply wp_free; [exact Hz|exact Hroom|done..|]. intros s1 Hz1 _ _ T1. by apply HQ.
Qed.

(** One child is a branch: it moves up. *)
Lemma wp_remove_one s c side p pv mx x py n m h k (Q : () → vma → Prop) :
  zip_ok s c (TB side p Black pv mx x (TLeaf py (Empty n))) → is_tbranch x → pivot_ok pv →
  ctx_but m c (S h) → bh x = Some h → no_red_red x → pivots_ok x → max_ok_but m x →
  p ≠ TempNode → py ≠ TempNode → room (S (S k)) s →
  (∀ s' T, zip_ok s' [] T → tree_but m T → ptrs T ≡ₚ ptrs x ++ ctx_ptrs c →
     (∀ lo hi, areas lo hi T = areas lo hi (plug c x)) → trimmed k s s' → Q () s') →
  wp (remove_low p) Q s.
Proof.
  intros (Hc & Ht & Hnd & Hres) Hb Hpv Hctx Hh Hrr Hpx Hm Hpt Hyt Hroom HQ.
  rewrite ptr_TB in Hc. rewrite repr_TB in Ht. destruct Ht as (Hp & Hx & Hy). cbn [ptr repr] in Hp, Hy.
  assert (ptrs (TB side p Black pv mx x (TLeaf py (Empty n))) ++ ctx_ptrs c ≡ₚ p :: py :: ptrs x ++ ctx_ptrs c) as EP.
  { rewrite ptrs_TB. cbn. apply perm_skip. rewrite <-app_assoc. cbn. by rewrite <-Permutation_middle. }
  rewrite EP in Hnd, Hres. apply NoDup_cons in Hnd as [Hn1 Hnd]. apply NoDup_cons in Hnd as [Hn2 Hnd].
  apply Forall_cons in Hres as [R1 Hres]. apply Forall_cons in Hres as [R2 Hres].
  rewrite elem_of_cons in Hn1. pose proof (ptr_in_ptrs x) as Hin.
  assert (∀ q, q ∉ ptrs x ++ ctx_ptrs c → q ∉ ptr x :: ctx_ptrs c) as Hsub.
  { intros q Hq. rewrite elem_of_app in Hq. rewrite elem_of_cons. intros [->|?]; tauto. }
  assert (wp (delete_node_with_zero_or_one_child p) (λ '(m, mp) s1, m = ptr x ∧ mp = ctx_parent c ∧
     zip_ok s1 c x ∧ node_at s1 p = node_at s p ∧ reserved s1 p ∧ trimmed (S k) s s1) s) as Hd.
  { set (R := λ '(m, mp) (s1 : vma), m = ptr x ∧ mp = ctx_parent c ∧
     zip_ok s1 c x ∧ node_at s1 p = node_at s p ∧ reserved s1 p ∧ trimmed (S k) s s1).
    assert (∀ f g, f (mkb side Black pv mx (ctx_parent c) (ptr x) py) = py →
      g (mkb side Black pv mx (ctx_parent c) (ptr x) py) = ptr x →
      wp (replace_node p (ptr x);; b ← read_branch p; assert_not_used (f b);; free_node (f b);;
          b ← read_branch p; mret (g b, ctx_parent c)) R s) as Hrun.
    { intros f g Ef Eg. rewrite wp_bind. eapply (wp_replace_node s c p _ (Some p) x); [exact Hp|done|exact Hc|exact Hx| |done|].
      { apply NoDup_cons. split; [tauto|done]. }
      intros s1 Hz1 N1 E1. assert (node_at s1 p = node_at s p) as Np by (apply N1, Hsub; tauto).
      assert (node_at s1 py = node_at s py) as Ny by (by apply N1, Hsub).
      rewrite wp_bind. eapply wp_read_branch; [by rewrite Np|]. rewrite Ef, wp_bind.
      eapply wp_not_used; [by rewrite Ny|]. rewrite wp_bind.
      eapply (wp_free s1 c x py (S k)); [exact Hz1|by apply E1|by apply E1|done|done|].
      intros s2 Hz2 N2 R2' T2. assert (node_at s2 p = node_at s p) as Np2 by (rewrite N2 by tauto; done).
      rewrite wp_bind. eapply wp_read_branch; [by rewrite Np2|]. rewrite Eg, wp_ret. unfold R.
      split_and!; try done; [apply R2'; [by apply E1|tauto]|]. eapply trimmed_kept; [apply E1|done]. }
    unfold delete_node_with_zero_or_one_child. rewrite wp_bind. eapply wp_read_branch; [exact Hp|].
    destruct side; cbn [mkb left right parent].
    - rewrite wp_bind. eapply wp_is_branch; [exact Hx|]. destruct x as [|px cx pvx mxx lx rx]; [done|].
      by apply (Hrun right left).
    - rewrite wp_bind. apply (wp_is_branch s None (TLeaf py (Empty n))); [exact Hy|].
      rewrite wp_bind. eapply wp_is_branch; [exact Hx|]. destruct x as [|px cx pvx mxx lx rx]; [done|].
      by apply (Hrun left right). }
  unfold remove_low. rewrite wp_bind. eapply wp_mono; [exact Hd|]. clear Hd.
  intros [? ?] s1 (-> & -> & Hz1 & Np & Rp & T1).
  eapply (wp_drop_removed s1 c x p); [exact Hz1|by rewrite Np|done|done|done| |apply T1|].
  { tauto. }
  intros s2 Hz2 T2. eapply wp_settle_branch; [exact Hz2|done|exact Hctx|done..|apply T2|].
  intros s3 T Hz3 HT HP HA T3. apply (HQ s3 T Hz3 HT HP HA). eapply trimmed_trans; [exact T1|]. by eapply trimmed_trans.
Qed.

(** Both children are leaves, the left one empty: the right one stays, in the
    temporary node when the branch was black. *)
Definition kept_leaf (cl : NodeColor) (pr : NodePtr) : NodePtr :=
  match cl with Red => pr | Black => TempNode end.
(** The first steps for a branch over two leaves. *)
Lemma wp_remove_low_leaves s p cl pv mx q pl n pr lr (Q : () → vma → Prop) :
  node_at s p = Some (Branch (mkb Left cl pv mx q pl pr)) → pivot_ok pv →
  node_at s pl = Some (Leaf (Empty n)) → node_at s pr = Some (Leaf lr) →
  wp (m ← (match cl with
           | Black => write_node TempNode (Branch (BranchNode_new 0 true Black None pl pr));; mret TempNode
           | Red => free_node pl;; mret pr
           end);
      replace_node p m;;
      c ← color_of_branch p;
      free_node p;;
      settle m q c) Q s →
  wp (remove_low p) Q s.
Proof.
  intros Hp Hpv Hl Hr HQ. unfold remove_low, delete_node_with_zero_or_one_child. rewrite wp_bind, wp_bind.
  eapply wp_read_branch; [exact Hp|]. rewrite wp_bind.
  apply (wp_is_branch s None (TLeaf pl (Empty n))); [exact Hl|]. rewrite wp_bind.
  apply (wp_is_branch s None (TLeaf pr lr)); [exact Hr|]. cbv beta iota zeta. rewrite wp_bind.
  rewrite mkb_color by done. cbn [mkb left right parent]. rewrite wp_bind in HQ.
  assert (∀ m s', wp (replace_node p m;; c ← color_of_branch p; free_node p;; settle m q c) Q s' →
    wp (replace_node p m;; mret (m, q)) (λ a, wp (let '(m, mp) := a in
      c ← color_of_branch p; free_node p;; settle m mp c) Q) s') as Hk.
  { intros m s' H. rewrite wp_bind in H. rewrite wp_bind. eapply wp_mono; [exact H|]. intros u s2 H2. by rewrite wp_ret. }
  destruct cl.
  - rewrite wp_bind. unfold is_used_leaf. rewrite wp_bind. eapply wp_read_node; [exact Hl|]. rewrite wp_ret, wp_bind.
    eapply wp_not_used; [exact Hl|]. eapply wp_mono; [exact HQ|exact Hk].
  - eapply wp_mono; [exact HQ|exact Hk].
Qed.
Lemma wp_remove_leaves_red s c p pv mx pl n pr lr m k (Q : () → vma → Prop) :
  zip_ok s c (TBranch p Red pv mx (TLeaf pl (Empty n)) (TLeaf pr lr)) → pivot_ok pv →
  ctx_but m c (height_of Red) → leaf_pos lr →
  TempNode ∉ [p; pl; pr] ++ ctx_ptrs c → room (S (S (S k))) s →
  (∀ s' T, zip_ok s' [] T → tree_but m T → ptrs T ≡ₚ kept_leaf Red pr :: ctx_ptrs c →
     (∀ lo hi, areas lo hi T = areas lo hi (plug c (TLeaf (kept_leaf Red pr) lr))) → trimmed k s s' → Q () s') →
  wp (remove_low p) Q s.
Proof.
  intros (Hc & (Hp & Hl & Hr) & Hnd & Hres) Hpv Hctx Hlr Ht Hroom HQ. cbn [ptr repr ptrs app] in Hc, Hp, Hl, Hr, Hnd, Hres, Ht.
  apply NoDup_cons in Hnd as [Hn1 Hnd]. apply NoDup_cons in Hnd as [Hn2 Hnd]. apply NoDup_cons in Hnd as [Hn3 Hnd].
  apply Forall_cons in Hres as [R1 Hres]. apply Forall_cons in Hres as [R2 Hres]. apply Forall_cons in Hres as [R3 Hres].
  rewrite !elem_of_cons in Hn1. rewrite elem_of_cons in Hn2. rewrite !elem_of_cons in Ht.
  set (b := mkb Left Red pv mx (ctx_parent c) pl pr) in *.
  cbn [height_of] in Hctx.
  eapply (wp_remove_low_leaves s p Red); [exact Hp|done|exact Hl|exact Hr|]. rewrite wp_bind, wp_bind.
  eapply wp_mono; [eapply (sink_free _ pl (S (S k))); [exact Hroom|done|by intros ->; tauto]|].
  intros [] s1 (Rs1 & N1 & Hroom1 & Rt1 & U1 & M1 & _). rewrite wp_ret, wp_bind.
  apply (wp_replace_node s1 c p b None (TLeaf pr lr)).
  { rewrite N1 by tauto. exact Hp. }
  { done. }
  { rewrite Rt1. eapply reprc_ext; [|exact Hc]. intros x Hx. apply N1. intros ->. tauto. }
  { cbn [repr]. rewrite N1; [exact Hr|]. intros ->. tauto. }
  { cbn. repeat (apply NoDup_cons; split; [rewrite ?elem_of_cons; tauto|]). done. }
  { cbn. constructor; [apply Rs1; split; [intros ->; tauto|done]|].
    rewrite Forall_forall in Hres |- *. intros x Hx. apply Rs1. split; [intros ->; tauto|by apply Hres]. }
  intros s2 Hz2 N2 E2.
  eapply (wp_drop_removed s2 c (TLeaf pr lr) p Left Red pv mx); [exact Hz2| |done| |by intros ->; tauto| |by apply E2|].
  { rewrite N2 by (cbn; rewrite elem_of_cons; tauto). rewrite N1 by tauto. exact Hp. }
  { apply E2, Rs1. tauto. }
  { cbn. rewrite elem_of_cons. tauto. }
  intros s3 Hz3 T3. unfold settle. rewrite wp_bind, wp_ret.
  eapply wp_refresh_up; [exact Hz3|exact Hctx|done..|].
  intros s4 T Hz4 HT HP HA K4. apply (HQ s4 T Hz4 HT); [done|done|].
  apply trimmed_mono in T3.
  eapply trimmed_trans; [|eapply trimmed_kept; [apply E2|]; eapply trimmed_then; [exact T3|exact K4]].
  by split.
Qed.
Lemma wp_remove_leaves_black s c p pv mx pl n pr lr m k (Q : () → vma → Prop) :
  zip_ok s c (TBranch p Black pv mx (TLeaf pl (Empty n)) (TLeaf pr lr)) → pivot_ok pv →
  ctx_but m c (height_of Black) → leaf_pos lr →
  TempNode ∉ [p; pl; pr] ++ ctx_ptrs c → room (S (S (S k))) s →
  (∀ s' T, zip_ok s' [] T → tree_but m T → ptrs T ≡ₚ kept_leaf Black pr :: ctx_ptrs c →
     (∀ lo hi, areas lo hi T = areas lo hi (plug c (TLeaf (kept_leaf Black pr) lr))) → trimmed k s s' → Q () s') →
  wp (remove_low p) Q s.
Proof.
  intros (Hc & (Hp & Hl & Hr) & Hnd & Hres) Hpv Hctx Hlr Ht Hroom HQ. cbn [ptr repr ptrs app] in Hc, Hp, Hl, Hr, Hnd, Hres, Ht.
  apply NoDup_cons in Hnd as [Hn1 Hnd]. apply NoDup_cons in Hnd as [Hn2 Hnd]. apply NoDup_cons in Hnd as [Hn3 Hnd].
  apply Forall_cons in Hres as [R1 Hres]. apply Forall_cons in Hres as [R2 Hres]. apply Forall_cons in Hres as [R3 Hres].
  rewrite !elem_of_cons in Hn1. rewrite elem_of_cons in Hn2. rewrite !elem_of_cons in Ht.
  set (b := mkb Left Black pv mx (ctx_parent c) pl pr) in *.
  cbn [height_of] in Hctx.
  eapply (wp_remove_low_leaves s p Black); [exact Hp|done|exact Hl|exact Hr|]. rewrite wp_bind, wp_bind. apply wp_write_node; [by eapply (source_readable (room := room))|]. intros s1 N1 Rt1 K1.
  rewrite wp_ret, wp_bind.
  assert (∀ q, q ≠ TempNode → node_at s1 q = node_at s q) as Ns1 by (intros q Hq; by rewrite N1, decide_False).
  apply (wp_replace_node s1 c p b None (temp_branch pl n pr lr)).
  { rewrite Ns1 by (intros ->; tauto). exact Hp. }
  { done. }
  { rewrite Rt1. eapply reprc_ext; [|exact Hc]. intros x Hx. apply Ns1. intros ->. tauto. }
  { split; [by rewrite N1, decide_True|]. cbn [repr]. rewrite !Ns1 by (intros ->; tauto). done. }
  { cbn. repeat (apply NoDup_cons; split; [rewrite ?elem_of_cons; intuition congruence|]). done. }
  { cbn. repeat (constructor; [by apply K1|]). eapply Forall_impl; [exact Hres|]. intros x. apply K1. }
  intros s2 Hz2 N2 E2.
  eapply (wp_drop_removed s2 c (temp_branch pl n pr lr) p Left Black pv mx (ctx_parent c) pl pr (ctx_parent c) (S (S k)));
    [exact Hz2| |done| |by intros ->; tauto| | |].
  { rewrite N2, Ns1; [exact Hp|by intros ->; tauto|]. cbn. rewrite elem_of_cons. intuition congruence. }
  { by apply E2, K1. }
  { cbn. rewrite !elem_of_cons. intuition congruence. }
  { by apply E2, K1. }
  intros s3 Hz3 T3. eapply wp_settle_temp; [exact Hz3|exact Hctx|done|apply T3|].
  intros s4 T Hz4 HT HP HA T4. apply (HQ s4 T Hz4 HT); [done|done|].
  eapply trimmed_kept; [exact K1|]. eapply trimmed_kept; [apply E2|]. by eapply trimmed_trans.
Qed.
Lemma wp_remove_leaves s c p cl pv mx pl n pr lr m k (Q : () → vma → Prop) :
  zip_ok s c (TBranch p cl pv mx (TLeaf pl (Empty n)) (TLeaf pr lr)) → pivot_ok pv →
  ctx_but m c (height_of cl) → leaf_pos lr →
  TempNode ∉ [p; pl; pr] ++ ctx_ptrs c → room (S (S (S k))) s →
  (∀ s' T, zip_ok s' [] T → tree_but m T → ptrs T ≡ₚ kept_leaf cl pr :: ctx_ptrs c →
     (∀ lo hi, areas lo hi T = areas lo hi (plug c (TLeaf (kept_leaf cl pr) lr))) → trimmed k s s' → Q () s') →
  wp (remove_low p) Q s.
Proof. destruct cl; [apply wp_remove_leaves_red|apply wp_remove_leaves_black]. Qed.
End remove.
