(* ===== verification/VmaJoin.v ===== *)
(** * Joining neighbouring gaps of the VMA tree

    [delete_branch] between two empty neighbours: the two become one area, and
    every other area keeps its bounds and its contents. *)
From S2P Require Import Prelude Paging PageAlloc VmaStore VmaTree VmaSpec VmaRepr VmaOps VmaInsert VmaLink VmaFix VmaRemove.

(** ** The outermost leaves of a tree *)

Fixpoint edge (side : Side) (t : tree) : NodePtr * LeafNode :=
  match t with
  | TLeaf p l => (p, l)
  | TBranch _ _ _ _ l r => edge side (match side with Left => l | Right => r end)
  end.
Lemma areas_last lo t : ∃ b a, ∀ hi,
  areas lo hi t = b ++ [Area a hi (fst (edge Right t)) (snd (edge Right t))].
Proof.
  revert lo. induction t as [p l|p c pv mx l _ r IH]; intros lo; [by exists [], lo|].
  destruct (IH pv) as (b & a & E). exists (areas lo pv l ++ b), a. intros hi. cbn [areas edge].
  by rewrite E, app_assoc.
Qed.
Lemma areas_first hi t : ∃ e r, ∀ lo,
  areas lo hi t = Area lo e (fst (edge Left t)) (snd (edge Left t)) :: r.
Proof.
  revert hi. induction t as [p l|p c pv mx l IH r _]; intros hi; [by exists hi, []|].
  destruct (IH pv) as (e & s & E). exists e, (s ++ areas pv hi r). intros lo. cbn [areas edge]. by rewrite E.
Qed.
Lemma edge_ptrs side t : fst (edge side t) ∈ ptrs t.
Proof.
  induction t as [p l|p c pv mx l IHl r IHr]; cbn; [set_solver|]. destruct side; set_solver.
Qed.
(** The lowest branch of a tree, down the left spine. *)
Lemma min_branch t : is_tbranch t → ∃ d p c pv mx y,
  t = plug d (TBranch p c pv mx (TLeaf (fst (edge Left t)) (snd (edge Left t))) y) ∧ Forall (λ f, f_side f = Left) d.
Proof.
  induction t as [p l|p c pv mx l IHl r _]; [done|]. intros _. destruct l as [q x|q c' pv' mx' a b].
  - by exists [], p, c, pv, mx, r.
  - destruct (IHl I) as (d & p1 & c1 & pv1 & mx1 & y & E & Hd). cbn [edge] in *.
    exists (d ++ [Frame Left p c pv mx r]), p1, c1, pv1, mx1, y. split; [|by apply Forall_app; split; [|constructor]].
    rewrite plug_app, <-E. done.
Qed.
Lemma left_spine d hi : Forall (λ f, f_side f = Left) d →
  ∃ h r, ∀ lo t, areas lo hi (plug d t) = areas lo h t ++ r.
Proof.
  induction d as [|f d IH]; intros Hd; [exists hi, []; intros; by rewrite app_nil_r|].
  apply Forall_cons in Hd as [Ef Hd]. destruct (IH Hd) as (h & r & E).
  exists (f_pivot f), (areas (f_pivot f) h (f_other f) ++ r). intros lo t.
  rewrite plug_cons, E. unfold fill1. rewrite Ef. cbn. by rewrite <-app_assoc.
Qed.

Lemma plug_pivots_inv c t : pivots_ok (plug c t) → pivots_ok t.
Proof.
  revert t. induction c as [|f c IH]; intros t; [done|]. rewrite plug_cons. intros H.
  by apply IH, pivots_TB in H as (_ & _ & ? & _).
Qed.

(** ** What a join does to the areas *)

(** An area without the node that stores it. *)
Definition content (a : area) : Z * Z * LeafNode := (area_start a, area_end a, area_leaf a).
(** [l] ends and [r] starts with a gap, each with the size [n] recorded; [X] has
    one gap in their place, at [q]. *)
Definition joins (n : Z) (l r : tree) (pv : Z) (X : tree) (q : NodePtr) : Prop :=
  ∀ lo hi, ∃ bl a e pl pr ar ar',
    areas lo pv l = bl ++ [Area a pv pl (Empty n)] ∧ areas pv hi r = Area pv e pr (Empty n) :: ar ∧
    areas lo hi X = bl ++ Area a e q (Empty n) :: ar' ∧ content <$> ar' = content <$> ar.

Lemma joins_left n l pr pv : snd (edge Right l) = Empty n → joins n l (TLeaf pr (Empty n)) pv l (fst (edge Right l)).
Proof.
  intros El lo hi. destruct (areas_last lo l) as (b & a & E). rewrite El in E.
  exists b, a, hi, (fst (edge Right l)), pr, [], []. by rewrite !E.
Qed.
Lemma joins_right n pl r pv : snd (edge Left r) = Empty n → joins n (TLeaf pl (Empty n)) r pv r (fst (edge Left r)).
Proof.
  intros Er lo hi. destruct (areas_first hi r) as (e & s & E). rewrite Er in E.
  exists [], lo, e, pl, (fst (edge Left r)), s, s. by rewrite !E.
Qed.
Lemma joins_leaves n pl pr pv q : joins n (TLeaf pl (Empty n)) (TLeaf pr (Empty n)) pv (TLeaf q (Empty n)) q.
Proof. intros lo hi. by exists [], lo, hi, pl, pr, [], []. Qed.
(** The gap at the start of [r] goes with its lowest branch, whose other child
    moves up. *)
Lemma joins_inner n p cl pv mx l d ps cs pvs mxs pr y y' :
  snd (edge Right l) = Empty n → Forall (λ f, f_side f = Left) d →
  (∀ lo hi, content <$> areas lo hi y' = content <$> areas lo hi y) →
  joins n l (plug d (TBranch ps cs pvs mxs (TLeaf pr (Empty n)) y)) pv
    (TBranch p cl pvs mx l (plug d y')) (fst (edge Right l)).
Proof.
  intros El Hd Hy lo hi. destruct (areas_last lo l) as (b & a & E). rewrite El in E.
  destruct (left_spine d hi Hd) as (h & s & Es).
  exists b, a, pvs, (fst (edge Right l)), pr, (areas pvs h y ++ s), (areas pvs h y' ++ s).
  split; [by rewrite E|]. split; [by rewrite Es|]. split.
  - cbn [areas]. rewrite E, Es, <-app_assoc. done.
  - by rewrite !fmap_app, Hy.
Qed.

Lemma set_pivot_pack cl pv pvs : pivot_ok pv → pivot_ok pvs →
  Z.lor (Z.land (pack cl pv) 3) (Z.land pvs PIVOT_MASK) = pack cl pvs.
Proof.
  intros H Hs. rewrite (pack_lor cl pvs) by done.
  assert (Z.land (pack cl pv) 3 = color_bit cl) as ->.
  { change 3 with (Z.ones 2). rewrite Z.land_ones by lia. change (2 ^ 2) with 4. destruct H as [_ H]. unfold pack.
    destruct cl; cbn [color_bit]; Z.div_mod_to_equations; lia. }
  rewrite Z.lor_comm. f_equal. rewrite land_PIVOT_MASK by apply Hs. destruct Hs as [_ ->]. lia.
Qed.

Section join.
Context {room : nat → vma → Prop} {reserved : vma → NodePtr → Prop}
  `{Hsink : !NodeSink free_node room reserved} (Htemp : ∀ s, reserved s TempNode).
Abbreviation zip_ok := (zip_ok (reserved := reserved)).
Abbreviation evolves := (evolves (room := room) (reserved := reserved)).
Abbreviation kept := (kept (room := room) (reserved := reserved)).
Abbreviation trimmed := (trimmed (room := room)).

Definition is_tleaf (t : tree) : bool := match t with TBranch _ _ _ _ _ _ => false | TLeaf _ _ => true end.
Lemma wp_is_leaf s par t (Q : bool → vma → Prop) :
  repr (node_at s) par t → Q (is_tleaf t) s → wp (is_leaf (ptr t)) Q s.
Proof.
  intros Ht HQ. unfold is_leaf. rewrite wp_bind.
  destruct t as [p l|p cl pv mx l r]; [|destruct Ht as (Ht & _)]; (eapply wp_read_node; [exact Ht|]); by rewrite wp_ret.
Qed.
(** [find_min] goes down the left spine. *)
Lemma wp_find_min_loop fuel s par d p c pv mx q x y (Q : NodePtr → vma → Prop) :
  repr (node_at s) par (plug d (TBranch p c pv mx (TLeaf q x) y)) → Forall (λ f, f_side f = Left) d →
  (length d < fuel)%nat → Q p s →
  wp (find_min_loop fuel (ptr (plug d (TBranch p c pv mx (TLeaf q x) y)))) Q s.
Proof.
  revert par fuel. induction d as [|f d IH] using rev_ind; intros par [|fuel] Ht Hd Hfuel HQ; try (cbn in Hfuel; lia).
  - destruct Ht as (Hp & Hl & _). cbn [find_min_loop plug foldl ptr]. rewrite wp_bind.
    eapply wp_read_branch; [exact Hp|]. cbn [left mkb]. rewrite wp_bind.
    apply (wp_is_branch s (Some p) (TLeaf q x)); [exact Hl|]. by rewrite wp_ret.
  - rewrite length_app in Hfuel. cbn in Hfuel. apply Forall_app in Hd as [Hd [Ef _]%Forall_cons].
    rewrite plug_app in *. cbn [plug foldl] in *. fold (plug d (TBranch p c pv mx (TLeaf q x) y)) in *.
    unfold fill1 in *. rewrite Ef in *. destruct Ht as (Hp & Hl & _). cbn [find_min_loop TB ptr]. rewrite wp_bind.
    eapply wp_read_branch; [exact Hp|]. cbn [left mkb]. rewrite wp_bind.
    eapply wp_is_branch; [exact Hl|].
    assert (is_tbranch (plug d (TBranch p c pv mx (TLeaf q x) y))) as Hb.
    { clear. induction d as [|g d IH] using rev_ind; [done|]. rewrite plug_app. cbn. apply TB_branch. }
    specialize (IH (Some (f_ptr f)) fuel Hl Hd ltac:(lia) HQ).
    by destruct (plug d (TBranch p c pv mx (TLeaf q x) y)).
Qed.

(** ** [delete_branch] *)

Lemma wp_remove_low n (Q : () → vma → Prop) s : wp (remove_low n) Q s →
  wp ('(m, mp, c) ← ('(m, mp) ← delete_node_with_zero_or_one_child n; c ← color_of_branch n;
                     free_node n;; mret (m, mp, c)); settle m mp c) Q s.
Proof.
  unfold remove_low, mbind, M_bind, wp.
  destruct (delete_node_with_zero_or_one_child n s) as [[[m mp] s1]| | |]; [|done..].
  destruct (color_of_branch n s1) as [[c s2]| | |]; [|done..].
  by destruct (free_node n s2) as [[[] s3]| | |].
Qed.
Lemma bh_zero_branch t : bh t = Some 0%nat → is_tbranch t → tcolor t = Red.
Proof.
  destruct t as [|p cl pv mx l r]; [done|]. intros (k & _ & _ & E)%(bh_TB_inv Left) _.
  destruct cl; [done|]. cbn in E. lia.
Qed.
Lemma bh_zero_leaf t : bh t = Some 0%nat → tcolor t = Black → ∃ p l, t = TLeaf p l.
Proof.
  intros H E. destruct t as [p l|p cl pv mx l r]; [by eexists _, _|].
  by rewrite (bh_zero_branch _ H I) in E.
Qed.

(** The successor has a gap on its left, and no branch or a red one on its right. *)
Lemma wp_remove_successor s c p cl pv mx pr n y m h k (Q : () → vma → Prop) (t := TBranch p cl pv mx (TLeaf pr (Empty n)) y) :
  zip_ok s c t → pivots_ok t → ctx_but m c h → bh t = Some h → no_red_red t → max_ok_but pr t → NoDup (ptrs t) →
  TempNode ∉ ptrs t ++ ctx_ptrs c → room (S (S (S k))) s →
  (∀ s' T y', zip_ok s' [] T → tree_but m T → (∀ lo hi, areas lo hi T = areas lo hi (plug c y')) →
    (∀ lo hi, content <$> areas lo hi y' = content <$> areas lo hi y) → trimmed k s s' → Q () s') →
  wp (remove_low p) Q s.
Proof.
  intros Hz Hpt Hc Hh Hr Hm Hnd Ht Hroom HQ. subst t. destruct Hpt as (Hpv1 & Hpv2 & _ & _ & Hpy).
  assert (pivot_ok pv) as Hpv by done.
  destruct (bh_TB_inv Left _ _ _ _ _ _ _ Hh) as (h0 & [= <-] & Hhy & ->). cbn [Nat.add] in Hc.
  destruct Hr as (Hk & _ & Hry). destruct Hm as (_ & _ & Hmy).
  assert ((∃ py ly, y = TLeaf py ly) ∨ is_tbranch y) as [(py & ly & Ey)|Hby] by (destruct y; [left; by eexists _, _|by right]).
  - subst y. eapply (wp_remove_leaves Htemp s c p cl pv mx pr n py ly m k); try done.
    intros s' T Hz' HT _ HA T1. by eapply HQ.
  - pose proof (bh_zero_branch _ Hhy Hby) as Cy.
    assert (cl = Black) as -> by (destruct cl; [destruct (Hk eq_refl) as [_ E']; congruence|done]).
    eapply (wp_remove_one s c Right p pv mx y pr n m 0 (S k)); try done.
    + apply max_ok_but_of, (max_ok_but_notin pr); [|done]. cbn in Hnd. apply NoDup_cons in Hnd as [_ Hnd].
      by apply NoDup_cons in Hnd as [? _].
    + intros ->. apply Ht. cbn. set_solver.
    + intros E. apply Ht. rewrite <-E. cbn. set_solver.
    + intros s' T Hz' HT _ HA T1. eapply HQ; [done|done|exact HA|done|by apply trimmed_mono].
Qed.

Section delete_branch.
Context (s : vma) (c : ctx) (p : NodePtr) (cl : NodeColor) (pv mx : Z) (l r : tree) (h : nat) (n : Z) (k : nat).
Context (Hz : zip_ok s c (TBranch p cl pv mx l r)) (Hctx : ∀ m, ctx_but m c (h + height_of cl)).
Context (Hfit : cl = Red → ∃ f c', c = f :: c' ∧ f_color f = Black) (Hpv : pivot_ok pv).
Context (Hhl : bh l = Some h) (Hhr : bh r = Some h).
Context (Hkids : cl = Red → tcolor l = Black ∧ tcolor r = Black) (Hrl : no_red_red l) (Hrr : no_red_red r).
Context (Hpl : pivots_ok l) (Hpr : pivots_ok r).
Context (Hml : max_ok_but (fst (edge Right l)) l) (Hmr : max_ok_but (fst (edge Left r)) r).
Context (El : snd (edge Right l) = Empty n) (Er : snd (edge Left r) = Empty n) (Hn : 0 ≤ n).
Context (Ht : TempNode ∉ ptrs (TBranch p cl pv mx l r) ++ ctx_ptrs c) (Hroom : room (S (S (S k))) s).
(** The gaps are joined at [X], in the place of the branch. *)
Definition joined_at (s' : vma) : Prop := ∃ T X q,
  zip_ok s' [] T ∧ tree_but q T ∧ joins n l r pv X q ∧
  (∀ lo hi, areas lo hi T = areas lo hi (plug c X)) ∧ trimmed k s s' ∧
  (cl = Red → is_tleaf l → TempNode ∉ ptrs T).

Lemma temp_not q : q ∈ p :: ptrs l ++ ptrs r → q ≠ TempNode.
Proof. intros Hq ->. apply Ht. apply elem_of_app. by left. Qed.

Lemma wp_delete_one side x py (Q : () → vma → Prop) :
  TBranch p cl pv mx l r = TB side p cl pv mx x (TLeaf py (Empty n)) → is_tbranch x →
  (∀ q, q = fst (edge (side_not side) x) → joins n l r pv x q ∧ max_ok_but q x) →
  (∀ s', joined_at s' → Q () s') → wp (remove_low p) Q s.
Proof.
  intros E Hb Hj HQ. pose proof Hz as Hz'. rewrite E in Hz'.
  assert (∃ h', bh x = Some h' ∧ bh (TLeaf py (Empty n)) = Some h' ∧ h' = h ∧ no_red_red x ∧ pivots_ok x ∧
    py ∈ ptrs l ++ ptrs r ∧ (cl = Red → tcolor x = Black)) as (h' & Hx & [= <-] & <- & Hrx & Hpx & Hy & Hkx).
  { exists h. destruct side; cbn in E; injection E as -> ->; split_and!; try done; try set_solver; intros Ec; by apply Hkids. }
  pose proof (bh_zero_branch _ Hx Hb) as Ex.
  assert (cl = Black) as Ecl by (destruct cl; [by rewrite Hkx in Ex|done]). rewrite Ecl in Hz', Hctx.
  destruct (Hj _ eq_refl) as [Hjx Hmx].
  eapply (wp_remove_one s c side p pv mx x py n (fst (edge (side_not side) x)) 0 (S k)); try done.
  - apply temp_not. set_solver.
  - apply temp_not. set_solver.
  - intros s' T Hz1 HT HP HA T1. apply HQ. exists T, x, (fst (edge (side_not side) x)).
    split; [done|]. split; [done|]. split; [done|]. split; [done|]. split; [by apply trimmed_mono|].
    intros E'. by rewrite Ecl in E'.
Qed.

Lemma wp_delete_leafy (Q : () → vma → Prop) :
  ¬ (is_tbranch l ∧ is_tbranch r) → (∀ s', joined_at s' → Q () s') → wp (remove_low p) Q s.
Proof.
  intros Hlow HQ.
  assert (∀ side t, snd (edge side t) = Empty n → (∃ q, t = TLeaf q (Empty n)) ∨ is_tbranch t) as Hleaf.
  { intros side [q x|]; [cbn; intros ->; left; by eexists|by right]. }
  destruct (Hleaf _ _ El) as [[pl Eql]|Hbl]; destruct (Hleaf _ _ Er) as [[pr Eqr]|Hbr].
  - pose proof Hz as Hz'. pose proof Ht as Ht'. pose proof (Hctx (kept_leaf cl pr)) as Hctx'. pose proof Hhl as Hh.
    rewrite Eql in Hh. injection Hh as <-. rewrite Eql, Eqr in Hz', Ht'.
    eapply (wp_remove_leaves Htemp s c p cl pv mx pl n pr (Empty n) (kept_leaf cl pr) k); try done.
    intros s' T Hz1 HT HP HA T1. apply HQ. exists T, (TLeaf (kept_leaf cl pr) (Empty n)), (kept_leaf cl pr).
    split; [done|]. split; [done|]. split; [rewrite Eql, Eqr; apply joins_leaves|].
    split; [done|]. split; [done|]. intros -> _. rewrite HP. cbn [kept_leaf]. cbn in Ht'. set_solver.
  - eapply (wp_delete_one Right r pl); [by rewrite Eql|done| |done].
    intros q ->. split; [rewrite Eql; by apply joins_right|exact Hmr].
  - eapply (wp_delete_one Left l pr); [by rewrite Eqr|done| |done].
    intros q ->. split; [rewrite Eqr; by apply joins_left|exact Hml].
  - by destruct Hlow.
Qed.

(** The branch takes the pivot and the gap of its successor, the last branch on the
    left spine of its right side, which is then the branch to remove. *)
Lemma wp_to_successor d ps cs pvs mxs y (Q : () → vma → Prop) :
  is_tbranch r → r = plug d (TBranch ps cs pvs mxs (TLeaf (fst (edge Left r)) (Empty n)) y) →
  Forall (λ f, f_side f = Left) d → pivot_ok pvs →
  (∀ s', zip_ok s' (d ++ Frame Right p cl pvs mxs l :: c) (TBranch ps cs pvs mxs (TLeaf (fst (edge Left r)) (Empty n)) y) →
     (∀ j, room j s → room j s') → (∀ s'', trimmed k s' s'' → trimmed k s s'') → wp (remove_low ps) Q s') →
  wp (r ← unwrap_branch (ptr r);
      successor ← find_min r;
      sb ← read_branch successor;
      set_pivot p (pivot sb);;
      set_max_empty_area_size p (max_empty_area_size sb);;
      remove_low successor) Q s.
Proof.
  intros Hbr Er' Hd Hps HQ. set (S0 := TBranch ps cs pvs mxs _ y) in *.
  pose proof Hz as Hzr. rewrite (zip_far s c Left) in Hzr. cbn [side_not] in Hzr.
  rewrite wp_bind. eapply wp_unwrap_focus; [exact Hzr|done|]. rewrite wp_bind.
  unfold find_min, with_fuel. rewrite wp_bind, wp_get.
  pose proof Hzr as HzS. rewrite Er', zip_plug, <-plug_app, <-zip_plug in HzS.
  pose proof (zip_fuel _ _ _ HzS) as Hfuel. rewrite length_app in Hfuel. cbn [length] in Hfuel.
  rewrite Er' at 1. eapply wp_find_min_loop; [|done|lia|].
  { destruct Hzr as (_ & Hrr' & _). by rewrite Er' in Hrr'. }
  rewrite wp_bind. eapply (wp_read_focus s _ Left); [exact HzS|]. rewrite mkb_pivot by done. cbn [max_empty_area_size mkb].
  rewrite wp_bind. unfold set_pivot. eapply (wp_modify_focus_pivot s _ Left c p cl cl pv pvs mx mx l r); [exact Hz| |].
  { intros par a b. unfold with_packed, mkb. cbn. by rewrite set_pivot_pack. }
  intros s1 Hz1 _ E1. rewrite wp_bind. unfold set_max_empty_area_size.
  eapply (wp_modify_focus s1 _ Left c p cl cl pvs mx mxs l r); [exact Hz1|done|].
  intros s2 Hz2 _ E2. rewrite (zip_far s2 c Left) in Hz2. cbn [side_not] in Hz2.
  rewrite Er', zip_plug, <-plug_app, <-zip_plug in Hz2.
  apply HQ; [exact Hz2|by intros j ?%E1%E2|]. intros s'' T1. eapply trimmed_kept; [apply E1|]. eapply trimmed_kept; [apply E2|done].
Qed.
Lemma wp_delete_inner (Q : () → vma → Prop) :
  is_tbranch l → is_tbranch r → (∀ s', joined_at s' → Q () s') →
  wp (r ← unwrap_branch (ptr r);
      successor ← find_min r;
      sb ← read_branch successor;
      set_pivot p (pivot sb);;
      set_max_empty_area_size p (max_empty_area_size sb);;
      remove_low successor) Q s.
Proof.
  intros Hbl Hbr HQ. destruct (min_branch r Hbr) as (d & ps & cs & pvs & mxs & y & Er' & Hd).
  rewrite Er in Er'. set (pr := fst (edge Left r)) in *. set (S0 := TBranch ps cs pvs mxs (TLeaf pr (Empty n)) y) in *.
  assert (pivots_ok S0) as HpS by (apply (plug_pivots_inv d); by rewrite <-Er').
  destruct HpS as (Hpvs & H4s & Hmxs & _ & Hpy). assert (pivot_ok pvs) as Hps by done.
  assert (NoDup (ptrs (plug d S0))) as Hndr.
  { rewrite <-Er'. destruct Hz as (_ & _ & Hnd & _). apply NoDup_app in Hnd as (Hnd & _). cbn in Hnd.
    apply NoDup_cons in Hnd as [_ Hnd]. by apply NoDup_app in Hnd as (_ & _ & ?). }
  destruct (max_but_plug pr d S0) as [HmS Hmd]; [cbn; set_solver|done|by rewrite <-Er'|].
  set (pl := fst (edge Right l)) in *. set (c1 := Frame Right p cl pvs mxs l :: c).
  destruct (plug_but_inv pl c1 d S0 h) as (h' & HhS & Hc1 & HrS & HpS & HfS).
  { split; [by split|]. split; [done|]. split; [|done]. intros Ec. split; [by apply Hkids|by apply Hfit]. }
  { by rewrite <-Er'. }
  { by rewrite <-Er'. }
  { by rewrite <-Er'. }
  { eapply Forall_impl; [exact Hmd|]. intros f. apply max_ok_but_of. }
  { rewrite <-Er'. intros E. exists (Frame Right p cl pvs mxs l), c. split; [done|]. cbn.
    destruct cl; [|done]. destruct Hkids as [_ E']; [done|]. congruence. }
  eapply wp_to_successor; [done|exact Er'|done|done|]. fold pr S0 c1. intros s2 Hz2 Hk2 Htr2.
  assert (TempNode ∉ ptrs S0 ++ ctx_ptrs (d ++ c1)) as Ht'.
  { assert (ptrs S0 ++ ctx_ptrs (d ++ c1) ≡ₚ ptrs (TBranch p cl pv mx l r) ++ ctx_ptrs c) as ->; [|done].
    rewrite <-ptrs_plug, plug_app, <-Er', ptrs_plug. unfold c1. cbn. fold (ctx_ptrs c).
    rewrite <-Permutation_middle. apply perm_skip. by rewrite <-app_assoc, app_assoc, (Permutation_app_comm (ptrs r)), <-app_assoc. }
  assert (room (S (S (S k))) s2) as Hroom2 by (by apply Hk2).
  rewrite ptrs_plug in Hndr. apply NoDup_app in Hndr as (Hndr & _).
  eapply (wp_remove_successor s2 (d ++ c1)); try done.
  intros s' T y' Hz' HT HA Hy T1. apply HQ. exists T, (TBranch p cl pvs mxs l (plug d y')), pl.
  split; [done|]. split; [done|]. split; [rewrite Er'; by apply joins_inner|]. split.
  - intros lo hi. by rewrite HA, plug_app.
  - split; [by apply Htr2|by intros _ Hl; destruct l].
Qed.

(** [delete_branch] joins the two gaps around the branch's pivot. *)
Lemma wp_delete_branch (Q : () → vma → Prop) : (∀ s', joined_at s' → Q () s') → wp (delete_branch p) Q s.
Proof.
  intros HQ. pose proof Hz as (_ & (Hp & Hl & Hr) & _). unfold delete_branch. rewrite wp_bind.
  eapply wp_read_branch; [exact Hp|]. cbn [left right mkb].
  rewrite wp_bind. eapply wp_is_leaf; [exact Hl|]. rewrite wp_bind. eapply wp_is_leaf; [exact Hr|].
  assert (is_tbranch l ∧ is_tbranch r ∧ is_tleaf l || is_tleaf r = false ∨
    ¬ (is_tbranch l ∧ is_tbranch r) ∧ is_tleaf l || is_tleaf r = true) as [(Hbl & Hbr & ->)|[Hlow ->]]
    by (destruct l, r; cbn; tauto).
  - pose proof (wp_delete_inner Q Hbl Hbr HQ) as H. rewrite wp_bind.
    do 5 (rewrite wp_bind in H; rewrite wp_bind; eapply wp_mono; [exact H|]; clear H; intros ? ? H; cbv beta in H).
    apply wp_remove_low in H. rewrite wp_bind in H. exact H.
  - exact (wp_remove_low p Q s (wp_delete_leafy Q Hlow HQ)).
Qed.
End delete_branch.
End join.
