(* ===== verification/VmaDelete.v ===== *)
(** * [VMATree::delete]

    The freed area and the gaps next to it become one: deletion against the
    specification [coalesce] on the list of areas. *)
From S2P Require Import Prelude Paging PageAlloc VmaStore VmaTree VmaSpec VmaRepr VmaOps VmaInsert VmaLink VmaFix VmaRemove VmaJoin.

(** ** Coalescing gaps, abstractly *)

Definition is_gap (l : LeafNode) : bool := match l with Empty _ => true | Used _ => false end.
Definition gap (x : Z * Z * LeafNode) : bool := is_gap (snd x).
(** Two gaps as one, of the recorded sizes together. *)
Definition join (a b : Z * Z * LeafNode) : Z * Z * LeafNode :=
  (fst (fst a), snd (fst b), Empty (leaf_max (snd a) + leaf_max (snd b))).
(** Every run of neighbouring gaps becomes one gap. *)
Fixpoint coalesce (l : list (Z * Z * LeafNode)) : list (Z * Z * LeafNode) :=
  match l with
  | [] => []
  | a :: l =>
      match coalesce l with
      | b :: r => if gap a && gap b then join a b :: r else a :: b :: r
      | [] => [a]
      end
  end.
(** The number of gaps that are followed by a gap. *)
Definition gap_before (a : Z * Z * LeafNode) (l : list (Z * Z * LeafNode)) : nat :=
  match l with b :: _ => if gap a && gap b then 1 else 0 | [] => 0 end.
Fixpoint gap_pairs (l : list (Z * Z * LeafNode)) : nat :=
  match l with a :: l => gap_before a l + gap_pairs l | [] => 0 end.

Lemma gap_pairs_app b x r : gap_pairs (b ++ x :: r) = (gap_pairs (b ++ [x]) + gap_pairs (x :: r))%nat.
Proof.
  induction b as [|y b IH]; [done|]. cbn [app gap_pairs] in *. rewrite IH. destruct b; cbn [app gap_before]; lia.
Qed.
Lemma coalesce_id l : gap_pairs l = 0%nat → coalesce l = l.
Proof.
  induction l as [|a l IH]; [done|]. intros H. cbn [coalesce]. destruct l as [|b l]; [done|].
  cbn [gap_pairs] in H. rewrite IH by (cbn [gap_pairs]; lia). revert H. cbn [gap_before]. by destruct (gap a && gap b).
Qed.
Lemma coalesce_join b a1 a2 r : gap a1 = true → gap a2 = true →
  coalesce (b ++ a1 :: a2 :: r) = coalesce (b ++ join a1 a2 :: r).
Proof.
  intros H1 H2. induction b as [|x b IH]; cbn [app coalesce]; [|by rewrite IH].
  assert (∀ x y, gap (join x y) = true) as Hj by done.
  destruct (coalesce r) as [|g R]; rewrite ?H1, ?H2; [done|].
  rewrite Hj. cbn [andb]. destruct (gap g) eqn:Eg; rewrite ?H1, ?H2, ?Hj; cbn [andb]; [|done].
  f_equal. unfold join. cbn. by rewrite Z.add_assoc.
Qed.
Lemma gap_pairs_join b a1 a2 r : gap a1 = true → gap a2 = true →
  gap_pairs (b ++ a1 :: a2 :: r) = S (gap_pairs (b ++ join a1 a2 :: r)).
Proof.
  intros H1 H2. rewrite gap_pairs_app, (gap_pairs_app _ (join a1 a2)).
  assert (gap_pairs (b ++ [a1]) = gap_pairs (b ++ [join a1 a2])) as ->.
  { induction b as [|x b IH]; [done|]. cbn [app gap_pairs] in *. rewrite IH.
    destruct b as [|y b]; cbn [app gap_before]; [|done]. by rewrite H1. }
  cbn [gap_pairs gap_before]. rewrite H1, H2. cbn [andb].
  destruct r as [|c r]; cbn [gap_before]; [lia|]. rewrite H2. change (gap (join a1 a2)) with true. cbn [andb]. lia.
Qed.
Lemma gap_pairs_parts B (a : Z * Z * LeafNode) A : gap_pairs (B ++ a :: A) = 0%nat → gap_pairs B = 0%nat ∧ gap_pairs A = 0%nat.
Proof.
  intros H. rewrite gap_pairs_app in H. cbn [gap_pairs] in H. split; [|lia].
  assert (gap_pairs (B ++ [a]) = 0%nat) as HB by lia. clear H.
  induction B as [|x B IH]; [done|]. cbn [app gap_pairs] in *.
  assert (gap_before x (B ++ [a]) = 0%nat ∧ gap_pairs (B ++ [a]) = 0%nat) as [H1 H2] by lia.
  rewrite IH by done. destruct B; cbn in *; lia.
Qed.
(** The gaps of a pair next to [L], when there is no other. *)
Lemma pair_at (L : Z * Z * LeafNode) B A : gap_pairs B = 0%nat → gap_pairs A = 0%nat →
  gap_pairs (B ++ L :: A) ≠ 0%nat →
  gap L = true ∧ ((∃ x B', B = B' ++ [x] ∧ gap x = true) ∨ (∃ x A', A = x :: A' ∧ gap x = true)).
Proof.
  intros HB HA H. rewrite gap_pairs_app in H. cbn [gap_pairs] in H. rewrite HA, Nat.add_0_r in H.
  assert (gap_before L A ≠ 0%nat ∨ gap_before L A = 0%nat ∧ gap_pairs (B ++ [L]) ≠ 0%nat) as [H1|[_ H1]] by lia.
  - destruct A as [|y A]; [done|]. cbn in H1. destruct (gap L); [|done]. destruct (gap y) eqn:E; [|done]. eauto 10.
  - destruct B as [|x B _] using rev_ind; [done|]. rewrite <-app_assoc in H1. cbn [app] in H1.
    rewrite gap_pairs_app, HB in H1. cbn in H1. destruct (gap x) eqn:E, (gap L); try done. eauto 10.
Qed.
Lemma pair_touches {A} (g : A → Z * Z * LeafNode) (L : A) B C b a1 a2 r :
  gap_pairs (g <$> B) = 0%nat → gap_pairs (g <$> C) = 0%nat → gap (g a1) = true → gap (g a2) = true →
  B ++ L :: C = b ++ a1 :: a2 :: r →
  (b = B ∧ a1 = L ∧ C = a2 :: r) ∨ (B = b ++ [a1] ∧ a2 = L ∧ C = r).
Proof.
  revert b. induction B as [|x B IH]; intros b HB HC H1 H2 E.
  - destruct b as [|y b]; cbn in E; [injection E as -> ->; by left|]. injection E as -> ->.
    rewrite fmap_app in HC. cbn in HC. rewrite gap_pairs_app in HC. cbn [gap_pairs gap_before] in HC.
    rewrite H1, H2 in HC. cbn in HC. lia.
  - destruct b as [|y b]; cbn in E; injection E as -> E.
    + destruct B as [|z B]; cbn in E; [injection E as -> ->; by right|]. injection E as -> <-.
      cbn in HB. rewrite H1, H2 in HB. cbn in HB. lia.
    + destruct (IH b) as [(-> & -> & ->)|(-> & -> & ->)]; try done; [|by left|by right].
      cbn in HB. lia.
Qed.

(** ** Changing the outermost leaf of a tree *)

Lemma edge_focus side t : ∃ d, t = plug d (TLeaf (fst (edge side t)) (snd (edge side t))) ∧
  Forall (λ f, f_side f = side) d.
Proof.
  induction t as [p l|p c pv mx l (dl & El & Hl) r (dr & Er & Hr)]; [by exists []|].
  destruct side; cbn [edge] in *.
  - exists (dl ++ [Frame Left p c pv mx r]). rewrite plug_app, <-El. split; [done|].
    apply Forall_app. split; [done|by constructor].
  - exists (dr ++ [Frame Right p c pv mx l]). rewrite plug_app, <-Er. split; [done|].
    apply Forall_app. split; [done|by constructor].
Qed.
Lemma edge_plug side d p l : Forall (λ f, f_side f = side) d → edge side (plug d (TLeaf p l)) = (p, l).
Proof.
  induction d as [|f d IH] using rev_ind; [done|]. intros [Hd [Ef _]%Forall_cons]%Forall_app.
  rewrite plug_app. cbn. unfold fill1, TB. rewrite Ef. destruct side; cbn; by apply IH.
Qed.
Lemma spine_areas side d : Forall (λ f, f_side f = side) d →
  match side with
  | Left => ∀ hi, ∃ h r, ∀ lo t, areas lo hi (plug d t) = areas lo h t ++ r
  | Right => ∀ lo, ∃ b l, ∀ hi t, areas lo hi (plug d t) = b ++ areas l hi t
  end.
Proof.
  destruct side; intros Hd; [intros hi; by apply left_spine|]. intros lo.
  induction d as [|f d IH]; [by exists [], lo|].
  apply Forall_cons in Hd as [Ef Hd]. destruct (IH Hd) as (b & l & E).
  exists (b ++ areas l (f_pivot f) (f_other f)), (f_pivot f). intros hi t.
  rewrite plug_cons, E. unfold fill1. rewrite Ef. cbn. by rewrite app_assoc.
Qed.
(** Writing the leaf changes nothing else. *)
Lemma leaf_change c p x x' : let t := plug c (TLeaf p x) in let t' := plug c (TLeaf p x') in
  bh t' = bh t ∧ tcolor t' = tcolor t ∧ ptrs t' = ptrs t ∧ (no_red_red t → no_red_red t') ∧
  (leaf_pos x' → pivots_ok t → pivots_ok t').
Proof.
  cbv zeta. induction c as [|f c (IH1 & IH2 & IH3 & IH4 & IH5)] using rev_ind; [done|].
  rewrite !plug_app. cbn [plug foldl]. fold (plug c (TLeaf p x)) (plug c (TLeaf p x')). unfold fill1.
  rewrite !tcolor_TB, !rr_TB, !pivots_TB, IH2. split_and!; try tauto; destruct (f_side f); cbn; by rewrite ?IH1, ?IH3.
Qed.
Lemma max_plug_inv c t : max_ok (plug c t) → Forall (λ f, max_ok (f_other f)) c.
Proof.
  assert (∀ t, max_ok (plug c t) → max_ok t ∧ Forall (λ f, max_ok (f_other f)) c) as H; [|apply H].
  induction c as [|f c IH]; intros u; [by split|]. rewrite plug_cons. intros H.
  apply IH in H as [(_ & ? & ?)%max_TB ?]. split; [done|]. by constructor.
Qed.
Lemma leaf_change_max c p x x' : max_ok (plug c (TLeaf p x)) → max_ok_but p (plug c (TLeaf p x')).
Proof. intros H. apply max_but_plug_2; [cbn; set_solver|done|by eapply max_plug_inv]. Qed.
Lemma ctx_ok_but c h : ctx_ok c h → ∀ m, ctx_but m c h.
Proof.
  intros Hc m. revert h Hc. induction c as [|f c IH]; intros h; [done|]. intros ([] & Hb & Hr & Hc).
  split; [split; try done; by apply max_ok_but_of|]. auto.
Qed.
Lemma ctx_but_ok m c h : ctx_but m c h → m ∉ ctx_ptrs c → ctx_ok c h.
Proof.
  revert h. induction c as [|f c IH]; intros h; [done|]. cbn [ctx_ptrs flat_map app]. fold (ctx_ptrs c).
  intros ([] & Hb & Hr & Hc) Hm. rewrite elem_of_cons, elem_of_app in Hm. split; [split; try done|].
  - apply (max_ok_but_notin m); tauto.
  - split; [done|]. split; [done|]. apply IH; tauto.
Qed.

(** [T] has one gap, at [q], where [T0] has two in a row. *)
Definition gaps_joined (T0 T : tree) (q : NodePtr) : Prop := ∃ b a1 a2 r b' r',
  address_space T0 = b ++ a1 :: a2 :: r ∧ gap (content a1) = true ∧ gap (content a2) = true ∧
  address_space T = b' ++ Area (area_start a1) (area_end a2) q
    (Empty (leaf_max (area_leaf a1) + leaf_max (area_leaf a2))) :: r' ∧
  content <$> b' = content <$> b ∧ content <$> r' = content <$> r.

Lemma joins_joined e p cl pv mx dl pl sl dr pr sr X q T :
  Forall (λ f, f_side f = Right) dl → Forall (λ f, f_side f = Left) dr →
  joins (sl + sr) (plug dl (TLeaf pl (Empty (sl + sr)))) (plug dr (TLeaf pr (Empty (sl + sr)))) pv X q →
  (∀ lo hi, areas lo hi T = areas lo hi (plug e X)) →
  gaps_joined (plug e (TBranch p cl pv mx (plug dl (TLeaf pl (Empty sl))) (plug dr (TLeaf pr (Empty sr))))) T q.
Proof.
  intros Hl Hr Hj HT. destruct (areas_plug 0 (HIGHEST_USER_ADDRESS + 1) e) as (B & A & E).
  set (lo := fst (hole 0 (HIGHEST_USER_ADDRESS + 1) e)) in *. set (hi := snd (hole 0 (HIGHEST_USER_ADDRESS + 1) e)) in *.
  destruct (Hj lo hi) as (bl & a & e2 & pl' & pr' & ar & ar' & E1 & E2 & E3 & E4).
  destruct (spine_areas Right dl Hl lo) as (b & l0 & Eb). destruct (spine_areas Left dr Hr hi) as (h0 & r0 & Er).
  rewrite Eb in E1. cbn [areas] in E1. apply app_inj_tail in E1 as [-> [= -> ->]].
  rewrite Er in E2. cbn [areas app] in E2. injection E2 as -> -> ->.
  exists (B ++ bl), (Area a pv pl' (Empty sl)), (Area pv e2 pr' (Empty sr)), (ar ++ A), (B ++ bl), (ar' ++ A).
  split_and!; try done.
  - unfold address_space. rewrite E. cbn [areas]. rewrite Eb, Er. cbn [areas]. by rewrite <-!app_assoc.
  - unfold address_space. rewrite HT, E, E3, <-!app_assoc. done.
  - by rewrite !fmap_app, E4.
Qed.

(** The two sides of a branch, from the frame below it, and whether the areas
    next to its pivot are both gaps. *)
Definition lside (f : frame) (t : tree) : tree := match f_side f with Left => t | Right => f_other f end.
Definition rside (f : frame) (t : tree) : tree := match f_side f with Left => f_other f | Right => t end.
Definition between_gaps (f : frame) (t : tree) : bool :=
  is_gap (snd (edge Right (lside f t))) && is_gap (snd (edge Left (rside f t))).
Lemma fill1_sides f t :
  fill1 f t = TBranch (f_ptr f) (f_color f) (f_pivot f) (f_max f) (lside f t) (rside f t).
Proof. unfold fill1, TB, lside, rside. by destruct (f_side f). Qed.
(** No recorded size is larger than the address space. *)
Definition small (T : tree) : Prop :=
  Forall (λ a, leaf_max (area_leaf a) ≤ HIGHEST_USER_ADDRESS + 1) (address_space T).
Lemma small_edge c t side : small (plug c t) → leaf_max (snd (edge side t)) ≤ HIGHEST_USER_ADDRESS + 1.
Proof.
  intros H. unfold small, address_space in H. destruct (areas_plug 0 (HIGHEST_USER_ADDRESS + 1) c) as (B & A & E).
  rewrite E in H. apply Forall_app in H as [_ [H _]%Forall_app].
  destruct side.
  - destruct (areas_first (snd (hole 0 (HIGHEST_USER_ADDRESS + 1) c)) t) as (e & r & E1). rewrite E1 in H.
    by apply Forall_cons in H as [H _].
  - destruct (areas_last (fst (hole 0 (HIGHEST_USER_ADDRESS + 1) c)) t) as (b & a & E1). rewrite E1 in H.
    apply Forall_app in H as [_ H]. by apply Forall_cons in H as [H _].
Qed.

Lemma fill1_areas f t lo hi :
  areas lo hi (fill1 f t) = areas lo (f_pivot f) (lside f t) ++ areas (f_pivot f) hi (rside f t).
Proof. by rewrite fill1_sides. Qed.
(** A branch between two gaps is a pair of gaps in the list. *)
Lemma between_gaps_pair d f e t :
  between_gaps f (plug d t) = true → gap_pairs (content <$> address_space (plug (d ++ f :: e) t)) ≠ 0%nat.
Proof.
  intros [H1 H2]%andb_true_iff. rewrite plug_app, plug_cons. unfold address_space.
  destruct (areas_plug 0 (HIGHEST_USER_ADDRESS + 1) e) as (B & A & E). rewrite E, fill1_areas.
  set (lo := fst _). set (hi := snd _).
  destruct (areas_last lo (lside f (plug d t))) as (b & a & E1). destruct (areas_first hi (rside f (plug d t))) as (e1 & r & E2).
  rewrite E1, E2, !fmap_app. cbn [fmap list_fmap]. rewrite <-!app_assoc. cbn [app]. rewrite app_assoc, gap_pairs_app.
  cbn [gap_pairs gap_before]. unfold gap. cbn [content snd area_leaf]. rewrite H1, H2. cbn. lia.
Qed.
(** When no branch above a gap is between gaps, its neighbours are used. *)
Lemma used_neighbours c p x lo hi : is_gap x = true →
  (∀ d f e, c = d ++ f :: e → between_gaps f (plug d (TLeaf p x)) = false) →
  ∃ B A a b, areas lo hi (plug c (TLeaf p x)) = B ++ Area a b p x :: A ∧
    (∀ B' y, B = B' ++ [y] → is_gap (area_leaf y) = false) ∧ (∀ y A', A = y :: A' → is_gap (area_leaf y) = false).
Proof.
  intros Hx. revert lo hi. induction c as [|f c IH] using rev_ind; intros lo hi Hno.
  { exists [], [], lo, hi. split; [done|]. by split; [intros []|]. }
  rewrite plug_app. cbn [plug foldl]. fold (plug c (TLeaf p x)). rewrite fill1_areas.
  pose proof (Hno c f [] eq_refl) as Hf. unfold between_gaps in Hf.
  assert (∀ d g e, c = d ++ g :: e → between_gaps g (plug d (TLeaf p x)) = false) as Hno'.
  { intros d g e ->. apply (Hno d g (e ++ [f])). by rewrite <-app_assoc. }
  unfold lside, rside in *. destruct (f_side f).
  - destruct (IH lo (f_pivot f) Hno') as (B & A & a & b & E & HB & HA). rewrite E.
    exists B, (A ++ areas (f_pivot f) hi (f_other f)), a, b. rewrite <-app_assoc. split; [done|]. split; [done|].
    intros y A' EA. destruct A as [|y' A]; [|injection EA as -> _; by eapply HA].
    destruct (areas_last lo (plug c (TLeaf p x))) as (b1 & a1 & E1). rewrite E1 in E.
    apply app_inj_tail in E as [_ [= _ _ _ Ex]]. rewrite Ex, Hx in Hf. cbn [andb] in Hf.
    destruct (areas_first hi (f_other f)) as (e2 & r2 & E2). cbn in EA. rewrite E2 in EA. by injection EA as <- _.
  - destruct (IH (f_pivot f) hi Hno') as (B & A & a & b & E & HB & HA). rewrite E.
    exists (areas lo (f_pivot f) (f_other f) ++ B), A, a, b. rewrite <-app_assoc. split; [done|]. split; [|done].
    intros B' y EB. destruct B as [|y' B _] using rev_ind.
    + destruct (areas_first hi (plug c (TLeaf p x))) as (e1 & r1 & E1). rewrite E1 in E. injection E as _ _ _ Ex _.
      rewrite Ex, Hx, andb_true_r in Hf. destruct (areas_last lo (f_other f)) as (b2 & a2 & E2).
      rewrite app_nil_r, E2 in EB. apply app_inj_tail in EB as [_ <-]. done.
    + rewrite app_assoc in EB. apply app_inj_tail in EB as [_ <-]. by eapply HB.
Qed.
(** Contexts up to the recorded sizes. *)
Lemma strip_plug_inv c t T : strip T = strip (plug c t) →
  ∃ c' t', T = plug c' t' ∧ strip t' = strip t ∧ ctx_parent c' = ctx_parent c ∧ length c' = length c.
Proof.
  revert t. induction c as [|f c IH]; intros t E; [by exists [], T|]. rewrite plug_cons in E.
  destruct (IH _ E) as (c' & u & -> & Eu & _ & El).
  assert (∃ mx o t', u = fill1 (Frame (f_side f) (f_ptr f) (f_color f) (f_pivot f) mx o) t' ∧ strip t' = strip t)
    as (mx & o & t' & -> & Et).
  { unfold fill1, TB in *. destruct (f_side f); destruct u as [|p cl pv mx l r]; try done;
      injection Eu as -> -> -> E1 E2; [exists mx, r, l|exists mx, l, r]; done. }
  eexists (_ :: c'), t'. rewrite plug_cons. split; [done|]. split; [done|]. split; [done|]. cbn. by rewrite El.
Qed.

Lemma chain_next lo hi b a1 a2 r : chain lo hi (b ++ a1 :: a2 :: r) → area_end a1 = area_start a2.
Proof.
  revert lo. induction b as [|x b IH]; intros lo; cbn; [by intros (_ & _ & -> & _)|]. intros (_ & _ & H). eauto.
Qed.
Lemma areas_ok_content l l' : content <$> l = content <$> l' → areas_ok l → areas_ok l'.
Proof.
  assert (∀ l, areas_ok l ↔ Forall (λ x, fst (fst x) < snd (fst x)) (content <$> l)) as H.
  { intros u. unfold areas_ok. rewrite Forall_fmap. done. }
  intros E. rewrite !H, E. done.
Qed.
(** A join keeps the areas in order, merges one pair of gaps, and leaves the list
    the same once coalesced. *)
Lemma joined_facts T0 T q : gaps_joined T0 T q → areas_ok (address_space T0) →
  areas_ok (address_space T) ∧
  coalesce (content <$> address_space T) = coalesce (content <$> address_space T0) ∧
  gap_pairs (content <$> address_space T0) = S (gap_pairs (content <$> address_space T)).
Proof.
  intros (b & a1 & a2 & r & b' & r' & E0 & H1 & H2 & E & Eb & Er) Hao.
  pose proof (areas_chain _ _ _ Hao) as Hch. fold (address_space T0) in Hch. rewrite E0 in Hch, Hao.
  apply chain_next in Hch. apply Forall_app in Hao as [Hb [Ha1 [Ha2 Hr]%Forall_cons]%Forall_cons].
  rewrite E, E0, !fmap_app. cbn [fmap list_fmap]. fold (content <$> r) (content <$> r'). rewrite Eb, Er.
  change (content (Area _ _ q _)) with (join (content a1) (content a2)).
  split; [|split; [by rewrite coalesce_join|by apply gap_pairs_join]].
  apply Forall_app. split; [by eapply areas_ok_content|]. apply Forall_cons. split; [cbn; lia|by eapply areas_ok_content].
Qed.
(** The joined gap holds what the gaps held, and no pair is left elsewhere. *)
Lemma joined_position T0 T q B a A addr : gaps_joined T0 T q → areas_ok (address_space T0) →
  address_space T0 = B ++ a :: A → area_start a ≤ addr < area_end a →
  gap_pairs (content <$> B) = 0%nat → gap_pairs (content <$> A) = 0%nat →
  ∃ B' a' A', address_space T = B' ++ a' :: A' ∧ area_ptr a' = q ∧ area_start a' ≤ addr < area_end a' ∧
    is_gap (area_leaf a') = true ∧ gap_pairs (content <$> B') = 0%nat ∧ gap_pairs (content <$> A') = 0%nat.
Proof.
  intros (b & a1 & a2 & r & b' & r' & E0 & H1 & H2 & E & Eb & Er) Hao Has Haddr HB HA. rewrite Has in E0.
  eexists b', _, r'. split; [exact E|]. split; [done|]. cbn [area_start area_end area_leaf]. rewrite Eb, Er.
  pose proof (areas_chain _ _ _ Hao) as Hch. fold (address_space T0) in Hch. rewrite Has, E0 in Hch.
  pose proof (chain_next _ _ _ _ _ _ Hch) as Hnx. pose proof Hao as Hao'. rewrite Has, E0 in Hao'.
  apply Forall_app in Hao' as [_ [Ha1 [Ha2 _]%Forall_cons]%Forall_cons].
  destruct (pair_touches content a B A b a1 a2 r HB HA H1 H2 E0) as [(-> & -> & ->)|(-> & -> & ->)].
  - split; [lia|]. split; [done|]. split; [done|]. cbn in HA. lia.
  - split; [lia|]. split; [done|]. split; [|done]. rewrite fmap_app in HB. by apply gap_pairs_parts in HB as [HB _].
Qed.
(** No recorded size is larger than its area. *)
Definition sized (T : tree) : Prop :=
  Forall (λ a, leaf_max (area_leaf a) ≤ area_end a - area_start a) (address_space T).
Lemma sized_small T : sized T → areas_ok (address_space T) → small T.
Proof.
  intros Hs Hao. pose proof (areas_chain _ _ _ Hao) as Hch. fold (address_space T) in Hch.
  unfold sized, small in *. rewrite Forall_forall in Hs |- *. intros a Ha. specialize (Hs a Ha). cbn beta in Hs.
  apply list_elem_of_split in Ha as (b & r & E). rewrite E in Hch.
  pose proof (chain_start _ _ _ _ _ Hch). pose proof (chain_end _ _ _ _ _ Hch). lia.
Qed.
Lemma joined_sized T0 T q : gaps_joined T0 T q → areas_ok (address_space T0) → sized T0 → sized T.
Proof.
  intros (b & a1 & a2 & r & b' & r' & E0 & H1 & H2 & E & Eb & Er) Hao Hs.
  pose proof (areas_chain _ _ _ Hao) as Hch. fold (address_space T0) in Hch. rewrite E0 in Hch.
  apply chain_next in Hch. unfold sized in *. rewrite E0 in Hs. rewrite E.
  assert (∀ l l', content <$> l' = content <$> l → Forall (λ a, leaf_max (area_leaf a) ≤ area_end a - area_start a) l →
    Forall (λ a, leaf_max (area_leaf a) ≤ area_end a - area_start a) l') as Hc.
  { intros l l' El Hl. assert (∀ u, Forall (λ a, leaf_max (area_leaf a) ≤ area_end a - area_start a) u ↔
      Forall (λ x, leaf_max (snd x) ≤ snd (fst x) - fst (fst x)) (content <$> u)) as Hu by (intros u; by rewrite Forall_fmap).
    by rewrite Hu, El, <-Hu. }
  apply Forall_app in Hs as [Hb [Ha1 [Ha2 Hr]%Forall_cons]%Forall_cons].
  apply Forall_app. split; [by eapply Hc|]. apply Forall_cons. split; [|by eapply Hc].
  cbn [area_leaf area_start area_end leaf_max] in *. lia.
Qed.
Lemma split_unique {A B} (f : A → B) b a r b' a' r' :
  NoDup (f <$> b ++ a :: r) → b ++ a :: r = b' ++ a' :: r' → f a = f a' → b = b' ∧ a = a' ∧ r = r'.
Proof.
  revert b'. induction b as [|x b IH]; intros [|x' b'] Hnd E Ef; cbn in *; injection E as Ex E.
  - done.
  - subst. apply NoDup_cons in Hnd as [Hn _]. destruct Hn. rewrite Ef. apply list_elem_of_fmap_2. set_solver.
  - subst. apply NoDup_cons in Hnd as [Hn _]. destruct Hn. rewrite <-Ef. apply list_elem_of_fmap_2. set_solver.
  - subst. apply NoDup_cons in Hnd as [_ Hnd]. destruct (IH _ Hnd E Ef) as (-> & -> & ->). done.
Qed.
Lemma areas_ptrs lo hi t : NoDup (ptrs t) → NoDup (area_ptr <$> areas lo hi t).
Proof. rewrite (ptrs_split lo hi). by intros (? & _)%NoDup_app. Qed.

(** The tree once the leaf is written, before anything is joined. *)
Lemma freed_tree T c p flags before after lo hi :
  let T0 := plug c (TLeaf p (Empty (hi - lo))) in
  tree_ok T → areas_ok (address_space T) → sized T → T = plug c (TLeaf p (Used flags)) →
  address_space T = before ++ Area lo hi p (Used flags) :: after →
  (∀ t', address_space (plug c t') = before ++ areas lo hi t' ++ after) →
  address_space T0 = before ++ Area lo hi p (Empty (hi - lo)) :: after ∧ areas_ok (address_space T0) ∧
  sized T0 ∧ tree_but p T0.
Proof.
  intros T0 Hok Hao Hsz ET Has Har. pose proof (Har (TLeaf p (Empty (hi - lo)))) as EA. fold T0 in EA.
  cbn [areas app] in EA. unfold sized in *. rewrite EA. rewrite Has in Hao, Hsz.
  apply Forall_app in Hao as [? [? ?]%Forall_cons]. apply Forall_app in Hsz as [? [_ ?]%Forall_cons]. cbn in *.
  assert (leaf_pos (Empty (hi - lo))) as Hpos by (unfold leaf_pos; cbn; lia).
  destruct (leaf_change c p (Used flags) (Empty (hi - lo))) as (C1 & C2 & C3 & C4 & C5).
  split; [done|]. split; [by apply Forall_app; split; [|apply Forall_cons]|].
  split; [apply Forall_app; split; [done|]; apply Forall_cons; split; [cbn; lia|done]|].
  destruct Hok as [Hh Hrr Hbl Hpv Hmx]. subst T.
  split; [unfold T0; by rewrite C1|by apply C4|unfold T0; by rewrite C2|by apply C5|by eapply leaf_change_max].
Qed.
(** A leaf has one context. *)
Lemma plug_unique c c' p x x' : NoDup (ptrs (plug c (TLeaf p x))) →
  plug c (TLeaf p x) = plug c' (TLeaf p x') → c = c'.
Proof.
  revert c'. induction c as [|f c IH] using rev_ind; intros c' Hnd E.
  { destruct c' as [|f' c' _] using rev_ind; [done|]. rewrite plug_app in E. cbn in E.
    unfold fill1, TB in E. by destruct (f_side f'). }
  destruct c' as [|f' c' _] using rev_ind.
  { rewrite plug_app in E. cbn in E. unfold fill1, TB in E. by destruct (f_side f). }
  rewrite !plug_app in E. rewrite plug_app in Hnd. cbn [plug foldl] in E, Hnd.
  fold (plug c (TLeaf p x)) (plug c' (TLeaf p x')) in E. fold (plug c (TLeaf p x)) in Hnd.
  assert (∀ c x, p ∈ ptrs (plug c (TLeaf p x))) as Hin by (intros; rewrite ptrs_plug; set_solver).
  pose proof (Hin c x) as H1. pose proof (Hin c' x') as H2.
  destruct f as [sd q cl pv mx o], f' as [sd' q' cl' pv' mx' o']. unfold fill1, TB in *. cbn in *.
  destruct sd, sd'; injection E as -> -> -> -> E1 E2; cbn in Hnd; apply NoDup_cons in Hnd as [_ Hnd];
    apply NoDup_app in Hnd as (Hnl & Hd & Hnr); subst.
  - by rewrite (IH c').
  - by destruct (Hd p).
  - by destruct (Hd p).
  - by rewrite (IH c').
Qed.

Section delete.
Context {room : nat → vma → Prop} {reserved : vma → NodePtr → Prop}
  `{Hsink : !NodeSink free_node room reserved} (Htemp : ∀ s, reserved s TempNode).
Abbreviation zip_ok := (zip_ok (reserved := reserved)).
Abbreviation evolves := (evolves (room := room) (reserved := reserved)).
Abbreviation kept := (kept (room := room) (reserved := reserved)).
Abbreviation trimmed := (trimmed (room := room)).

Lemma wp_write_leaf s c d p x x' (Q : () → vma → Prop) :
  zip_ok s c (plug d (TLeaf p x)) → (∀ s', zip_ok s' c (plug d (TLeaf p x')) → kept s s' → Q () s') →
  wp (write_node p (Leaf x')) Q s.
Proof.
  intros Hz HQ. rewrite zip_plug, <-plug_app, <-zip_plug in Hz. pose proof Hz as (Hc & Hp & Hnd & Hres).
  cbn in Hp, Hnd, Hres. apply NoDup_cons in Hnd as [Hpc Hnd]. apply Forall_cons in Hres as [Hrp Hrc].
  apply wp_write_node; [by eexists|]. intros s' N R K. apply HQ; [|done].
  rewrite zip_plug, <-plug_app, <-zip_plug.
  destruct (write_ctx (room := room) _ _ _ _ p (d ++ c) N R K Hpc) as [Hc1 Hr1]; [by split|].
  split; [done|]. split; [cbn [repr]; by heap|]. split; [by constructor|]. constructor; [by apply K|done].
Qed.
Lemma wp_set_edge s c d p sz n (Q : () → vma → Prop) :
  zip_ok s c (plug d (TLeaf p (Empty sz))) →
  (∀ s', zip_ok s' c (plug d (TLeaf p (Empty n))) → kept s s' → Q () s') → wp (unwrap_empty_set_size p n) Q s.
Proof.
  intros Hz HQ. pose proof Hz as Hz'. rewrite zip_plug, <-plug_app, <-zip_plug in Hz'. pose proof Hz' as (_ & Hp & _).
  cbn in Hp. unfold unwrap_empty_set_size, unwrap_empty_size, read_leaf. rewrite wp_bind, wp_bind, wp_bind.
  eapply wp_read_node; [exact Hp|]. rewrite !wp_ret. by eapply wp_write_leaf.
Qed.

(** ** Joining the two gaps around a branch *)

Lemma wp_delete_joined s e p cl pv mx dl pl sl dr pr sr h k (Q : () → vma → Prop) :
  let l n := plug dl (TLeaf pl (Empty n)) in let r n := plug dr (TLeaf pr (Empty n)) in
  Forall (λ f, f_side f = Right) dl → Forall (λ f, f_side f = Left) dr →
  zip_ok s e (TBranch p cl pv mx (l (sl + sr)) (r (sl + sr))) → ctx_ok e (h + height_of cl) →
  fits e (TBranch p cl pv mx (l sl) (r sr)) → bh (l sl) = Some h → bh (r sr) = Some h →
  no_red_red (TBranch p cl pv mx (l sl) (r sr)) → pivots_ok (TBranch p cl pv mx (l sl) (r sr)) →
  max_ok (l sl) → max_ok (r sr) →
  TempNode ∉ ptrs (TBranch p cl pv mx (l sl) (r sr)) ++ ctx_ptrs e → room (S (S (S k))) s →
  (∀ s' T q, zip_ok s' [] T → tree_but q T → gaps_joined (plug e (TBranch p cl pv mx (l sl) (r sr))) T q →
     trimmed k s s' → (cl = Red → is_tleaf (l sl) → TempNode ∉ ptrs T) → Q () s') →
  wp (delete_branch p) Q s.
Proof.
  intros l r Hl Hr Hz Hc Hfit Hbl Hbr (Hk & Hrl & Hrr) (Hpv & H4 & Hmx & Hpl & Hpr) Hml Hmr Ht Hroom HQ.
  assert (0 ≤ sl ∧ 0 ≤ sr) as [Hsl Hsr].
  { split; [exact (plug_pivots_inv dl _ Hpl)|exact (plug_pivots_inv dr _ Hpr)]. }
  assert (leaf_pos (Empty (sl + sr))) as Hn by (cbn; unfold leaf_pos; cbn; lia).
  destruct (leaf_change dl pl (Empty sl) (Empty (sl + sr))) as (L1 & L2 & L3 & L4 & L5).
  destruct (leaf_change dr pr (Empty sr) (Empty (sl + sr))) as (R1 & R2 & R3 & R4 & R5).
  assert (∀ n, edge Right (l n) = (pl, Empty n)) as El by (intros; by apply edge_plug).
  assert (∀ n, edge Left (r n) = (pr, Empty n)) as Er by (intros; by apply edge_plug).
  eapply (wp_delete_branch Htemp s e p cl pv mx (l (sl + sr)) (r (sl + sr)) h (sl + sr) k).
  - exact Hz.
  - by apply ctx_ok_but.
  - exact Hfit.
  - done.
  - unfold l. by rewrite L1.
  - unfold r. by rewrite R1.
  - unfold l, r. by rewrite L2, R2.
  - by apply L4.
  - by apply R4.
  - by apply L5.
  - by apply R5.
  - rewrite El. by eapply leaf_change_max.
  - rewrite Er. by eapply leaf_change_max.
  - by rewrite El.
  - by rewrite Er.
  - lia.
  - cbn [ptrs] in Ht |- *. unfold l, r. by rewrite L3, R3.
  - exact Hroom.
  - intros s' (T & X & q & HzT & HT & HX & HA & T1 & Htmp). eapply (HQ s' T q); try done.
    + by eapply joins_joined.
    + intros Ec Hlf. apply Htmp; [done|]. unfold l in *. destruct dl as [|f dl]; [done|].
      exfalso. revert Hlf. clear. rewrite plug_cons. assert (is_tbranch (fill1 f (TLeaf pl (Empty sl)))) as H by apply TB_branch.
      revert H. generalize (fill1 f (TLeaf pl (Empty sl))). induction dl as [|g d IH]; intros t H; [by destruct t|].
      rewrite plug_cons. apply IH, TB_branch.
Qed.

Lemma wp_join s e side p cl pv mx x y px sx py sy h k (Q : () → vma → Prop) :
  zip_ok s e (TB side p cl pv mx x y) → ctx_ok e (h + height_of cl) →
  fits e (TB side p cl pv mx x y) → bh x = Some h → bh y = Some h →
  no_red_red (TB side p cl pv mx x y) → pivots_ok (TB side p cl pv mx x y) → max_ok x → max_ok y →
  edge (side_not side) x = (px, Empty sx) → edge side y = (py, Empty sy) →
  TempNode ∉ ptrs (TB side p cl pv mx x y) ++ ctx_ptrs e → room (S (S (S k))) s →
  (∀ s' T q, zip_ok s' [] T → tree_but q T → gaps_joined (plug e (TB side p cl pv mx x y)) T q →
     trimmed k s s' → (cl = Red → is_tleaf x → TempNode ∉ ptrs T) → Q () s') →
  wp (unwrap_empty_set_size px (sx + sy);; unwrap_empty_set_size py (sx + sy);; delete_branch p) Q s.
Proof.
  intros Hz Hc Hfit Hbx Hby Hrr Hpv Hmx Hmy Ex Ey Ht Hroom HQ.
  destruct (edge_focus (side_not side) x) as (dx & Edx & Hdx). destruct (edge_focus side y) as (dy & Edy & Hdy).
  rewrite Ex in Edx. rewrite Ey in Edy. cbn [fst snd] in Edx, Edy. subst x y. clear Ex Ey.
  rewrite wp_bind. pose proof Hz as Hz1. rewrite zip_child in Hz1.
  eapply wp_set_edge; [exact Hz1|]. intros s1 Hz2 K1. rewrite <-zip_child, zip_far in Hz2.
  rewrite wp_bind. eapply wp_set_edge; [exact Hz2|]. intros s2 Hz3 K2. rewrite <-zip_far in Hz3.
  assert (room (S (S (S k))) s2) as Hroom2 by (by apply K2, K1).
  assert (∀ s', trimmed k s2 s' → trimmed k s s') as Htr.
  { intros s' T1. eapply trimmed_kept; [exact K1|]. by eapply trimmed_kept. }
  destruct side; cbn [TB side_not] in *.
  - eapply (wp_delete_joined s2 e p cl pv mx dx px sx dy py sy h k); try done.
    intros s' T q H1 H2 H3 H4 H5. eapply HQ; eauto.
  - rewrite (Z.add_comm sx sy) in Hz3. 
    eapply (wp_delete_joined s2 e p cl pv mx dy py sy dx px sx h k); try done.
    intros s' T q H1 H2 H3 H4 H5. eapply HQ; eauto. intros Ec Hl. apply H5; [done|].
    assert (h = 0%nat) as -> by (destruct (plug dx _); [by injection Hbx as <-|done]).
    destruct Hrr as [Hk _]. destruct (bh_zero_leaf _ Hby) as (q0 & l0 & ->); [by apply Hk|done].
Qed.

(** ** The walk up from the freed area *)

Lemma wp_then3 {A} (m1 m2 m3 : M vma ()) (m : M vma A) Q s :
  wp (m1;; m2;; m3) (λ _, wp m Q) s → wp (m1;; m2;; m3;; m) Q s.
Proof.
  intros H. rewrite wp_bind in H. rewrite wp_bind. eapply wp_mono; [exact H|]. clear H. intros [] s1 H.
  cbv beta in H. rewrite wp_bind in H. rewrite wp_bind. eapply wp_mono; [exact H|]. clear H. intros [] s2 H.
  cbv beta in H. by rewrite wp_bind.
Qed.
Lemma wp_edge_leaf_loop fuel s side par t (Q : NodePtr → vma → Prop) :
  repr (node_at s) par t → (depth t ≤ fuel)%nat → Q (fst (edge side t)) s →
  wp (edge_leaf_loop fuel side (ptr t)) Q s.
Proof.
  revert par t. induction fuel as [|fuel IH]; intros par t Ht Hd HQ; [destruct t; cbn in Hd; lia|].
  cbn [edge_leaf_loop]. rewrite wp_bind. destruct t as [p l|p cl pv mx l r].
  - eapply wp_read_node; [exact Ht|]. by rewrite wp_ret.
  - destruct Ht as (Hp & Hl & Hr). cbn [depth] in Hd. eapply wp_read_node; [exact Hp|].
    destruct side; cbn [child mkb left right]; (eapply IH; [eassumption|lia|exact HQ]).
Qed.
Lemma wp_outer_leaf s c t side (Q : NodePtr → vma → Prop) :
  zip_ok s c t → Q (fst (edge side t)) s → wp (with_fuel (λ n, edge_leaf_loop n side (ptr t))) Q s.
Proof.
  intros (_ & Ht & Hnd & Hres) HQ. unfold with_fuel. rewrite wp_bind, wp_get.
  eapply wp_edge_leaf_loop; [exact Ht| |exact HQ]. pose proof (source_bound s _ Hnd Hres) as Hb.
  rewrite length_app in Hb. pose proof (depth_ptrs t). unfold tree_fuel. lia.
Qed.
Lemma wp_read_edge s c t side (Q : LeafNode → vma → Prop) :
  zip_ok s c t → Q (snd (edge side t)) s → wp (read_leaf (fst (edge side t))) Q s.
Proof.
  intros Hz HQ. destruct (edge_focus side t) as (d & E & _). rewrite E in Hz.
  rewrite zip_plug, <-plug_app, <-zip_plug in Hz. destruct Hz as (_ & Hp & _). cbn in Hp.
  unfold read_leaf. rewrite wp_bind. eapply wp_read_node; [exact Hp|]. by rewrite wp_ret.
Qed.

Lemma wp_join_walk fuel s c t k (Q : bool → vma → Prop) :
  zip_ok s c t → tree_ok (plug c t) → (length c ≤ fuel)%nat →
  (∀ d f e, c = d ++ f :: e → between_gaps f (plug d t) = true →
     small (plug c t) ∧ TempNode ∉ ptrs (plug c t) ∧ room (S (S (S k))) s) →
  ((∀ d f e, c = d ++ f :: e → between_gaps f (plug d t) = false) → Q false s) →
  (∀ s' T q, zip_ok s' [] T → tree_but q T → gaps_joined (plug c t) T q → trimmed k s s' → Q true s') →
  wp (join_walk fuel (ctx_parent c)) Q s.
Proof.
  revert fuel t. induction c as [|f c IH]; intros fuel t Hz Hok Hfuel Hcan Hno Hyes; cbn [ctx_parent].
  { destruct fuel; cbn [join_walk]; rewrite wp_ret; apply Hno; by intros []. }
  destruct fuel as [|fuel]; cbn [length] in Hfuel; [lia|]. cbn [join_walk].
  pose proof Hz as Hz'. rewrite zip_up, fill1_sides in Hz'. pose proof Hz' as (_ & (Hn & _ & _) & _).
  rewrite wp_bind. eapply wp_read_branch; [exact Hn|]. cbn [left right mkb parent].
  pose proof Hz' as Hzl. rewrite (zip_child s c Left) in Hzl. pose proof Hz' as Hzr. rewrite (zip_far s c Left) in Hzr.
  rewrite wp_bind. eapply wp_outer_leaf; [exact Hzl|]. rewrite wp_bind. eapply wp_outer_leaf; [exact Hzr|].
  rewrite wp_bind. eapply wp_read_edge; [exact Hzl|]. rewrite wp_bind. eapply wp_read_edge; [exact Hzr|].
  rewrite plug_cons in Hok, Hcan, Hyes. rewrite fill1_sides in Hok, Hyes.
  destruct (between_gaps f t) eqn:Eg.
  - destruct (Hcan [] f c eq_refl Eg) as (Hsm & Ht & Hroom). unfold between_gaps in Eg. rewrite fill1_sides in Hsm.
    pose proof Hsm as Hsl. apply (small_edge (Frame Left (f_ptr f) (f_color f) (f_pivot f) (f_max f) (rside f t) :: c) _ Right) in Hsl.
    pose proof Hsm as Hsr. apply (small_edge (Frame Right (f_ptr f) (f_color f) (f_pivot f) (f_max f) (lside f t) :: c) _ Left) in Hsr.
    destruct (snd (edge Right (lside f t))) as [ls|] eqn:El; [|done].
    destruct (snd (edge Left (rside f t))) as [rs|] eqn:Er; [|done]. cbn [leaf_max] in *.
    destruct Hok as [[n Hh] Hrr Hb Hp Hm].
    destruct (plug_ok_inv c _ n Hh Hrr Hp Hm Hb) as (h' & Hh' & Hc & Hrr' & Hp' & Hm' & Hfit).
    pose proof Hh' as Hh2. apply (bh_TB_inv Left) in Hh2 as (h & Hbl & Hbr & ->). pose proof Hm' as (_ & Hml & Hmr).
    pose proof Hp' as (_ & _ & _ & Hpl & Hpr).
    assert (0 ≤ ls ∧ 0 ≤ rs) as [Hls Hrs].
    { destruct (edge_focus Right (lside f t)) as (d1 & E1 & _), (edge_focus Left (rside f t)) as (d2 & E2 & _).
      rewrite E1, El in Hpl. rewrite E2, Er in Hpr. apply plug_pivots_inv in Hpl, Hpr. done. }
    assert (HIGHEST_USER_ADDRESS + 1 + (HIGHEST_USER_ADDRESS + 1) < 2 ^ 64) by done.
    rewrite wp_bind, wp_chk. split; [lia|].
    apply wp_then3. eapply (wp_join s c Left); [exact Hz'|exact Hc|exact Hfit|exact Hbl|exact Hbr|
      exact Hrr'|exact Hp'|exact Hml|exact Hmr| | | |exact Hroom|].
    { cbn [side_not]. by rewrite (surjective_pairing (edge Right _)), El. }
    { by rewrite (surjective_pairing (edge Left _)), Er. }
    { by rewrite <-fill1_sides, <-ptrs_plug. }
    intros s' T q H1 H2 H3 H4 _. rewrite wp_ret. by eapply Hyes.
  - assert (wp (join_walk fuel (ctx_parent c)) Q s) as Hrec.
    { eapply (IH fuel (fill1 f t)); [by rewrite <-zip_up|by rewrite fill1_sides|lia| | |].
      - intros d g e -> Hg. by apply (Hcan (f :: d) g e).
      - intros Hall. apply Hno. intros [|f' d] g e [= -> ->]; [done|]. rewrite plug_cons. by eapply Hall.
      - by rewrite fill1_sides. }
    unfold between_gaps in Eg. destruct (snd (edge Right (lside f t))), (snd (edge Left (rside f t))); done.
Qed.

(** ** The loop *)

Lemma wp_refresh_focus s c p l (Q : () → vma → Prop) :
  zip_ok s c (TLeaf p l) → tree_but p (plug c (TLeaf p l)) →
  (∀ s' c', zip_ok s' c' (TLeaf p l) → tree_ok (plug c' (TLeaf p l)) → ctx_parent c' = ctx_parent c →
     ptrs (plug c' (TLeaf p l)) = ptrs (plug c (TLeaf p l)) →
     (∀ lo hi, areas lo hi (plug c' (TLeaf p l)) = areas lo hi (plug c (TLeaf p l))) → kept s s' → Q () s') →
  wp (match ctx_parent c with Some q => update_max_empty_area_data q | None => mret () end) Q s.
Proof.
  intros Hz Hb HQ. destruct (tree_but_inv _ _ _ Hb) as (h & [= <-] & Hc & _ & Hp & _).
  pose proof Hz as (_ & _ & Hnd & _). cbn in Hnd. apply NoDup_cons in Hnd as [Hpc _].
  eapply wp_refresh_strip; [exact Hz|by eapply ctx_but_ok|done|]. intros s' T HzT HT E K.
  destruct (strip_facts _ _ E) as (_ & Eptr & _ & _ & _ & Ear).
  destruct (strip_plug_inv _ _ _ E) as (c' & t' & -> & Et & Epar & _).
  assert (t' = TLeaf p l) as -> by (by destruct t'). apply (HQ s' c'); try done. by rewrite zip_plug.
Qed.

Lemma wp_gap_join_loop n fuel s T B a A addr k (Q : () → vma → Prop) :
  zip_ok s [] T → tree_but (area_ptr a) T → areas_ok (address_space T) →
  address_space T = B ++ a :: A → area_start a ≤ addr < area_end a → is_gap (area_leaf a) = true →
  gap_pairs (content <$> B) = 0%nat → gap_pairs (content <$> A) = 0%nat →
  gap_pairs (content <$> address_space T) = n →
  (n = 0%nat ∧ room k s ∨ n = 1%nat ∧ small T ∧ TempNode ∉ ptrs T ∧ room (S (S (S k))) s) → (n < fuel)%nat →
  (∀ s' T', zip_ok s' [] T' → tree_ok T' → areas_ok (address_space T') →
     content <$> address_space T' = coalesce (content <$> address_space T) → trimmed k s s' →
     (n = 0%nat → ptrs T' = ptrs T) → Q () s') →
  wp (gap_join_loop fuel addr) Q s.
Proof.
  revert fuel s T B a A Q. induction n as [n IH] using lt_wf_ind.
  intros fuel s T B a A Q Hz Hb Hao Has Haddr Hg HB HA Hn Hcase Hfuel HQ.
  destruct fuel as [|fuel]; [lia|]. cbn [gap_join_loop]. rewrite wp_bind.
  eapply (wp_find_area_in s T addr B a A); [done|apply Hb|done|done|done|]. intros c Hzc ET Har.
  rewrite ET in Hb. cbn [parent_and_side]. rewrite ctx_head_parent, wp_bind.
  eapply wp_refresh_focus; [exact Hzc|exact Hb|]. intros s1 c1 Hz1 Hok1 Epar Eptr Ear K1.
  assert (address_space (plug c1 (TLeaf (area_ptr a) (area_leaf a))) = address_space T) as EA
    by (unfold address_space; by rewrite Ear, ET).
  rewrite wp_bind. unfold with_fuel. rewrite wp_bind, wp_get, <-Epar.
  eapply wp_join_walk; [exact Hz1|exact Hok1| | | |].
  { pose proof (zip_fuel _ _ _ Hz1). lia. }
  { intros d f e Ec Hbg. pose proof (between_gaps_pair d f e (TLeaf (area_ptr a) (area_leaf a)) Hbg) as Hp.
    rewrite <-Ec, EA, Hn in Hp. destruct Hcase as [[-> _]|(_ & Hsm & Ht & Hr)]; [done|].
    split; [unfold small; by rewrite EA|]. split; [by rewrite Eptr, <-ET|by apply K1]. }
  - intros Hno. rewrite wp_ret.
    assert (n = 0%nat) as ->.
    { destruct (decide (n = 0%nat)) as [|Hn0]; [done|]. exfalso.
      destruct (used_neighbours c1 (area_ptr a) (area_leaf a) 0 (HIGHEST_USER_ADDRESS + 1) Hg Hno)
        as (B1 & A1 & lo1 & hi1 & E1 & HB1 & HA1). fold (address_space (plug c1 (TLeaf (area_ptr a) (area_leaf a)))) in E1.
      rewrite EA, Has in E1.
      destruct (split_unique area_ptr B a A B1 (Area lo1 hi1 (area_ptr a) (area_leaf a)) A1) as (<- & _ & <-); [|exact E1|done|].
      { rewrite <-Has. eapply areas_ptrs. by destruct Hz as (_ & _ & Hnd & _); rewrite app_nil_r in Hnd. }
      rewrite Has, fmap_app in Hn. cbn [fmap list_fmap] in Hn. fold (content <$> A) in Hn. rewrite <-Hn in Hn0.
      destruct (pair_at _ _ _ HB HA Hn0) as [_ [(x & B' & E' & Hx)|(x & A' & E' & Hx)]].
      - destruct B as [|y B0 _] using rev_ind; [by destruct B'|]. rewrite fmap_app in E'. cbn in E'.
        apply app_inj_tail in E' as [_ <-]. unfold gap in Hx. cbn in Hx. by rewrite (HB1 _ _ eq_refl) in Hx.
      - destruct A as [|y A0]; [done|]. injection E' as <- _. unfold gap in Hx. cbn in Hx. by rewrite (HA1 _ _ eq_refl) in Hx. }
    apply (HQ s1 (plug c1 (TLeaf (area_ptr a) (area_leaf a)))).
    + by rewrite <-zip_plug.
    + done.
    + by rewrite EA.
    + by rewrite EA, coalesce_id.
    + destruct Hcase as [[_ Hr]|(? & _)]; [|done]. destruct K1. split; [auto|congruence..].
    + intros _. by rewrite Eptr, <-ET.
  - intros s2 T2 q2 Hz2 HT2 Hj T1. 
    pose proof (joined_facts _ _ _ Hj) as Hjf. rewrite EA in Hjf. destruct (Hjf Hao) as (Hao2 & Eco & Epairs). clear Hjf.
    rewrite Hn in Epairs. destruct Hcase as [[-> _]|(-> & Hsm & Ht & Hr)]; [done|]. injection Epairs as Epairs.
    destruct (joined_position _ _ _ B a A addr Hj) as (B2 & x & A2 & E & <- & Hin & Hgx & HB2 & HA2); try done; [by rewrite EA..|].
    eapply (IH 0%nat ltac:(lia) fuel s2 T2 B2 x A2); [exact Hz2|exact HT2|exact Hao2|exact E|exact Hin|done|done|done|done| |lia|].
    + left. split; [done|]. apply T1.
    + intros s3 T3 Hz3 HT3 Hao3 E3 T4 _. apply (HQ s3 T3); [done|done|done|by rewrite E3, Eco| |done].
      eapply trimmed_kept; [exact K1|]. by eapply trimmed_trans.
Qed.

(** ** [delete] *)

(** What [delete] can do with [n] pairs of gaps around the freed area: none
    without the temporary node, and one with it; two, when the first pair is a
    red branch with two leaves. *)
Definition deletable (T : tree) (p : NodePtr) (x : LeafNode) (n : nat) : Prop :=
  n = 0%nat ∨ TempNode ∉ ptrs T ∧
    (n = 1%nat ∨ n = 2%nat ∧ ∃ c f q sz, T = plug (f :: c) (TLeaf p x) ∧ f_color f = Red ∧
       f_other f = TLeaf q (Empty sz)).

Lemma trimmed_room j k s s' : room (j + k) s' → kept s s' → trimmed k s s'.
Proof. intros H []. split; [|congruence..]. induction j as [|j IH]; [done|]. by apply IH, sink_mono. Qed.

Lemma wp_empty_size p sz (Q : Z → vma → Prop) s :
  node_at s p = Some (Leaf (Empty sz)) → Q sz s → wp (unwrap_empty_size p) Q s.
Proof.
  intros Hp HQ. unfold unwrap_empty_size, read_leaf. rewrite !wp_bind. eapply wp_read_node; [exact Hp|]. by rewrite !wp_ret.
Qed.
(** The sibling of the freed leaf is a gap. *)
Lemma wp_join_sibling s f c p n q sz k (Q : () → vma → Prop) :
  let T := plug (f :: c) (TLeaf p (Empty n)) in
  zip_ok s (f :: c) (TLeaf p (Empty n)) → tree_but p T → f_other f = TLeaf q (Empty sz) →
  small T → TempNode ∉ ptrs T → room (S (S (S k))) s →
  (∀ s' T' q', zip_ok s' [] T' → tree_but q' T' → gaps_joined T T' q' → trimmed k s s' →
     (f_color f = Red → TempNode ∉ ptrs T') → Q () s') →
  wp (l ← unwrap_leaf p; ls ← unwrap_empty_size l; r ← unwrap_leaf q; rs ← unwrap_empty_size r;
      combined_size ← chk 64 (ls + rs);
      unwrap_empty_set_size l combined_size;; unwrap_empty_set_size r combined_size;;
      delete_branch (f_ptr f)) Q s.
Proof.
  intros T Hz Hb Ef Hsm Ht Hroom HQ. pose proof Hz as (_ & Hp & Hnd & _). cbn in Hp.
  apply NoDup_cons in Hnd as [Hpc _]. cbn [ctx_ptrs flat_map app] in Hpc. fold (ctx_ptrs c) in Hpc.
  pose proof Hz as (Hq & _). cbn [reprc] in Hq. destruct Hq as (_ & Hq & _). rewrite Ef in Hq. cbn [repr] in Hq.
  pose proof Hz as Hz'. rewrite zip_up in Hz'. pose proof (f_equal ptrs (plug_cons f c (TLeaf p (Empty n)))) as Ept.
  unfold T in Hb. rewrite plug_cons in Hb. destruct (tree_but_inv _ _ _ Hb) as (h & Hh & Hc & Hrr & Hpv & _ & Hfit).
  pose proof Hh as Hh'. apply bh_TB_inv in Hh' as (h0 & E1 & E2 & ->).
  unfold fill1 in Hz', Hpv. rewrite Ef in Hz', Hpv, E2. pose proof Hpv as Hpv'. apply pivots_TB in Hpv' as (_ & _ & Hn & Hsz).
  assert (n ≤ HIGHEST_USER_ADDRESS + 1) as Hn' by (apply (small_edge (f :: c) (TLeaf p (Empty n)) Left Hsm)).
  assert (sz ≤ HIGHEST_USER_ADDRESS + 1) as Hsz'.
  { unfold T in Hsm. rewrite plug_cons in Hsm. unfold fill1 in Hsm. rewrite Ef, <-TB_flip in Hsm.
    by apply (small_edge (Frame (side_not (f_side f)) (f_ptr f) (f_color f) (f_pivot f) (f_max f) (TLeaf p (Empty n)) :: c)
      (TLeaf q (Empty sz)) Left). }
  cbn in Hn, Hsz. unfold leaf_pos in Hn, Hsz. cbn in Hn, Hsz.
  assert (HIGHEST_USER_ADDRESS + 1 + (HIGHEST_USER_ADDRESS + 1) < 2 ^ 64) by done.
  rewrite wp_bind. eapply wp_unwrap_leaf; [exact Hp|].
  rewrite wp_bind. eapply wp_empty_size; [exact Hp|].
  rewrite wp_bind. eapply wp_unwrap_leaf; [exact Hq|].
  rewrite wp_bind. eapply wp_empty_size; [exact Hq|].
  rewrite wp_bind, wp_chk. split; [lia|].
  eapply (wp_join s c (f_side f) (f_ptr f) (f_color f) (f_pivot f) (f_max f) (TLeaf p (Empty n)) (TLeaf q (Empty sz)) p n q sz h0 k);
    try done.
  - eapply ctx_but_ok; [exact Hc|]. set_solver.
  - unfold fits, fill1 in Hfit |- *. by rewrite Ef in Hfit.
  - unfold fill1 in Hrr. by rewrite Ef in Hrr.
  - rewrite <-ptrs_plug. unfold T in Ht. rewrite Ept in Ht. unfold fill1 in Ht. by rewrite Ef in Ht.
  - intros s' T' q' H1 H2 H3 H4 H5. eapply (HQ s' T' q'); try done; [|intros Er; by apply H5].
    unfold T. rewrite plug_cons. unfold fill1. by rewrite Ef.
Qed.

Lemma wp_is_empty_leaf s par t (Q : bool → vma → Prop) :
  repr (node_at s) par t → Q (match t with TLeaf _ (Empty _) => true | _ => false end) s →
  wp (is_empty_leaf (ptr t)) Q s.
Proof.
  intros Ht HQ. unfold is_empty_leaf. rewrite wp_bind.
  destruct t as [p l|p cl pv mx l r]; [|destruct Ht as (Ht & _)]; (eapply wp_read_node; [exact Ht|]); rewrite wp_ret; exact HQ.
Qed.
(** The area around [addr] is a gap, and no two gaps meet elsewhere. *)
Definition gap_around (T : tree) (q : NodePtr) (addr : Z) : Prop :=
  ∃ B a A, address_space T = B ++ a :: A ∧ area_ptr a = q ∧ area_start a ≤ addr < area_end a ∧
    is_gap (area_leaf a) = true ∧ gap_pairs (content <$> B) = 0%nat ∧ gap_pairs (content <$> A) = 0%nat.
(** The loop once the freed area is known. *)
Lemma wp_delete_loop s T q addr n k (Q : () → vma → Prop) :
  zip_ok s [] T → tree_but q T → areas_ok (address_space T) → sized T → gap_around T q addr →
  gap_pairs (content <$> address_space T) = n → n = 0%nat ∨ n = 1%nat ∧ TempNode ∉ ptrs T → room (3 + k) s →
  (∀ s' T', zip_ok s' [] T' → tree_ok T' → areas_ok (address_space T') →
     content <$> address_space T' = coalesce (content <$> address_space T) → trimmed k s s' →
     (n = 0%nat → ptrs T' = ptrs T) → Q () s') →
  wp (with_fuel (λ n, gap_join_loop n addr)) Q s.
Proof.
  intros Hz Hb Hao Hsz (B & a & A & E & <- & Hin & Hg & HB & HA) Hn Hcase Hroom HQ.
  unfold with_fuel. rewrite wp_bind, wp_get. eapply (wp_gap_join_loop n _ s T B a A addr k); try done.
  - destruct Hcase as [->|[-> Ht]]; [left; split; [done|]; by do 3 apply sink_mono|right].
    split; [done|]. split; [by apply sized_small|]. done.
  - unfold tree_fuel. destruct Hcase as [->|[-> _]]; lia.
Qed.

Lemma deletable_parent f c p x n : NoDup (ptrs (plug (f :: c) (TLeaf p x))) → deletable (plug (f :: c) (TLeaf p x)) p x n →
  n = 0%nat ∨ TempNode ∉ ptrs (plug (f :: c) (TLeaf p x)) ∧
    (n = 1%nat ∨ n = 2%nat ∧ f_color f = Red ∧ ∃ q sz, f_other f = TLeaf q (Empty sz)).
Proof.
  intros Hnd [->|[Ht Hn]]; [by left|right]. split; [done|]. destruct Hn as [->|(-> & c' & f' & q & sz & E & Er & Ef)]; [by left|right].
  assert (f :: c = f' :: c') as [= -> _] by (by eapply plug_unique). split; [done|]. split; [done|]. by exists q, sz.
Qed.
(** What follows the write of the freed leaf, below a branch: the sibling is
    joined when it is a gap, and the loop joins the gaps further away. *)
Lemma wp_delete_up s f c p n addr m k (Q : () → vma → Prop) :
  let T := plug (f :: c) (TLeaf p (Empty n)) in
  zip_ok s (f :: c) (TLeaf p (Empty n)) → tree_but p T → areas_ok (address_space T) → sized T → gap_around T p addr →
  gap_pairs (content <$> address_space T) = m →
  m = 0%nat ∨ TempNode ∉ ptrs T ∧ (m = 1%nat ∨ m = 2%nat ∧ f_color f = Red ∧ ∃ q sz, f_other f = TLeaf q (Empty sz)) →
  room (6 + k) s →
  (∀ s' T', zip_ok s' [] T' → tree_ok T' → areas_ok (address_space T') →
     content <$> address_space T' = coalesce (content <$> address_space T) → trimmed k s s' →
     (m = 0%nat → ptrs T' = ptrs T) → Q () s') →
  wp (pb ← read_branch (f_ptr f);
      let sibling := child pb (side_not (f_side f)) in
      e ← is_empty_leaf sibling;
      (if e : bool then
         l ← unwrap_leaf p;
         ls ← unwrap_empty_size l;
         r ← unwrap_leaf sibling;
         rs ← unwrap_empty_size r;
         combined_size ← chk 64 (ls + rs);
         unwrap_empty_set_size l combined_size;;
         unwrap_empty_set_size r combined_size;;
         delete_branch (f_ptr f)
       else mret ());;
      with_fuel (λ n, gap_join_loop n addr)) Q s.
Proof.
  intros T Hz Hbut Hao Hsz Hga Hm Hdel Hroom HQ.
  pose proof Hz as HzT. rewrite zip_plug in HzT. fold T in HzT.
  pose proof Hz as Hzf. rewrite zip_up in Hzf. rewrite fill1_sides in Hzf. pose proof Hzf as (_ & (Hn & _) & _).
  rewrite wp_bind. eapply wp_read_branch; [exact Hn|]. cbn zeta.
  replace (child _ _) with (ptr (f_other f)) by (unfold lside, rside; by destruct (f_side f)).
  pose proof Hz as (Hrf & _). cbn [reprc] in Hrf. destruct Hrf as (_ & Hro & _).
  rewrite wp_bind. eapply wp_is_empty_leaf; [exact Hro|].
  assert ((∃ q sz, f_other f = TLeaf q (Empty sz)) ∨ ¬ ∃ q sz, f_other f = TLeaf q (Empty sz)) as [(q & sz & Ef)|Hother].
  { destruct (f_other f) as [q []|]; [left; by eexists _, _|right..]; by intros (? & ? & ?). }
  - assert (m ≠ 0%nat) as Hn0.
    { rewrite <-Hm. apply (between_gaps_pair [] f c). unfold between_gaps, lside, rside. destruct (f_side f); cbn; by rewrite Ef. }
    destruct Hdel as [?|[Ht Hn2]]; [done|]. rewrite Ef, wp_bind. cbn [ptr].
    eapply (wp_join_sibling s f c p n q sz (3 + k)); [done|done|exact Ef|by apply sized_small|done|done|].
    fold T. intros s2 T2 q2 Hz2 Hb2 Hj Tr2 Htm.
    destruct (joined_facts _ _ _ Hj Hao) as (Hao2 & Eco & Epairs). rewrite Hm in Epairs.
    pose proof Hga as (B & a & A & E & Eq & Hin & Hg & HB' & HA').
    eapply (wp_delete_loop s2 T2 q2 addr _ k); [done|done|done|by eapply joined_sized| |done| |apply Tr2|].
    + eapply joined_position; eauto.
    + destruct Hn2 as [Hn2|(Hn2 & Er & _)]; rewrite Epairs in Hn2; injection Hn2 as Hn2; [by left|right].
      split; [done|]. by apply Htm.
    + intros s' T' H1 H2 H3 H4 H5 _. apply (HQ s' T'); try done; [by rewrite H4, Eco|by eapply trimmed_trans].
  - replace (match f_other f with TLeaf _ (Empty _) => true | _ => false end) with false.
    2:{ destruct (f_other f) as [? []|]; try done. destruct Hother. by eexists _, _. }
    rewrite wp_bind, wp_ret. eapply (wp_delete_loop s T p addr m k); try done.
    + destruct Hdel as [->|[Ht [->|(_ & _ & Ef)]]]; [by left|by right|done].
    + by do 3 apply sink_mono.
Qed.

Lemma wp_delete_leaf s T before lo hi p flags after addr k (Q : () → vma → Prop) :
  let freed := content <$> before ++ Area lo hi p (Empty (hi - lo)) :: after in
  zip_ok s [] T → tree_ok T → areas_ok (address_space T) → sized T →
  address_space T = before ++ Area lo hi p (Used flags) :: after → lo ≤ addr < hi →
  gap_pairs (content <$> before) = 0%nat → gap_pairs (content <$> after) = 0%nat →
  deletable T p (Used flags) (gap_pairs freed) → room (6 + k) s →
  (∀ s' T', zip_ok s' [] T' → tree_ok T' → areas_ok (address_space T') →
     content <$> address_space T' = coalesce freed → trimmed k s s' →
     (gap_pairs freed = 0%nat → ptrs T' = ptrs T) → Q () s') →
  wp (delete_leaf addr) Q s.
Proof.
  intros freed Hz Hok Hao Hsz Has Haddr HB HA Hdel Hroom HQ. unfold delete_leaf. rewrite wp_bind.
  eapply (wp_find_area s T addr before (Area lo hi p (Used flags)) after); [done..|].
  cbn [area_start area_end area_ptr area_leaf]. intros c Hzc ET Hctx _ Har.
  pose proof Hzc as (_ & Hp & _). cbn in Hp.
  pose proof Hz as (_ & _ & HndT & _). cbn [ctx_ptrs flat_map] in HndT. rewrite app_nil_r in HndT.
  unfold is_used_leaf. cbn [leaf leaf_end leaf_start parent_and_side]. rewrite wp_bind, wp_bind.
  eapply wp_read_node; [exact Hp|]. rewrite wp_ret, wp_bind, wp_rassert. split; [done|].
  replace (hi - 1 + 1 - lo) with (hi - lo) by lia. set (x0 := Empty (hi - lo)) in *.
  rewrite wp_bind. eapply (wp_write_leaf s c [] p (Used flags) x0); [exact Hzc|]. cbn [plug foldl]. intros s1 Hz1 K1.
  destruct (freed_tree T c p flags before after lo hi) as (EA0 & Hao0 & Hsz0 & Hbut); [done..|].
  fold x0 in EA0, Hao0, Hsz0, Hbut. set (T0 := plug c (TLeaf p x0)) in *.
  pose proof Hz1 as Hz0. rewrite zip_plug in Hz0. fold T0 in Hz0.
  assert (ptrs T0 = ptrs T) as EP by (unfold T0; rewrite ET; apply leaf_change).
  assert (content <$> address_space T0 = freed) as EF by (by rewrite EA0).
  destruct c as [|f c]; cbn [ctx_head].
  { rewrite wp_ret. apply (HQ s1 T0); [done| |done| |apply (trimmed_room 6); [by apply K1|done]|done].
    - destruct Hbut. by split.
    - rewrite <-EF. cbn. done. }
  eapply (wp_delete_up s1 f c p (hi - lo) addr (gap_pairs freed) k); [exact Hz1|done|done|done| |by fold x0 T0; rewrite EF| |by apply K1|].
  - eexists before, _, after. fold x0 T0. rewrite EA0. repeat split; try done; apply Haddr.
  - fold x0 T0. rewrite EP. rewrite ET in HndT, Hdel |- *. by apply deletable_parent.
  - fold x0 T0. intros s' T' H1 H2 H3 H4 H5 H6. apply (HQ s' T'); try done; [by rewrite H4, EF| |by rewrite <-EP].
    by eapply trimmed_kept.
Qed.
End delete.
