(* ===== verification/VmaFree.v ===== *)
(** * Deletion in the kernel's storage (kernel/src/vma.rs)

    The storage pages give back the nodes a deletion frees, as long as none of
    them would become empty, and [VMATree::delete] does what [free_area] does to
    the list of areas. *)
From S2P Require Import Prelude Paging PageAlloc VmaStore VmaTree VmaSpec VmaRepr VmaOps VmaInsert VmaLink VmaFix VmaRemove VmaJoin VmaDelete.

(** ** The storage pages as a sink *)

(** [n] nodes can be given back to any page: its count does not overflow, and
    the page is not unlinked. *)
Definition can_free (n : nat) (s : vma) : Prop := ∀ p pg, pages s !! p = Some pg →
  0 ≤ free_entries pg ∧
  free_entries pg + Z.of_nat n < match prev_page pg with Some _ => MAX_NODES | None => 2 ^ 64 end.
(** And [j] nodes can be had from the head page. *)
Definition free_room (j n : nat) (s : vma) : Prop := can_free n s ∧ head_room j s.

(** A page after the entry [i] was given back. *)
Definition page_freed (pg : NodeStoragePage) (i byte : Z) : NodeStoragePage :=
  {| entries := entries pg; next_page := next_page pg; prev_page := prev_page pg;
     free_entries := free_entries pg + 1;
     usage_bitmap := <[Z.to_nat (i / 8) := Z.land byte (unot 8 (Z.shiftr 0x80 (i mod 8)))]> (usage_bitmap pg) |}.
Lemma page_freed_spec pg i : page_ok pg → 0 ≤ i < MAX_NODES → ∃ byte,
  usage_bitmap pg !! Z.to_nat (i / 8) = Some byte ∧ page_ok (page_freed pg i byte) ∧
  ∀ k, 0 ≤ k → page_bit (usage_bitmap (page_freed pg i byte)) k = negb (k =? i) && page_bit (usage_bitmap pg) k.
Proof.
  intros [Hb Hlen Hent] Hi. change MAX_NODES with 101 in Hi. change (Z.to_nat BITMAP_LEN) with 13%nat in Hlen.
  destruct (lookup_lt_is_Some_2 (usage_bitmap pg) (Z.to_nat (i / 8))) as [byte Hl]; [Z.div_mod_to_equations; lia|].
  pose proof (Forall_lookup_1 _ _ _ _ Hb Hl) as Hbyte. cbn beta in Hbyte.
  pose proof (Z.mod_pos_bound i 8 ltac:(lia)) as Hi8.
  exists byte. split; [done|]. split.
  - split; cbn [page_freed usage_bitmap entries]; [|by rewrite length_insert|done].
    apply Forall_insert; [done|]. by apply free_byte.
  - intros k Hk. cbn [page_freed usage_bitmap]. pose proof (Z.mod_pos_bound k 8 ltac:(lia)) as Hk8.
    assert (0 ≤ i / 8 < 13) by (Z.div_mod_to_equations; lia). rewrite page_bit_insert by lia.
    destruct (Z.eqb_spec (k / 8) (i / 8)) as [E|E].
    + rewrite free_byte_bits by lia. replace (page_bit (usage_bitmap pg) k) with (Z.testbit byte (7 - k mod 8)).
      { f_equal. f_equal. destruct (Z.eqb_spec (k mod 8) (i mod 8)), (Z.eqb_spec k i); Z.div_mod_to_equations; lia. }
      replace k with (8 * (i / 8) + k mod 8) at 2 by (Z.div_mod_to_equations; lia).
      rewrite (page_bit_byte _ _ byte); [done|done|Z.div_mod_to_equations; lia|done].
    + destruct (Z.eqb_spec k i) as [->|]; done.
Qed.
Lemma clear_entries_freed pg i byte :
  (∀ k, 0 ≤ k → page_bit (usage_bitmap (page_freed pg i byte)) k = negb (k =? i) && page_bit (usage_bitmap pg) k) →
  (length (clear_entries (usage_bitmap pg)) ≤ length (clear_entries (usage_bitmap (page_freed pg i byte))))%nat.
Proof.
  intros Hbits. apply submseteq_length, NoDup_submseteq; [apply NoDup_filter, NoDup_seqZ|].
  intros k [Hk Hc]%clear_entries_elem. apply clear_entries_elem. split; [done|]. rewrite Hbits, Hc by lia. apply andb_false_r.
Qed.
Lemma can_free_write n s p nd : can_free n s → can_free n (set_node s p nd).
Proof.
  intros H. destruct p as [page i|]; [|done]. intros q pg. cbn [set_node pages]. rewrite lookup_alter_page.
  case_decide; [|apply H]. destruct (pages s !! q) as [pg0|] eqn:E; [|done]. intros [= <-]. apply (H q pg0 E).
Qed.
Lemma can_free_mono n s : can_free (S n) s → can_free n s.
Proof. intros H p pg Hp. destruct (H p pg Hp). split; [done|]. destruct (prev_page pg); lia. Qed.

(** The page of a reserved node once the node is given back. *)
Lemma wp_unreserve s page i n j (Q : bool → vma → Prop) :
  node_reserved s (Entry page i) → free_room j (S n) s →
  (∀ s', (∀ q, node_reserved s' q ↔ q ≠ Entry page i ∧ node_reserved s q) →
     (∀ q, node_at s' q = node_at s q) → free_room j n s' → root s' = root s →
     pages_used s' = pages_used s → mem s' = mem s → size (pages s') = size (pages s) → Q false s') →
  wp (unreserve_node page i) Q s.
Proof.
  intros (pg & Hpg & Hok & Hi & Hbit) [Hcan Hroom] HQ. destruct (Hcan page pg Hpg) as [Hf0 Hf1].
  destruct (page_freed_spec pg i Hok Hi) as (byte & Hl & Hok' & Hbits). set (pg' := page_freed pg i byte) in *.
  unfold unreserve_node. rewrite wp_bind, wp_rassert. split; [apply Z.ltb_lt, Hi|].
  unfold get_page. rewrite wp_bind. rewrite wp_bind, wp_get, wp_deref. exists pg. split; [done|].
  rewrite wp_bind, wp_chk. split; [destruct (prev_page pg); change MAX_NODES with 101 in Hf1; lia|].
  replace (if free_entries pg + 1 =? MAX_NODES then prev_page pg else None) with (@None Z).
  2:{ destruct (Z.eqb_spec (free_entries pg + 1) MAX_NODES) as [E|]; [|done]. destruct (prev_page pg); [lia|done]. }
  rewrite wp_bind, wp_unwrap. exists byte. split; [done|]. unfold put_page, set_pages. rewrite wp_bind, wp_modify, wp_ret.
  change {| entries := _ |} with pg'. apply HQ; try done; cbn [pages head].
  - intros [q k|]; cbn [node_reserved pages]; [|naive_solver]. destruct (decide (q = page)) as [->|Hne].
    2:{ rewrite lookup_insert_ne by done. naive_solver. }
    rewrite lookup_insert_eq, Hpg. split.
    + intros (x & [= <-] & _ & Hk & Hb). rewrite Hbits in Hb by lia. apply andb_true_iff in Hb as [Hb1 Hb2].
      split; [|by exists pg]. intros [= ->]. by rewrite Z.eqb_refl in Hb1.
    + intros (Hne & x & [= <-] & _ & Hk & Hb). exists pg'. split; [done|]. split; [done|]. split; [done|].
      rewrite Hbits, Hb by lia. destruct (Z.eqb_spec k i); [congruence|done].
  - intros [q k|]; [|done]. cbn [node_at pages]. destruct (k <? 0); [done|].
    destruct (decide (q = page)) as [->|]; [|by rewrite lookup_insert_ne]. by rewrite lookup_insert_eq, Hpg.
  - split.
    + intros q x. cbn [pages]. destruct (decide (q = page)) as [->|]; [|rewrite lookup_insert_ne by done; by apply can_free_mono].
      rewrite lookup_insert_eq. intros [= <-]. unfold pg'. cbn [page_freed free_entries prev_page]. split; [lia|].
      destruct (prev_page pg); lia.
    + destruct Hroom as (ph & Hh & Hokh & H1 & H2). unfold head_room. cbn [pages head].
      destruct (decide (head s = page)) as [E|]; [|rewrite lookup_insert_ne by done; by eauto 10].
      rewrite E, lookup_insert_eq. rewrite E, Hpg in Hh. injection Hh as <-. exists pg'. split; [done|]. split; [done|].
      split; [cbn; lia|]. etrans; [exact H2|]. by apply clear_entries_freed.
  - by rewrite map_size_insert_Some.
Qed.
(** A reservation leaves the counts of the pages in range. *)
Lemma storage_source n : NodeSource find_and_reserve_node (λ k, free_room k n) temp_reserved.
Proof.
  pose proof head_page_temp_source as Hsrc. destruct (source_store (NodeSource := Hsrc)) as [Hw Hr Hb Hro].
  split; [split; [|done|done|]| |].
  - intros s p nd. split; [apply Hw|]. intros k [H1 H2]. split; [by apply can_free_write|by apply Hw].
  - intros s p. split; [apply Hro|]. intros k [H1 H2]. split; [done|by apply Hro].
  - intros s k [Hcan Hroom]. eapply wp_mono; [eapply wp_and; [by apply (source_reserve (NodeSource := Hsrc))|by apply head_reserve]|].
    intros r s' [(p & -> & H1 & H2 & H3 & H4 & H5) (_ & _ & _ & _ & _ & _ & _ & _ & _ & _ & _ & Hpages)].
    exists p. split; [done|]. split; [done|]. split; [done|]. split; [done|]. split; [|done]. split; [|done].
    intros q pg' Hq. destruct (Hpages q pg' Hq) as (pg & Hpg & Hprev & Hfree). destruct (Hcan q pg Hpg).
    rewrite Hprev. destruct (prev_page pg); lia.
  - intros s k [H1 H2]. split; [done|by apply (source_mono (NodeSource := Hsrc))].
Qed.
Lemma storage_sink j : NodeSink free_node (free_room j) temp_reserved.
Proof.
  assert (NodeStore (free_room j) node_reserved) as Hst.
  { destruct (source_store (reserve := find_and_reserve_node) (room := head_room)) as [Hw Hr Hb Hro].
    split; [|done|done|].
    - intros s p n. split; [apply Hw|]. intros k [H1 H2]. split; [by apply can_free_write|by apply Hw].
    - intros s p. split; [apply Hro|]. intros k [H1 H2]. split; [done|by apply Hro]. }
  split; [by apply temp_store| |].
  - intros s p k Hroom Hp Hpt. destruct Hp as [|Hp]; [done|]. destruct p as [page i|]; [|done].
    unfold free_node. rewrite wp_bind. apply (wp_write_node (Hsrc := Hst)); [by apply node_reserved_some|].
    intros s1 N1 R1 K1. rewrite wp_bind.
    apply (wp_unreserve s1 page i k j); [by apply K1|by apply K1|].
    intros s2 H1 H2 H3 H4 H5 H6 H7. rewrite wp_ret.
    split; [|split; [|split; [done|]]].
    + intros q. unfold temp_reserved. rewrite H1. destruct K1 as [K1 _ _ _ _]. rewrite (K1 q). naive_solver.
    + intros q Hq. rewrite H2, N1. by rewrite decide_False.
    + destruct K1. split_and!; congruence.
  - intros s k [H1 H2]. split; [by apply can_free_mono|done].
Qed.

(** ** [delete] against its specification *)

(** The area around [x] as a gap, in a list of areas. *)
Definition free_at (x : Z) (a : Z * Z * LeafNode) : Z * Z * LeafNode :=
  let '(lo, hi) := fst a in if (lo <=? x) && (x <? hi) then (lo, hi, Empty (hi - lo)) else a.
(** What [delete] promises: that area becomes a gap, and then every run of gaps
    one gap. *)
Definition free_area (x : Z) (l : list (Z * Z * LeafNode)) : list (Z * Z * LeafNode) :=
  coalesce (free_at x <$> l).

Lemma free_at_other lo hi x l : chain lo hi l → x < lo → free_at x <$> (content <$> l) = content <$> l.
Proof.
  revert lo. induction l as [|a l IH]; intros lo; [done|]. intros (<- & Ha & Hc) Hx. cbn.
  unfold free_at at 1. cbn. rewrite (proj2 (Z.leb_gt _ _)) by lia. cbn. f_equal. apply (IH _ Hc). lia.
Qed.
Lemma free_at_areas lo hi x b a r : chain lo hi (b ++ a :: r) → area_start a ≤ x < area_end a →
  free_at x <$> (content <$> b ++ a :: r) =
    content <$> b ++ Area (area_start a) (area_end a) (area_ptr a) (Empty (area_end a - area_start a)) :: r.
Proof.
  revert lo. induction b as [|y b IH]; intros lo; cbn.
  - intros (_ & _ & Hc) Hx. unfold free_at at 1. cbn.
    rewrite (proj2 (Z.leb_le _ _)), (proj2 (Z.ltb_lt _ _)) by lia. cbn. f_equal. eapply free_at_other; [exact Hc|lia].
  - intros (_ & _ & Hc) Hx. pose proof (chain_start _ _ _ _ _ Hc). unfold free_at at 1. cbn.
    rewrite (proj2 (Z.ltb_ge x (area_end y))), andb_false_r by lia. f_equal. by eapply IH.
Qed.
Lemma gap_pairs_coalesce l : gap_pairs (coalesce l) = 0%nat.
Proof.
  induction l as [|a l IH]; [done|]. cbn [coalesce]. destruct (coalesce l) as [|b r]; [done|].
  destruct (gap a && gap b) eqn:E.
  - cbn [gap_pairs] in *. destruct r as [|c r]; [done|]. cbn [gap_before] in *.
    apply andb_true_iff in E as [_ Eb]. rewrite Eb in IH. change (gap (join a b)) with true. done.
  - cbn [gap_pairs gap_before] in *. by rewrite E.
Qed.

(** A tree in memory, the temporary node perhaps in it. *)
Definition vma_temp_ok (s : vma) (t : tree) : Prop :=
  zip_ok (reserved := temp_reserved) s [] t ∧ tree_ok t ∧ areas_ok (address_space t).
Lemma vma_ok_temp s t : vma_ok s t → vma_temp_ok s t ∧ TempNode ∉ ptrs t.
Proof.
  intros ((H1 & H2 & H3 & H4) & Hok). split; [split; [|done]|].
  - split; [done|]. split; [done|]. split; [done|]. eapply Forall_impl; [exact H4|]. intros p Hp. by right.
  - rewrite app_nil_r in H4. intros Ht. rewrite Forall_forall in H4. by apply (H4 TempNode).
Qed.
(** A deletion is possible: the freed area is used, no gaps are next to each other
    yet, the pairs the freed area makes can be joined with the temporary node. *)
Record can_delete (t : tree) (addr : Z) : Prop := {
  delete_sized : sized t;
  delete_apart : gap_pairs (content <$> address_space t) = 0%nat;
  delete_used : ∃ before lo hi p flags after,
    address_space t = before ++ Area lo hi p (Used flags) :: after ∧ lo ≤ addr < hi ∧
    deletable t p (Used flags) (gap_pairs (free_at addr <$> (content <$> address_space t)));
}.
Lemma delete_run s t addr j k :
  vma_temp_ok s t → can_delete t addr → free_room j (6 + k) s →
  ∃ s' t', delete_leaf addr s = Returns ((), s') ∧ vma_temp_ok s' t' ∧
    content <$> address_space t' = free_area addr (content <$> address_space t) ∧
    (gap_pairs (free_at addr <$> (content <$> address_space t)) = 0%nat → ptrs t' = ptrs t) ∧
    free_room j k s' ∧ pages_used s' = pages_used s ∧ mem s' = mem s.
Proof.
  intros (Hz & Hok & Hao) [Hsz Hap (before & lo & hi & p & flags & after & Has & Hin & Hdel)] Hroom.
  pose proof (areas_chain _ _ _ Hao) as Hch. fold (address_space t) in Hch.
  rewrite Has in Hap, Hch, Hdel. rewrite (free_at_areas _ _ _ _ _ _ Hch Hin) in Hdel.
  pose proof (free_at_areas _ _ _ _ _ _ Hch Hin) as Efree. cbn [area_start area_end area_ptr] in Efree, Hdel.
  rewrite fmap_app in Hap. apply gap_pairs_parts in Hap as [HB HA].
  assert (wp (delete_leaf addr) (λ _ s', ∃ t', vma_temp_ok s' t' ∧
    content <$> address_space t' = free_area addr (content <$> address_space t) ∧
    (gap_pairs (free_at addr <$> (content <$> address_space t)) = 0%nat → ptrs t' = ptrs t) ∧
    free_room j k s' ∧ pages_used s' = pages_used s ∧ mem s' = mem s) s) as Hw.
  { eapply (wp_delete_leaf (Hsink := storage_sink j) (λ s, or_introl eq_refl) s t before lo hi p flags after addr k); try done.
    intros s' t' H1 H2 H3 H4 [] H5. exists t'. unfold free_area. rewrite Has, Efree. done. }
  apply wp_returns in Hw as ([] & s' & E & t' & H). by exists s', t'.
Qed.

(** C4: deleting the used area at an address, in a well-formed tree without
    neighbouring gaps, when the one temporary node of the tree is enough for it
    ([can_delete]): the area is freed between two used areas; or the temporary node
    is not in the tree, and one of the neighbours is a gap, or both are and the
    first join is of a red branch over two leaves.  This is a restriction on the
    trees: a deletion can leave the temporary node in the tree, and the next one
    that needs it is then undefined behaviour (Vma.delete_keeps_temp_node).
    Under it the deletion returns; the tree is well formed again,
    every path has the same black height, no red node has a red child; its areas
    are those of the specification: the area becomes a gap and is one gap with
    the gaps next to it; and no two gaps are neighbours.  When there was no gap
    next to it, the tree has the nodes it had.  The nodes that are no longer
    needed are given back, and no memory is. *)
Theorem delete_correct (s : vma) (t : tree) (addr : Z) (j k : nat) :
  vma_temp_ok s t → can_delete t addr → free_room j (6 + k) s →
  ∃ s' t', delete_leaf addr s = Returns ((), s') ∧ vma_temp_ok s' t' ∧
    content <$> address_space t' = free_area addr (content <$> address_space t) ∧
    gap_pairs (content <$> address_space t') = 0%nat ∧
    (gap_pairs (free_at addr <$> (content <$> address_space t)) = 0%nat → ptrs t' = ptrs t) ∧
    free_room j k s' ∧ pages_used s' = pages_used s ∧ mem s' = mem s.
Proof.
  intros Hv Hc Hr. destruct (delete_run s t addr j k Hv Hc Hr) as (s' & t' & H1 & H2 & H3 & H4).
  exists s', t'. rewrite H3. split; [done|]. split; [done|]. split; [done|]. split; [apply gap_pairs_coalesce|done].
Qed.

(** The address space after one segment was inserted between two gaps. *)
Definition demo_mapped : vma :=
  match insert_node 0x10000 0x4000 3 (demo_vma demo_mem) with
  | Returns (_, v) => v
  | _ => demo_vma demo_mem
  end.
Definition demo_mapped_tree : tree :=
  TBranch (Entry 0x1000 3) Black 0x14000 (HIGHEST_USER_ADDRESS + 1 - 0x14000)
    (TBranch (Entry 0x1000 4) Red 0x10000 0x10000
      (TLeaf (Entry 0x1000 0) (Empty 0x10000)) (TLeaf (Entry 0x1000 1) (Used 3)))
    (TLeaf (Entry 0x1000 2) (Empty (HIGHEST_USER_ADDRESS + 1 - 0x14000))).
Definition demo_mapped_page : NodeStoragePage := default demo_page (pages demo_mapped !! 0x1000).
Lemma demo_mapped_pages : pages demo_mapped = {[ 0x1000 := demo_mapped_page ]}.
Proof. vm_compute. reflexivity. Qed.
Lemma demo_mapped_page_ok : page_ok demo_mapped_page.
Proof. split; [vm_compute; repeat constructor; done|done..]. Qed.
Lemma demo_mapped_vma_ok : vma_temp_ok demo_mapped demo_mapped_tree.
Proof.
  apply vma_ok_temp. split; [split_and!|split; [split|]].
  - done.
  - repeat split; vm_compute; reflexivity.
  - vm_compute. repeat (constructor; [set_solver|]). constructor.
  - assert (∀ i, 0 ≤ i < 5 → node_reserved demo_mapped (Entry 0x1000 i)) as H.
    { intros i Hi. exists demo_mapped_page. rewrite demo_mapped_pages. split; [apply lookup_singleton_eq|].
      split; [apply demo_mapped_page_ok|]. change MAX_NODES with 101. split; [lia|].
      assert (forallb (page_bit (usage_bitmap demo_mapped_page)) (seqZ 0 5) = true) as Hb by (vm_compute; reflexivity).
      rewrite forallb_forall in Hb. apply Hb, list_elem_of_In, elem_of_seqZ. lia. }
    cbn. repeat constructor; apply H; lia.
  - by eexists.
  - cbn. naive_solver.
  - done.
  - repeat split; vm_compute; congruence.
  - repeat split; vm_compute; congruence.
  - by repeat (constructor; [done|]).
Qed.
Lemma demo_mapped_room k : (k ≤ 10)%nat → free_room 80 k demo_mapped.
Proof.
  intros Hk. split.
  - intros p pg. rewrite demo_mapped_pages. intros [<- <-]%lookup_singleton_Some.
    assert (free_entries demo_mapped_page = 96 ∧ prev_page demo_mapped_page = None) as [-> ->] by (vm_compute; done).
    lia.
  - assert (head demo_mapped = 0x1000) as E by (vm_compute; reflexivity). exists demo_mapped_page.
    rewrite E, demo_mapped_pages. split; [apply lookup_singleton_eq|].
    split; [apply demo_mapped_page_ok|]. split; vm_compute; [congruence|lia].
Qed.
Lemma demo_mapped_can : can_delete demo_mapped_tree 0x12000.
Proof.
  split.
  - repeat (constructor; [vm_compute; congruence|]). constructor.
  - reflexivity.
  - eexists [_], 0x10000, 0x14000, (Entry 0x1000 1), 3, [_]. split; [reflexivity|]. split; [lia|].
    right. split; [cbn; set_solver|]. right. split; [reflexivity|].
    exists [Frame Left (Entry 0x1000 3) Black 0x14000 (HIGHEST_USER_ADDRESS + 1 - 0x14000)
      (TLeaf (Entry 0x1000 2) (Empty (HIGHEST_USER_ADDRESS + 1 - 0x14000)))],
      (Frame Right (Entry 0x1000 4) Red 0x10000 0x10000 (TLeaf (Entry 0x1000 0) (Empty 0x10000))), (Entry 0x1000 0), 0x10000.
    done.
Qed.
Lemma delete_correct_witness :
  ∃ s' t', delete_leaf 0x12000 demo_mapped = Returns ((), s') ∧ vma_temp_ok s' t' ∧
    content <$> address_space t' = [(0, HIGHEST_USER_ADDRESS + 1, Empty (HIGHEST_USER_ADDRESS + 1))] ∧
    gap_pairs (content <$> address_space t') = 0%nat ∧
    (gap_pairs (free_at 0x12000 <$> (content <$> address_space demo_mapped_tree)) = 0%nat →
       ptrs t' = ptrs demo_mapped_tree) ∧
    free_room 80 4 s' ∧ pages_used s' = pages_used demo_mapped ∧ mem s' = mem demo_mapped.
Proof.
  apply (delete_correct demo_mapped demo_mapped_tree 0x12000 80 4);
    [apply demo_mapped_vma_ok|apply demo_mapped_can|apply demo_mapped_room; lia].
Defined.
