(* ===== verification/VmaSpace.v ===== *)
(** * The address space as a list of areas

    What the tree of kernel/src/vma.rs stands for: a list of areas that tile the
    user range, the recorded size of a gap never above its area's, no two gaps
    next to each other.  Mapping carves a gap, freeing joins gaps; the two
    operations of the tree refine these operations of the list. *)
From S2P Require Import Prelude Paging PageAlloc VmaStore VmaTree VmaSpec VmaRepr VmaOps VmaInsert VmaLink VmaFix VmaRemove VmaJoin VmaDelete VmaFree.

Abbreviation region := (Z * Z * LeafNode)%type.
Definition low (a : region) : Z := fst (fst a).
Definition high (a : region) : Z := snd (fst a).

(** The regions tile [lo, hi). *)
Fixpoint tiles (lo hi : Z) (l : list region) : Prop :=
  match l with
  | [] => lo = hi
  | a :: l => low a = lo ∧ low a < high a ∧ tiles (high a) hi l
  end.
Definition measured (l : list region) : Prop := Forall (λ a, leaf_max (snd a) ≤ high a - low a) l.
Record space_ok (l : list region) : Prop := {
  space_tiles : tiles 0 (HIGHEST_USER_ADDRESS + 1) l;
  space_measured : measured l;
  space_apart : gap_pairs l = 0%nat;
}.

(** The operations. *)
Inductive op : Type := MapSpace (start len flags : Z) | FreeSpace (addr : Z).
Definition carve_at (start len flags : Z) (a : region) : list region :=
  if gap a && (low a <=? start) && (start + len <=? high a) then
    (if low a <? start then [(low a, start, Empty (start - low a))] else []) ++
    [(start, start + len, Used flags)] ++
    (if start + len <? high a then [(start + len, high a, Empty (high a - (start + len)))] else [])
  else [a].
Definition space_step (o : op) (l : list region) : list region :=
  match o with
  | MapSpace start len flags => flat_map (carve_at start len flags) l
  | FreeSpace addr => free_area addr l
  end.
(** A segment of whole pages in a gap; an address in a used region. *)
Definition enabled (o : op) (l : list region) : Prop :=
  match o with
  | MapSpace start len _ => 0 < len ∧ start mod 4096 = 0 ∧ len mod 4096 = 0 ∧
      Exists (λ a, gap a = true ∧ low a ≤ start ∧ start + len ≤ high a) l
  | FreeSpace addr => Exists (λ a, gap a = false ∧ low a ≤ addr < high a) l
  end.

(** ** The operations keep the space in order *)

Lemma tiles_app lo mid hi l1 l2 : tiles lo mid l1 → tiles mid hi l2 → tiles lo hi (l1 ++ l2).
Proof. revert lo. induction l1 as [|a l IH]; intros lo; cbn; [by intros ->|]. intros (? & ? & ?) ?. auto. Qed.
Lemma tiles_start lo hi b a r : tiles lo hi (b ++ a :: r) → lo ≤ low a.
Proof. revert lo. induction b as [|x b IH]; intros lo; cbn; [lia|]. intros (? & ? & ?%IH). lia. Qed.
Lemma tiles_bounds (l l' : list region) lo hi : fst <$> l = fst <$> l' → tiles lo hi l → tiles lo hi l'.
Proof.
  revert lo l'. induction l as [|a l IH]; intros lo [|a' l'] E; try done. injection E as Ea E. cbn.
  unfold low, high. rewrite Ea. intros (? & ? & ?). auto.
Qed.
Lemma coalesce_tiles lo hi l : tiles lo hi l → measured l → tiles lo hi (coalesce l) ∧ measured (coalesce l).
Proof.
  revert lo. induction l as [|a l IH]; intros lo; [done|]. cbn [tiles coalesce]. intros (Ha & Hlt & Hl) [Hma Hm]%Forall_cons.
  destruct (IH _ Hl Hm) as [IH1 IH2]. clear IH. destruct (coalesce l) as [|b r].
  { split; [done|]. by constructor. }
  cbn [tiles] in IH1. destruct IH1 as (Hb & Hlt' & Hr). apply Forall_cons in IH2 as [Hmb Hmr].
  destruct (gap a && gap b); cbn [tiles].
  - split; [|constructor; [|done]]; unfold join, low, high in *; cbn in *; [|lia].
    split; [done|]. split; [lia|done].
  - split; [done|]. by repeat constructor.
Qed.
Lemma free_at_bounds x (l : list region) : fst <$> (free_at x <$> l) = fst <$> l.
Proof.
  induction l as [|a l IH]; [done|]. cbn. rewrite IH. f_equal. unfold free_at. destruct a as [[lo hi] le]. cbn.
  by destruct (_ && _).
Qed.
Lemma free_at_measured x (l : list region) : measured l → measured (free_at x <$> l).
Proof.
  intros H. apply Forall_fmap. eapply Forall_impl; [exact H|]. intros [[lo hi] le] Ha. cbn.
  unfold free_at. cbn. destruct (_ && _); [|done]. cbn. lia.
Qed.
Lemma free_space_ok x l : space_ok l → space_ok (free_area x l).
Proof.
  intros [Ht Hm _]. destruct (coalesce_tiles 0 (HIGHEST_USER_ADDRESS + 1) (free_at x <$> l)) as [H1 H2].
  - eapply tiles_bounds; [|exact Ht]. by rewrite free_at_bounds.
  - by apply free_at_measured.
  - split; [done|done|apply gap_pairs_coalesce].
Qed.

(** A gap with a segment in it is the only one. *)
Lemma carve_others start len flags lo hi l : tiles lo hi l → start + len ≤ lo ∨ hi ≤ start → 0 < len →
  flat_map (carve_at start len flags) l = l.
Proof.
  revert lo. induction l as [|a l IH]; intros lo; [done|]. intros (Ha & Hlt & Hl) Hout Hlen. cbn [flat_map].
  assert (high a ≤ hi) as Hh.
  { clear IH Hout Ha. revert Hl. generalize (high a). induction l as [|b l IH]; intros h; cbn; [lia|]. intros (? & ? & ?%IH); lia. }
  unfold carve_at at 1. destruct (gap a && (low a <=? start) && (start + len <=? high a)) eqn:E.
  { rewrite !andb_true_iff, !Z.leb_le in E. lia. }
  cbn. f_equal. apply (IH (high a)); [done|lia|done].
Qed.

Lemma carve_step start len flags lo hi b a r : 0 < len → tiles lo hi (b ++ a :: r) →
  gap a = true → low a ≤ start → start + len ≤ high a →
  flat_map (carve_at start len flags) (b ++ a :: r) = b ++ carve_at start len flags a ++ r.
Proof.
  intros Hlen Ht Hg Hlo Hhi. rewrite flat_map_app. cbn [flat_map].
  assert (tiles lo (low a) b ∧ tiles (high a) hi r) as [Hb Hr].
  { clear Hlo Hhi Hg. revert lo Ht. induction b as [|x b IH]; intros lo; cbn; [by intros (<- & _ & ?)|].
    intros (? & ? & [? ?]%IH). auto. }
  f_equal; [|f_equal]; eapply carve_others; try done; [by right; lia|by left; lia].
Qed.
Lemma pairs_replace (B R R' : list region) a x : gap_pairs (B ++ a :: R) = 0%nat → gap a = true →
  gap_pairs (x :: R') = 0%nat → gap_pairs (B ++ x :: R') = 0%nat.
Proof.
  intros H Ha Hx. rewrite gap_pairs_app in H. rewrite gap_pairs_app, Hx, Nat.add_0_r.
  assert (gap_pairs (B ++ [a]) = 0%nat) as Hb by lia. clear H Hx.
  induction B as [|y B IH]; [done|]. cbn [app gap_pairs] in *. rewrite IH by lia.
  destruct B as [|z B]; cbn [app gap_before] in *; [|lia]. rewrite Ha in Hb. destruct (gap y), (gap x); cbn in *; lia.
Qed.
Lemma carve_space_ok start len flags l : enabled (MapSpace start len flags) l → space_ok l →
  space_ok (flat_map (carve_at start len flags) l).
Proof.
  intros (Hlen & _ & _ & (a & (b & r & ->)%list_elem_of_split & Hg & Hlo & Hhi)%Exists_exists) [Ht Hm Hp].
  rewrite (carve_step _ _ _ _ _ _ _ _ Hlen Ht Hg Hlo Hhi). unfold carve_at.
  rewrite Hg, (proj2 (Z.leb_le _ _)), (proj2 (Z.leb_le _ _)) by lia. cbn [andb].
  apply Forall_app in Hm as [Hmb [_ Hmr]%Forall_cons].
  assert (tiles 0 (low a) b ∧ low a < high a ∧ tiles (high a) (HIGHEST_USER_ADDRESS + 1) r) as (Hb & Hlt & Hr).
  { clear -Ht. revert Ht. generalize 0. induction b as [|x b IH]; intros lo; cbn; [by intros (<- & ? & ?)|].
    intros (? & ? & (? & ? & ?)%IH). auto. }
  split.
  - eapply tiles_app; [exact Hb|]. destruct (Z.ltb_spec (low a) start), (Z.ltb_spec (start + len) (high a)); cbn;
      unfold low, high in *; cbn in *; repeat split; try lia;
      repeat match goal with |- tiles ?x _ _ => replace x with (snd (fst a)) by lia end; done.
  - repeat (apply Forall_app; split); try done.
    + destruct (Z.ltb_spec (low a) start); repeat constructor; cbn; lia.
    + repeat constructor. cbn. unfold low, high. cbn. lia.
    + destruct (Z.ltb_spec (start + len) (high a)); repeat constructor; cbn; lia.
  - assert (gap_pairs r = 0%nat ∧ gap_pairs (a :: r) = 0%nat) as [Hpr Hpa].
    { rewrite gap_pairs_app in Hp. cbn [gap_pairs] in *. lia. }
    assert (∀ e, gap_pairs (match e with true => [(start + len, high a, Empty (high a - (start + len)))] | false => [] end ++ r) = 0%nat) as Hend.
    { intros []; [|done]. cbn [app gap_pairs] in *. destruct r as [|c r]; [done|]. cbn [gap_before] in *. rewrite Hg in Hpa.
      change (gap (start + len, high a, _)) with true. lia. }
    specialize (Hend (start + len <? high a)). rewrite <-app_assoc.
    destruct (low a <? start); cbn [app]; (eapply pairs_replace; [exact Hp|done|]); cbn [gap_pairs]; rewrite Hend;
      (destruct (start + len <? high a), r; reflexivity).
Qed.

(** ** The tree refines the list *)

(** The code of an operation. *)
Definition performs (o : op) (s s' : vma) : Prop :=
  match o with
  | MapSpace start len flags => ∃ used, insert_node start len flags s = Returns (Ok used, s')
  | FreeSpace addr => delete_leaf addr s = Returns ((), s')
  end.
Lemma chain_tiles lo hi l : chain lo hi l ↔ tiles lo hi (content <$> l).
Proof. revert lo. induction l as [|a l IH]; intros lo; [done|]. cbn. by rewrite IH. Qed.
Lemma content_carve start len flags lo hi p sz x u y : lo ≤ start → start + len ≤ hi →
  content <$> carve lo hi start len flags x u y =
    carve_at start len flags (content (Area lo hi p (Empty sz))).
Proof.
  intros H1 H2. unfold carve, carve_at, low, high. cbn. rewrite (proj2 (Z.leb_le _ _)), (proj2 (Z.leb_le _ _)) by lia. cbn.
  by destruct (lo <? start), (start + len <? hi).
Qed.

Lemma insert_refines s t start len flags j n :
  vma_temp_ok s t → enabled (MapSpace start len flags) (content <$> address_space t) → free_room (4 + j) n s →
  ∃ s' t', performs (MapSpace start len flags) s s' ∧ vma_temp_ok s' t' ∧
    content <$> address_space t' = space_step (MapSpace start len flags) (content <$> address_space t) ∧
    free_room j n s' ∧ pages_used s' = pages_used s ∧ mem s' = mem s.
Proof.
  intros (Hz & Hok & Hao) (Hlen & Hs & Hl & He) Hroom.
  apply Exists_exists in He as (x & Hx & Hg & Hlo & Hhi). apply list_elem_of_fmap in Hx as (a & -> & Ha).
  apply list_elem_of_split in Ha as (before & after & Has). destruct a as [lo hi p [sz|]]; [|done].
  unfold low, high in Hlo, Hhi. cbn in Hlo, Hhi.
  assert (start mod 4 = 0 ∧ len mod 4 = 0) as [Hs4 Hl4] by (Z.div_mod_to_equations; lia).
  pose proof (wp_insert_node (Hsrc := storage_source n) s t p sz lo hi start len flags before after j
    Hz Hok Hao Has Hroom Hlen Hlo Hhi Hs4 Hl4) as H.
  apply wp_returns in H as (r & s' & E & T & used & x & y & -> & Hz' & HT & HA & Hk & Hpu & Hm).
  pose proof (areas_chain _ _ _ Hao) as Hch. fold (address_space t) in Hch. rewrite Has in Hch, Hao.
  apply chain_tiles in Hch. rewrite fmap_app in Hch.
  exists s', T. split; [by exists used|]. split; [|split; [|done]].
  - split; [done|]. split; [done|]. rewrite HA. by eapply areas_carve_ok.
  - rewrite HA, Has. cbn [space_step]. rewrite !fmap_app. cbn [fmap list_fmap] in Hch |- *.
    rewrite (carve_step _ _ _ _ _ _ _ _ Hlen Hch); [|done|done|done]. by rewrite (content_carve _ _ _ _ _ p sz).
Qed.
Lemma delete_refines s t addr j n :
  vma_temp_ok s t → can_delete t addr → free_room j (6 + n) s →
  ∃ s' t', performs (FreeSpace addr) s s' ∧ vma_temp_ok s' t' ∧
    content <$> address_space t' = space_step (FreeSpace addr) (content <$> address_space t) ∧
    free_room j n s' ∧ pages_used s' = pages_used s ∧ mem s' = mem s.
Proof.
  intros Hv Hc Hr. destruct (delete_run s t addr j n Hv Hc Hr) as (s' & t' & H1 & H2 & H3 & _ & H4).
  by exists s', t'.
Qed.
Lemma step_space_ok o l : enabled o l → space_ok l → space_ok (space_step o l).
Proof. destruct o; [by apply carve_space_ok|intros _; by apply free_space_ok]. Qed.

(** C2: the operations of the tree refine those of the list of areas, and keep
    it in order.  In a well-formed tree whose areas tile the user range with no
    two gaps together, mapping a segment of whole pages inside a gap, and
    freeing a used area (when the temporary node can do for the gaps it joins),
    return; the tree is well formed again, its list of areas is the one of the
    specification, and that tiles the user range with no two gaps together.
    Nodes are only taken from and given back to the storage pages. *)
Theorem operations_refine (s : vma) (t : tree) (o : op) (j n : nat) :
  vma_temp_ok s t → space_ok (content <$> address_space t) → enabled o (content <$> address_space t) →
  match o with FreeSpace addr => can_delete t addr | MapSpace _ _ _ => True end →
  free_room (4 + j) (6 + n) s →
  ∃ s' t', performs o s s' ∧ vma_temp_ok s' t' ∧
    content <$> address_space t' = space_step o (content <$> address_space t) ∧
    space_ok (content <$> address_space t') ∧
    free_room j n s' ∧ pages_used s' = pages_used s ∧ mem s' = mem s.
Proof.
  intros Hv Hsp He Hd [Hcan Hroom]. pose proof (step_space_ok o _ He Hsp) as Hsp'.
  assert (can_free n s) as Hn by (by do 6 apply can_free_mono in Hcan).
  assert (head_room j s) as Hj by (by do 4 apply (source_mono (reserve := find_and_reserve_node)) in Hroom).
  destruct o as [start len flags|addr].
  - destruct (insert_refines s t start len flags j n Hv He) as (s' & t' & H1 & H2 & H3 & H4); [done|].
    exists s', t'. rewrite H3. done.
  - destruct (delete_refines s t addr j n Hv Hd) as (s' & t' & H1 & H2 & H3 & H4); [done|].
    exists s', t'. rewrite H3. done.
Qed.
Lemma operations_refine_witness :
  ∃ s' t', performs (MapSpace 0x20000 0x2000 1) demo_mapped s' ∧ vma_temp_ok s' t' ∧
    content <$> address_space t' = [(0, 0x10000, Empty 0x10000); (0x10000, 0x14000, Used 3);
      (0x14000, 0x20000, Empty 0xC000); (0x20000, 0x22000, Used 1);
      (0x22000, HIGHEST_USER_ADDRESS + 1, Empty (HIGHEST_USER_ADDRESS + 1 - 0x22000))] ∧
    space_ok (content <$> address_space t') ∧
    free_room 76 4 s' ∧ pages_used s' = pages_used demo_mapped ∧ mem s' = mem demo_mapped.
Proof.
  apply (operations_refine demo_mapped demo_mapped_tree (MapSpace 0x20000 0x2000 1) 76 4);
    [apply demo_mapped_vma_ok| | |done|apply demo_mapped_room; lia].
  - split; [by cbn; repeat split|repeat (constructor; [vm_compute; congruence|]); constructor|reflexivity].
  - split; [lia|]. split; [reflexivity|]. split; [reflexivity|].
    apply Exists_cons_tl, Exists_cons_tl, Exists_cons_hd. split; [reflexivity|]. by vm_compute.
Defined.
