(* ===== verification/Vma.v ===== *)
(** * The VMA allocator and its tasks (kernel/src/vma.rs)

    [VMAAllocator] is the user page mapper (the address of its PML4) with the
    tree behind its lock.  Mapping and unmapping are tasks: the segment is
    recorded (or found) and locked in the tree, a page task of UserMap.v does
    the work, and the tree is updated when it completes. *)
From S2P Require Import Prelude Paging PageAlloc PageTables UserMap UserSpace UserUnmap.
From S2P Require Import VmaStore VmaTree VmaSpec VmaRepr VmaOps VmaInsert VmaLink VmaFix VmaRemove VmaJoin VmaDelete VmaFree.

Module Segment.
Record t : Type := Build { start : Z; len : Z; flags : SegmentFlags.t }.
End Segment.
Definition node_flags (f : SegmentFlags.t) : Z :=
  NodeFlags.from_segment (SegmentFlags.read f) (SegmentFlags.write f) (SegmentFlags.execute f).

Inductive VMAUnmapError : Type := SegmentAlreadyUnmapped | SegmentLocked.

Module UnmapTask.
Record t : Type := Build { start_address : Z; unmap_mem_task : UnmapMemTask.t }.
End UnmapTask.
Module MapTask.
Record t : Type := Build { map_mem_task : MapMemTask.t }.
End MapTask.

(** [VMAAllocator::new]. *)
Definition VMAAllocator_new (pages_used : Z) (s : sys) : outcome (result vma () * sys) :=
  VMATree_new pages_used s.

(** [VMAAllocator::start_unmap]. *)
Definition start_unmap (segment_address : Z) : M vma (result UnmapTask.t VMAUnmapError) :=
  info ← get_leaf_containing segment_address;
  p ← unwrap_leaf (leaf info);
  l ← read_leaf p;
  match l with
  | Empty _ => mret (Err SegmentAlreadyUnmapped)
  | Used flags =>
      if NodeFlags.locked flags then mret (Err SegmentLocked)
      else
        write_node p (Leaf (Used (NodeFlags.set_locked flags true)));;
        end1 ← chk 64 (leaf_end info + 1);
        size ← chk 64 (end1 - leaf_start info);
        mret (Ok (UnmapTask.Build (leaf_start info) (UnmapMemTask.new (leaf_start info) (size / PAGE_SIZE))))
  end.

(** [VMAAllocator::start_try_map_at]. *)
Definition start_try_map_at (new_segment : Segment.t) : M vma (result MapTask.t VMAMapError) :=
  let start := Segment.start new_segment in
  let len := Segment.len new_segment in
  rassert (start mod PAGE_SIZE =? 0);;
  rassert (len mod PAGE_SIZE =? 0);;
  end1 ← chk 64 (start + len);
  new_segment_end ← chk 64 (end1 - 1);
  rassert (new_segment_end <=? HIGHEST_USER_ADDRESS);;
  info ← get_leaf_containing start;
  if leaf_end info <? new_segment_end then mret (Err SegmentAlreadyExists)
  else
    p ← unwrap_leaf (leaf info);
    l ← read_leaf p;
    match l with
    | Empty _ =>
        r ← insert_node start len (node_flags (Segment.flags new_segment));
        match r with
        | Err e => mret (Err e)
        | Ok new_leaf =>
            new_leaf ← unwrap_leaf new_leaf;
            set_used_flags new_leaf (λ f, NodeFlags.set_locked f true);;
            mret (Ok (MapTask.Build
              (MapMemTask.new start (len / PAGE_SIZE) (Segment.flags new_segment))))
        end
    | Used _ => mret (Err SegmentAlreadyExists)
    end.

(** [MapTask::run]. *)
Definition MapTask_run (page_mapper : Z) (answers : list bool) (self : MapTask.t) :
    M vma (MapTask.t * Poll (result Z MapMemError)) :=
  '(task, p) ← in_mem (MapMemTask_run page_mapper answers (MapTask.map_mem_task self));
  let self := MapTask.Build task in
  match p with
  | Pending => mret (self, Pending)
  | Ready (Err e) => mret (self, Ready (Err e))
  | Ready (Ok pages_allocated) =>
      let start_address := MapMemTask.start_address task in
      info ← get_leaf_containing start_address;
      l ← unwrap_leaf (leaf info);
      flags ← unwrap_flags l;
      rassert (NodeFlags.locked flags);;
      set_used_flags l (λ f, NodeFlags.set_locked f false);;
      delete_leaf start_address;;
      mret (self, Ready (Ok pages_allocated))
  end.

(** [UnmapTask::run]. *)
Definition UnmapTask_run (page_mapper : Z) (answers : list bool) (self : UnmapTask.t) :
    M vma (UnmapTask.t * Poll Z) :=
  '(task, p) ← in_mem (UnmapMemTask_run page_mapper answers (UnmapTask.unmap_mem_task self));
  let self := UnmapTask.Build (UnmapTask.start_address self) task in
  match p with
  | Pending => mret (self, Pending)
  | Ready pages_freed =>
      delete_leaf (UnmapTask.start_address self);;
      mret (self, Ready pages_freed)
  end.

(** ** A change of the flags of a leaf *)

(** The tree is in focus at each of its areas. *)
Lemma areas_focus t lo hi b a r : areas lo hi t = b ++ a :: r →
  ∃ c, t = plug c (TLeaf (area_ptr a) (area_leaf a)) ∧
    ∀ t', areas lo hi (plug c t') = b ++ areas (area_start a) (area_end a) t' ++ r.
Proof.
  revert lo hi b r. induction t as [p l|p cl pv mx l IHl r0 IHr]; intros lo hi b r E.
  - destruct b as [|? b]; [|by destruct b]. injection E as <- <-. exists []. split; [done|].
    intros t'. cbn. by rewrite app_nil_r.
  - cbn in E. apply app_eq_inv in E as [(k & El & Er)|(k & Eb & Er)].
    + destruct k as [|x k].
      { rewrite app_nil_r in El. destruct (IHr pv hi [] r (eq_sym Er)) as (c & -> & Hc).
        exists (c ++ [Frame Right p cl pv mx l]). split; [unfold plug; by rewrite foldl_app|].
        intros t'. unfold plug in *. rewrite foldl_app. cbn [foldl fill1 f_side TB areas]. cbn.
        rewrite Hc. cbn. by rewrite El. }
      injection Er as -> ->. destruct (IHl lo pv b k El) as (c & -> & Hc).
      exists (c ++ [Frame Left p cl pv mx r0]). split; [unfold plug; by rewrite foldl_app|].
      intros t'. unfold plug in *. rewrite foldl_app. cbn. rewrite Hc. by rewrite <-!app_assoc.
    + destruct (IHr pv hi k r Er) as (c & -> & Hc).
      exists (c ++ [Frame Right p cl pv mx l]). split; [unfold plug; by rewrite foldl_app|].
      intros t'. unfold plug in *. rewrite foldl_app. cbn. rewrite Hc, Eb. by rewrite <-!app_assoc.
Qed.
Lemma plug_flags_ok c p f f' : tree_ok (plug c (TLeaf p (Used f))) → tree_ok (plug c (TLeaf p (Used f'))).
Proof.
  assert (∀ t t', bh t = bh t' → (no_red_red t → no_red_red t') → tcolor t = tcolor t' →
    (pivots_ok t → pivots_ok t') → (max_ok t → max_ok t') → tmax t = tmax t' →
    tree_ok (plug c t) → tree_ok (plug c t')) as H.
  { induction c as [|fr c IH]; intros t t' H1 H2 H3 H4 H5 H6.
    - change (tree_ok t → tree_ok t'). intros []. split; [by rewrite <-H1|auto|congruence|auto|auto].
    - rewrite !plug_cons. apply IH.
      + unfold fill1, TB. destruct (f_side fr); cbn; by rewrite H1.
      + unfold fill1. rewrite !rr_TB, H3. tauto.
      + unfold fill1. by rewrite !tcolor_TB.
      + unfold fill1. rewrite !pivots_TB. tauto.
      + unfold fill1. rewrite !max_TB, H6. tauto.
      + unfold fill1. by rewrite !tmax_TB. }
  by apply H.
Qed.
(** [T] is [t] with the flags [f'] for [f] in one leaf. *)
Definition relabelled (t T : tree) (p : NodePtr) (f f' : Z) : Prop :=
  ∃ c, t = plug c (TLeaf p (Used f)) ∧ T = plug c (TLeaf p (Used f')).

Section flags.
Context {room : nat → vma → Prop} {reserved : vma → NodePtr → Prop} `{Hst : !NodeStore room reserved}.
Abbreviation kept := (kept (room := room) (reserved := reserved)).
Abbreviation zip_ok := (zip_ok (reserved := reserved)).
Abbreviation tree_in s t := (zip_ok s [] t ∧ tree_ok t ∧ areas_ok (address_space t)).

(** Setting flags in place changes one area of the address space. *)
Lemma wp_write_flags s t p f f' lo hi before after (Q : () → vma → Prop) :
  tree_in s t → address_space t = before ++ Area lo hi p (Used f) :: after →
  (∀ s' T, tree_in s' T → address_space T = before ++ Area lo hi p (Used f') :: after →
     relabelled t T p f f' → kept s s' → Q () s') →
  wp (write_node p (Leaf (Used f'))) Q s.
Proof.
  intros (Hz & Hok & Hao) Has HQ.
  destruct (areas_focus _ _ _ _ _ _ Has) as (c & -> & Hc). cbn [area_start area_end area_ptr area_leaf] in *.
  rewrite <-zip_plug in Hz. pose proof Hz as (Hcz & Hp & Hnd & Hres). cbn in Hp.
  apply wp_write_node; [by eexists|].
  intros s1 N1 R1 K1. cbn in Hnd, Hres. apply NoDup_cons in Hnd as [Hpc Hnd]. apply Forall_cons in Hres as [Hrp Hrc].
  destruct (write_ctx _ _ _ _ p c N1 R1 K1 Hpc) as [Hc1 Hr1]; [done|].
  assert (address_space (plug c (TLeaf p (Used f'))) = before ++ Area lo hi p (Used f') :: after) as EA
    by apply Hc.
  apply (HQ s1 (plug c (TLeaf p (Used f')))); [|done|by exists c|done]. split; [|split].
  - rewrite <-zip_plug. split; [done|]. split; [cbn [repr]; by heap|]. split; [by constructor|].
    constructor; [by apply K1|done].
  - by eapply plug_flags_ok.
  - rewrite EA. rewrite Has in Hao. apply Forall_app in Hao as [H1 H2]. apply Forall_cons in H2 as [H2 H3].
    apply Forall_app. split; [done|]. by constructor.
Qed.
Lemma wp_set_used_flags s t p f lo hi before after g (Q : () → vma → Prop) :
  tree_in s t → address_space t = before ++ Area lo hi p (Used f) :: after →
  (∀ s' T, tree_in s' T → address_space T = before ++ Area lo hi p (Used (g f)) :: after →
     relabelled t T p f (g f) → kept s s' → Q () s') →
  wp (set_used_flags p g) Q s.
Proof.
  intros Hv Has HQ. pose proof Hv as (Hz & _).
  destruct (areas_focus _ _ _ _ _ _ Has) as (c & Et & _). cbn in Et. rewrite Et, <-zip_plug in Hz.
  pose proof Hz as (_ & Hp & _). cbn in Hp.
  unfold set_used_flags, unwrap_flags, read_leaf. rewrite wp_bind, wp_bind, wp_bind.
  eapply wp_read_node; [exact Hp|]. rewrite !wp_ret. by eapply wp_write_flags.
Qed.

(** Starting to unmap, for any set of reserved nodes. *)
Lemma start_unmap_run (s : vma) (t : tree) (addr : Z) before a after :
  tree_in s t → address_space t = before ++ a :: after → area_start a ≤ addr < area_end a →
  match area_leaf a with
  | Empty _ => start_unmap addr s = Returns (Err SegmentAlreadyUnmapped, s)
  | Used f =>
      if NodeFlags.locked f then start_unmap addr s = Returns (Err SegmentLocked, s)
      else ∃ s' T, start_unmap addr s =
          Returns (Ok (UnmapTask.Build (area_start a)
            (UnmapMemTask.new (area_start a) ((area_end a - area_start a) / 4096))), s') ∧
        tree_in s' T ∧ address_space T = before ++
          Area (area_start a) (area_end a) (area_ptr a) (Used (NodeFlags.set_locked f true)) :: after ∧
        relabelled t T (area_ptr a) f (NodeFlags.set_locked f true) ∧ kept s s'
  end.
Proof.
  intros Hv Has Hin. pose proof Hv as (Hz & Hok & Hao).
  assert (0 ≤ area_start a ∧ area_end a ≤ HIGHEST_USER_ADDRESS + 1) as [H0 H1].
  { pose proof (areas_chain _ _ _ Hao) as Hch. fold (address_space t) in Hch. rewrite Has in Hch.
    split; [by eapply chain_start|by eapply chain_end]. }
  assert (HIGHEST_USER_ADDRESS + 1 < 2 ^ 64) by done.
  destruct a as [lo hi p l]. cbn [area_start area_end area_leaf area_ptr] in *.
  assert (∀ (Q : result UnmapTask.t VMAUnmapError → vma → Prop),
    wp (match l with
        | Empty _ => mret (Err SegmentAlreadyUnmapped)
        | Used flags =>
            if NodeFlags.locked flags then mret (Err SegmentLocked)
            else
              write_node p (Leaf (Used (NodeFlags.set_locked flags true)));;
              end1 ← chk 64 (hi - 1 + 1);
              size ← chk 64 (end1 - lo);
              mret (Ok (UnmapTask.Build lo (UnmapMemTask.new lo (size / PAGE_SIZE))))
        end) Q s → wp (start_unmap addr) Q s) as Hpre.
  { intros Q HQ. unfold start_unmap. rewrite wp_bind.
    eapply (wp_find_area s t); [exact Hz|done|done|exact Has|done|]. intros c Hzc _ _ _ _.
    cbn [leaf leaf_start leaf_end area_ptr area_start area_end].
    pose proof Hzc as (_ & Hp & _). cbn in Hp. rewrite wp_bind. eapply wp_unwrap_leaf; [exact Hp|].
    unfold read_leaf. rewrite wp_bind, wp_bind. eapply wp_read_node; [exact Hp|]. by rewrite wp_ret. }
  assert (∀ r, wp (start_unmap addr) (λ r' s', r' = r ∧ s' = s) s → start_unmap addr s = Returns (r, s))
    as Hsame by (intros r (r' & s' & E & -> & ->)%wp_returns; done).
  destruct l as [sz|f]; [by apply Hsame, Hpre|].
  destruct (NodeFlags.locked f); [by apply Hsame, Hpre|].
  assert (wp (start_unmap addr) (λ r s', ∃ T,
    r = Ok (UnmapTask.Build lo (UnmapMemTask.new lo ((hi - lo) / 4096))) ∧ tree_in s' T ∧
    address_space T = before ++ Area lo hi p (Used (NodeFlags.set_locked f true)) :: after ∧
    relabelled t T p f (NodeFlags.set_locked f true) ∧ kept s s') s) as Hw.
  { apply Hpre. rewrite wp_bind.
    eapply (wp_write_flags s t p f _ lo hi before after); [done|done|]. intros s' T Hv' HA R K.
    rewrite wp_bind, wp_chk. split; [lia|]. rewrite wp_bind, wp_chk. split; [lia|].
    rewrite wp_ret. exists T. by replace (hi - 1 + 1 - lo) with (hi - lo) by lia. }
  apply wp_returns in Hw as (r & s' & E & T & -> & Hrest). by exists s', T.
Qed.
End flags.

(** ** Starting tasks *)

Lemma carve_used lo hi start len x u y : ∃ pre post, ∀ flags,
  carve lo hi start len flags x u y = pre ++ Area start (start + len) u (Used flags) :: post.
Proof. unfold carve. by eexists _, _. Qed.

(** The checks of [start_try_map_at], up to the leaf at the start of the segment. *)
Lemma wp_start_try_map_at s t seg before a after (Q : result MapTask.t VMAMapError → vma → Prop) :
  let start := Segment.start seg in
  let len := Segment.len seg in
  vma_ok s t → address_space t = before ++ a :: after → area_start a ≤ start < area_end a →
  0 ≤ start → 0 < len → start mod 4096 = 0 → len mod 4096 = 0 → start + len ≤ HIGHEST_USER_ADDRESS + 1 →
  wp (if area_end a - 1 <? start + len - 1 then mret (Err SegmentAlreadyExists)
      else match area_leaf a with
      | Empty _ =>
          r ← insert_node start len (node_flags (Segment.flags seg));
          match r with
          | Err e => mret (Err e)
          | Ok new_leaf =>
              new_leaf ← unwrap_leaf new_leaf;
              set_used_flags new_leaf (λ f, NodeFlags.set_locked f true);;
              mret (Ok (MapTask.Build (MapMemTask.new start (len / PAGE_SIZE) (Segment.flags seg))))
          end
      | Used _ => mret (Err SegmentAlreadyExists)
      end) Q s →
  wp (start_try_map_at seg) Q s.
Proof.
  intros start len (Hz & Hok & Hao) Has Hin H0 Hlen Hs Hl Hend HQ. unfold start_try_map_at. fold start len.
  assert (HIGHEST_USER_ADDRESS + 1 < 2 ^ 64) by done.
  rewrite wp_bind, wp_rassert. split; [by apply Z.eqb_eq|]. rewrite wp_bind, wp_rassert.
  split; [by apply Z.eqb_eq|]. rewrite wp_bind, wp_chk. split; [lia|]. rewrite wp_bind, wp_chk. split; [lia|].
  rewrite wp_bind, wp_rassert. split; [apply Z.leb_le; lia|]. rewrite wp_bind.
  eapply (wp_find_area s t); [exact Hz|done|done|exact Has|done|]. intros c Hzc _ _ _ _.
  cbn [leaf leaf_end]. destruct (area_end a - 1 <? start + len - 1); [done|].
  pose proof Hzc as (_ & Hp & _). cbn in Hp. rewrite wp_bind. eapply wp_unwrap_leaf; [exact Hp|].
  unfold read_leaf. rewrite wp_bind, wp_bind. eapply wp_read_node; [exact Hp|]. by rewrite wp_ret.
Qed.

(** C7: starting to map a page-aligned segment of the user range, in a
    well-formed address space.  If the area at its start is used, or is a gap
    that ends before the segment does, nothing changes and the result is
    [SegmentAlreadyExists]; if the gap holds the segment, the gap is carved, the
    area of the segment is recorded as used, with the segment's permissions, and
    locked, and the task maps all the segment's pages from its start. *)
Theorem start_try_map_at_correct (s : vma) (t : tree) (seg : Segment.t) before a after k :
  let start := Segment.start seg in
  let len := Segment.len seg in
  vma_ok s t → head_room (4 + k) s → address_space t = before ++ a :: after →
  area_start a ≤ start < area_end a → 0 < len → start mod 4096 = 0 → len mod 4096 = 0 →
  start + len ≤ HIGHEST_USER_ADDRESS + 1 →
  match area_leaf a with
  | Empty _ =>
      if start + len <=? area_end a then
        ∃ s' T x y z, start_try_map_at seg s =
            Returns (Ok (MapTask.Build (MapMemTask.new start (len / 4096) (Segment.flags seg))), s') ∧
          vma_ok s' T ∧ head_room k s' ∧
          address_space T = before ++ carve (area_start a) (area_end a) start len
            (NodeFlags.set_locked (node_flags (Segment.flags seg)) true) x y z ++ after
      else start_try_map_at seg s = Returns (Err SegmentAlreadyExists, s)
  | Used _ => start_try_map_at seg s = Returns (Err SegmentAlreadyExists, s)
  end.
Proof.
  intros start len Hv Hroom Has Hin Hlen Hs Hl Hend. pose proof Hv as (Hz & Hok & Hao).
  assert (0 ≤ start) as H0.
  { pose proof (areas_chain _ _ _ Hao) as Hch. fold (address_space t) in Hch. rewrite Has in Hch.
    pose proof (chain_start _ _ _ _ _ Hch). lia. }
  pose proof (λ Q, wp_start_try_map_at s t seg before a after Q Hv Has Hin H0 Hlen Hs Hl Hend) as Hpre.
  fold start len in Hpre.
  assert (∀ r, wp (start_try_map_at seg) (λ r' s', r' = r ∧ s' = s) s → start_try_map_at seg s = Returns (r, s))
    as Hsame by (intros r (r' & s' & E & -> & ->)%wp_returns; done).
  destruct a as [lo hi p [sz|f]]; cbn [area_start area_end area_leaf] in *.
  2:{ apply Hsame, Hpre. by destruct (_ <? _). }
  destruct (Z.leb_spec (start + len) hi).
  2:{ apply Hsame, Hpre. by rewrite (proj2 (Z.ltb_lt _ _)) by lia. }
  rewrite (proj2 (Z.ltb_ge _ _)) in Hpre by lia.
  assert (start mod 4 = 0 ∧ len mod 4 = 0) as [Hs4 Hl4] by (Z.div_mod_to_equations; lia).
  set (fl := node_flags (Segment.flags seg)) in *.
  assert (wp (start_try_map_at seg) (λ r s', ∃ T x y z,
    r = Ok (MapTask.Build (MapMemTask.new start (len / 4096) (Segment.flags seg))) ∧
    vma_ok s' T ∧ head_room k s' ∧ address_space T =
      before ++ carve lo hi start len (NodeFlags.set_locked fl true) x y z ++ after) s) as Hw.
  { apply Hpre. rewrite wp_bind. eapply wp_mono; [apply (wp_insert_node s t p sz lo hi start len fl before after k); first [done|lia]|].
    intros r s1 (T & used & x & y & -> & Hz1 & HT1 & HA1 & Hk1 & _).
    assert (vma_ok s1 T) as Hv1.
    { split; [done|]. split; [done|]. rewrite HA1. rewrite Has in Hao. by eapply areas_carve_ok. }
    destruct (carve_used lo hi start len x used y) as (pre & post & Hcu).
    rewrite Hcu, <-app_assoc in HA1. cbn [app] in HA1. rewrite app_assoc in HA1.
    destruct (areas_focus _ _ _ _ _ _ HA1) as (c & ET & _). cbn in ET.
    pose proof Hz1 as Hz1'. rewrite ET, <-zip_plug in Hz1'. pose proof Hz1' as (_ & Hp & _). cbn in Hp.
    rewrite wp_bind. eapply wp_unwrap_leaf; [exact Hp|]. rewrite wp_bind.
    eapply wp_set_used_flags; [exact Hv1|exact HA1|]. intros s2 T2 Hv2 HA2 _ K2. rewrite wp_ret.
    exists T2, x, used, y. split; [done|]. split; [done|]. split; [by apply K2|].
    by rewrite HA2, Hcu, <-!app_assoc. }
  apply wp_returns in Hw as (r & s' & E & T & x & y & z & -> & Hrest). by exists s', T, x, y, z.
Qed.
Lemma start_try_map_at_correct_witness (seg := Segment.Build 0x10000 0x4000 (SegmentFlags.Build true true false)) :
  ∃ s' T x y z, start_try_map_at seg (demo_vma demo_mem) =
      Returns (Ok (MapTask.Build (MapMemTask.new 0x10000 (0x4000 / 4096) (Segment.flags seg))), s') ∧
    vma_ok s' T ∧ head_room 91 s' ∧
    address_space T = [] ++ carve 0 (HIGHEST_USER_ADDRESS + 1) 0x10000 0x4000
      (NodeFlags.set_locked (node_flags (Segment.flags seg)) true) x y z ++ [].
Proof.
  apply (start_try_map_at_correct (demo_vma demo_mem) demo_tree seg []
    (Area 0 (HIGHEST_USER_ADDRESS + 1) (Entry 0x1000 0) (Empty HIGHEST_USER_ADDRESS)) [] 91);
    [apply demo_vma_ok|apply demo_vma_room|done..].
Defined.

(** C6: starting to unmap the segment at an address of the user range, in a
    well-formed address space.  In a gap the result is
    [SegmentAlreadyUnmapped], in a locked segment [SegmentLocked], and nothing
    changes; an unlocked segment is locked, and the task unmaps all its pages
    from its start. *)
Theorem start_unmap_correct (s : vma) (t : tree) (addr : Z) before a after :
  vma_ok s t → address_space t = before ++ a :: after → area_start a ≤ addr < area_end a →
  match area_leaf a with
  | Empty _ => start_unmap addr s = Returns (Err SegmentAlreadyUnmapped, s)
  | Used f =>
      if NodeFlags.locked f then start_unmap addr s = Returns (Err SegmentLocked, s)
      else ∃ s' T, start_unmap addr s =
          Returns (Ok (UnmapTask.Build (area_start a)
            (UnmapMemTask.new (area_start a) ((area_end a - area_start a) / 4096))), s') ∧
        vma_ok s' T ∧ address_space T = before ++
          Area (area_start a) (area_end a) (area_ptr a) (Used (NodeFlags.set_locked f true)) :: after
  end.
Proof.
  intros Hv Has Hin. pose proof (start_unmap_run s t addr before a after Hv Has Hin) as H.
  destruct (area_leaf a) as [sz|f]; [done|]. destruct (NodeFlags.locked f); [done|].
  destruct H as (s' & T & H1 & H2 & H3 & _). by exists s', T.
Qed.
(** The address space after one segment was inserted, for the witnesses. *)
Definition demo_used : vma :=
  match insert_node 0 (HIGHEST_USER_ADDRESS + 1) 3 (demo_vma demo_mem) with
  | Returns (_, v) => v
  | _ => demo_vma demo_mem
  end.
Definition demo_used_tree : tree := TLeaf (Entry 0x1000 0) (Used 3).
Lemma demo_used_ok : vma_ok demo_used demo_used_tree.
Proof.
  split; [split_and!|split; [split|]].
  - done.
  - done.
  - apply NoDup_singleton.
  - repeat constructor. eexists. split; [vm_compute; reflexivity|]. split; [|split; [|done]].
    + split; [vm_compute; repeat constructor; done|done..].
    + change MAX_NODES with 101. lia.
  - by eexists.
  - done.
  - done.
  - done.
  - done.
  - repeat constructor.
Qed.
Lemma start_unmap_correct_witness :
  ∃ s' T, start_unmap 0x5000 demo_used =
      Returns (Ok (UnmapTask.Build 0 (UnmapMemTask.new 0 ((HIGHEST_USER_ADDRESS + 1 - 0) / 4096))), s') ∧
    vma_ok s' T ∧ address_space T = [] ++
      Area 0 (HIGHEST_USER_ADDRESS + 1) (Entry 0x1000 0) (Used (NodeFlags.set_locked 3 true)) :: [].
Proof.
  apply (start_unmap_correct demo_used demo_used_tree 0x5000 []
    (Area 0 (HIGHEST_USER_ADDRESS + 1) (Entry 0x1000 0) (Used 3)) []);
    [apply demo_used_ok|done|done].
Defined.

(** ** Running tasks *)

(** The allocator with another memory. *)
Definition with_mem (s : vma) (m : sys) : vma :=
  Vma (root s) (head s) (temp_node s) (pages s) (pages_used s) m.
Lemma in_mem_returns {A} (m : M sys A) s x m' :
  m (mem s) = Returns (x, m') → in_mem m s = Returns (x, with_mem s m').
Proof. intros E. unfold in_mem, zoom. by rewrite E. Qed.

Lemma gap_pairs_gaps l l' : gap <$> l = gap <$> l' → gap_pairs l = gap_pairs l'.
Proof.
  revert l'. induction l as [|a l IH]; intros [|a' l'] E; try done. injection E as Ea E. cbn [gap_pairs].
  rewrite (IH l') by done. f_equal. destruct l as [|b l], l' as [|b' l']; try done. injection E as Eb _.
  cbn. by rewrite Ea, Eb.
Qed.
(** The lock of a segment is neither seen nor needed by a deletion. *)
Lemma relabelled_can t T p f f' before lo hi after addr :
  NoDup (ptrs t) → areas_ok (address_space t) → relabelled t T p f f' →
  address_space t = before ++ Area lo hi p (Used f) :: after →
  address_space T = before ++ Area lo hi p (Used f') :: after → lo ≤ addr < hi → areas_ok (address_space T) →
  can_delete t addr →
  can_delete T addr ∧ free_area addr (content <$> address_space T) = free_area addr (content <$> address_space t).
Proof.
  intros Hnd Hao (c & Et & ET) Has HAS Hin HAO [Hsz Hap (b0 & l0 & h0 & p0 & f0 & a0 & Has0 & Hin0 & Hdel)].
  pose proof (areas_chain _ _ _ Hao) as Hch. fold (address_space t) in Hch.
  pose proof (areas_chain _ _ _ HAO) as HCH. fold (address_space T) in HCH.
  destruct (chain_unique 0 (HIGHEST_USER_ADDRESS + 1) before (Area lo hi p (Used f)) after b0 (Area l0 h0 p0 (Used f0)) a0 addr)
    as (<- & [= <- <- <- <-] & <-); [by rewrite <-Has|by rewrite <-Has|done..|].
  assert (free_at addr <$> (content <$> address_space T) = free_at addr <$> (content <$> address_space t)) as Efree.
  { rewrite Has in Hch |- *. rewrite HAS in HCH |- *. rewrite (free_at_areas _ _ _ _ _ _ Hch Hin).
    by rewrite (free_at_areas _ _ _ _ _ _ HCH Hin). }
  split; [|by unfold free_area; rewrite Efree]. split.
  - unfold sized in *. rewrite Has in Hsz. rewrite HAS.
    apply Forall_app in Hsz as [? [? ?]%Forall_cons]. apply Forall_app. split; [done|]. by constructor.
  - rewrite <-Hap. apply gap_pairs_gaps. rewrite Has, HAS, !fmap_app. done.
  - exists before, lo, hi, p, f', after. split; [done|]. split; [done|]. rewrite Efree.
    assert (ptrs T = ptrs t) as EP by (subst t T; apply leaf_change).
    destruct Hdel as [?|[Ht Hn]]; [by left|right]. split; [by rewrite EP|].
    destruct Hn as [?|(Hn & c' & g & q & sz & E & Er & Eq)]; [by left|right]. split; [done|].
    exists c', g, q, sz. split; [|done]. assert (c = g :: c') as ->; [|done]. rewrite Et in E.
    eapply plug_unique; [|exact E]. by rewrite <-Et.
Qed.

(** One run of an unmapping task, from a run of its page task. *)
Lemma UnmapTask_run_pending pm answers self s task m :
  UnmapMemTask_run pm answers (UnmapTask.unmap_mem_task self) (mem s) = Returns ((task, Pending), m) →
  UnmapTask_run pm answers self s =
    Returns ((UnmapTask.Build (UnmapTask.start_address self) task, Pending), with_mem s m).
Proof. intros E. unfold UnmapTask_run, mbind, M_bind. by rewrite (in_mem_returns _ _ _ _ E). Qed.
(** The state once the area at [x] of [t] is freed, with the memory [m]. *)
Definition freed_at (x : Z) (j k : nat) (t : tree) (m : sys) (s' : vma) : Prop := ∃ t', vma_temp_ok s' t' ∧
  content <$> address_space t' = free_area x (content <$> address_space t) ∧ free_room j k s' ∧ mem s' = m.
Lemma UnmapTask_run_ready pm answers self s t task n m j k :
  UnmapMemTask_run pm answers (UnmapTask.unmap_mem_task self) (mem s) = Returns ((task, Ready n), m) →
  vma_temp_ok s t → can_delete t (UnmapTask.start_address self) → free_room j (6 + k) s →
  ∃ s', UnmapTask_run pm answers self s =
      Returns ((UnmapTask.Build (UnmapTask.start_address self) task, Ready n), s') ∧
    freed_at (UnmapTask.start_address self) j k t m s'.
Proof.
  intros E Hv Hc Hr. destruct (delete_run (with_mem s m) t (UnmapTask.start_address self) j k Hv Hc Hr)
    as (s' & t' & E' & Hv' & HA & _ & Hr' & _ & Hm).
  exists s'. split; [|by exists t']. unfold UnmapTask_run, mbind, M_bind. rewrite (in_mem_returns _ _ _ _ E).
  cbn [UnmapTask.start_address]. by rewrite E'.
Qed.
(** An unmapping task driven by its caller: each slice is a call of [run] that
    is suspended after so many pages. *)
Fixpoint drive_unmap (pm : Z) (slices : list nat) (self : UnmapTask.t) : M vma (UnmapTask.t * Poll Z) :=
  match slices with
  | [] => mret (self, Pending)
  | k :: slices =>
      '(self, p) ← UnmapTask_run pm (replicate k false ++ [true]) self;
      match p with
      | Ready r => mret (self, Ready r)
      | Pending => drive_unmap pm slices self
      end
  end.
Lemma drive_unmap_ready pm slices self s t task n m j k :
  drive (UnmapMemTask.step pm) slices (UnmapTask.unmap_mem_task self) (mem s) = Returns ((task, Ready n), m) →
  vma_temp_ok s t → can_delete t (UnmapTask.start_address self) → free_room j (6 + k) s →
  ∃ s', drive_unmap pm slices self s =
      Returns ((UnmapTask.Build (UnmapTask.start_address self) task, Ready n), s') ∧
    freed_at (UnmapTask.start_address self) j k t m s'.
Proof.
  revert self s. induction slices as [|i slices IH]; intros self s E Hv Hc Hr; [done|].
  cbn [drive] in E. unfold mbind, M_bind in E.
  destruct (run_task (UnmapMemTask.step pm) (replicate i false ++ [true]) (UnmapTask.unmap_mem_task self) (mem s))
    as [[[task1 [r|]] m1]| | |] eqn:E1; try done.
  - injection E as -> -> ->.
    destruct (UnmapTask_run_ready pm _ self s t task n m j k E1 Hv Hc Hr) as (s' & E2 & H).
    exists s'. split; [|done]. cbn [drive_unmap]. unfold mbind, M_bind. by rewrite E2.
  - destruct (IH (UnmapTask.Build (UnmapTask.start_address self) task1) (with_mem s m1) E Hv Hc Hr) as (s' & E2 & H).
    exists s'. split; [|done]. cbn [drive_unmap]. unfold mbind, M_bind.
    rewrite (UnmapTask_run_pending pm _ self s task1 m1 E1). exact E2.
Qed.

(** A deletion is the same from every address of the area. *)
Lemma can_delete_area t before lo hi p f after x y :
  areas_ok (address_space t) → address_space t = before ++ Area lo hi p (Used f) :: after →
  lo ≤ x < hi → lo ≤ y < hi → can_delete t x →
  can_delete t y ∧ free_area y (content <$> address_space t) = free_area x (content <$> address_space t).
Proof.
  intros Hao Has Hx Hy [Hsz Hap (b0 & l0 & h0 & p0 & f0 & a0 & Has0 & Hin0 & Hdel)].
  pose proof (areas_chain _ _ _ Hao) as Hch. fold (address_space t) in Hch.
  assert (free_at y <$> (content <$> address_space t) = free_at x <$> (content <$> address_space t)) as E.
  { rewrite Has in Hch |- *. by rewrite (free_at_areas _ _ _ _ _ _ Hch Hx), (free_at_areas _ _ _ _ _ _ Hch Hy). }
  destruct (chain_unique 0 (HIGHEST_USER_ADDRESS + 1) before (Area lo hi p (Used f)) after b0 (Area l0 h0 p0 (Used f0)) a0 x)
    as (<- & [= <- <- <- <-] & <-); [by rewrite <-Has|by rewrite <-Has|done..|].
  split; [|by unfold free_area; rewrite E]. split; [done|done|]. exists before, lo, hi, p, f, after. by rewrite E.
Qed.
Lemma start_unmap_can s t addr before lo hi p f after j k :
  vma_temp_ok s t → can_delete t addr → address_space t = before ++ Area lo hi p (Used f) :: after →
  lo ≤ addr < hi → NodeFlags.locked f = false → free_room j k s →
  ∃ s1 T, start_unmap addr s = Returns (Ok (UnmapTask.Build lo (UnmapMemTask.new lo ((hi - lo) / 4096))), s1) ∧
    vma_temp_ok s1 T ∧ can_delete T lo ∧ free_room j k s1 ∧ mem s1 = mem s ∧
    address_space T = before ++ Area lo hi p (Used (NodeFlags.set_locked f true)) :: after ∧
    free_area lo (content <$> address_space T) = free_area addr (content <$> address_space t).
Proof.
  intros Hv Hc Has Hin Hf Hr. pose proof Hv as ((_ & _ & Hnd & _) & _ & Hao). cbn [ctx_ptrs flat_map] in Hnd.
  rewrite app_nil_r in Hnd.
  pose proof (start_unmap_run (Hst := sink_store (NodeSink := storage_sink j)) s t addr before (Area lo hi p (Used f)) after Hv Has Hin) as Hs.
  cbn [area_leaf area_start area_end area_ptr] in Hs. rewrite Hf in Hs.
  destruct Hs as (s1 & T & Es & HvT & HAT & HR & K). pose proof HvT as (_ & _ & HaoT).
  destruct (relabelled_can _ _ _ _ _ _ _ _ _ _ Hnd Hao HR Has HAT Hin HaoT Hc) as [HcT EF].
  destruct (can_delete_area T before lo hi p _ after addr lo HaoT HAT Hin ltac:(lia) HcT) as [Hcl EFl].
  exists s1, T. split; [done|]. split; [done|]. split; [done|]. split; [by apply K|].
  split; [by rewrite (kept_mem _ _ K)|]. split; [exact HAT|by rewrite EFl].
Qed.

(** Unmapping a segment, from start to end.  In a well-formed tree the
    unlocked segment at [addr] is found and locked; the task is then driven
    through any sequence of suspended runs that are enough for its page task,
    and returns what the page task returns.  The tree is then well formed, its
    areas are the original ones with the segment freed and joined with the gaps
    next to it, and the memory is as the page task leaves it. *)
Lemma segment_unmap_run (s : vma) (t : tree) (addr : Z) before lo hi p f after
    (pm : Z) (slices : list nat) task n m (j k : nat) :
  let self := UnmapTask.Build lo (UnmapMemTask.new lo ((hi - lo) / 4096)) in
  vma_temp_ok s t → can_delete t addr → address_space t = before ++ Area lo hi p (Used f) :: after →
  lo ≤ addr < hi → NodeFlags.locked f = false → free_room j (6 + k) s →
  UnmapMemTask_run pm (replicate (sum_list slices) false ++ [true]) (UnmapTask.unmap_mem_task self) (mem s) =
    Returns ((task, Ready n), m) →
  ∃ s1 s' t', start_unmap addr s = Returns (Ok self, s1) ∧
    drive_unmap pm slices self s1 = Returns ((UnmapTask.Build lo task, Ready n), s') ∧ vma_temp_ok s' t' ∧
    content <$> address_space t' = free_area addr (content <$> address_space t) ∧ free_room j k s' ∧ mem s' = m.
Proof.
  intros self Hv Hc Has Hin Hf Hr E.
  destruct (start_unmap_can s t addr before lo hi p f after j (6 + k) Hv Hc Has Hin Hf Hr)
    as (s1 & T & E1 & HvT & HcT & HrT & Hm & _ & EF).
  unfold UnmapMemTask_run in E. rewrite <-drive_run, <-Hm in E.
  destruct (drive_unmap_ready pm slices self s1 T task n m j k E HvT HcT HrT) as (s' & E2 & t' & H2 & H3 & H4).
  exists s1, s', t'. split; [done|]. split; [done|]. split; [done|]. split; [|done].
  by rewrite H3, <-EF.
Qed.

(** C5: a segment is unmapped from end to end, when the temporary node of the tree
    is enough to delete it ([can_delete], see [delete_correct]; without that, as
    after an earlier deletion that left the temporary node in the tree, the last
    step is undefined behaviour: [delete_keeps_temp_node]).  In a well-formed tree
    the unlocked segment at [addr] is found and locked.  Its task is then driven through any
    sequence of suspended runs that gives it a turn for each of the [n] pages of
    the segment: it completes, with at most four pages freed for each page; no
    page of the segment is mapped any more, every other page translates as before
    or not at all, and the areas of the tree are the original ones with the
    segment freed and joined with the gaps next to it. *)
Theorem segment_unmapped (s : vma) (t : tree) (addr : Z) before lo hi p f after
    (pm : Z) (slices : list nat) tables (n j k : nat) :
  let self := UnmapTask.Build lo (UnmapMemTask.new lo ((hi - lo) / 4096)) in
  vma_temp_ok s t → can_delete t addr → address_space t = before ++ Area lo hi p (Used f) :: after →
  lo ≤ addr < hi → NodeFlags.locked f = false → free_room j (6 + k) s →
  space_ok pm (mem s) tables → no_huge (ram (mem s)) tables → counts (4 * Z.of_nat n) (alloc (mem s)) →
  Z.of_nat n = (hi - lo) / 4096 → (0 < n ≤ sum_list slices)%nat →
  ∃ task freed s1 s' t', start_unmap addr s = Returns (Ok self, s1) ∧
    drive_unmap pm slices self s1 = Returns ((UnmapTask.Build lo task, Ready freed), s') ∧
    0 ≤ freed ≤ 4 * Z.of_nat n ∧
    (∀ i, 0 ≤ i < Z.of_nat n → user_walk (mem s') pm (lo + PAGE_SIZE * i) = None) ∧
    shrinks pm (ram (mem s)) (ram (mem s')) ∧ vma_temp_ok s' t' ∧
    content <$> address_space t' = free_area addr (content <$> address_space t) ∧ free_room j k s'.
Proof.
  intros self Hv Hc Has Hin Hf Hr Hk Hh Hroom Hn Hsl.
  assert (0 ≤ lo ∧ hi ≤ HIGHEST_USER_ADDRESS + 1) as [H0 Hhi].
  { pose proof Hv as (_ & _ & Hao). pose proof (areas_chain _ _ _ Hao) as Hch. fold (address_space t) in Hch. rewrite Has in Hch.
    split; [by eapply (chain_start _ _ _ (Area _ _ _ _))|by eapply (chain_end _ _ _ (Area _ _ _ _))]. }
  assert (HIGHEST_USER_ADDRESS + 1 < 2 ^ 64) as Hmax by done.
  pose proof (unmap_task_run pm tables n lo (mem s) (replicate (sum_list slices - n) false ++ [true]) Hk Hh) as E.
  apply wp_returns in E as ([task r] & m & E & freed & -> & _ & [Hg Hfr _ [_ _ Hsh]]);
    [|lia|done|done|unfold PAGE_SIZE; rewrite Hn; Z.div_mod_to_equations; lia].
  rewrite app_assoc, <-replicate_add, Hn in E. replace (n + (sum_list slices - n))%nat with (sum_list slices) in E by lia.
  destruct (segment_unmap_run s t addr before lo hi p f after pm slices task freed m j k Hv Hc Has Hin Hf Hr E)
    as (s1 & s' & t' & E1 & E2 & Hv' & Ha & Hr' & Hm).
  exists task, freed, s1, s', t'. by rewrite Hm.
Qed.

(** The segment of [demo_mapped], none of whose pages is mapped, over three runs. *)
Lemma demo_mapped_mem : mem demo_mapped = demo_sys.
Proof. vm_compute. reflexivity. Qed.
Lemma demo_no_huge : no_huge (ram demo_sys) demo_tables.
Proof. intros q a i _ _. reflexivity. Qed.
Lemma segment_unmapped_witness (self := UnmapTask.Build 0x10000 (UnmapMemTask.new 0x10000 ((0x14000 - 0x10000) / 4096))) :
  ∃ task freed s1 s' t', start_unmap 0x12000 demo_mapped = Returns (Ok self, s1) ∧
    drive_unmap 0x1000 [2; 1; 3]%nat self s1 = Returns ((UnmapTask.Build 0x10000 task, Ready freed), s') ∧
    0 ≤ freed ≤ 4 * Z.of_nat 4 ∧
    (∀ i, 0 ≤ i < Z.of_nat 4 → user_walk (mem s') 0x1000 (0x10000 + PAGE_SIZE * i) = None) ∧
    shrinks 0x1000 (ram (mem demo_mapped)) (ram (mem s')) ∧ vma_temp_ok s' t' ∧
    content <$> address_space t' = free_area 0x12000 (content <$> address_space demo_mapped_tree) ∧ free_room 80 4 s'.
Proof.
  apply (segment_unmapped demo_mapped demo_mapped_tree 0x12000
    [Area 0 0x10000 (Entry 0x1000 0) (Empty 0x10000)] 0x10000 0x14000 (Entry 0x1000 1) 3
    [Area 0x14000 (HIGHEST_USER_ADDRESS + 1) (Entry 0x1000 2) (Empty (HIGHEST_USER_ADDRESS + 1 - 0x14000))]
    0x1000 [2; 1; 3]%nat demo_tables 4 80 4);
    [apply demo_mapped_vma_ok|apply demo_mapped_can|reflexivity|lia|reflexivity|apply demo_mapped_room; lia|..];
    rewrite ?demo_mapped_mem; [exact demo_space_ok|exact demo_no_huge|unfold counts; split_and!; vm_compute; done|done|cbn; lia].
Defined.

(** The end of a mapping task: its segment is unlocked and freed. *)
Lemma unlock_and_free {A} (x : A) s t start before lo hi p f after j k :
  vma_temp_ok s t → can_delete t start → address_space t = before ++ Area lo hi p (Used f) :: after →
  lo ≤ start < hi → NodeFlags.locked f = true → free_room j (6 + k) s →
  ∃ s', (info ← get_leaf_containing start;
         l ← unwrap_leaf (leaf info);
         flags ← unwrap_flags l;
         rassert (NodeFlags.locked flags);;
         set_used_flags l (λ f, NodeFlags.set_locked f false);;
         delete_leaf start;;
         mret x) s = Returns (x, s') ∧ freed_at start j k t (mem s) s'.
Proof.
  intros Hv Hc Has Hin Hf Hr. pose proof Hv as (Hz & Hok & Hao).
  pose proof Hz as (_ & _ & Hnd & _). cbn [ctx_ptrs flat_map] in Hnd. rewrite app_nil_r in Hnd.
  match goal with |- ∃ s', ?m s = _ ∧ _ => assert (wp m (λ x' s', x' = x ∧ freed_at start j k t (mem s) s') s) as Hw end.
  2:{ apply wp_returns in Hw as (x' & s' & E & -> & H). by exists s'. }
  rewrite wp_bind. eapply (wp_find_area (Hsrc := sink_store (NodeSink := storage_sink j)) s t); [exact Hz|done|done|exact Has|done|]. intros c Hzc _ _ _ _.
  cbn [leaf]. pose proof Hzc as (_ & Hp & _). cbn in Hp. rewrite wp_bind. eapply wp_unwrap_leaf; [exact Hp|].
  rewrite wp_bind. unfold unwrap_flags, read_leaf. rewrite wp_bind, wp_bind. eapply wp_read_node; [exact Hp|].
  rewrite !wp_ret, wp_bind, wp_rassert. split; [done|]. rewrite wp_bind.
  eapply (wp_set_used_flags (Hst := sink_store (NodeSink := storage_sink j))); [exact Hv|exact Has|].
  intros s1 T HvT HAT HR K. pose proof HvT as (_ & _ & HaoT).
  destruct (relabelled_can _ _ _ _ _ _ _ _ _ _ Hnd Hao HR Has HAT Hin HaoT Hc) as [HcT EF].
  destruct (delete_run s1 T start j k HvT HcT) as (s' & t' & E' & Hv' & HA & _ & Hr' & _ & Hm); [by apply K|].
  rewrite wp_bind. unfold wp at 1. rewrite E', wp_ret. split; [done|]. exists t'.
  split; [done|]. split; [by rewrite HA|]. split; [done|]. by rewrite Hm, (kept_mem _ _ K).
Qed.

(** A run of a mapping task, given the run of its page task. *)
Lemma map_task_run_eq (s : vma) (pm : Z) answers self task r m :
  MapMemTask_run pm answers (MapTask.map_mem_task self) (mem s) = Returns ((task, r), m) →
  MapTask_run pm answers self s =
    match r with
    | Ready (Ok pages_allocated) =>
        (info ← get_leaf_containing (MapMemTask.start_address (MapTask.map_mem_task self));
         l ← unwrap_leaf (leaf info);
         flags ← unwrap_flags l;
         rassert (NodeFlags.locked flags);;
         set_used_flags l (λ f, NodeFlags.set_locked f false);;
         delete_leaf (MapMemTask.start_address (MapTask.map_mem_task self));;
         mret (MapTask.Build task, Ready (Ok pages_allocated))) (with_mem s m)
    | _ => Returns ((MapTask.Build task, r), with_mem s m)
    end.
Proof.
  intros E. pose proof (map_run_start _ _ _ _ _ _ _ E) as Est.
  unfold MapTask_run, mbind at 1, M_bind at 1. rewrite (in_mem_returns _ _ _ _ E). cbn zeta beta iota.
  cbn [MapTask.map_mem_task]. rewrite Est. by destruct r as [[n|e]|].
Qed.
Lemma run_map_task (s : vma) (t : tree) before lo hi p f after (pm : Z) answers self task n m (j k : nat) :
  let start := MapMemTask.start_address (MapTask.map_mem_task self) in
  vma_temp_ok s t → can_delete t start → address_space t = before ++ Area lo hi p (Used f) :: after →
  lo ≤ start < hi → NodeFlags.locked f = true → free_room j (6 + k) s →
  MapMemTask_run pm answers (MapTask.map_mem_task self) (mem s) = Returns ((task, Ready (Ok n)), m) →
  ∃ s', MapTask_run pm answers self s = Returns ((MapTask.Build task, Ready (Ok n)), s') ∧ freed_at start j k t m s'.
Proof.
  intros start Hv Hc Has Hin Hf Hr E. rewrite (map_task_run_eq _ _ _ _ _ _ _ E).
  by apply (unlock_and_free _ (with_mem s m) t start before lo hi p f after).
Qed.

(** C8: a run of a mapping task returns what the run of its page task returns (how
    that one runs is [map_task_correct] of UserSpace.v and
    [map_task_out_of_memory_diverges] of UserMap.v): the number of pages allocated,
    although the comment in the source says the number freed.  When the run is
    suspended, or there is no memory, nothing but the memory changes, whatever the
    tree is: the segment stays, and stays locked.  When all the pages are mapped, and
    the segment is recorded and locked, it is unlocked and then freed in the tree,
    which is again well formed: no record of the mapped pages is left.  The last
    needs the temporary node of the tree to be enough for the deletion
    ([can_delete]); if it is not, the deletion is undefined behaviour, as
    [delete_keeps_temp_node] shows. *)
Theorem MapTask_run_correct (s : vma) (pm : Z) answers self task r m :
  let start := MapMemTask.start_address (MapTask.map_mem_task self) in
  MapMemTask_run pm answers (MapTask.map_mem_task self) (mem s) = Returns ((task, r), m) →
  match r with
  | Ready (Ok _) => ∀ t before lo hi p f after (j k : nat),
      vma_temp_ok s t → can_delete t start → address_space t = before ++ Area lo hi p (Used f) :: after →
      lo ≤ start < hi → NodeFlags.locked f = true → free_room j (6 + k) s →
      ∃ s', MapTask_run pm answers self s = Returns ((MapTask.Build task, r), s') ∧ freed_at start j k t m s'
  | Ready (Err _) | Pending => MapTask_run pm answers self s = Returns ((MapTask.Build task, r), with_mem s m)
  end.
Proof.
  intros start E. destruct r as [[n|e]|]; [|by rewrite (map_task_run_eq _ _ _ _ _ _ _ E)..].
  intros t before lo hi p f after j k Hv Hc Has Hin Hf Hr. by eapply run_map_task.
Qed.

(** C9: mapping a segment from end to end, when there is room and the temporary node
    of the tree is enough to delete the segment again ([can_delete], as in
    [delete_correct]).  The segment is recorded and locked, its [n] pages are
    unmapped and [4 n] pages are free: a run of its task that is not suspended for
    [n] pages returns [Ok] with the number of pages taken from the allocator (the source's comment says that it is
    the number of pages freed), each page of the segment is mapped to a zeroed page of
    its own with the flags of the segment, every other page translates as before,
    and the segment is unlocked and freed in the tree. *)
Theorem MapTask_maps_segment (s : vma) (t : tree) before lo hi p f after (pm start : Z) (n : nat)
    (flags : SegmentFlags.t) answers tables (j k : nat) :
  vma_temp_ok s t → can_delete t start → address_space t = before ++ Area lo hi p (Used f) :: after →
  lo ≤ start < hi → NodeFlags.locked f = true → free_room j (6 + k) s →
  space_ok pm (mem s) tables → free_managed (alloc (mem s)) → (0 < n)%nat → 4 * Z.of_nat n ≤ free_pages (alloc (mem s)) →
  0 ≤ start → start + PAGE_SIZE * Z.of_nat n < 2 ^ 64 → Z.of_nat n ≤ 2 ^ 36 →
  (∀ i, 0 ≤ i < Z.of_nat n → user_walk (mem s) pm (start + PAGE_SIZE * i) = None) →
  ∃ task used s' m tables' frames,
    MapTask_run pm (replicate n false ++ answers) (MapTask.Build (MapMemTask.new start (Z.of_nat n) flags)) s =
      Returns ((MapTask.Build task, Ready (Ok used)), s') ∧
    used = free_pages (alloc (mem s)) - free_pages (alloc m) ∧
    pages_mapped pm start (child_entry (MapMemTask.segment_entry flags)) n (mem s) tables m tables' frames ∧
    freed_at start j k t m s'.
Proof.
  intros Hv Hc Has Hin Hf Hr Hk Hm Hn Hfree H0 Hend Hmax Hun.
  destruct (map_task_run (mem s) tables pm start n flags answers)
    as (task & used & m & tables' & frames & E & Hu & Hpm); [done..|].
  destruct (run_map_task s t before lo hi p f after pm (replicate n false ++ answers)
    (MapTask.Build (MapMemTask.new start (Z.of_nat n) flags)) task used m j k) as (s' & E' & H); [done..|].
  by exists task, used, s', m, tables', frames.
Qed.

(** The segment of [demo_mapped], locked. *)
Definition state_after {A} (o : outcome (A * vma)) (s : vma) : vma := match o with Returns (_, v) => v | _ => s end.
Lemma state_after_returns {A} (o : outcome (A * vma)) s a v : o = Returns (a, v) → state_after o s = v.
Proof. by intros ->. Qed.
Definition demo_locked : vma := state_after (start_unmap 0x12000 demo_mapped) demo_mapped.
Definition demo_after : list area :=
  [Area 0x14000 (HIGHEST_USER_ADDRESS + 1) (Entry 0x1000 2) (Empty (HIGHEST_USER_ADDRESS + 1 - 0x14000))].
Lemma demo_locked_ready : ∃ T, vma_temp_ok demo_locked T ∧ can_delete T 0x10000 ∧ free_room 80 10 demo_locked ∧
  address_space T = [Area 0 0x10000 (Entry 0x1000 0) (Empty 0x10000)] ++
    Area 0x10000 0x14000 (Entry 0x1000 1) (Used (NodeFlags.set_locked 3 true)) :: demo_after.
Proof.
  destruct (start_unmap_can demo_mapped demo_mapped_tree 0x12000 [Area 0 0x10000 (Entry 0x1000 0) (Empty 0x10000)]
    0x10000 0x14000 (Entry 0x1000 1) 3 demo_after 80 10) as (s1 & T & E & Hv & Hc & Hr & _ & HA & _);
    [apply demo_mapped_vma_ok|apply demo_mapped_can|reflexivity|lia|reflexivity|apply demo_mapped_room; lia|].
  apply (state_after_returns _ demo_mapped) in E. change (demo_locked = s1) in E. rewrite E.
  exists T. split; [exact Hv|]. split; [exact Hc|]. split; [exact Hr|exact HA].
Qed.
Definition demo_map_task : MapTask.t := MapTask.Build (MapMemTask.new 0x10000 4 (SegmentFlags.Build true true false)).
Lemma MapTask_run_correct_witness : ∃ T s' task m, vma_temp_ok demo_locked T ∧
  MapTask_run 0x20000 (replicate 4 false) demo_map_task demo_locked = Returns ((MapTask.Build task, Ready (Ok 7)), s') ∧
  freed_at 0x10000 80 4 T m s'.
Proof.
  destruct demo_locked_ready as (T & Hv & Hc & Hr & HA).
  destruct (MapMemTask_run 0x20000 (replicate 4 false) (MapTask.map_mem_task demo_map_task) (mem demo_locked))
    as [[[task r] m]| | |] eqn:E.
  2-4: exfalso; apply (f_equal (λ o, match o with Returns _ => true | _ => false end)) in E; by vm_compute in E.
  apply (f_equal (λ o, match o with Returns (_, r, _) => Some r | _ => None end)) in E as Er.
  vm_compute in Er. injection Er as <-.
  destruct (MapTask_run_correct demo_locked 0x20000 (replicate 4 false) demo_map_task task (Ready (Ok 7)) m E
    T [Area 0 0x10000 (Entry 0x1000 0) (Empty 0x10000)] 0x10000 0x14000
    (Entry 0x1000 1) (NodeFlags.set_locked 3 true) demo_after 80%nat 4%nat) as (s' & E' & H); [done|done|done|cbn; lia|reflexivity|done|].
  exists T, s', task, m. split; [exact Hv|]. split; [exact E'|exact H].
Defined.

(** In the memory of this system no page of the segment is mapped yet. *)
Lemma demo_locked_mem : mem demo_locked = demo_sys.
Proof. vm_compute. reflexivity. Qed.
Lemma MapTask_maps_segment_witness : ∃ T task used s' m tables' frames, vma_temp_ok demo_locked T ∧
  MapTask_run 0x1000 (replicate 3 false ++ [true])
    (MapTask.Build (MapMemTask.new 0x10000 (Z.of_nat 3) (SegmentFlags.Build true true false))) demo_locked =
    Returns ((MapTask.Build task, Ready (Ok used)), s') ∧
  used = free_pages (alloc (mem demo_locked)) - free_pages (alloc m) ∧
  pages_mapped 0x1000 0x10000 (child_entry (MapMemTask.segment_entry (SegmentFlags.Build true true false))) 3
    (mem demo_locked) demo_tables m tables' frames ∧
  freed_at 0x10000 80 4 T m s'.
Proof.
  destruct demo_locked_ready as (T & Hv & Hc & Hr & HA). exists T.
  destruct (MapTask_maps_segment demo_locked T [Area 0 0x10000 (Entry 0x1000 0) (Empty 0x10000)] 0x10000 0x14000
    (Entry 0x1000 1) (NodeFlags.set_locked 3 true) demo_after 0x1000 0x10000 3 (SegmentFlags.Build true true false)
    [true] demo_tables 80 4)
    as (task & used & s' & m & tables' & frames & H); [exact Hv|exact Hc|exact HA|lia|reflexivity|exact Hr|..].
  1-8: rewrite ?demo_locked_mem; first [exact demo_space_ok|by apply free_managed_all|lia|done].
  exists task, used, s', m, tables', frames. split; [exact Hv|exact H].
Defined.

(** ** Whole tasks, on a small system *)

(** An empty address space of a user process, over 32 pages of memory. *)
Definition demo_user_mem : sys :=
  Sys {| memory_bitmap := [0xF8; 0; 0; 0]; total_pages := 32; free_pages := 27; page_table := 0x1000 |}
    (λ _, 0).
Definition demo_user : vma :=
  match VMAAllocator_new 0 demo_user_mem with
  | Returns (Ok v, _) => v
  | _ => demo_vma demo_user_mem
  end.
Definition demo_segment : Segment.t := Segment.Build 0x10000 0x3000 (SegmentFlags.Build true true false).
(** Map the segment through the page table at [0x4000], never suspending. *)
Definition map_demo_segment : M vma (Poll (result Z MapMemError)) :=
  r ← start_try_map_at demo_segment;
  match r with
  | Ok task => '(_, p) ← MapTask_run 0x4000 (replicate 10 false) task; mret p
  | Err _ => panic
  end.
(** The contents of a tree, from its pointers. *)
Fixpoint read_tree (fuel : nat) (v : vma) (p : NodePtr) : option (list LeafNode) :=
  match fuel with
  | O => None
  | S fuel =>
      match node_at v p with
      | Some (Leaf l) => Some [l]
      | Some (Branch b) =>
          l ← read_tree fuel v (left b); r ← read_tree fuel v (right b); Some (l ++ r)
      | None => None
      end
  end.

(** a mapping task that completes leaves no record of its segment.  Mapping
    three pages at [0x10000] in an empty address space returns [Ok] with six
    allocated pages (three pages, three tables) and all three pages are mapped,
    but the tree is a single empty area again: [MapTask::run] deletes the
    segment it has just mapped. *)
Theorem map_task_forgets_segment :
  ∃ v, map_demo_segment demo_user = Returns (Ready (Ok 6), v) ∧
    read_tree 10 v (root v) = Some [Empty (HIGHEST_USER_ADDRESS + 1)] ∧
    Forall (λ a, is_Some (user_walk (mem v) 0x4000 a)) [0x10000; 0x11000; 0x12000].
Proof.
  assert (match map_demo_segment demo_user with
    | Returns (Ready (Ok n), v) => n = 6 ∧ read_tree 10 v (root v) = Some [Empty (HIGHEST_USER_ADDRESS + 1)] ∧
        forallb (λ a, bool_decide (is_Some (user_walk (mem v) 0x4000 a))) [0x10000; 0x11000; 0x12000] = true
    | _ => False
    end) as H by (vm_compute; done).
  destruct (map_demo_segment demo_user) as [[[[n|]|] v]| | |]; try done. destruct H as (-> & Ht & Hm).
  exists v. split; [done|]. split; [done|]. apply Forall_forall. intros a Ha.
  rewrite forallb_forall in Hm. by eapply bool_decide_eq_true, Hm, list_elem_of_In.
Qed.

(** the scratch node of a deletion stays in the tree.  After one segment is
    inserted in an empty address space and deleted, the root of the tree is the
    temporary node; when the same is done once more, the deletion overwrites the
    root while it is in use and frees the temporary node as if it were in a
    storage page: undefined behaviour. *)
Theorem delete_keeps_temp_node :
  let pair := (insert_node 0x10000 0x4000 3;; delete_leaf 0x10000) in
  (∃ v, pair demo_user = Returns ((), v) ∧ root v = TempNode) ∧
  (pair;; pair) demo_user = Undefined.
Proof.
  cbv zeta. split; [|vm_compute; reflexivity].
  assert (match (insert_node 0x10000 0x4000 3;; delete_leaf 0x10000) demo_user with
    | Returns (_, v) => root v = TempNode
    | _ => False
    end) as H by (vm_compute; done).
  destruct ((insert_node 0x10000 0x4000 3;; delete_leaf 0x10000) demo_user) as [[[] v]| | |]; [|done..]. eauto.
Qed.
