(* ===== verification/Terminal.v ===== *)
(** * The terminal (kernel/src/terminal.rs, kernel/src/core_graphics.rs)

    The PSF font, the framebuffer, the character buffers with their renderer and
    the escape-sequence state machine of [Terminal::write].  Characters are code
    points; the pixels of the framebuffer are a list of 32-bit words. *)
From S2P Require Import Prelude.

(** ** Fonts *)

Module psf.
Definition MAGIC : Z := 0x864AB572.
Definition VERSION : Z := 0x0.
Record Header : Type := {
  magic : Z; version : Z; header_size : Z; flags : Z; num_glyphs : Z; bytes_per_glyph : Z;
  height : Z; width : Z;
}.
Inductive HeaderParseError : Type := InvalidMagic | UnknownVersion.
(** [u32::from_le_bytes] of the four bytes at [i]. *)
Definition from_le_bytes (bytes : list Z) (i : nat) : Z :=
  foldr (λ b acc, b + 256 * acc) 0 (take 4 (drop i bytes)).
(** [Header::from_bytes], on 32 bytes. *)
Definition from_bytes (bytes : list Z) : result Header HeaderParseError :=
  if negb (from_le_bytes bytes 0 =? MAGIC) then Err InvalidMagic
  else if negb (from_le_bytes bytes 4 =? VERSION) then Err UnknownVersion
  else Ok {| magic := from_le_bytes bytes 0; version := from_le_bytes bytes 4;
             header_size := from_le_bytes bytes 8; flags := from_le_bytes bytes 12;
             num_glyphs := from_le_bytes bytes 16; bytes_per_glyph := from_le_bytes bytes 20;
             height := from_le_bytes bytes 24; width := from_le_bytes bytes 28 |}.
Record Font : Type := { header : Header; font_data : list Z }.
Inductive FontError : Type := InvalidMagicError | InvalidBytesPerGlyph.
(** [Font::new]: the slice of the header panics on a short file. *)
Definition Font_new (file : list Z) : outcome (result Font FontError) :=
  if (length file <? 32)%nat then Panics
  else match from_bytes (take 32 file) with
       | Err _ => Returns (Err InvalidMagicError)
       | Ok h =>
           if negb (bytes_per_glyph h =? 16) then Returns (Err InvalidBytesPerGlyph)
           else Returns (Ok {| header := h; font_data := drop 32 file |})
       end.
(** [Font::get_character]. *)
Definition get_character (self : Font) (character : Z) : list Z :=
  let character_usize :=
    if num_glyphs (header self) <=? character then 63 else character in
  let start_pos := bytes_per_glyph (header self) * character_usize in
  let end_pos := start_pos + bytes_per_glyph (header self) in
  if Z.of_nat (length (font_data self)) <=? end_pos then []
  else take (Z.to_nat (end_pos - start_pos)) (drop (Z.to_nat start_pos) (font_data self)).
End psf.

(** ** State *)

Record Framebuffer : Type := {
  buffer : list Z;
  fb_width : Z;
  fb_height : Z;
  scanline_length : Z;
}.

Definition VGA_COLORS : list Z :=
  [0x000000; 0xAA0000; 0x00AA00; 0xAAAA00; 0x0000AA; 0xAA00AA; 0x00AAAA; 0xAAAAAA].
Definition VGA_BRIGHT_COLORS : list Z :=
  [0x555555; 0xFF5555; 0x55FF55; 0xFFFF55; 0x5555FF; 0xFF55FF; 0x55FFFF; 0xFFFFFF].

Record ScreenChar : Type := { character : Z; char_foreground : Z; char_background : Z }.
#[export] Instance ScreenChar_eq_dec : EqDecision ScreenChar.
Proof. solve_decision. Defined.
Definition ScreenChar_default : ScreenChar :=
  {| character := 32; char_foreground := 0xFFFFFF; char_background := 0x000000 |}.

Inductive TerminalMode : Type :=
  | Text
  | Escape1
  | Escape2
  | FirstArgument (arg1 : Z)
  | FirstArgumentEnd (arg1 : Z)
  | SecondArgument (arg1 arg2 : Z)
  | SecondArgumentEnd (arg1 arg2 : Z)
  | ThirdArgument (arg1 arg2 arg3 : Z)
  | ThirdArgumentEnd (arg1 arg2 arg3 : Z)
  | FourthArgument (arg1 arg2 arg3 arg4 : Z)
  | FourthArgumentEnd (arg1 arg2 arg3 arg4 : Z)
  | FifthArgument (arg1 arg2 arg3 arg4 arg5 : Z).

Record TerminalState : Type := TState {
  mode : TerminalMode; cursor_x : Z; cursor_y : Z; foreground_color : Z; background_color : Z }.
Definition TerminalState_default : TerminalState := TState Text 0 0 0xFFFFFF 0x000000.

(** A terminal, with the global framebuffer it draws on. *)
Record terminal : Type := Terminal {
  font : psf.Font;
  width : Z;
  height : Z;
  front_buffer : list ScreenChar;
  back_buffer : list ScreenChar;
  current_state : TerminalState;
  FRAMEBUFFER : option Framebuffer;
}.
Definition set_front (l : list ScreenChar) (t : terminal) : terminal :=
  Terminal (font t) (width t) (height t) l (back_buffer t) (current_state t) (FRAMEBUFFER t).
Definition set_back (l : list ScreenChar) (t : terminal) : terminal :=
  Terminal (font t) (width t) (height t) (front_buffer t) l (current_state t) (FRAMEBUFFER t).
Definition set_state (st : TerminalState) (t : terminal) : terminal :=
  Terminal (font t) (width t) (height t) (front_buffer t) (back_buffer t) st (FRAMEBUFFER t).
Definition set_fb (fb : option Framebuffer) (t : terminal) : terminal :=
  Terminal (font t) (width t) (height t) (front_buffer t) (back_buffer t) (current_state t) fb.
Definition with_mode (m : TerminalMode) (st : TerminalState) : TerminalState :=
  TState m (cursor_x st) (cursor_y st) (foreground_color st) (background_color st).
Definition with_x (x : Z) (st : TerminalState) : TerminalState :=
  TState (mode st) x (cursor_y st) (foreground_color st) (background_color st).
Definition with_y (y : Z) (st : TerminalState) : TerminalState :=
  TState (mode st) (cursor_x st) y (foreground_color st) (background_color st).
Definition with_fg (c : Z) (st : TerminalState) : TerminalState :=
  TState (mode st) (cursor_x st) (cursor_y st) c (background_color st).
Definition with_bg (c : Z) (st : TerminalState) : TerminalState :=
  TState (mode st) (cursor_x st) (cursor_y st) (foreground_color st) c.
Definition upd_state (f : TerminalState → TerminalState) : M terminal () :=
  modify (λ t, set_state (f (current_state t)) t).
Definition set_mode (m : TerminalMode) : M terminal () := upd_state (with_mode m).

(** ** The framebuffer *)

(** [FRAMEBUFFER.lock().as_mut().unwrap()]. *)
Definition get_framebuffer : M terminal Framebuffer := t ← get; unwrap (FRAMEBUFFER t).
(** [Framebuffer::set]. *)
Definition Framebuffer_set (pos : Z * Z) (color : Z) : M terminal () :=
  fb ← get_framebuffer;
  row ← chk 32 (snd pos * scanline_length fb);
  i ← chk 32 (row + fst pos);
  rassert (i <? Z.of_nat (length (buffer fb)));;
  modify (set_fb (Some {| buffer := <[Z.to_nat i := color]> (buffer fb); fb_width := fb_width fb;
    fb_height := fb_height fb; scanline_length := scanline_length fb |})).
(** [Framebuffer::get]. *)
Definition Framebuffer_get (pos : Z * Z) : M terminal Z :=
  fb ← get_framebuffer;
  row ← chk 32 (snd pos * scanline_length fb);
  i ← chk 32 (row + fst pos);
  unwrap (buffer fb !! Z.to_nat i).
(** [Framebuffer::fill_box]. *)
Definition fill_box (start_pos dims : Z * Z) (color : Z) : M terminal () :=
  y_end ← chk 32 (snd start_pos + snd dims);
  for_each (λ y,
    x_end ← chk 32 (fst start_pos + fst dims);
    for_each (λ x, Framebuffer_set (x, y) color) (seqZ (fst start_pos) (x_end - fst start_pos)))
    (seqZ (snd start_pos) (y_end - snd start_pos)).
(** [Framebuffer::clear]. *)
Definition Framebuffer_clear : M terminal () :=
  fb ← get_framebuffer;
  modify (set_fb (Some {| buffer := replicate (length (buffer fb)) 0; fb_width := fb_width fb;
    fb_height := fb_height fb; scanline_length := scanline_length fb |})).

(** [Terminal::new]; [front_ok] and [back_ok] say whether the allocator can
    reserve the buffers. *)
Definition Terminal_new (fb : option Framebuffer) (font : psf.Font) (front_ok back_ok : bool) :
    outcome (result terminal ()) :=
  match fb with
  | None => Panics
  | Some framebuffer =>
      let h := psf.header font in
      if (psf.width h =? 0) || (psf.height h =? 0) then Panics
      else
        let width := trunc 16 (fb_width framebuffer / psf.width h) in
        let height := trunc 16 (fb_height framebuffer / psf.height h) in
        let buffer_len := width * height in
        let buffer := replicate (Z.to_nat buffer_len) ScreenChar_default in
        if front_ok && back_ok then
          Returns (Ok (Terminal font width height buffer buffer TerminalState_default fb))
        else Returns (Err ())
  end.

(** ** Rendering *)

(** One line of a glyph: the byte is shifted before each of the eight bits is
    taken. *)
Fixpoint draw_bits (bits : list Z) (line foreground background x y : Z) : M terminal () :=
  match bits with
  | [] => mret ()
  | bit :: bits =>
      let line := Z.shiftr line 1 in
      let mask := Z.land line 1 in
      let foreground' := mask * foreground in
      let background' := (1 - mask) * background in
      x7 ← chk 32 (x + (7 - bit));
      Framebuffer_set (x7, y) (Z.lor foreground' background');;
      draw_bits bits line foreground background x y
  end.
(** The body of the loop of [render]. *)
Definition render_char (i : Z) (screen_char : ScreenChar) : M terminal () :=
  t ← get;
  old_screen_char ← unwrap (back_buffer t !! Z.to_nat i);
  if decide (screen_char = old_screen_char) then mret ()
  else
    rassert (negb (width t =? 0));;
    let h := psf.header (font t) in
    let y_pos := trunc 32 (i / width t) in
    let x_pos := trunc 32 (i mod width t) in
    (if character screen_char =? 32 then
       x ← chk 32 (x_pos * psf.width h);
       y ← chk 32 (y_pos * psf.height h);
       fill_box (x, y) (psf.width h, psf.height h) (char_background screen_char)
     else
       let char_bitmap := psf.get_character (font t) (character screen_char) in
       for_each (λ line_i,
         line ← unwrap (char_bitmap !! Z.to_nat line_i);
         x ← chk 32 (x_pos * psf.width h);
         y ← chk 32 (y_pos * psf.height h);
         y ← chk 32 (y + line_i);
         draw_bits (seqZ 0 8) line (char_foreground screen_char) (char_background screen_char) x y)
         (seqZ 0 (psf.height h)));;
    modify (λ t, set_back (<[Z.to_nat i := screen_char]> (back_buffer t)) t).
Definition render : M terminal () :=
  get_framebuffer;;
  t ← get;
  for_each (λ '(i, c), render_char i c) (imap (λ i c, (Z.of_nat i, c)) (front_buffer t)).

(** [Terminal::reset]. *)
Definition reset : M terminal () :=
  Framebuffer_clear;;
  modify (λ t, set_back (replicate (length (back_buffer t)) ScreenChar_default)
    (set_front (replicate (length (front_buffer t)) ScreenChar_default)
      (set_state TerminalState_default t))).
Definition reset_attributes (st : TerminalState) : TerminalState :=
  with_fg 0xFFFFFF (with_bg 0x000000 st).
(** [copy_within(width.., 0)] and the [fill] of the last line. *)
Definition scroll (w : nat) (l : list ScreenChar) : list ScreenChar :=
  let moved := drop w l ++ drop (length l - w) l in
  take (length l - w) moved ++ replicate w ScreenChar_default.
(** [Terminal::new_line]. *)
Definition new_line : M terminal () :=
  t ← get;
  y ← chk 16 (cursor_y (current_state t) + 1);
  upd_state (with_y y);;
  (if height t <=? y then
     bottom ← chk 16 (height t - 1);
     upd_state (with_y bottom);;
     rassert (width t <=? Z.of_nat (length (front_buffer t)));;
     modify (λ t, set_front (scroll (Z.to_nat (width t)) (front_buffer t)) t)
   else mret ());;
  render.

(** ** Writing *)

Definition is_digit (c : Z) : bool := (48 <=? c) && (c <=? 57).
(** [arg * 10 + character as u32 - 48]. *)
Definition push_digit (arg c : Z) : M terminal Z :=
  a ← chk 32 (arg * 10); b ← chk 32 (a + c); chk 32 (b - 48).
(** A character in text mode. *)
Definition write_text (c : Z) : M terminal () :=
  if c =? 0x1B then set_mode Escape1
  else if c =? 10 then new_line;; upd_state (with_x 0)
  else if c =? 13 then upd_state (with_x 0)
  else if c =? 9 then
    t ← get;
    a ← chk 16 (cursor_x (current_state t) mod 8 + 1);
    x ← chk 16 (a * 8);
    upd_state (with_x x)
  else
    t ← get;
    let st := current_state t in
    row ← chk 16 (cursor_y st * width t);
    i ← chk 16 (row + cursor_x st);
    rassert (i <? Z.of_nat (length (front_buffer t)));;
    modify (set_front (<[Z.to_nat i := {| character := c; char_foreground := foreground_color st;
      char_background := background_color st |}]> (front_buffer t)));;
    x ← chk 16 (cursor_x st + 1);
    upd_state (with_x x);;
    if width t <=? x then
      x ← chk 16 (x - 1);
      upd_state (with_x x);;
      new_line;;
      upd_state (with_x 0)
    else mret ().
(** The colour of [ESC [ 38 ; 5 ; arg3 m]; [None] for no colour. *)
Definition palette (arg3 : Z) : M terminal (option Z) :=
  if arg3 <=? 7 then c ← unwrap (VGA_COLORS !! Z.to_nat arg3); mret (Some c)
  else if arg3 <=? 15 then c ← unwrap (VGA_BRIGHT_COLORS !! Z.to_nat (arg3 - 8)); mret (Some c)
  else if arg3 <=? 231 then
    let cube_index := trunc 8 (arg3 - 16) in
    let r_index := cube_index / 36 in
    let g_index := (cube_index mod 36) / 6 in
    let b_index := cube_index mod 6 in
    let scale_factor := 255 / 5 in
    let r := Z.shiftl (r_index * scale_factor) 16 in
    let g := Z.shiftl (g_index * scale_factor) 8 in
    let b := b_index * scale_factor in
    mret (Some (Z.lor (Z.lor r g) b))
  else if arg3 <=? 255 then
    a ← chk 32 (0xFF * arg3);
    n ← chk 32 (a - 232);
    let grey := n / 23 in
    let r := trunc 32 (Z.shiftl grey 16) in
    let g := trunc 32 (Z.shiftl grey 8) in
    let b := grey in
    mret (Some (Z.lor (Z.lor r g) b))
  else mret None.
(** The colour that [arg1] selects; the match on it is unreachable otherwise. *)
Definition set_selected (arg1 color : Z) : M terminal () :=
  if arg1 =? 38 then upd_state (with_fg color)
  else if arg1 =? 48 then upd_state (with_bg color)
  else panic.
(** A character inside an escape sequence. *)
Definition write_escape (m : TerminalMode) (c : Z) : M terminal () :=
  let digit := is_digit c in
  let semicolon := c =? 59 in
  let final_m := c =? 109 in
  match m with
  | Text => mret ()
  | Escape1 => set_mode (if c =? 91 then Escape2 else Text)
  | Escape2 =>
      if digit then set_mode (FirstArgument (c - 48))
      else if semicolon then set_mode (FirstArgumentEnd 0)
      else if final_m then upd_state reset_attributes;; set_mode Text
      else set_mode Text
  | FirstArgument arg =>
      if digit then a ← push_digit arg c; set_mode (FirstArgument a)
      else if semicolon then set_mode (FirstArgumentEnd arg)
      else if final_m then
        (if arg =? 0 then upd_state reset_attributes
         else if (30 <=? arg) && (arg <=? 37) then
           c ← unwrap (VGA_COLORS !! Z.to_nat (arg - 30)); upd_state (with_fg c)
         else if (40 <=? arg) && (arg <=? 47) then
           c ← unwrap (VGA_COLORS !! Z.to_nat (arg - 40)); upd_state (with_bg c)
         else mret ());;
        set_mode Text
      else set_mode Text
  | FirstArgumentEnd arg =>
      if digit then set_mode (SecondArgument arg (c - 48))
      else if semicolon then set_mode (SecondArgumentEnd arg 0)
      else set_mode Text
  | SecondArgument arg1 arg2 =>
      if digit then a ← push_digit arg2 c; set_mode (SecondArgument arg1 a)
      else if semicolon then set_mode (SecondArgumentEnd arg1 arg2)
      else set_mode Text
  | SecondArgumentEnd arg1 arg2 =>
      if digit then set_mode (ThirdArgument arg1 arg2 (c - 48))
      else if semicolon then set_mode (ThirdArgumentEnd arg1 arg2 0)
      else set_mode Text
  | ThirdArgument arg1 arg2 arg3 =>
      if digit then a ← push_digit arg3 c; set_mode (ThirdArgument arg1 arg2 a)
      else if semicolon then set_mode (ThirdArgumentEnd arg1 arg2 arg3)
      else if final_m then
        if (negb (arg1 =? 38) && negb (arg1 =? 48)) || negb (arg2 =? 5) then set_mode Text
        else
          color ← palette arg3;
          match color with
          | Some color => set_selected arg1 color;; set_mode Text
          | None => set_mode Text
          end
      else set_mode Text
  | ThirdArgumentEnd arg1 arg2 arg3 =>
      if digit then set_mode (FourthArgument arg1 arg2 arg3 (c - 48))
      else if semicolon then set_mode (FourthArgumentEnd arg1 arg2 arg3 0)
      else set_mode Text
  | FourthArgument arg1 arg2 arg3 arg4 =>
      if digit then a ← push_digit arg4 c; set_mode (FourthArgument arg1 arg2 arg3 a)
      else if semicolon then set_mode (FourthArgumentEnd arg1 arg2 arg3 arg4)
      else set_mode Text
  | FourthArgumentEnd arg1 arg2 arg3 arg4 =>
      if digit then set_mode (FifthArgument arg1 arg2 arg3 arg4 (c - 48))
      else set_mode Text
  | FifthArgument arg1 arg2 arg3 arg4 arg5 =>
      if digit then a ← push_digit arg5 c; set_mode (FifthArgument arg1 arg2 arg3 arg4 a)
      else if final_m then
        if (negb (arg1 =? 38) && negb (arg1 =? 48)) || negb (arg2 =? 2) then set_mode Text
        else
          let r := Z.shiftl (Z.land arg3 0xFF) 16 in
          let g := Z.shiftl (Z.land arg4 0xFF) 8 in
          let b := Z.land arg5 0xFF in
          set_selected arg1 (Z.lor (Z.lor r g) b);;
          set_mode Text
      else set_mode Text
  end.
Definition write_char (c : Z) : M terminal () :=
  t ← get;
  match mode (current_state t) with
  | Text => write_text c
  | m => write_escape m c
  end.
(** [Terminal::write]. *)
Definition write (text : list Z) : M terminal () := for_each write_char text.

(** ** Drawing *)

Definition pixel (fb : Framebuffer) (x y : Z) : option Z :=
  buffer fb !! Z.to_nat (y * scanline_length fb + x).
(** Room for [X] by [Y] pixels. *)
Definition room (t : terminal) (X Y : Z) : Prop :=
  ∃ fb, FRAMEBUFFER t = Some fb ∧ X ≤ scanline_length fb ∧
    Y * scanline_length fb ≤ Z.of_nat (length (buffer fb)) < 2 ^ 32.
(** Drawing the pixels in [P] with the colours [color], and nothing else. *)
Definition drawn (P : Z → Z → Prop) (color : Z → Z → Z) (t t' : terminal) : Prop :=
  ∃ fb fb', FRAMEBUFFER t = Some fb ∧ t' = set_fb (Some fb') t ∧
    scanline_length fb' = scanline_length fb ∧ length (buffer fb') = length (buffer fb) ∧
    ∀ x y, 0 ≤ x < scanline_length fb → 0 ≤ y →
      (P x y → pixel fb' x y = Some (color x y)) ∧ (¬ P x y → pixel fb' x y = pixel fb x y).

Lemma drawn_refl P color t : is_Some (FRAMEBUFFER t) → (∀ x y, ¬ P x y) → drawn P color t t.
Proof.
  intros [fb Hfb] HP. exists fb, fb. split; [done|]. split; [by destruct t; cbn in *; subst|].
  split; [done|]. split; [done|]. intros x y _ _. split; [by intros ?%HP|done].
Qed.
Lemma drawn_trans P1 P2 P color t1 t2 t3 :
  (∀ x y, Decision (P1 x y)) → (∀ x y, Decision (P2 x y)) →
  drawn P1 color t1 t2 → drawn P2 color t2 t3 → (∀ x y, P x y ↔ P1 x y ∨ P2 x y) → drawn P color t1 t3.
Proof.
  intros D1 D2 (fb & fb1 & H1 & -> & Hs1 & Hl1 & Hp1) (fb1' & fb2 & [= <-] & -> & Hs2 & Hl2 & Hp2) HP.
  exists fb, fb2. split; [done|]. split; [done|]. split; [congruence|]. split; [congruence|].
  intros x y Hx Hy. destruct (Hp1 x y Hx Hy) as [A1 B1]. destruct (Hp2 x y) as [A2 B2]; [congruence|done|].
  rewrite HP. destruct (D2 x y), (D1 x y); split; intros H; try tauto; rewrite ?B2, ?B1 by tauto; auto.
Qed.
Lemma drawn_ext P P' color color' t t' : drawn P color t t' → (∀ x y, P x y ↔ P' x y) →
  (∀ x y, P x y → color x y = color' x y) → drawn P' color' t t'.
Proof.
  intros (fb & fb' & H1 & H2 & H3 & H4 & H5) HP Hc. exists fb, fb'. split_and!; try done.
  intros x y Hx Hy. destruct (H5 x y Hx Hy) as [A B]. split; rewrite <-HP; [|done].
  intros H. rewrite A by done. by rewrite Hc.
Qed.
Lemma drawn_room P color t t' X Y : drawn P color t t' → room t X Y → room t' X Y.
Proof.
  intros (fb & fb' & H1 & -> & H3 & H4 & _) (fb0 & E & HX & HY). rewrite H1 in E. injection E as <-.
  exists fb'. split; [done|]. by rewrite H3, H4.
Qed.

Lemma wp_Framebuffer_set t X Y x y color (Q : () → terminal → Prop) :
  room t X Y → 0 ≤ x < X → 0 ≤ y < Y →
  (∀ t', drawn (λ x' y', x' = x ∧ y' = y) (λ _ _, color) t t' → Q () t') →
  wp (Framebuffer_set (x, y) color) Q t.
Proof.
  intros (fb & Hfb & HX & HY) Hx Hy HQ. unfold Framebuffer_set, get_framebuffer. cbn [fst snd].
  assert (0 ≤ y * scanline_length fb ∧ y * scanline_length fb + x < Z.of_nat (length (buffer fb))) as [H0 H1] by nia.
  rewrite wp_bind, wp_bind, wp_get, wp_unwrap. exists fb. split; [done|].
  rewrite wp_bind, wp_chk. split; [lia|]. rewrite wp_bind, wp_chk. split; [lia|].
  rewrite wp_bind, wp_rassert. split; [by apply Z.ltb_lt|]. rewrite wp_modify. apply HQ.
  eexists fb, _. split; [done|]. split; [done|]. split; [done|]. split; [apply length_insert|].
  intros x' y' Hx' Hy'. unfold pixel. cbn [buffer scanline_length]. split.
  - intros [-> ->]. rewrite list_lookup_insert_eq; [done|lia].
  - intros Hne. rewrite list_lookup_insert_ne; [done|]. intros E. apply Hne.
    apply Z2Nat.inj in E; [|lia|nia]. assert (y = y') as <- by nia. lia.
Qed.

(** A rectangle with the corner [x0], [y0]. *)
Definition in_box (x0 y0 w h x y : Z) : Prop := x0 ≤ x < x0 + w ∧ y0 ≤ y < y0 + h.
#[export] Instance in_box_dec x0 y0 w h x y : Decision (in_box x0 y0 w h x y).
Proof. unfold in_box. apply _. Defined.
(** Drawing a rectangle line by line: the loop over the lines. *)
Lemma wp_draw_lines t X Y x0 y0 w h color (f : Z → M terminal ()) (Q : () → terminal → Prop) :
  room t X Y → 0 ≤ h →
  (∀ k t', room t' X Y → font t' = font t → 0 ≤ k < h →
     wp (f k) (λ _ t'', drawn (in_box x0 (y0 + k) w 1) color t' t'') t') →
  (∀ t', drawn (in_box x0 y0 w h) color t t' → Q () t') →
  wp (for_each f (seqZ 0 h)) Q t.
Proof.
  intros Hr Hh Hf HQ.
  apply (wp_for_each_seqZ _ (λ k t', drawn (in_box x0 y0 w k) color t t')); [done| | |].
  - apply drawn_refl; [destruct Hr as (fb & -> & _); by eexists|]. unfold in_box. lia.
  - intros k t' Hk Hd. eapply wp_mono.
    + apply Hf; [by eapply drawn_room| |lia]. by destruct Hd as (? & ? & _ & -> & _).
    + intros ? t'' Hd'. eapply drawn_trans; [..|exact Hd|exact Hd'|]; [apply _|apply _|].
      intros x y. unfold in_box. lia.
  - done.
Qed.
Lemma wp_fill_box t X Y x0 y0 w h color (Q : () → terminal → Prop) :
  room t X Y → 0 ≤ x0 → 0 ≤ y0 → 0 ≤ w → 0 ≤ h → x0 + w ≤ X → y0 + h ≤ Y → X < 2 ^ 32 → Y < 2 ^ 32 →
  (∀ t', drawn (in_box x0 y0 w h) (λ _ _, color) t t' → Q () t') →
  wp (fill_box (x0, y0) (w, h) color) Q t.
Proof.
  intros Hr Hx Hy Hw Hh HX HY HX32 HY32 HQ. unfold fill_box. cbn [fst snd].
  rewrite wp_bind, wp_chk. split; [lia|]. rewrite Z.add_simpl_l.
  apply (wp_for_each_seqZ _ (λ k t', drawn (in_box x0 y0 w (k - y0)) (λ _ _, color) t t')); [done| | |].
  - apply drawn_refl; [destruct Hr as (fb & -> & _); by eexists|]. unfold in_box. lia.
  - intros y t' Hk Hd. rewrite wp_bind, wp_chk. split; [lia|]. rewrite Z.add_simpl_l.
    apply (wp_for_each_seqZ _ (λ k t'', drawn (in_box x0 y (k - x0) 1) (λ _ _, color) t' t'')); [done| | |].
    + apply drawn_refl; [destruct Hd as (? & ? & _ & -> & _); by eexists|]. unfold in_box. lia.
    + intros x t2 Hx2 Hd2. eapply (wp_Framebuffer_set _ X Y); [|lia|lia|].
      { eapply drawn_room; [exact Hd2|]. by eapply drawn_room. }
      intros t3 Hd3. eapply drawn_trans; [..|exact Hd2|exact Hd3|]; [apply _|apply _|].
      intros x' y'. unfold in_box. lia.
    + intros t2 Hd2. eapply drawn_trans; [..|exact Hd|exact Hd2|]; [apply _|apply _|].
      intros x' y'. unfold in_box. lia.
  - intros t' Hd. apply HQ. by rewrite Z.add_simpl_l in Hd.
Qed.

(** The colour of the pixel at [dx], [dy] in a cell: a blank cell is background,
    a glyph shows bit [8 - dx] of its line (so the leftmost column shows none of
    its bits). *)
Definition cell_color (fn : psf.Font) (sc : ScreenChar) (dx dy : Z) : Z :=
  if character sc =? 32 then char_background sc
  else if Z.testbit (default 0 (psf.get_character fn (character sc) !! Z.to_nat dy)) (8 - dx)
       then char_foreground sc else char_background sc.

Lemma land_1_testbit l : Z.land l 1 = Z.b2z (Z.testbit l 0).
Proof.
  change 1 with (Z.ones 1) at 1. rewrite Z.land_ones by lia. rewrite Z.bit0_odd.
  rewrite Zmod_odd. by destruct (Z.odd l).
Qed.
Lemma wp_draw_bits t X Y x y line0 fg bg n b (Q : () → terminal → Prop) :
  room t X Y → 0 ≤ x → x + 8 ≤ X → X < 2 ^ 32 → 0 ≤ y < Y → 0 ≤ b → b + Z.of_nat n = 8 →
  (∀ t', drawn (in_box x y (8 - b) 1)
     (λ x' _, if Z.testbit line0 (8 - (x' - x)) then fg else bg) t t' → Q () t') →
  wp (draw_bits (seqZ b (Z.of_nat n)) (Z.shiftr line0 b) fg bg x y) Q t.
Proof.
  revert t b Q. induction n as [|n IH]; intros t b Q Hr Hx HX HX32 Hy Hb Hn HQ.
  { rewrite seqZ_nil by lia. cbn [draw_bits]. rewrite wp_ret. apply HQ, drawn_refl; [destruct Hr as (fb & -> & _); by eexists|].
    unfold in_box. lia. }
  rewrite seqZ_cons by lia. cbn [draw_bits]. rewrite wp_bind, wp_chk. split; [lia|]. rewrite wp_bind.
  eapply (wp_Framebuffer_set _ X Y); [done|lia|lia|]. intros t1 Hd1.
  rewrite Z.shiftr_shiftr by lia. replace (Z.pred (Z.of_nat (S n))) with (Z.of_nat n) by lia.
  replace (Z.succ b) with (b + 1) by lia.
  apply IH; try lia; [by eapply drawn_room|]. intros t2 Hd2. apply HQ.
  eapply drawn_trans; [..|eapply drawn_ext; [exact Hd1|done|]|exact Hd2|]; [apply _|apply _| |].
  - intros x' y' [-> ->]. cbn beta. rewrite land_1_testbit, !Z.shiftr_spec by lia.
    replace (8 - (x + (7 - b) - x)) with (0 + 1 + b) by lia.
    destruct (Z.testbit line0 (0 + 1 + b)); cbn [Z.b2z]; [by rewrite Z.mul_1_l, Z.sub_diag, Z.lor_0_r|].
    by rewrite Z.mul_0_l, Z.sub_0_r, Z.mul_1_l.
  - intros x' y'. unfold in_box. lia.
Qed.

(** A terminal whose framebuffer has room for its cells, in a font of 8-pixel
    columns. *)
Record geometry (t : terminal) : Prop := {
  geo_font : psf.width (psf.header (font t)) = 8;
  geo_width : 0 < width t < 2 ^ 16;
  geo_height : 0 < height t < 2 ^ 16;
  geo_glyph : 0 < psf.height (psf.header (font t)) ≤ 256;
  geo_front : length (front_buffer t) = Z.to_nat (width t * height t);
  geo_back : length (back_buffer t) = Z.to_nat (width t * height t);
  geo_room : room t (width t * 8) (height t * psf.height (psf.header (font t)));
}.
(** The glyph of the character has all its lines. *)
Definition drawable (fn : psf.Font) (c : Z) : Prop :=
  c = 32 ∨ psf.height (psf.header fn) ≤ Z.of_nat (length (psf.get_character fn c)).
(** The framebuffer shows the cells [l]. *)
Definition shows (t : terminal) (l : list ScreenChar) : Prop :=
  ∃ fb, FRAMEBUFFER t = Some fb ∧ ∀ i sc, l !! i = Some sc → ∀ dx dy,
    0 ≤ dx < 8 → 0 ≤ dy < psf.height (psf.header (font t)) →
    pixel fb (Z.of_nat i mod width t * 8 + dx)
      (Z.of_nat i / width t * psf.height (psf.header (font t)) + dy) = Some (cell_color (font t) sc dx dy).

(** Drawing a cell. *)
Lemma wp_draw_cell t i sc (Q : () → terminal → Prop) :
  let h := psf.height (psf.header (font t)) in
  let x0 := i mod width t * 8 in let y0 := i / width t * h in
  geometry t → 0 ≤ i < width t * height t → drawable (font t) (character sc) →
  (∀ t', drawn (in_box x0 y0 8 h) (λ x y, cell_color (font t) sc (x - x0) (y - y0)) t t' → Q () t') →
  wp (if character sc =? 32 then
       x ← chk 32 (trunc 32 (i mod width t) * psf.width (psf.header (font t)));
       y ← chk 32 (trunc 32 (i / width t) * h);
       fill_box (x, y) (psf.width (psf.header (font t)), h) (char_background sc)
     else
       for_each (λ line_i,
         line ← unwrap (psf.get_character (font t) (character sc) !! Z.to_nat line_i);
         x ← chk 32 (trunc 32 (i mod width t) * psf.width (psf.header (font t)));
         y ← chk 32 (trunc 32 (i / width t) * h);
         y ← chk 32 (y + line_i);
         draw_bits (seqZ 0 8) line (char_foreground sc) (char_background sc) x y)
         (seqZ 0 h)) Q t.
Proof.
  intros h x0 y0 [Gw W H G _ _ R] Hi Hdr HQ. rewrite Gw. fold h in R, G.
  assert (0 ≤ i mod width t < width t) as Hx by (apply Z.mod_pos_bound; lia).
  assert (0 ≤ i / width t < height t) as Hy by (split; [apply Z.div_pos; lia|apply Z.div_lt_upper_bound; lia]).
  assert (width t * 8 < 2 ^ 32 ∧ height t * h < 2 ^ 32 ∧ 0 ≤ y0 ∧ y0 + h ≤ height t * h ∧
    0 ≤ x0 ∧ x0 + 8 ≤ width t * 8) as (B1 & B2 & B3 & B4 & B5 & B6).
  { unfold x0, y0. change (2 ^ 16) with 65536 in *. change (2 ^ 32) with 4294967296. nia. }
  assert (trunc 32 (i mod width t) = i mod width t ∧ trunc 32 (i / width t) = i / width t) as [-> ->].
  { unfold trunc. split; apply Z.mod_small; lia. }
  fold x0 y0. destruct (Z.eqb_spec (character sc) 32) as [E|E].
  - rewrite wp_bind, wp_chk. split; [lia|]. rewrite wp_bind, wp_chk. split; [lia|].
    apply (wp_fill_box t (width t * 8) (height t * h)); try done; try lia.
    intros t' Hd. apply HQ. eapply drawn_ext; [exact Hd|done|]. intros x y _. unfold cell_color. by rewrite E.
  - destruct Hdr as [|Hdr]; [done|]. fold h in Hdr.
    apply (wp_draw_lines t (width t * 8) (height t * h) x0 y0 8 h
      (λ x y, cell_color (font t) sc (x - x0) (y - y0))); [done|lia| |done].
    intros k t' Hr' Hf Hk. rewrite wp_bind, wp_unwrap.
    destruct (lookup_lt_is_Some_2 (psf.get_character (font t) (character sc)) (Z.to_nat k)) as [line Hl]; [lia|].
    exists line. split; [done|]. rewrite wp_bind, wp_chk. split; [lia|]. rewrite wp_bind, wp_chk. split; [lia|].
    rewrite wp_bind, wp_chk. split; [lia|].
    replace line with (Z.shiftr line 0) by apply Z.shiftr_0_r.
    apply (wp_draw_bits t' (width t * 8) (height t * h) x0 (y0 + k) line _ _ 8 0); try done; try lia.
    intros t2 Hd2. eapply drawn_ext; [exact Hd2|done|].
    intros x y Hin. unfold in_box in Hin. unfold cell_color. rewrite (proj2 (Z.eqb_neq _ _)) by done.
    replace (y - y0) with k by lia. by rewrite Hl.
Qed.

Lemma geometry_drawn P color t t' l : drawn P color t t' → geometry t → length l = length (back_buffer t) →
  geometry (set_back l t').
Proof.
  intros Hd [] Hl. pose proof (drawn_room _ _ _ _ _ _ Hd geo_room0) as Hr.
  destruct Hd as (fb & fb' & H1 & -> & _). split; try done. cbn. by rewrite Hl.
Qed.
(** Cells do not overlap. *)
Lemma cells_disjoint w h i j dx dy :
  0 < w → 0 < h → 0 ≤ i → 0 ≤ j → 0 ≤ dx < 8 → 0 ≤ dy < h →
  in_box (i mod w * 8) (i / w * h) 8 h (j mod w * 8 + dx) (j / w * h + dy) → i = j.
Proof.
  unfold in_box. intros Hw Hh Hi Hj Hx Hy [H1 H2].
  assert (i mod w = j mod w) as E1 by lia.
  assert (i / w = j / w) as E2 by nia.
  rewrite (Z.div_mod i w), (Z.div_mod j w) by lia. congruence.
Qed.
Lemma wp_render_char t i sc (Q : () → terminal → Prop) :
  geometry t → (i < length (back_buffer t))%nat → drawable (font t) (character sc) →
  shows t (back_buffer t) →
  (∀ t', (∃ fb, t' = set_back (<[i := sc]> (back_buffer t)) (set_fb fb t)) → geometry t' →
     shows t' (back_buffer t') → Q () t') →
  wp (render_char (Z.of_nat i) sc) Q t.
Proof.
  intros Hg Hi Hdr Hs HQ. pose proof Hg as Hg'. destruct Hg' as [Gw W H G _ B R].
  unfold render_char. rewrite wp_bind, wp_get, wp_bind, wp_unwrap, Nat2Z.id.
  destruct (lookup_lt_is_Some_2 (back_buffer t) i) as [old Hold]; [done|]. exists old. split; [done|].
  case_decide as E.
  { rewrite wp_ret. destruct Hs as (fb & Hfb & Hs). apply HQ; [|done|by exists fb].
    exists (Some fb). rewrite list_insert_id by congruence. by destruct t; cbn in *; subst. }
  assert (Z.of_nat i < width t * height t) as Hi' by (rewrite B in Hi; lia).
  rewrite wp_bind, wp_rassert. split; [apply negb_true_iff, Z.eqb_neq; lia|]. rewrite wp_bind.
  apply wp_draw_cell; [done|lia|done|]. intros t1 Hd. rewrite wp_modify.
  pose proof (geometry_drawn _ _ _ _ (<[i := sc]> (back_buffer t)) Hd Hg (length_insert _ _ _)) as Hg1.
  destruct Hs as (fb & Hfb & Hs).
  destruct Hd as (fb0 & fb1 & Hfb0 & -> & Hsc & _ & Hpx). rewrite Hfb in Hfb0. injection Hfb0 as <-.
  cbn [back_buffer set_fb] in *. apply HQ; [by eexists|done|].
  exists fb1. split; [done|]. cbn [back_buffer set_back set_fb width font] in *.
  intros j scj Hj dx dy Hdx Hdy. destruct R as (fb' & Hfb' & Hscan & Hlen). rewrite Hfb in Hfb'. injection Hfb' as <-.
  pose proof (Z.mod_pos_bound (Z.of_nat j) (width t) ltac:(lia)).
  pose proof (Z.div_pos (Z.of_nat j) (width t) ltac:(lia) ltac:(lia)).
  assert (0 ≤ Z.of_nat j mod width t * 8 + dx < scanline_length fb) as Hxb by nia.
  assert (0 ≤ Z.of_nat j / width t * psf.height (psf.header (font t)) + dy) as Hyb by nia.
  destruct (Hpx _ _ Hxb Hyb) as [Hin Hout].
  destruct (decide (j = i)) as [->|Hne].
  - rewrite list_lookup_insert_eq in Hj by done. injection Hj as <-. rewrite Hin by (unfold in_box; lia).
    f_equal. f_equal; lia.
  - rewrite list_lookup_insert_ne in Hj by done. rewrite Hout; [by apply Hs|].
    intros Hbox. apply cells_disjoint in Hbox; lia.
Qed.

(** A terminal in a consistent state: what was drawn last is on the screen, and
    everything in the front buffer can be drawn. *)
Record term_ok (t : terminal) : Prop := {
  term_geometry : geometry t;
  term_shows : shows t (back_buffer t);
  term_drawable : Forall (λ sc, drawable (font t) (character sc)) (front_buffer t);
}.
Lemma wp_render t (Q : () → terminal → Prop) :
  term_ok t →
  (∀ t', (∃ fb, t' = set_back (front_buffer t) (set_fb fb t)) → term_ok t' → Q () t') →
  wp render Q t.
Proof.
  intros [Hg Hs Hd] HQ. unfold render, get_framebuffer.
  rewrite wp_bind, wp_bind, wp_get, wp_unwrap. destruct (geo_room t Hg) as (fb & Hfb & _).
  exists fb. split; [done|]. rewrite wp_bind, wp_get.
  apply (wp_for_each _ (λ k t', (∃ fb, t' = set_back (take k (front_buffer t) ++ drop k (back_buffer t))
     (set_fb fb t)) ∧ geometry t' ∧ shows t' (back_buffer t'))).
  - split; [exists (Some fb); by destruct t; cbn in *; subst|done].
  - intros k [i sc] t' Hk ((fb' & ->) & Hg' & Hs').
    rewrite list_lookup_imap in Hk. destruct (front_buffer t !! k) as [sc'|] eqn:Hsc; [|done].
    injection Hk as <- <-. pose proof (lookup_lt_Some _ _ _ Hsc) as Hlt.
    assert (length (front_buffer t) = length (back_buffer t)) as Hlen by (destruct Hg; congruence).
    apply wp_render_char; [done| | |done|].
    + cbn. rewrite length_app, length_take, length_drop. lia.
    + cbn. by apply (Forall_lookup_1 _ _ _ _ Hd Hsc).
    + intros t'' (fb'' & ->) Hg'' Hs''. split; [|done]. exists fb''.
      assert (<[k := sc']> (take k (front_buffer t) ++ drop k (back_buffer t)) =
        take (S k) (front_buffer t) ++ drop (S k) (back_buffer t)) as E.
      { rewrite insert_app_r_alt by (rewrite length_take; lia). rewrite length_take_le by lia.
        rewrite Nat.sub_diag. rewrite (take_S_r _ _ sc') by done. rewrite <-app_assoc. f_equal.
        destruct (drop k (back_buffer t)) as [|x l] eqn:Ed.
        { apply (f_equal length) in Ed. rewrite length_drop in Ed. cbn in Ed. lia. }
        cbn. f_equal. replace (S k) with (k + 1)%nat by lia. by rewrite <-drop_drop, Ed. }
      rewrite <-E. done.
  - intros t' ((fb' & ->) & Hg' & Hs').
    assert (length (front_buffer t) = length (back_buffer t)) as Hlen by (destruct Hg; congruence).
    rewrite length_imap, take_ge, drop_ge, app_nil_r in * by lia. apply HQ; [by eexists|]. by split.
Qed.

(** C19: rendering.  On a consistent terminal [render] returns; afterwards every
    cell of the front buffer is on the screen, pixel by pixel, whatever changed
    since the last rendering, and the back buffer is the front buffer.  The
    glyphs are shown shifted by one column: the pixel at column [dx] is bit
    [8 - dx] of the line where the format has bit [7 - dx], so the rightmost bit
    is lost. *)
Theorem render_correct (t : terminal) :
  term_ok t →
  ∃ t' fb, render t = Returns ((), t') ∧ FRAMEBUFFER t' = Some fb ∧
    t' = set_back (front_buffer t) (set_fb (Some fb) t) ∧
    ∀ i sc dx dy, front_buffer t !! i = Some sc → 0 ≤ dx < 8 → 0 ≤ dy < psf.height (psf.header (font t)) →
      pixel fb (Z.of_nat i mod width t * 8 + dx)
        (Z.of_nat i / width t * psf.height (psf.header (font t)) + dy) = Some (cell_color (font t) sc dx dy).
Proof.
  intros Hok. assert (wp render (λ _ t', (∃ fb, t' = set_back (front_buffer t) (set_fb fb t)) ∧ term_ok t') t) as H
    by (by apply wp_render).
  apply wp_returns in H as ([] & t' & E & (fb & ->) & Hok').
  destruct (term_shows _ Hok') as (fb' & Hfb & Hpx). cbn in Hfb. subst fb.
  exists (set_back (front_buffer t) (set_fb (Some fb') t)), fb'. split_and!; try done.
  intros i sc dx dy Hi. by apply Hpx.
Qed.

(** ** Writing text *)

Definition plain (c : Z) : Prop := c ≠ 0x1B ∧ c ≠ 10 ∧ c ≠ 13 ∧ c ≠ 9.
Definition cells (st : TerminalState) (text : list Z) : list ScreenChar :=
  (λ c, {| character := c; char_foreground := foreground_color st;
           char_background := background_color st |}) <$> text.

(** The screen size: cell indices fit [u16], and a tab stop is on the line. *)
Record sized (t : terminal) : Prop := {
  sized_cells : width t * height t ≤ 2 ^ 16;
  sized_tabs : 64 < width t;
}.
Record cursor_ok (t : terminal) : Prop := {
  cursor_column : 0 ≤ cursor_x (current_state t) < width t;
  cursor_line : 0 ≤ cursor_y (current_state t) < height t;
}.
Lemma cell_index t : geometry t → sized t → cursor_ok t →
  0 ≤ cursor_y (current_state t) * width t + cursor_x (current_state t) < 2 ^ 16 ∧
  cursor_y (current_state t) * width t + cursor_x (current_state t) < Z.of_nat (length (front_buffer t)).
Proof. intros [] [] []. rewrite geo_front0. change (2 ^ 16) with 65536 in *. nia. Qed.
(** The part of writing a character that changes the front buffer. *)
Lemma wp_put_char t c (k : Z → M terminal ()) (Q : () → terminal → Prop) :
  geometry t → sized t → cursor_ok t →
  let st := current_state t in
  let i := Z.to_nat (cursor_y st * width t + cursor_x st) in
  wp (k (cursor_x st + 1)) Q (set_state (with_x (cursor_x st + 1) st)
    (set_front (<[i := {| character := c; char_foreground := foreground_color st;
                          char_background := background_color st |}]> (front_buffer t)) t)) →
  wp (row ← chk 16 (cursor_y st * width t);
      i ← chk 16 (row + cursor_x st);
      rassert (i <? Z.of_nat (length (front_buffer t)));;
      modify (set_front (<[Z.to_nat i := {| character := c; char_foreground := foreground_color st;
        char_background := background_color st |}]> (front_buffer t)));;
      x ← chk 16 (cursor_x st + 1);
      upd_state (with_x x);; k x) Q t.
Proof.
  intros Hg Hsz Hc st i HQ. destruct (cell_index t Hg Hsz Hc) as [Hi Hlen].
  destruct Hg as [_ Gw Gh _ _ _ _], Hc as [Hx Hy]. fold st in Hi, Hlen, Hx, Hy.
  rewrite wp_bind, wp_chk. split; [nia|]. rewrite wp_bind, wp_chk. split; [lia|].
  rewrite wp_bind, wp_rassert. split; [by apply Z.ltb_lt|]. rewrite wp_bind, wp_modify.
  rewrite wp_bind, wp_chk. split; [lia|]. rewrite wp_bind. unfold upd_state. by rewrite wp_modify.
Qed.

Lemma length_scroll w l : (w ≤ length l)%nat → length (scroll w l) = length l.
Proof.
  intros H. unfold scroll. rewrite length_app, length_take, length_app, !length_drop, length_replicate. lia.
Qed.
Lemma scroll_drawable fn w l :
  Forall (λ sc, drawable fn (character sc)) l → Forall (λ sc, drawable fn (character sc)) (scroll w l).
Proof.
  intros H. unfold scroll. apply Forall_app. split.
  - apply Forall_take, Forall_app. split; by apply Forall_drop.
  - apply Forall_replicate. by left.
Qed.
Lemma term_ok_front t l : term_ok t → length l = length (front_buffer t) →
  Forall (λ sc, drawable (font t) (character sc)) l → term_ok (set_front l t).
Proof. intros [[] Hs Hd] Hl Hdr. split; [split; try done; cbn; by rewrite Hl|done|done]. Qed.
Lemma term_ok_state t st : term_ok t → term_ok (set_state st t).
Proof. intros [[] Hs Hd]. by split. Qed.

(** A line feed moves the cursor down, scrolling at the bottom, and renders. *)
Lemma wp_new_line t (Q : () → terminal → Prop) :
  term_ok t → 0 ≤ cursor_y (current_state t) < height t →
  (∀ t' y, term_ok t' → font t' = font t → width t' = width t → height t' = height t →
     current_state t' = with_y y (current_state t) → y = Z.min (cursor_y (current_state t) + 1) (height t - 1) →
     back_buffer t' = front_buffer t' → Q () t') →
  wp new_line Q t.
Proof.
  intros Hok Hy HQ. pose proof Hok as [[_ Gw Gh _ Gf _ _] _ Hd]. unfold new_line.
  rewrite wp_bind, wp_get, wp_bind, wp_chk. split; [lia|]. unfold upd_state. rewrite wp_bind, wp_modify, wp_bind.
  destruct (Z.leb_spec (height t) (cursor_y (current_state t) + 1)).
  - rewrite wp_bind, wp_chk. split; [lia|]. rewrite wp_bind, wp_modify, wp_bind, wp_rassert.
    split; [apply Z.leb_le; cbn; rewrite Gf; nia|]. rewrite wp_modify. cbn [set_state width front_buffer].
    apply wp_render.
    { apply (term_ok_front (set_state _ (set_state _ t))); [by do 2 apply term_ok_state| |].
      - cbn. apply length_scroll. rewrite Gf. nia.
      - by apply scroll_drawable. }
    intros t' (fb & ->) Hok'. eapply HQ; try done; cbn. lia.
  - rewrite wp_ret. apply wp_render; [by apply term_ok_state|]. intros t' (fb & ->) Hok'.
    eapply HQ; try done; cbn. lia.
Qed.

Definition printable (fn : psf.Font) (c : Z) : Prop :=
  c ≠ 0x1B ∧ (c = 10 ∨ c = 13 ∨ c = 9 ∨ drawable fn c).
Lemma wp_write_text t c (Q : () → terminal → Prop) :
  term_ok t → sized t → cursor_ok t → mode (current_state t) = Text → printable (font t) c →
  (∀ t', term_ok t' → sized t' → cursor_ok t' → mode (current_state t') = Text → font t' = font t → Q () t') →
  wp (write_text c) Q t.
Proof.
  intros Hok Hsz Hc Hm [Hesc Hp] HQ. pose proof Hc as [Hx Hy]. pose proof Hsz as [Hcells Htab].
  pose proof (term_geometry _ Hok) as Hg. pose proof Hg as [_ Gw Gh _ Gf _ _].
  unfold write_text. rewrite (proj2 (Z.eqb_neq c 0x1B)) by done.
  assert (∀ t', width t' = width t → height t' = height t → sized t') as Hsz'
    by (intros t' E1 E2; split; rewrite E1, ?E2; done).
  destruct (Z.eqb_spec c 10) as [->|].
  { rewrite wp_bind. apply wp_new_line; [done|done|]. intros t' y Hok' Ef Ew Eh Est -> _.
    unfold upd_state. rewrite wp_modify. apply HQ; [by apply term_ok_state|by apply Hsz'| |by rewrite Est|done].
    split; cbn; rewrite ?Est, ?Ew, ?Eh; cbn; lia. }
  destruct (Z.eqb_spec c 13) as [->|].
  { unfold upd_state. rewrite wp_modify. apply HQ; [by apply term_ok_state|by apply Hsz'| |done|done].
    split; cbn; lia. }
  destruct (Z.eqb_spec c 9) as [->|].
  { rewrite wp_bind, wp_get, wp_bind, wp_chk.
    pose proof (Z.mod_pos_bound (cursor_x (current_state t)) 8 ltac:(lia)).
    split; [lia|]. rewrite wp_bind, wp_chk. split; [lia|]. unfold upd_state. rewrite wp_modify.
    apply HQ; [by apply term_ok_state|by apply Hsz'| |done|done]. split; cbn; lia. }
  rewrite wp_bind, wp_get.
  apply (wp_put_char t c (λ x, if width t <=? x then
      x ← chk 16 (x - 1); upd_state (with_x x);; new_line;; upd_state (with_x 0) else mret ())); [done..|].
  set (t1 := set_state _ _).
  assert (term_ok t1) as Hok1.
  { apply term_ok_state, term_ok_front; [done|by rewrite length_insert|].
    apply Forall_insert; [apply Hok|]. cbn. naive_solver. }
  destruct (Z.leb_spec (width t) (cursor_x (current_state t) + 1)).
  - rewrite wp_bind, wp_chk. split; [lia|]. rewrite wp_bind. unfold upd_state. rewrite wp_modify, wp_bind.
    apply wp_new_line; [by apply term_ok_state|done|]. intros t' y Hok' Ef Ew Eh Est -> _.
    rewrite wp_modify. cbn in Ew, Eh. apply HQ; [by apply term_ok_state|by apply Hsz'| |by rewrite Est|done].
    split; cbn; rewrite ?Est, ?Ew, ?Eh; cbn; lia.
  - rewrite wp_ret. apply HQ; [done|by apply Hsz'| |done|done]. split; cbn; lia.
Qed.

(** What writing keeps. *)
Definition writable (fn : psf.Font) (t : terminal) : Prop :=
  term_ok t ∧ sized t ∧ cursor_ok t ∧ mode (current_state t) = Text ∧ font t = fn.
Lemma wp_write fn t text : writable fn t → Forall (printable fn) text → wp (write text) (λ _ t', writable fn t') t.
Proof.
  intros Ht Hp. apply (wp_for_each _ (λ _, writable fn)); [done| |done].
  intros k c t' Hk (Hok & Hsz & Hc & Hm & Hf). unfold write_char. rewrite wp_bind, wp_get, Hm.
  apply wp_write_text; try done; [by rewrite Hf; apply (Forall_lookup_1 _ _ _ _ Hp Hk)|].
  intros t1 ?????. unfold writable. split_and!; try done. congruence.
Qed.

(** A screen on which a terminal in this font can run. *)
Record screen_ok (fn : psf.Font) (fb : Framebuffer) : Prop := {
  screen_font : psf.width (psf.header fn) = 8 ∧ 0 < psf.height (psf.header fn) ≤ 256;
  screen_columns : 64 < fb_width fb / 8 < 2 ^ 16 ∧ fb_width fb / 8 * 8 ≤ scanline_length fb;
  screen_rows : 0 < fb_height fb / psf.height (psf.header fn) < 2 ^ 16;
  screen_cells : fb_width fb / 8 * (fb_height fb / psf.height (psf.header fn)) ≤ 2 ^ 16;
  screen_room : fb_height fb / psf.height (psf.header fn) * psf.height (psf.header fn) * scanline_length fb
    ≤ Z.of_nat (length (buffer fb)) < 2 ^ 32;
}.
(** A new terminal on a black screen shows its blank cells. *)
Lemma Terminal_new_writable fn fb : screen_ok fn fb → buffer fb = replicate (length (buffer fb)) 0 →
  ∃ t, Terminal_new (Some fb) fn true true = Returns (Ok t) ∧ writable fn t ∧
    width t = fb_width fb / 8 ∧ height t = fb_height fb / psf.height (psf.header fn).
Proof.
  intros [[Ew Hh] [Hc Hs] Hr Hcells Hroom] Hblack. unfold Terminal_new. rewrite Ew.
  change (8 =? 0) with false. rewrite (proj2 (Z.eqb_neq _ _)) by lia. cbn [orb].
  set (cols := fb_width fb / 8) in *. set (h := psf.height (psf.header fn)) in *. set (rows := fb_height fb / h) in *.
  assert (trunc 16 cols = cols ∧ trunc 16 rows = rows) as [-> ->] by (unfold trunc; split; apply Z.mod_small; lia).
  cbn [andb]. eexists. split; [done|]. split; [|done]. split; [|split; [by split; cbn; lia|split; [split; cbn; lia|done]]].
  split.
  - split; cbn; rewrite ?length_replicate; try done; try lia. exists fb. split; [done|]. split; [done|]. fold h. lia.
  - exists fb. split; [done|]. cbn [back_buffer width font]. fold h. intros i sc Hi dx dy Hx Hy.
    apply lookup_replicate in Hi as [-> Hi]. unfold pixel. rewrite Hblack. apply lookup_replicate. split; [done|].
    pose proof (Z.mod_pos_bound (Z.of_nat i) cols ltac:(lia)). assert (0 ≤ Z.of_nat i / cols) by (apply Z.div_pos; lia).
    assert (Z.of_nat i / cols + 1 ≤ rows).
    { enough (Z.of_nat i / cols < rows) by lia. apply Z.div_lt_upper_bound; lia. }
    assert (0 ≤ Z.of_nat i mod cols * 8 + dx < scanline_length fb) by lia.
    assert (0 ≤ Z.of_nat i / cols * h + dy < rows * h) by nia. nia.
  - cbn. apply Forall_replicate. by left.
Qed.

(** C39: the terminal survives plain text. On a screen of more than 64 columns
    and at most [2 ^ 16] cells, writing characters the font can draw, line
    feeds, carriage returns and tabs, without escape characters, never panics
    (neither in the [u16] index of a cell nor in the renderer) and leaves the
    terminal consistent, the cursor on the screen and the text mode on. A
    character the font has no glyph for, and its last glyph, which the code
    takes for missing, are not among those it can draw: rendering them panics. *)
Theorem write_keeps_terminal (t : terminal) (text : list Z) :
  term_ok t → sized t → cursor_ok t → mode (current_state t) = Text → Forall (printable (font t)) text →
  ∃ t', write text t = Returns ((), t') ∧
    term_ok t' ∧ sized t' ∧ cursor_ok t' ∧ mode (current_state t') = Text ∧ font t' = font t.
Proof.
  intros Hok Hsz Hc Hm Hp. destruct (wp_unit_returns (write text) (writable (font t)) t) as (t' & E & Ht').
  { apply wp_write; [done|exact Hp]. }
  by exists t'.
Qed.

(** ** Escape sequences *)

(** The value of a string of decimal digits, continuing from [a]. *)
Definition decimal (a : Z) (ds : list Z) : Z := foldl (λ a c, a * 10 + (c - 48)) a ds.
Definition number (ds : list Z) : Prop := Forall (λ c, 48 ≤ c ≤ 57) ds ∧ (0 < length ds ≤ 9)%nat.
Definition in_mode (m : TerminalMode) (t : terminal) : terminal :=
  set_state (with_mode m (current_state t)) t.

Lemma wp_write_app l1 l2 (Q : () → terminal → Prop) t :
  wp (write (l1 ++ l2)) Q t ↔ wp (write l1) (λ _, wp (write l2) Q) t.
Proof.
  revert t. induction l1 as [|c l1 IH]; intros t; [done|]. cbn [write for_each foldr app].
  rewrite !wp_bind. split; intros H; (eapply wp_mono; [exact H|]); intros a s; by apply IH.
Qed.
Lemma wp_write_cons c l (Q : () → terminal → Prop) t m :
  m ≠ Text → wp (write_escape m c) (λ _, wp (write l) Q) (in_mode m t) → wp (write (c :: l)) Q (in_mode m t).
Proof.
  intros Hm H. cbn [write for_each foldr]. rewrite wp_bind. unfold write_char. rewrite wp_bind, wp_get.
  cbn [in_mode set_state current_state with_mode mode]. by destruct m.
Qed.
Lemma wp_set_mode m m' (Q : () → terminal → Prop) t : Q () (in_mode m t) → wp (set_mode m) Q (in_mode m' t).
Proof. done. Qed.
Lemma is_digit_true c : 48 ≤ c ≤ 57 → is_digit c = true.
Proof. intros H. unfold is_digit. by rewrite (proj2 (Z.leb_le _ _)), (proj2 (Z.leb_le _ _)) by lia. Qed.

(** Further digits of an argument. *)
Lemma wp_digits (F : Z → TerminalMode) ds a k (Q : () → terminal → Prop) t :
  (∀ a, F a ≠ Text) →
  (∀ a c, is_digit c = true → write_escape (F a) c = (x ← push_digit a c; set_mode (F x))) →
  Forall (λ c, 48 ≤ c ≤ 57) ds → 0 ≤ a < 10 ^ k → 0 ≤ k → k + Z.of_nat (length ds) ≤ 9 →
  Q () (in_mode (F (decimal a ds)) t) → wp (write ds) Q (in_mode (F a) t).
Proof.
  intros HF Hstep. revert a k. induction ds as [|c ds IH]; intros a k Hds Ha Hk Hlen HQ; [done|].
  apply Forall_cons in Hds as [Hc Hds]. cbn [length] in Hlen.
  apply wp_write_cons; [done|]. rewrite Hstep by (by apply is_digit_true).
  assert (10 ^ k ≤ 10 ^ 8) by (apply Z.pow_le_mono_r; lia).
  assert (10 ^ (k + 1) = 10 * 10 ^ k) as Hp by (by rewrite Z.pow_add_r, Z.mul_comm by lia).
  change (10 ^ 8) with 100000000 in *. unfold push_digit. rewrite !wp_bind, wp_chk. split; [lia|].
  rewrite wp_bind, wp_chk. split; [lia|]. rewrite wp_chk. split; [lia|]. apply wp_set_mode.
  replace (a * 10 + c - 48) with (a * 10 + (c - 48)) by lia.
  apply (IH _ (k + 1)); try done; lia.
Qed.
(** A whole argument and the character after it: from the state that expects its
    first digit to the state the character leads to. *)
Lemma wp_argument (E : TerminalMode) (F : Z → TerminalMode) ds c l (Q : () → terminal → Prop) t :
  E ≠ Text → (∀ c, is_digit c = true → write_escape E c = set_mode (F (c - 48))) →
  (∀ a, F a ≠ Text) →
  (∀ a c, is_digit c = true → write_escape (F a) c = (x ← push_digit a c; set_mode (F x))) →
  number ds →
  wp (write_escape (F (decimal 0 ds)) c) (λ _, wp (write l) Q) (in_mode (F (decimal 0 ds)) t) →
  wp (write (ds ++ c :: l)) Q (in_mode E t).
Proof.
  intros HE HsE HF HsF [Hds Hlen] HQ. destruct ds as [|d ds]; [cbn in Hlen; lia|].
  apply Forall_cons in Hds as [Hd Hds]. cbn [app length] in *.
  apply wp_write_cons; [done|]. rewrite HsE by (by apply is_digit_true). apply wp_set_mode.
  apply wp_write_app. apply (wp_digits F ds _ 1); try done; try lia.
  replace (decimal (d - 48) ds) with (decimal 0 (d :: ds)) by done. by apply wp_write_cons.
Qed.

Ltac solve_digit := let H := fresh in intros ? ?; try intros H; unfold write_escape;
  match goal with H : is_digit _ = true |- _ => by rewrite H end.
Lemma lor_shiftl a b k : 0 ≤ k → 0 ≤ b < 2 ^ k → Z.lor (Z.shiftl a k) b = a * 2 ^ k + b.
Proof.
  intros Hk Hb. rewrite <-Z.shiftl_mul_pow2 by lia. rewrite <-Z.lxor_lor, Z.add_nocarry_lxor; [done|..];
    (apply Z.bits_inj'; intros i Hi; rewrite Z.land_spec, Z.bits_0, Z.shiftl_spec by lia;
     destruct (decide (i < k)); [by rewrite Z.testbit_neg_r by lia|];
     by rewrite (testbit_above k b), andb_false_r by lia).
Qed.
Lemma lor_bytes x y z : 0 ≤ x < 256 → 0 ≤ y < 256 → 0 ≤ z < 256 →
  Z.lor (Z.lor (Z.shiftl x 16) (Z.shiftl y 8)) z = x * 2 ^ 16 + y * 2 ^ 8 + z.
Proof.
  intros Hx Hy Hz. rewrite lor_shiftl by (rewrite ?Z.shiftl_mul_pow2; lia).
  replace (x * 2 ^ 16 + Z.shiftl y 8) with (Z.shiftl (x * 2 ^ 8 + y) 8)
    by (rewrite !Z.shiftl_mul_pow2 by lia; lia).
  rewrite lor_shiftl by lia. lia.
Qed.

(** true-colour sequences.  In text mode, writing
    [ESC [ 38 ; 2 ; r ; g ; b m] (or [48] for the background), with arguments of
    up to nine digits, sets the colour to the low bytes of the three numbers,
    returns to text mode, and changes nothing else. *)
Theorem true_color_escape (f : psf.Font) w h front back x y fg bg fb (foreground : bool) (r g b : list Z) :
  number r → number g → number b →
  let t m fg bg := Terminal f w h front back (TState m x y fg bg) fb in
  let color := decimal 0 r mod 256 * 2 ^ 16 + decimal 0 g mod 256 * 2 ^ 8 + decimal 0 b mod 256 in
  write ([0x1B; 91] ++ (if foreground then [51; 56] else [52; 56]) ++ [59; 50; 59] ++
         r ++ 59 :: g ++ 59 :: b ++ [109]) (t Text fg bg) =
  Returns ((), if foreground then t Text color bg else t Text fg color).
Proof.
  intros Hr Hg Hb t color. set (sel := if foreground then 38 else 48).
  rewrite !app_assoc, <-(app_assoc _ r). rewrite <-!app_assoc.
  assert (wp (write ([0x1B; 91] ++ (if foreground then [51; 56] else [52; 56]) ++ [59; 50; 59] ++
         r ++ 59 :: g ++ 59 :: b ++ [109]))
    (λ _ t', t' = if foreground then t Text color bg else t Text fg color) (t Text fg bg)) as H.
  2:{ apply wp_returns in H as ([] & t' & E & ->). exact E. }
  rewrite !app_assoc, <-(app_assoc _ r), wp_write_app.
  assert (∀ (Q : () → terminal → Prop), Q () (in_mode (SecondArgumentEnd sel 2) (t Text fg bg)) → 
    wp (write (([27; 91] ++ (if foreground then [51; 56] else [52; 56])) ++ [59; 50; 59])) Q (t Text fg bg)) as Hpre.
  { intros Q HQ. destruct foreground; exact HQ. }
  apply Hpre.
  assert (∀ c, c =? 59 = true → is_digit c = false) as Hsemi by (by intros c ->%Z.eqb_eq).
  apply (wp_argument (SecondArgumentEnd sel 2) (ThirdArgument sel 2)); try done; [solve_digit..|].
  apply (wp_set_mode (ThirdArgumentEnd sel 2 (decimal 0 r))).
  apply (wp_argument _ (FourthArgument sel 2 (decimal 0 r))); try done; [solve_digit..|].
  apply (wp_set_mode (FourthArgumentEnd sel 2 (decimal 0 r) (decimal 0 g))).
  apply (wp_argument _ (FifthArgument sel 2 (decimal 0 r) (decimal 0 g))); try done; [solve_digit..|].
  assert (∀ v, Z.land v 0xFF = v mod 256) as Hlow by (intros v; apply (Z.land_ones v 8); lia).
  assert (Z.lor (Z.lor (Z.shiftl (Z.land (decimal 0 r) 0xFF) 16) (Z.shiftl (Z.land (decimal 0 g) 0xFF) 8))
    (Z.land (decimal 0 b) 0xFF) = color) as Hcol.
  { rewrite !Hlow. apply lor_bytes; apply Z.mod_pos_bound; lia. }
  destruct foreground; unfold wp; cbn -[Z.land Z.shiftl Z.lor]. 
  all: rewrite Hcol; reflexivity.
Qed.
(** a long argument panics.  The digits of an argument are accumulated in a
    [u32] without a check, so in text mode the twelve characters
    [ESC [ 9999999999] panic in the kernel, whatever the state of the
    terminal. *)
Theorem long_argument_panics f w h front back x y fg bg fb :
  write ([0x1B; 91] ++ replicate 10 57) (Terminal f w h front back (TState Text x y fg bg) fb) = Panics.
Proof. reflexivity. Qed.

(** the grey ramp is not grey.  The colours 232 to 255 of the 256-colour
    palette are all above [2 ^ 24]: the level is computed as
    [(255 * n - 232) / 23], which is at least 2561 for every one of them, where
    [255 * (n - 232) / 23] gives a byte. *)
Theorem grey_levels_overflow (t : terminal) :
  Forall (λ n, ∃ c, palette n t = Returns (Some c, t) ∧ 2 ^ 24 < c ∧ 2561 ≤ (255 * n - 232) / 23 ∧
    0 ≤ 255 * (n - 232) / 23 < 256) (seqZ 232 24).
Proof. cbn. repeat constructor; eexists; (split; [vm_compute; reflexivity|]); vm_compute; split_and!; done. Qed.

(** ** A small terminal *)

(** 80 by 2 cells, in a font of one-line glyphs that are all blank. *)
Definition demo_font : psf.Font :=
  {| psf.header := psf.Build_Header psf.MAGIC 0 32 0 64 16 1 8; psf.font_data := replicate 1040 0 |}.
Definition demo_fb : Framebuffer :=
  {| buffer := replicate 1280 0; fb_width := 640; fb_height := 2; scanline_length := 640 |}.
Definition demo_terminal : terminal :=
  Terminal demo_font 80 2 (replicate 160 ScreenChar_default) (replicate 160 ScreenChar_default)
    TerminalState_default (Some demo_fb).
Lemma demo_new : Terminal_new (Some demo_fb) demo_font true true = Returns (Ok demo_terminal).
Proof. vm_compute. reflexivity. Qed.
Lemma demo_terminal_ok : term_ok demo_terminal.
Proof.
  split.
  - split; try done. exists demo_fb. split; [done|]. split; [done|]. vm_compute. split; [discriminate|done].
  - exists demo_fb. split; [done|]. intros i sc Hi dx dy Hx Hy.
    apply lookup_replicate in Hi as [-> Hi]. unfold pixel. cbn [buffer demo_fb scanline_length].
    apply lookup_replicate. split; [done|].
    change (psf.height (psf.header (font demo_terminal))) with 1 in *.
    change (width demo_terminal) with 80.
    pose proof (Z.mod_pos_bound (Z.of_nat i) 80 ltac:(lia)).
    assert (0 ≤ Z.of_nat i / 80 < 2) by (split; [apply Z.div_pos; lia|apply Z.div_lt_upper_bound; lia]). lia.
  - apply Forall_replicate. by left.
Qed.
Lemma true_color_escape_witness :
  let t m fg bg := Terminal demo_font 80 2 (replicate 160 ScreenChar_default) (replicate 160 ScreenChar_default)
    (TState m 0 0 fg bg) (Some demo_fb) in
  write ([0x1B; 91] ++ [51; 56] ++ [59; 50; 59] ++
         [50; 53; 53] ++ 59 :: [49; 54] ++ 59 :: [55] ++ [109]) (t Text 0xFFFFFF 0) =
  Returns ((), t Text (255 * 2 ^ 16 + 16 * 2 ^ 8 + 7) 0).
Proof.
  apply (true_color_escape demo_font 80 2 (replicate 160 ScreenChar_default) (replicate 160 ScreenChar_default)
    0 0 0xFFFFFF 0 (Some demo_fb) true [50; 53; 53] [49; 54] [55]);
    split; try (repeat constructor; done); cbn; lia.
Defined.
Lemma render_correct_witness :
  ∃ t' fb, render demo_terminal = Returns ((), t') ∧ FRAMEBUFFER t' = Some fb ∧
    t' = set_back (front_buffer demo_terminal) (set_fb (Some fb) demo_terminal) ∧
    ∀ i sc dx dy, front_buffer demo_terminal !! i = Some sc → 0 ≤ dx < 8 →
      0 ≤ dy < psf.height (psf.header (font demo_terminal)) →
      pixel fb (Z.of_nat i mod width demo_terminal * 8 + dx)
        (Z.of_nat i / width demo_terminal * psf.height (psf.header (font demo_terminal)) + dy) =
      Some (cell_color (font demo_terminal) sc dx dy).
Proof. apply (render_correct demo_terminal), demo_terminal_ok. Defined.
Lemma write_keeps_terminal_witness :
  ∃ t', write [48; 10; 49; 9; 50; 10; 51; 13] demo_terminal = Returns ((), t') ∧
    term_ok t' ∧ sized t' ∧ cursor_ok t' ∧ mode (current_state t') = Text ∧ font t' = font demo_terminal.
Proof.
  apply (write_keeps_terminal demo_terminal); [apply demo_terminal_ok|by split|by split|done|].
  repeat (apply Forall_cons; split; [split; [done|first
    [by left|by right; left|by right; right; left|right; right; right; right; vm_compute; discriminate]]|]).
  by apply Forall_nil.
Defined.
