(* ===== verification/Cpio.v ===== *)
(** * The initial file archive (kernel/src/cpio.rs)

    Searching a [cpio] archive in the portable ASCII format, as bytes.  A read of
    a [Node] that is not inside the archive is undefined behaviour. *)
From S2P Require Import Prelude.

(** [size_of::<Node>()]. *)
Definition size_of_Node : Z := 76.
Definition NAME_OFFSET : Z := 76.
(** [b"070707"]. *)
Definition MAGIC : list Z := [48; 55; 48; 55; 48; 55].

(** [archive\[a..\]\[0..n\]]. *)
Definition slice (archive : list Z) (a n : Z) : outcome (list Z) :=
  if (a <=? Z.of_nat (length archive)) && (n <=? Z.of_nat (length archive) - a)
  then Returns (take (Z.to_nat n) (drop (Z.to_nat a) archive)) else Panics.
(** [octal_to_binary]: the shift drops bits, the subtraction and the addition are
    checked. *)
Fixpoint octal_loop (number : Z) (octal : list Z) : outcome Z :=
  match octal with
  | [] => Returns number
  | digit :: octal =>
      let number := trunc 64 (Z.shiftl number 3) in
      if digit <? 48 then Panics
      else let number := number + (digit - 48) in
           if fits 64 number then octal_loop number octal else Panics
  end.
Definition octal_to_binary (octal : list Z) : outcome Z := octal_loop 0 octal.

(** The fields of the [Node] at [pos] that the search reads. *)
Definition field (archive : list Z) (pos offset n : Z) : list Z :=
  take (Z.to_nat n) (drop (Z.to_nat (pos + offset)) archive).
Definition magic (archive : list Z) (pos : Z) : list Z := field archive pos 0 6.
Definition get_name_cstring_len (archive : list Z) (pos : Z) : outcome Z :=
  octal_to_binary (field archive pos 59 6).
Definition get_file_size (archive : list Z) (pos : Z) : outcome Z :=
  octal_to_binary (field archive pos 65 11).

Fixpoint find_loop (fuel : nat) (archive file_name : list Z) (current_pos : Z) : outcome (option (list Z)) :=
  match fuel with
  | O => OutOfFuel
  | S fuel =>
      let len := Z.of_nat (length archive) in
      if negb (current_pos <? len) then Returns None
      else if len - current_pos + 1 <? size_of_Node then Returns None
      else if len - current_pos <? size_of_Node then Undefined
      else
        node_name_len ← get_name_cstring_len archive current_pos;
        node_file_size ← get_file_size archive current_pos;
        if node_name_len <? 1 then Panics
        else
          node_name ← slice archive (current_pos + NAME_OFFSET) (node_name_len - 1);
          if decide (magic archive current_pos ≠ MAGIC) then Returns None
          else if decide (file_name ≠ node_name) then
            let next := current_pos + (76 + node_name_len + node_file_size) in
            if fits 64 next then find_loop fuel archive file_name next else Panics
          else
            data ← slice archive (current_pos + NAME_OFFSET + node_name_len) node_file_size;
            Returns (Some data)
  end.
(** [find_file]: every iteration moves on by 77 bytes at least. *)
Definition find_file (archive file_name : list Z) : outcome (option (list Z)) :=
  find_loop (S (length archive)) archive file_name 0.

(** ** Archives *)

(** [k] octal digits of [n]. *)
Fixpoint octal (k : nat) (n : Z) : list Z :=
  match k with O => [] | S k => (48 + (n / 8 ^ Z.of_nat k) mod 8) :: octal k n end.
Record entry : Type := { meta : list Z; name : list Z; data : list Z }.
Record entry_ok (e : entry) : Prop := {
  entry_meta : length (meta e) = 53%nat;
  entry_name : Z.of_nat (length (name e)) + 1 < 8 ^ 6;
  entry_data : Z.of_nat (length (data e)) < 8 ^ 11;
}.
(** An entry of an archive: the magic number, 53 bytes of metadata, the lengths of
    the name (with its NUL) and of the data, the name and the data. *)
Definition encode_header (e : entry) : list Z :=
  MAGIC ++ meta e ++ octal 6 (Z.of_nat (length (name e)) + 1) ++ octal 11 (Z.of_nat (length (data e))).
Definition encode (e : entry) : list Z := encode_header e ++ name e ++ [0] ++ data e.
Definition archive_of (es : list entry) : list Z := concat (encode <$> es).
(** The data of the first entry with the name. *)
Fixpoint lookup_entry (file_name : list Z) (es : list entry) : option (list Z) :=
  match es with
  | [] => None
  | e :: es => if decide (file_name = name e) then Some (data e) else lookup_entry file_name es
  end.

(** ** Octal numbers *)

Lemma length_octal k n : length (octal k n) = k.
Proof. induction k as [|k IH]; cbn; congruence. Qed.
Lemma octal_loop_octal k n a : 0 ≤ a → a * 8 ^ Z.of_nat k + 8 ^ Z.of_nat k ≤ 2 ^ 64 →
  octal_loop a (octal k n) = Returns (a * 8 ^ Z.of_nat k + n mod 8 ^ Z.of_nat k).
Proof.
  revert a. induction k as [|k IH]; intros a Ha Hb.
  { cbn. rewrite Z.mod_1_r. f_equal. lia. }
  cbn [octal octal_loop]. rewrite Nat2Z.inj_succ, Z.pow_succ_r in * by lia.
  set (p := 8 ^ Z.of_nat k) in *. assert (0 < p) by (apply Z.pow_pos_nonneg; lia).
  pose proof (Z.mod_pos_bound (n / p) 8 ltac:(lia)) as Hd.
  rewrite (proj2 (Z.ltb_ge _ _)) by lia. rewrite Z.shiftl_mul_pow2 by lia. change (2 ^ 3) with 8.
  unfold trunc. rewrite Z.mod_small by nia.
  rewrite (proj2 (fits_spec _ _)) by nia. rewrite IH by nia. f_equal.
  rewrite (Z.mul_comm 8 p), Z.rem_mul_r by lia. lia.
Qed.
Lemma octal_roundtrip k n : 0 ≤ n < 8 ^ Z.of_nat k → (k ≤ 21)%nat → octal_to_binary (octal k n) = Returns n.
Proof.
  intros Hn Hk. unfold octal_to_binary. rewrite octal_loop_octal; [|lia|].
  - by rewrite Z.mod_small.
  - assert (8 ^ Z.of_nat k ≤ 8 ^ 21) by (apply Z.pow_le_mono_r; lia). change (8 ^ 21) with (2 ^ 63) in *. lia.
Qed.

(** ** Searching *)

Section entry_at.
Context (before rest : list Z) (e : entry) (Hok : entry_ok e).
Let archive := before ++ encode e ++ rest.
Let pos := Z.of_nat (length before).
Lemma drop_before n : 0 ≤ n → drop (Z.to_nat (pos + n)) archive = drop (Z.to_nat n) (encode e ++ rest).
Proof.
  intros Hn. unfold archive, pos. rewrite Z2Nat.inj_add, Nat2Z.id by lia. by rewrite <-drop_drop, drop_app_length.
Qed.
Lemma length_header : length (encode_header e) = 76%nat.
Proof. unfold encode_header. rewrite !length_app, !length_octal. by rewrite (entry_meta e Hok). Qed.
Lemma length_encode : length (encode e) = (77 + length (name e) + length (data e))%nat.
Proof. unfold encode. rewrite !length_app, length_header. cbn. lia. Qed.
Lemma field_magic : magic archive pos = MAGIC.
Proof. unfold magic, field. by rewrite (drop_before 0). Qed.
Lemma field_name_len : get_name_cstring_len archive pos = Returns (Z.of_nat (length (name e)) + 1).
Proof.
  unfold get_name_cstring_len, field. rewrite (drop_before 59) by lia. change (Z.to_nat 59) with 59%nat. change (Z.to_nat 6) with 6%nat.
  assert (take 6 (drop 59 (encode e ++ rest)) = octal 6 (Z.of_nat (length (name e)) + 1)) as ->.
  { unfold encode, encode_header. rewrite <-!app_assoc. rewrite (drop_app_ge MAGIC) by (cbn; lia).
    rewrite drop_app_ge, (entry_meta e Hok) by (rewrite (entry_meta e Hok); cbn; lia).
    cbn [MAGIC length Nat.sub]. rewrite drop_0, take_app_le by (by rewrite length_octal).
    by rewrite take_ge by (by rewrite length_octal). }
  apply octal_roundtrip; [|lia]. destruct Hok. cbn. lia.
Qed.
Lemma field_size : get_file_size archive pos = Returns (Z.of_nat (length (data e))).
Proof.
  unfold get_file_size, field. rewrite (drop_before 65) by lia. change (Z.to_nat 65) with 65%nat. change (Z.to_nat 11) with 11%nat.
  assert (take 11 (drop 65 (encode e ++ rest)) = octal 11 (Z.of_nat (length (data e)))) as ->.
  { unfold encode, encode_header. rewrite <-!app_assoc. rewrite (drop_app_ge MAGIC) by (cbn; lia).
    rewrite drop_app_ge, (entry_meta e Hok) by (rewrite (entry_meta e Hok); cbn; lia).
    rewrite drop_app_ge by (rewrite length_octal; cbn; lia). rewrite length_octal.
    cbn [MAGIC length Nat.sub]. rewrite drop_0, take_app_le by (by rewrite length_octal).
    by rewrite take_ge by (by rewrite length_octal). }
  apply octal_roundtrip; [|lia]. destruct Hok. cbn. lia.
Qed.
Lemma slice_name : slice archive (pos + NAME_OFFSET) (Z.of_nat (length (name e)) + 1 - 1) = Returns (name e).
Proof.
  unfold slice. replace (Z.of_nat (length (name e)) + 1 - 1) with (Z.of_nat (length (name e))) by lia.
  unfold NAME_OFFSET. rewrite (drop_before 76), Nat2Z.id by lia.
  assert (length archive = length before + length (encode e) + length rest)%nat as Hl
    by (unfold archive; rewrite !length_app; lia).
  rewrite length_encode in Hl.
  rewrite (proj2 (Z.leb_le _ _)), (proj2 (Z.leb_le _ _)) by (unfold pos; lia). cbn [andb]. f_equal.
  unfold encode. rewrite <-!app_assoc, drop_app_length' by (symmetry; apply length_header). by rewrite take_app_length.
Qed.
Lemma slice_data : slice archive (pos + NAME_OFFSET + (Z.of_nat (length (name e)) + 1)) (Z.of_nat (length (data e)))
  = Returns (data e).
Proof.
  unfold slice.
  replace (pos + NAME_OFFSET + (Z.of_nat (length (name e)) + 1)) with (pos + Z.of_nat (76 + (length (name e) + 1)))
    by (unfold NAME_OFFSET; lia).
  rewrite drop_before, !Nat2Z.id by lia.
  assert (length archive = length before + length (encode e) + length rest)%nat as Hl
    by (unfold archive; rewrite !length_app; lia).
  rewrite length_encode in Hl.
  rewrite (proj2 (Z.leb_le _ _)), (proj2 (Z.leb_le _ _)) by (unfold pos; lia). cbn [andb]. f_equal.
  unfold encode. rewrite <-drop_drop, <-!app_assoc, drop_app_length' by (symmetry; apply length_header).
  rewrite <-drop_drop, drop_app_length. cbn. by rewrite drop_0, take_app_length.
Qed.
(** One iteration at an entry. *)
Lemma find_loop_entry fuel file_name : Z.of_nat (length archive) < 2 ^ 64 →
  find_loop (S fuel) archive file_name pos =
    if decide (file_name = name e) then Returns (Some (data e))
    else find_loop fuel archive file_name (Z.of_nat (length (before ++ encode e))).
Proof.
  intros Hlen. cbn [find_loop].
  assert (length archive = length before + length (encode e) + length rest)%nat as Hl
    by (unfold archive; rewrite !length_app; lia).
  pose proof length_encode as Hle. unfold size_of_Node.
  rewrite (proj2 (Z.ltb_lt pos _)) by (unfold pos; lia). cbn [negb].
  rewrite !(proj2 (Z.ltb_ge _ _)) by (unfold pos; lia).
  rewrite field_name_len. cbn [mbind outcome_bind]. rewrite field_size. cbn [mbind outcome_bind].
  rewrite (proj2 (Z.ltb_ge _ _)) by lia. rewrite slice_name. cbn [mbind outcome_bind].
  rewrite decide_False by (rewrite field_magic; tauto).
  destruct (decide (file_name = name e)) as [E|E].
  - rewrite decide_False by tauto. by rewrite slice_data.
  - rewrite decide_True by done.
    replace (pos + (76 + (Z.of_nat (length (name e)) + 1) + Z.of_nat (length (data e))))
      with (Z.of_nat (length (before ++ encode e))) by (rewrite length_app; unfold pos; lia).
    rewrite (proj2 (fits_spec _ _)); [done|]. rewrite length_app. lia.
Qed.
End entry_at.

(** What the search finds in the padding after the last entry. *)
Definition search_padding (padding : nat) : outcome (option (list Z)) :=
  if (padding <? 75)%nat then Returns None else if (padding =? 75)%nat then Undefined else Panics.

Lemma find_loop_padding fuel before padding file_name :
  find_loop (S fuel) (before ++ replicate padding 0) file_name (Z.of_nat (length before)) = search_padding padding.
Proof.
  cbn [find_loop]. rewrite length_app, length_replicate. unfold search_padding, size_of_Node.
  destruct (Z.ltb_spec (Z.of_nat (length before)) (Z.of_nat (length before + padding))); cbn [negb].
  2:{ by rewrite (proj2 (Nat.ltb_lt _ _)) by lia. }
  destruct (Nat.ltb_spec padding 75); [by rewrite (proj2 (Z.ltb_lt _ _)) by lia|].
  rewrite (proj2 (Z.ltb_ge _ _)) by lia. destruct (Nat.eqb_spec padding 75) as [->|].
  { by rewrite (proj2 (Z.ltb_lt _ _)) by lia. }
  rewrite (proj2 (Z.ltb_ge _ _)) by lia.
  unfold get_name_cstring_len, field. rewrite Z2Nat.inj_add, Nat2Z.id by lia.
  rewrite <-drop_drop, drop_app_length, drop_replicate, take_replicate.
  by replace (Z.to_nat 6 `min` (padding - Z.to_nat 59))%nat with 6%nat by lia.
Qed.
Lemma find_loop_entries fuel before es padding file_name :
  Forall entry_ok es → Z.of_nat (length (before ++ archive_of es ++ replicate padding 0)) < 2 ^ 64 →
  (length es < fuel)%nat →
  find_loop fuel (before ++ archive_of es ++ replicate padding 0) file_name (Z.of_nat (length before)) =
    match lookup_entry file_name es with
    | Some d => Returns (Some d)
    | None => search_padding padding
    end.
Proof.
  revert before fuel. induction es as [|e es IH]; intros before fuel Hok Hlen Hfuel;
    (destruct fuel as [|fuel]; [cbn in Hfuel; lia|]).
  - apply find_loop_padding.
  - apply Forall_cons in Hok as [He Hok]. cbn [archive_of fmap list_fmap concat length] in *.
    fold (archive_of es) in *. rewrite <-(app_assoc (encode e)) in *.
    rewrite find_loop_entry by done. cbn [lookup_entry]. case_decide; [done|].
    rewrite (app_assoc before (encode e)) in *. apply IH; [done|done|lia].
Qed.
Lemma archive_length es : (length es ≤ length (archive_of es))%nat.
Proof.
  induction es as [|e es IH]; [done|]. cbn [archive_of fmap list_fmap concat length].
  fold (archive_of es). rewrite length_app. unfold encode. rewrite !length_app. cbn [length]. lia.
Qed.

(** C21: searching an archive.  In a well-formed archive, followed by any number of
    zero bytes, [find_file] returns the data of the first entry that has the
    name.  If there is none, it returns [None] only if fewer than 75 bytes of
    padding follow the last entry: with 75 it reads a header past the end of the
    archive, and with more it panics on the first digit of the name length,
    which it decodes before it checks the magic number. *)
Theorem find_file_correct (es : list entry) (padding : nat) (file_name : list Z) :
  Forall entry_ok es → Z.of_nat (length (archive_of es ++ replicate padding 0)) < 2 ^ 64 →
  find_file (archive_of es ++ replicate padding 0) file_name =
    match lookup_entry file_name es with
    | Some d => Returns (Some d)
    | None => search_padding padding
    end.
Proof.
  intros Hok Hlen. apply (find_loop_entries _ []); [done|done|]. rewrite length_app.
  pose proof (archive_length es). lia.
Qed.
Definition demo_archive : list entry :=
  [{| meta := replicate 53 48; name := [97]; data := [1; 2; 3] |};
   {| meta := replicate 53 48; name := [98; 99]; data := [4] |}].
Lemma find_file_correct_witness :
  find_file (archive_of demo_archive ++ replicate 512 0) [98; 99] = Returns (Some [4]) ∧
  find_file (archive_of demo_archive ++ replicate 512 0) [100] = Panics.
Proof.
  split.
  - apply (find_file_correct demo_archive 512 [98; 99]); [repeat constructor; done|done].
  - apply (find_file_correct demo_archive 512 [100]); [repeat constructor; done|done].
Defined.
