(* ===== verification/Process.v ===== *)
(** * The list of pending processes (kernel/src/process.rs)

    A linked list through the [next] fields of the processes, which live at
    distinct addresses; the list is the global [PENDING_PROCESSES]. *)
From S2P Require Import Prelude.

(** The registers of a process are not looked at here. *)
Record ProcessList : Type := {
  head : option Z;
  tail : option Z;
  next : gmap Z (option Z);
}.
Definition PENDING_PROCESSES (processes : gmap Z (option Z)) : ProcessList :=
  {| head := None; tail := None; next := processes |}.
Definition get_next (p : Z) : M ProcessList (option Z) := s ← get; deref (next s !! p).
Definition set_next (p : Z) (q : option Z) : M ProcessList () :=
  get_next p;; modify (λ s, {| head := head s; tail := tail s; next := <[p := q]> (next s) |}).
(** [push_back]. *)
Definition push_back (process : Z) : M ProcessList () :=
  n ← get_next process;
  rassert (bool_decide (n = None));;
  s ← get;
  match tail s with
  | Some t =>
      n ← get_next t;
      rassert (bool_decide (n = None));;
      set_next t (Some process)
  | None => mret ()
  end;;
  modify (λ s, {| head := head s; tail := Some process; next := next s |}).
(** [pop_front]. *)
Definition pop_front : M ProcessList (option Z) :=
  s ← get;
  match head s with
  | Some h =>
      n ← get_next h;
      modify (λ s, {| head := n; tail := tail s; next := next s |});;
      mret (Some h)
  | None => mret None
  end.

(** Following the [next] fields from [p]. *)
Fixpoint linked (m : gmap Z (option Z)) (p : Z) (l : list Z) : Prop :=
  match l with
  | [] => m !! p = Some None
  | q :: l => m !! p = Some (Some q) ∧ linked m q l
  end.
Lemma linked_insert m p l q v : q ∉ p :: l → linked m p l → linked (<[q := v]> m) p l.
Proof.
  revert p. induction l as [|r l IH]; intros p Hq; cbn.
  - intros H. rewrite lookup_insert_ne; set_solver.
  - intros [H1 H2]. split; [rewrite lookup_insert_ne; set_solver|]. apply IH; [set_solver|done].
Qed.
Lemma linked_snoc m p l q t :
  linked m p l → NoDup (p :: l) → last (p :: l) = Some t → m !! q = Some None → q ∉ p :: l →
  linked (<[t := Some q]> m) p (l ++ [q]).
Proof.
  revert p. induction l as [|r l IH]; intros p Hl Hnd Ht Hq Hnq.
  - injection Ht as ->. cbn. split; [by rewrite lookup_insert_eq|].
    rewrite lookup_insert_ne; [done|set_solver].
  - destruct Hl as [H1 H2]. apply NoDup_cons in Hnd as [Hp Hnd]. cbn [app]. split.
    + rewrite lookup_insert_ne; [done|]. intros ->. apply Hp. by apply last_Some_elem_of.
    + apply IH; [done|done|done|done|set_solver].
Qed.

Lemma linked_last m p l t : linked m p l → last (p :: l) = Some t → m !! t = Some None.
Proof.
  revert p. induction l as [|r l IH]; intros p; cbn [linked].
  - by intros H [= ->].
  - intros [_ H] Ht. by apply (IH r).
Qed.
Lemma NoDup_take' (p : Z) l k : NoDup (p :: l) → NoDup (p :: take k l).
Proof.
  rewrite <-(take_drop k l) at 1. rewrite app_comm_cons. by intros [? _]%NoDup_app.
Qed.
(** The next element and those after it are not among the first ones. *)
Lemma take_disjoint (p : Z) l k q : NoDup (p :: l) → l !! k = Some q →
  q ∉ p :: take k l ∧ ∀ t, t ∈ p :: take k l → t ∉ drop (S k) l.
Proof.
  intros Hnd Hk. rewrite <-(take_drop_middle l k q Hk) in Hnd. rewrite app_comm_cons in Hnd.
  apply NoDup_app in Hnd as (_ & Hd & _). split.
  - intros H. apply (Hd q H). apply elem_of_cons. by left.
  - intros t Ht Hin. apply (Hd t Ht). apply elem_of_cons. by right.
Qed.

(** processes that are pushed are never popped.  Pushing any number of
    distinct processes (whose [next] is [None]) succeeds and links them, in
    order, from the first one to the tail of the list, but [push_back] never
    sets the head: [pop_front] returns [None] and changes nothing. *)
Theorem pushed_processes_are_lost (processes : gmap Z (option Z)) (p : Z) (l : list Z) :
  NoDup (p :: l) → Forall (λ q, processes !! q = Some None) (p :: l) →
  ∃ s, for_each push_back (p :: l) (PENDING_PROCESSES processes) = Returns ((), s) ∧
    linked (next s) p l ∧ tail s = last (p :: l) ∧ pop_front s = Returns (None, s).
Proof.
  intros Hnd Hnone.
  assert (wp (for_each push_back (p :: l)) (λ _ s,
    linked (next s) p l ∧ tail s = last (p :: l) ∧ head s = None) (PENDING_PROCESSES processes)) as H.
  2:{ apply wp_returns in H as ([] & s & E & Hl & Ht & Hh). exists s. split_and!; try done.
      unfold pop_front, mbind, M_bind, get. by rewrite Hh. }
  apply (wp_for_each _ (λ k s, head s = None ∧
    (∀ q, q ∈ drop k (p :: l) → next s !! q = Some None) ∧
    match k with
    | O => tail s = None
    | S k => linked (next s) p (take k l) ∧ tail s = last (p :: take k l)
    end)).
  - split; [done|]. split; [|done]. intros q Hq. rewrite Forall_forall in Hnone. by apply Hnone.
  - intros k q s Hk (Hh & Hrest & Hcase).
    assert (next s !! q = Some None) as Hq.
    { apply Hrest. apply list_elem_of_lookup. exists O. by rewrite lookup_drop, Nat.add_0_r. }
    unfold push_back, get_next. rewrite wp_bind, wp_bind, wp_get, wp_deref. eexists. split; [done|].
    rewrite wp_bind, wp_rassert. split; [done|]. rewrite wp_bind, wp_get, wp_bind.
    destruct k as [|k].
    { rewrite Hcase, wp_ret, wp_modify. injection Hk as <-. split; [done|]. split; [|done].
      intros q' Hq'. apply Hrest. cbn. set_solver. }
    destruct Hcase as [Hl Ht]. cbn in Hk.
    destruct (last (p :: take k l)) as [t|] eqn:Elast; [|by apply last_None in Elast]. rewrite Ht.
    destruct (take_disjoint p l k q Hnd Hk) as [Hq1 Hq2].
    assert (t ∈ p :: take k l) as Hin by (by apply last_Some_elem_of).
    assert (next s !! t = Some None) as Htn by (by eapply linked_last).
    rewrite wp_bind, wp_bind, wp_get, wp_deref. eexists. split; [done|]. rewrite wp_bind, wp_rassert.
    split; [done|]. unfold set_next, get_next. rewrite wp_bind, wp_bind, wp_get, wp_deref.
    eexists. split; [done|]. rewrite !wp_modify. cbn [head tail next]. split; [done|].
    rewrite (take_S_r l k q) by done. split; [|split].
    + intros q' Hq'. rewrite lookup_insert_ne.
      * apply Hrest. cbn in Hq' |- *. apply list_elem_of_lookup in Hq' as [i Hi]. rewrite lookup_drop in Hi.
        apply list_elem_of_lookup. exists (S i). rewrite lookup_drop. rewrite <-Hi. f_equal. lia.
      * intros <-. cbn in Hq'. by eapply Hq2.
    + apply linked_snoc; try done. by apply NoDup_take'.
    + by rewrite app_comm_cons, last_snoc.
  - intros s (Hh & _ & Hcase). cbn [length] in Hcase. rewrite take_ge in Hcase by lia. naive_solver.
Qed.
Lemma pushed_processes_are_lost_witness :
  let m : gmap Z (option Z) := {[ 0x1000 := None; 0x2000 := None ]} in
  ∃ s, for_each push_back [0x1000; 0x2000] (PENDING_PROCESSES m) = Returns ((), s) ∧
    linked (next s) 0x1000 [0x2000] ∧ tail s = last [0x1000; 0x2000] ∧ pop_front s = Returns (None, s).
Proof.
  apply (pushed_processes_are_lost _ 0x1000 [0x2000]); [|by repeat constructor].
  repeat constructor; vm_compute; set_solver.
Defined.
