(* ===== verification/Boot.v ===== *)
(** * The boot memory bitmap (kernel/src/arch/x86_64/limine/entry.rs)

    [limine_entry] builds the bitmap of the page allocator from the memory map of
    the bootloader: one bit per 4 KiB page, most significant bit first, set when
    the page is in use. *)
From S2P Require Import Prelude Paging PageAlloc.

Inductive MemoryMapEntryType : Type :=
  | Usable | Reserved | AcpiReclaimable | AcpiNonVolatileStorage | BadMemory
  | BootloaderReclaimable | KernelAndModules | FramebufferMemory.
#[export] Instance MemoryMapEntryType_eq_dec : EqDecision MemoryMapEntryType.
Proof. solve_decision. Defined.
Record MemoryMapEntry : Type := Entry { base : Z; length : Z; entry_type : MemoryMapEntryType }.
Abbreviation len := Datatypes.length.

Definition START_MASKS : list Z :=
  [0xFF; 0x7F; 0x3F; 0x1F; 0x0F; 0x07; 0x03; 0x01].
Definition END_MASKS : list Z :=
  [0x80; 0xC0; 0xE0; 0xF0; 0xF8; 0xFC; 0xFE; 0xFF].
Definition BIT_RATIO : Z := 4096.
Definition BITMAP_BYTE_RATIO : Z := BIT_RATIO * 8.

(** Indexing and filling a slice. *)
Definition index {A} (l : list A) (i : Z) : outcome A :=
  match l !! Z.to_nat i with Some a => Returns a | None => Panics end.
Definition store (l : list Z) (i v : Z) : outcome (list Z) :=
  if i <? Z.of_nat (len l) then Returns (<[Z.to_nat i := v]> l) else Panics.
Definition fill_range (l : list Z) (a b v : Z) : outcome (list Z) :=
  if (a <=? b) && (b <=? Z.of_nat (len l))
  then Returns (take (Z.to_nat a) l ++ replicate (Z.to_nat (b - a)) v ++ drop (Z.to_nat b) l)
  else Panics.
Definition checked (x : Z) : outcome Z := if fits 64 x then Returns x else Panics.

(** Updating the bits from [start_bitmap_i] to [end_bitmap_i]: the byte [b] of
    both, the first byte, the bytes between, the last byte. *)
Definition update_bits (one : Z → Z → Z → Z) (first last : Z → Z → Z) (middle : Z)
    (start_bitmap_i end_bitmap_i : Z) (bitmap : list Z) : outcome (list Z) :=
  let start_byte_i := start_bitmap_i / 8 in
  let end_byte_i := end_bitmap_i / 8 in
  let start_bit_i := start_bitmap_i mod 8 in
  let end_bit_i := end_bitmap_i mod 8 in
  start_mask ← index START_MASKS start_bit_i;
  end_mask ← index END_MASKS end_bit_i;
  b ← index bitmap start_byte_i;
  if start_byte_i =? end_byte_i then store bitmap start_byte_i (one b start_mask end_mask)
  else
    bitmap ← store bitmap start_byte_i (first b start_mask);
    bitmap ← fill_range bitmap (start_byte_i + 1) end_byte_i middle;
    b ← index bitmap end_byte_i;
    store bitmap end_byte_i (last b end_mask).
(** Freeing the pages of a usable entry. *)
Definition clear_bits : Z → Z → list Z → outcome (list Z) :=
  update_bits (λ b s e, Z.land b (Z.lor (unot 8 s) (unot 8 e)))
    (λ b s, Z.land b (unot 8 s)) (λ b e, Z.land b (unot 8 e)) 0.
Definition clear_entry (entry : MemoryMapEntry) (bitmap : list Z) : outcome (list Z) :=
  last ← checked (base entry + length entry);
  last ← checked (last - 1);
  clear_bits (base entry / BIT_RATIO) (last / BIT_RATIO) bitmap.
(** Reserving the pages of the bitmap itself. *)
Definition set_bits_used : Z → Z → list Z → outcome (list Z) :=
  update_bits (λ b s e, Z.lor b (Z.land s e)) Z.lor Z.lor 0xFF.
Definition reserve_bitmap (ptr : Z) (bitmap : list Z) : outcome (list Z) :=
  last ← checked (ptr + Z.of_nat (len bitmap));
  end_bitmap_i ← checked (last - 1);
  set_bits_used (ptr / BIT_RATIO) end_bitmap_i bitmap.

(** The end of the highest entry. *)
Fixpoint mappable_loop (acc : Z) (memory_map : list MemoryMapEntry) : outcome Z :=
  match memory_map with
  | [] => Returns acc
  | entry :: rest => e ← checked (base entry + length entry); mappable_loop (Z.max acc e) rest
  end.
Definition mappable_bytes (memory_map : list MemoryMapEntry) : outcome Z := mappable_loop 0 memory_map.
Definition is_usable (entry : MemoryMapEntry) : bool := bool_decide (entry_type entry = Usable).
Definition bitmap_size (mappable : Z) : Z := next_multiple_of (mappable / BITMAP_BYTE_RATIO) 4096.
(** The first usable entry that holds the bitmap. *)
Definition find_bitmap (size : Z) (memory_map : list MemoryMapEntry) : option Z :=
  match filter (λ e, is_usable e && (size <=? length e) = true) memory_map with
  | e :: _ => Some (base e)
  | [] => None
  end.
Fixpoint clear_entries (entries : list MemoryMapEntry) (bitmap : list Z) : outcome (list Z) :=
  match entries with
  | [] => Returns bitmap
  | e :: entries => bitmap ← clear_entry e bitmap; clear_entries entries bitmap
  end.
(** The bitmap block of [limine_entry]: the address of the bitmap, its contents
    and the number of pages. *)
Definition build_bitmap (memory_map : list MemoryMapEntry) : outcome (Z * list Z * Z) :=
  mappable ← mappable_bytes memory_map;
  let size := bitmap_size mappable in
  match find_bitmap size memory_map with
  | None => Panics
  | Some ptr =>
      let bitmap := replicate (Z.to_nat size) 0xFF in
      bitmap ← clear_entries (filter (λ e, is_usable e = true) memory_map) bitmap;
      bitmap ← reserve_bitmap ptr bitmap;
      Returns (ptr, bitmap, mappable / 4096)
  end.

(** ** Ranges of bits *)

Definition bytes_ok (l : list Z) : Prop := Forall (λ b, 0 ≤ b < 256) l.
(** What a way of updating the bits of a byte does: it gives the bits of the
    range the value [v]. *)
Record updates (one : Z → Z → Z → Z) (first last : Z → Z → Z) (middle : Z) (v : bool) : Prop := {
  up_one : ∀ b s e j, 0 ≤ b < 256 → 0 ≤ s < 8 → 0 ≤ e < 8 → 0 ≤ j < 8 →
    0 ≤ one b (START_MASKS !!! Z.to_nat s) (END_MASKS !!! Z.to_nat e) < 256 ∧
    Z.testbit (one b (START_MASKS !!! Z.to_nat s) (END_MASKS !!! Z.to_nat e)) (7 - j) =
      if (s <=? j) && (j <=? e) then v else Z.testbit b (7 - j);
  up_first : ∀ b s j, 0 ≤ b < 256 → 0 ≤ s < 8 → 0 ≤ j < 8 →
    0 ≤ first b (START_MASKS !!! Z.to_nat s) < 256 ∧
    Z.testbit (first b (START_MASKS !!! Z.to_nat s)) (7 - j) = if s <=? j then v else Z.testbit b (7 - j);
  up_last : ∀ b e j, 0 ≤ b < 256 → 0 ≤ e < 8 → 0 ≤ j < 8 →
    0 ≤ last b (END_MASKS !!! Z.to_nat e) < 256 ∧
    Z.testbit (last b (END_MASKS !!! Z.to_nat e)) (7 - j) = if j <=? e then v else Z.testbit b (7 - j);
  up_middle : 0 ≤ middle < 256 ∧ ∀ j, 0 ≤ j < 8 → Z.testbit middle (7 - j) = v;
}.
(** The byte facts, by enumeration. *)
Lemma forallb_seqZ f n : forallb f (seqZ 0 n) = true → ∀ x, 0 ≤ x < n → f x = true.
Proof. intros H x Hx. rewrite forallb_forall in H. apply H, list_elem_of_In, elem_of_seqZ. lia. Qed.
Definition bit_check (x : Z) (i : Z) (c : bool) : bool := fits 8 x && eqb (Z.testbit x i) c.
Lemma bit_check_true x i c : bit_check x i c = true → 0 ≤ x < 256 ∧ Z.testbit x i = c.
Proof. unfold bit_check. by rewrite andb_true_iff, fits_spec, eqb_true_iff. Qed.
Definition check_bytes (f : Z → Z → Z → bool) : bool :=
  forallb (λ b, forallb (λ s, forallb (f b s) (seqZ 0 8)) (seqZ 0 8)) (seqZ 0 256).
Lemma check_bytes_true f : check_bytes f = true →
  ∀ b s j, 0 ≤ b < 256 → 0 ≤ s < 8 → 0 ≤ j < 8 → f b s j = true.
Proof.
  intros H b s j Hb Hs Hj.
  exact (forallb_seqZ _ _ (forallb_seqZ _ _ (forallb_seqZ _ _ H b Hb) s Hs) j Hj).
Qed.
Lemma updates_intro one first last middle v :
  check_bytes (λ b s j, forallb (λ e, bit_check (one b (START_MASKS !!! Z.to_nat s) (END_MASKS !!! Z.to_nat e))
    (7 - j) (if (s <=? j) && (j <=? e) then v else Z.testbit b (7 - j))) (seqZ 0 8)) = true →
  check_bytes (λ b s j, bit_check (first b (START_MASKS !!! Z.to_nat s)) (7 - j)
    (if s <=? j then v else Z.testbit b (7 - j))) = true →
  check_bytes (λ b e j, bit_check (last b (END_MASKS !!! Z.to_nat e)) (7 - j)
    (if j <=? e then v else Z.testbit b (7 - j))) = true →
  forallb (λ j, bit_check middle (7 - j) v) (seqZ 0 8) = true → updates one first last middle v.
Proof.
  intros H1 H2 H3 H4. split.
  - intros b s e j Hb Hs He Hj. apply bit_check_true.
    exact (forallb_seqZ _ _ (check_bytes_true _ H1 b s j Hb Hs Hj) e He).
  - intros b s j Hb Hs Hj. apply bit_check_true. exact (check_bytes_true _ H2 b s j Hb Hs Hj).
  - intros b e j Hb He Hj. apply bit_check_true. exact (check_bytes_true _ H3 b e j Hb He Hj).
  - split; [by apply (bit_check_true _ (7 - 0) v), (forallb_seqZ _ _ H4 0)|].
    intros j Hj. by apply bit_check_true, (forallb_seqZ _ _ H4).
Qed.
Lemma clear_updates : updates (λ b s e, Z.land b (Z.lor (unot 8 s) (unot 8 e)))
  (λ b s, Z.land b (unot 8 s)) (λ b e, Z.land b (unot 8 e)) 0 false.
Proof. apply updates_intro; vm_compute; reflexivity. Qed.
Lemma set_updates : updates (λ b s e, Z.lor b (Z.land s e)) Z.lor Z.lor 0xFF true.
Proof. apply updates_intro; vm_compute; reflexivity. Qed.

Lemma fill_range_spec l a b v : 0 ≤ a ≤ b → b ≤ Z.of_nat (len l) →
  ∃ l', fill_range l a b v = Returns l' ∧ len l' = len l ∧
    ∀ i, 0 ≤ i → l' !! Z.to_nat i = if decide (a ≤ i < b) then Some v else l !! Z.to_nat i.
Proof.
  intros Hab Hb. unfold fill_range. rewrite (proj2 (Z.leb_le _ _)), (proj2 (Z.leb_le _ _)) by lia.
  eexists. split; [done|]. split; [rewrite !length_app, length_take, length_replicate, length_drop; lia|].
  intros i Hi. destruct (decide (i < a)).
  { rewrite decide_False by lia. rewrite lookup_app_l by (rewrite length_take; lia). apply lookup_take_lt. lia. }
  rewrite lookup_app_r by (rewrite length_take; lia). rewrite length_take_le by lia.
  destruct (decide (i < b)).
  { rewrite decide_True by lia. rewrite lookup_app_l by (rewrite length_replicate; lia).
    apply lookup_replicate. split; [done|lia]. }
  rewrite decide_False by lia. rewrite lookup_app_r by (rewrite length_replicate; lia).
  rewrite length_replicate, lookup_drop. f_equal. lia.
Qed.
Lemma lookup_mask (l : list Z) i : len l = 8%nat → 0 ≤ i < 8 → index l i = Returns (l !!! Z.to_nat i).
Proof.
  intros Hl Hi. unfold index. destruct (lookup_lt_is_Some_2 l (Z.to_nat i)) as [x Hx]; [lia|].
  rewrite Hx. by rewrite (list_lookup_total_correct _ _ _ Hx).
Qed.
Lemma testbit_byte_of bm p : page_bit bm p = Z.testbit (default 0 (bm !! Z.to_nat (p / 8))) (7 - p mod 8).
Proof. done. Qed.

Lemma store_ok l i v : i < Z.of_nat (len l) → store l i v = Returns (<[Z.to_nat i := v]> l).
Proof. intros H. unfold store. by rewrite (proj2 (Z.ltb_lt _ _)) by done. Qed.

Section range.
Context (one : Z → Z → Z → Z) (first last : Z → Z → Z) (middle : Z) (v : bool)
  (Hup : updates one first last middle v).
(** Updating a range of bits inside the bitmap. *)
(** A bitmap whose bytes are the old ones outside [s / 8 .. e / 8], [middle]
    inside, and the changed old bytes at the ends, has the bits of the range changed. *)
Lemma update_bits_bytes s e bm bm' b be :
  bytes_ok bm → 0 ≤ s ≤ e → s / 8 < e / 8 → bm !! Z.to_nat (s / 8) = Some b → bm !! Z.to_nat (e / 8) = Some be →
  (∀ i, 0 ≤ i → bm' !! Z.to_nat i =
    if decide (i = e / 8) then Some (last be (END_MASKS !!! Z.to_nat (e mod 8)))
    else if decide (s / 8 < i < e / 8) then Some middle
    else if decide (i = s / 8) then Some (first b (START_MASKS !!! Z.to_nat (s mod 8))) else bm !! Z.to_nat i) →
  bytes_ok bm' ∧ ∀ p, 0 ≤ p → page_bit bm' p = if decide (s ≤ p ≤ e) then v else page_bit bm p.
Proof.
  intros Hb Hse Ese Hbs Hbe Hall.
  pose proof (Z.mod_pos_bound s 8 ltac:(lia)) as Hs8. pose proof (Z.mod_pos_bound e 8 ltac:(lia)) as He8.
  pose proof (Forall_lookup_1 _ _ _ _ Hb Hbs) as Hb256. pose proof (Forall_lookup_1 _ _ _ _ Hb Hbe) as Hbe256.
  cbn beta in Hb256, Hbe256. split.
  - apply Forall_lookup_2. intros i x Hi. rewrite <-(Nat2Z.id i), Hall in Hi by lia.
    repeat case_decide; simplify_eq.
    + by apply (up_last _ _ _ _ _ Hup be (e mod 8) 0).
    + apply Hup.
    + by apply (up_first _ _ _ _ _ Hup b (s mod 8) 0).
    + rewrite Nat2Z.id in Hi. by apply (Forall_lookup_1 _ _ _ _ Hb Hi).
  - intros p Hp. pose proof (Z.mod_pos_bound p 8 ltac:(lia)) as Hp8.
    rewrite (testbit_byte_of bm'), Hall by (apply Z.div_pos; lia).
    case_decide as E1; [|case_decide as E2; [|case_decide as E3]]; cbn [default id].
    + rewrite (proj2 (up_last _ _ _ _ _ Hup be (e mod 8) (p mod 8) Hbe256 He8 Hp8)).
      rewrite testbit_byte_of, E1, Hbe. cbn [default id].
      destruct (Z.leb_spec (p mod 8) (e mod 8)); case_decide; try done; exfalso; Z.div_mod_to_equations; lia.
    + rewrite (proj2 (up_middle _ _ _ _ _ Hup)) by done. rewrite decide_True; [done|].
      Z.div_mod_to_equations; lia.
    + rewrite (proj2 (up_first _ _ _ _ _ Hup b (s mod 8) (p mod 8) Hb256 Hs8 Hp8)).
      rewrite testbit_byte_of, E3, Hbs. cbn [default id].
      destruct (Z.leb_spec (s mod 8) (p mod 8)); case_decide; try done; exfalso; Z.div_mod_to_equations; lia.
    + rewrite decide_False; [done|]. Z.div_mod_to_equations; lia.
Qed.
Lemma update_bits_spec s e bm :
  bytes_ok bm → 0 ≤ s ≤ e → e < num_bits bm →
  ∃ bm', update_bits one first last middle s e bm = Returns bm' ∧ len bm' = len bm ∧ bytes_ok bm' ∧
    ∀ p, 0 ≤ p → page_bit bm' p = if decide (s ≤ p ≤ e) then v else page_bit bm p.
Proof.
  intros Hb Hse He. unfold num_bits in He. unfold update_bits.
  pose proof (Z.mod_pos_bound s 8 ltac:(lia)) as Hs8. pose proof (Z.mod_pos_bound e 8 ltac:(lia)) as He8.
  assert (0 ≤ s / 8 ≤ e / 8 ∧ e / 8 < Z.of_nat (len bm)) as [[H0 H1] H2] by (Z.div_mod_to_equations; lia).
  rewrite (lookup_mask START_MASKS), (lookup_mask END_MASKS) by done. cbn [mbind outcome_bind].
  destruct (lookup_lt_is_Some_2 bm (Z.to_nat (s / 8))) as [b Hbs]; [lia|].
  assert (index bm (s / 8) = Returns b) as -> by (unfold index; by rewrite Hbs). cbn [mbind outcome_bind].
  pose proof (Forall_lookup_1 _ _ _ _ Hb Hbs) as Hb256. cbn beta in Hb256.
  destruct (Z.eqb_spec (s / 8) (e / 8)) as [Ese|Ese].
  - rewrite store_ok by lia. eexists. split; [done|]. split; [apply length_insert|].
    split; [apply Forall_insert; [done|]; apply (up_one _ _ _ _ _ Hup b (s mod 8) (e mod 8) 0); lia|].
    intros p Hp. pose proof (Z.mod_pos_bound p 8 ltac:(lia)) as Hp8.
    rewrite page_bit_insert by lia. destruct (Z.eqb_spec (p / 8) (s / 8)) as [Ep|Ep].
    + rewrite (proj2 (up_one _ _ _ _ _ Hup b (s mod 8) (e mod 8) (p mod 8) Hb256 Hs8 He8 Hp8)).
      rewrite testbit_byte_of, Ep, Hbs. cbn [default id].
      destruct (Z.leb_spec (s mod 8) (p mod 8)), (Z.leb_spec (p mod 8) (e mod 8)); case_decide; try done;
        exfalso; Z.div_mod_to_equations; lia.
    + rewrite decide_False; [done|]. Z.div_mod_to_equations; lia.
  - rewrite (store_ok bm) by lia. cbn [mbind outcome_bind].
    set (bm1 := <[Z.to_nat (s / 8) := first b (START_MASKS !!! Z.to_nat (s mod 8))]> bm).
    assert (len bm1 = len bm) as Hl1 by apply length_insert.
    destruct (fill_range_spec bm1 (s / 8 + 1) (e / 8) middle) as (bm2 & Hf & Hl2 & Hlk); [lia|lia|].
    rewrite Hf. cbn [mbind outcome_bind].
    destruct (lookup_lt_is_Some_2 bm (Z.to_nat (e / 8))) as [be Hbe]; [lia|].
    pose proof (Forall_lookup_1 _ _ _ _ Hb Hbe) as Hbe256. cbn beta in Hbe256.
    assert (bm2 !! Z.to_nat (e / 8) = Some be) as Hbe2.
    { rewrite Hlk, decide_False by lia. unfold bm1. by rewrite list_lookup_insert_ne by lia. }
    assert (index bm2 (e / 8) = Returns be) as -> by (unfold index; by rewrite Hbe2).
    cbn [mbind outcome_bind].
    rewrite store_ok by lia. eexists. split; [done|].
    split; [rewrite length_insert; congruence|]. 
    apply (update_bits_bytes s e bm _ b be); [done|done|lia|done|done|].
    intros i Hi. case_decide as E1; [subst; apply list_lookup_insert_eq; lia|].
      rewrite list_lookup_insert_ne by lia. rewrite Hlk by done.
      destruct (decide (s / 8 < i < e / 8)); [by rewrite decide_True by lia|]. rewrite decide_False by lia.
      unfold bm1. case_decide as E2; [subst; apply list_lookup_insert_eq; lia|].
      by rewrite list_lookup_insert_ne by lia.
Qed.
Lemma update_bits_panics s e bm : 0 ≤ s ≤ e → num_bits bm ≤ e → update_bits one first last middle s e bm = Panics.
Proof.
  intros Hse He. unfold num_bits in He. unfold update_bits.
  pose proof (Z.mod_pos_bound s 8 ltac:(lia)) as Hs8. pose proof (Z.mod_pos_bound e 8 ltac:(lia)) as He8.
  assert (0 ≤ s / 8 ≤ e / 8 ∧ Z.of_nat (len bm) ≤ e / 8) as [[H0 H1] H2] by (Z.div_mod_to_equations; lia).
  rewrite (lookup_mask START_MASKS), (lookup_mask END_MASKS) by done. cbn [mbind outcome_bind].
  destruct (bm !! Z.to_nat (s / 8)) as [b|] eqn:Hbs.
  2:{ assert (index bm (s / 8) = Panics) as -> by (unfold index; by rewrite Hbs). done. }
  assert (index bm (s / 8) = Returns b) as -> by (unfold index; by rewrite Hbs). cbn [mbind outcome_bind].
  apply lookup_lt_Some in Hbs. destruct (Z.eqb_spec (s / 8) (e / 8)); [lia|].
  rewrite (store_ok bm) by lia. cbn [mbind outcome_bind]. unfold fill_range.
  rewrite length_insert. destruct (Z.leb_spec (s / 8 + 1) (e / 8)); [|lia].
  destruct (Z.leb_spec (e / 8) (Z.of_nat (len bm))); [|done]. cbn [andb mbind outcome_bind].
  unfold index. rewrite lookup_ge_None_2; [done|].
  rewrite !length_app, length_take, length_replicate, length_drop, !length_insert. lia.
Qed.
End range.

(** ** The bitmap of a memory map *)

(** The pages of the usable entries, and the end of the highest entry. *)
Definition entry_page (p : Z) (e : MemoryMapEntry) : bool :=
  is_usable e && (base e / BIT_RATIO <=? p) && (p <=? (base e + length e - 1) / BIT_RATIO).
Definition usable_page (memory_map : list MemoryMapEntry) (p : Z) : bool := existsb (entry_page p) memory_map.
Definition top (memory_map : list MemoryMapEntry) : Z :=
  foldr (λ e, Z.max (base e + length e)) 0 memory_map.
Definition memory_map_ok : list MemoryMapEntry → Prop :=
  Forall (λ e, 0 ≤ base e ∧ 0 < length e ∧ base e + length e < 2 ^ 64).

Lemma top_nonneg memory_map : 0 ≤ top memory_map.
Proof. induction memory_map as [|e l IH]; [done|]. change (top (e :: l)) with (Z.max (base e + length e) (top l)). lia. Qed.
Lemma checked_ok x : 0 ≤ x < 2 ^ 64 → checked x = Returns x.
Proof. intros H. unfold checked. by rewrite (proj2 (fits_spec 64 x) H). Qed.
Lemma mappable_loop_ok acc memory_map : memory_map_ok memory_map →
  mappable_loop acc memory_map = Returns (foldr (λ e, Z.max (base e + length e)) acc memory_map).
Proof.
  revert acc. induction memory_map as [|e l IH]; intros acc; [done|].
  intros [(Hb & Hl & He) H]%Forall_cons. cbn [mappable_loop foldr].
  rewrite checked_ok by lia. cbn [mbind outcome_bind]. rewrite IH by done. f_equal.
  clear -acc. induction l as [|e' l IH]; cbn [foldr]; lia.
Qed.
Lemma clear_entries_spec l bm : bytes_ok bm → memory_map_ok l →
  Forall (λ e, base e + length e ≤ BIT_RATIO * num_bits bm) l → Forall (λ e, is_usable e = true) l →
  ∃ bm', clear_entries l bm = Returns bm' ∧ len bm' = len bm ∧ bytes_ok bm' ∧
    ∀ p, 0 ≤ p → page_bit bm' p = negb (usable_page l p) && page_bit bm p.
Proof.
  revert bm. induction l as [|e l IH]; intros bm Hok Hm Hin Hu; [by exists bm|].
  apply Forall_cons in Hm as [(Hb & Hl & He) Hm]. apply Forall_cons in Hin as [Hi Hin].
  apply Forall_cons in Hu as [Hue Hu]. cbn [clear_entries]. unfold clear_entry.
  rewrite (checked_ok (base e + length e)) by lia. cbn [mbind outcome_bind].
  rewrite (checked_ok (base e + length e - 1)) by lia. cbn [mbind outcome_bind]. unfold clear_bits, BIT_RATIO in *.
  destruct (update_bits_spec _ _ _ _ _ clear_updates (base e / 4096) ((base e + length e - 1) / 4096) bm)
    as (bm1 & -> & Hl1 & Hok1 & Hp1); [done|Z.div_mod_to_equations; lia..|].
  cbn [mbind outcome_bind].
  destruct (IH bm1) as (bm2 & Hbm2 & Hl2 & Hok2 & Hp2); [done|done| |done|].
  { unfold num_bits. by rewrite Hl1. }
  exists bm2. split; [done|]. split; [congruence|]. split; [done|]. intros p Hp.
  rewrite Hp2, Hp1 by done. cbn [usable_page existsb]. fold (usable_page l p).
  unfold entry_page, BIT_RATIO. rewrite Hue. destruct (Z.leb_spec (base e / 4096) p), (Z.leb_spec p ((base e + length e - 1) / 4096));
    case_decide; try lia; cbn [andb orb negb]; by destruct (usable_page l p).
Qed.
Lemma clear_entries_panics l bm : bytes_ok bm → memory_map_ok l →
  Exists (λ e, BIT_RATIO * num_bits bm < base e + length e) l → clear_entries l bm = Panics.
Proof.
  revert bm. induction l as [|e l IH]; intros bm Hok Hm Hex; [by apply Exists_nil in Hex|].
  apply Forall_cons in Hm as [(Hb & Hl & He) Hm]. cbn [clear_entries]. unfold clear_entry.
  rewrite (checked_ok (base e + length e)) by lia. cbn [mbind outcome_bind].
  rewrite (checked_ok (base e + length e - 1)) by lia. cbn [mbind outcome_bind]. unfold clear_bits, BIT_RATIO in *.
  assert (0 ≤ base e / 4096 ≤ (base e + length e - 1) / 4096) by (Z.div_mod_to_equations; lia).
  destruct (decide (num_bits bm ≤ (base e + length e - 1) / 4096)).
  { by rewrite (update_bits_panics _ _ _ _ (base e / 4096)) by done. }
  destruct (update_bits_spec _ _ _ _ _ clear_updates (base e / 4096) ((base e + length e - 1) / 4096) bm)
    as (bm1 & -> & Hl1 & Hok1 & _); [done|lia..|]. cbn [mbind outcome_bind]. apply IH; [done..|].
  apply Exists_cons in Hex as [Hex|Hex]; [exfalso; Z.div_mod_to_equations; lia|].
  unfold num_bits in *. by rewrite Hl1.
Qed.
Lemma usable_page_filter l p : usable_page (filter (λ e, is_usable e = true) l) p = usable_page l p.
Proof.
  induction l as [|e l IH]; [done|]. rewrite filter_cons. cbn [usable_page existsb].
  fold (usable_page l p). rewrite <-IH. case_decide as E; [done|].
  apply not_true_is_false in E. unfold entry_page. by rewrite E.
Qed.
Lemma page_bit_filled n p : 0 ≤ p < 8 * Z.of_nat n → page_bit (replicate n 0xFF) p = true.
Proof.
  intros Hp. unfold page_bit. rewrite lookup_replicate_2 by (Z.div_mod_to_equations; lia). cbn [default id].
  change 0xFF with (Z.ones 8). pose proof (Z.mod_pos_bound p 8). apply Z.ones_spec_low. lia.
Qed.

(** C26: The boot bitmap marks as free exactly the pages of the usable entries,
    less the pages from the first page of the bitmap to the page whose number is
    the ADDRESS of its last byte: the last page is not divided by the page size,
    and when that number is beyond the bitmap the kernel panics. *)
Theorem build_bitmap_correct memory_map loc :
  let size := bitmap_size (top memory_map) in
  memory_map_ok memory_map →
  Forall (λ e, is_usable e = true → base e + length e ≤ BITMAP_BYTE_RATIO * size) memory_map →
  find_bitmap size memory_map = Some loc →
  (loc + size - 1 < 8 * size →
    ∃ bm, build_bitmap memory_map = Returns (loc, bm, top memory_map / 4096) ∧
      Z.of_nat (len bm) = size ∧ bytes_ok bm ∧
      ∀ p, 0 ≤ p < 8 * size →
        page_bit bm p = negb (usable_page memory_map p) || (loc / 4096 <=? p) && (p <=? loc + size - 1)) ∧
  (8 * size ≤ loc + size - 1 → build_bitmap memory_map = Panics).
Proof.
  intros size Hm Hin Hfind. unfold build_bitmap, mappable_bytes. rewrite mappable_loop_ok by done.
  cbn [mbind outcome_bind]. change (foldr _ 0 memory_map) with (top memory_map). fold size. rewrite Hfind.
  set (us := filter (λ e, is_usable e = true) memory_map).
  assert (0 ≤ size) as Hsize.
  { unfold size, bitmap_size, next_multiple_of, BITMAP_BYTE_RATIO, BIT_RATIO.
    pose proof (top_nonneg memory_map).
    apply Z.mul_nonneg_nonneg; [|done]. apply Z.div_pos; [|done].
    pose proof (Z.div_pos (top memory_map) (4096 * 8)). lia. }
  assert (0 ≤ loc ∧ loc + size < 2 ^ 64 ∧ 0 < size) as (Hloc & Hloc2 & Hpos).
  { unfold find_bitmap in Hfind. destruct (filter _ memory_map) as [|e l] eqn:E; [done|]. simplify_eq.
    assert (e ∈ filter (λ e, is_usable e && (size <=? length e) = true) memory_map) as He by (rewrite E; left).
    apply list_elem_of_filter in He as [He1 He2]. rewrite andb_true_iff, Z.leb_le in He1.
    pose proof (proj1 (Forall_forall _ _) Hm e He2). cbn beta in *.
    pose proof (proj1 (Forall_forall _ _) Hin e He2 ltac:(tauto)).
    unfold BITMAP_BYTE_RATIO, BIT_RATIO in *. lia. }
  destruct (clear_entries_spec us (replicate (Z.to_nat size) 0xFF)) as (bm1 & -> & Hl1 & Hok1 & Hp1).
  { apply Forall_replicate. lia. }
  { apply Forall_forall. intros e [_ He]%list_elem_of_filter. exact (proj1 (Forall_forall _ _) Hm e He). }
  { apply Forall_forall. intros e [Hu He]%list_elem_of_filter.
    pose proof (proj1 (Forall_forall _ _) Hin e He Hu). unfold num_bits. rewrite length_replicate.
    unfold BITMAP_BYTE_RATIO, BIT_RATIO in *. lia. }
  { apply Forall_forall. by intros e [Hu He]%list_elem_of_filter. }
  rewrite length_replicate in Hl1. assert (num_bits bm1 = 8 * size) as Hn by (unfold num_bits; lia).
  cbn [mbind outcome_bind]. unfold reserve_bitmap. rewrite Hl1, Z2Nat.id by done.
  rewrite (checked_ok (loc + size)) by lia. cbn [mbind outcome_bind]. unfold BIT_RATIO.
  assert (loc / 4096 ≤ loc) by (Z.div_mod_to_equations; lia). pose proof (Z.div_pos loc 4096 ltac:(lia) ltac:(lia)).
  rewrite (checked_ok (loc + size - 1)) by lia. cbn [mbind outcome_bind]. unfold set_bits_used. split.
  - intros Hlt. destruct (update_bits_spec _ _ _ _ _ set_updates (loc / 4096) (loc + size - 1) bm1)
      as (bm2 & -> & Hl2 & Hok2 & Hp2); [done|lia..|]. cbn [mbind outcome_bind].
    exists bm2. split; [done|]. split; [lia|]. split; [done|]. intros p Hp.
    rewrite Hp2, Hp1 by lia. unfold us. rewrite usable_page_filter, page_bit_filled, andb_true_r by lia.
    destruct (Z.leb_spec (loc / 4096) p), (Z.leb_spec p (loc + size - 1)); case_decide; try lia;
      by destruct (usable_page memory_map p).
  - intros Hge. by rewrite (update_bits_panics _ _ _ _ (loc / 4096) (loc + size - 1) bm1) by lia.
Qed.
(** A machine with 128 MiB of usable memory from 4 KiB to 128 MiB, and one with
    the bitmap above [7 * size]. *)
Definition demo_map (start : Z) : list MemoryMapEntry :=
  [Entry 0 4096 Reserved; Entry start (0x8000000 - start) Usable].
Lemma build_bitmap_correct_witness :
  (∃ bm, build_bitmap (demo_map 4096) = Returns (4096, bm, 32768) ∧ Z.of_nat (len bm) = 4096 ∧ bytes_ok bm ∧
    ∀ p, 0 ≤ p < 32768 →
      page_bit bm p = negb (usable_page (demo_map 4096) p) || (1 <=? p) && (p <=? 8191)) ∧
  build_bitmap (demo_map 0x8000) = Panics.
Proof.
  split.
  - apply (build_bitmap_correct (demo_map 4096) 4096); [by apply (bool_decide_unpack _); vm_compute|by apply (bool_decide_unpack _); vm_compute|done|done].
  - apply (build_bitmap_correct (demo_map 0x8000) 0x8000); [by apply (bool_decide_unpack _); vm_compute|by apply (bool_decide_unpack _); vm_compute|done|done].
Defined.

(** The size of the bitmap is rounded down before it is rounded up to whole
    pages: usable memory that ends beyond a multiple of 128 MiB (and at its end
    in the first 32 KiB after it) has no byte in the bitmap, and the kernel
    panics. *)
Theorem bitmap_size_too_small memory_map k :
  0 < k → memory_map_ok memory_map →
  0x8000000 * k < top memory_map < 0x8000000 * k + 0x8000 →
  Exists (λ e, is_usable e = true ∧ base e + length e = top memory_map) memory_map →
  bitmap_size (top memory_map) = 4096 * k ∧ build_bitmap memory_map = Panics.
Proof.
  intros Hk Hm Htop Hex.
  assert (bitmap_size (top memory_map) = 4096 * k) as Hsize.
  { unfold bitmap_size, next_multiple_of, BITMAP_BYTE_RATIO, BIT_RATIO. Z.div_mod_to_equations; lia. }
  split; [done|]. unfold build_bitmap, mappable_bytes. rewrite mappable_loop_ok by done.
  cbn [mbind outcome_bind]. change (foldr _ 0 memory_map) with (top memory_map). rewrite Hsize.
  destruct (find_bitmap _ _); [|done]. rewrite clear_entries_panics; [done| | |].
  - apply Forall_replicate. lia.
  - apply Forall_forall. intros e [_ He]%list_elem_of_filter. exact (proj1 (Forall_forall _ _) Hm e He).
  - apply Exists_exists in Hex as (e & He & Hu & Hend). apply Exists_exists. exists e.
    split; [by apply list_elem_of_filter|]. unfold num_bits, BIT_RATIO. rewrite length_replicate. lia.
Qed.
Lemma bitmap_size_too_small_witness :
  bitmap_size (top [Entry 0x1000 0x8000000 Usable]) = 4096 * 1 ∧
  build_bitmap [Entry 0x1000 0x8000000 Usable] = Panics.
Proof.
  apply (bitmap_size_too_small [Entry 0x1000 0x8000000 Usable] 1); [done|by apply (bool_decide_unpack _); vm_compute|done|by left].
Defined.
