(* ===== verification/Interrupts.v ===== *)
(** * Interrupt routing (kernel/src/arch/x86_64/{interrupts,apic,idt}.rs)

    The entries of the interrupt descriptor table, the register files of the
    local APIC and of the I/O APICs, and the routing of the legacy interrupt
    lines to interrupt vectors. The devices are behind the class [Mmio] of
    volatile accesses and the class [IoApics], which states what an I/O APIC
    promises about its select register and its data window, and where the register
    LAPIC_ID of a local APIC has the id. *)
From S2P Require Import Prelude.

(** ** Entries of the interrupt descriptor table *)
Module idt.
Definition u16 (x : Z) : Z := trunc 16 x.
Definition u32 (x : Z) : Z := trunc 32 x.
(** The bit field [EntryOptions]. *)
Definition stack_index_minus_one (o : Z) : Z := get_bits o 2 0.
Definition gate_type (o : Z) : Z := get_bits o 11 9.
Definition interrupts_enabled (o : Z) : bool := Z.testbit o 8.
Definition discriptor_privilege_level (o : Z) : Z := get_bits o 14 13.
Definition present (o : Z) : bool := Z.testbit o 15.
Definition EntryOptions_minimal : Z := Z.shiftl 7 9.
Definition EntryOptions_present_minimal : Z := Z.lor (Z.shiftl 1 15) (Z.shiftl 7 9).
Definition present_with_stack_index (tss_index : Z) : outcome Z :=
  if fits 8 (tss_index + 1)
  then Returns (Z.lor EntryOptions_present_minimal (Z.land (tss_index + 1) 7))
  else Panics.
Record Entry : Type := {
  ptr_low : Z; gdt_selector : Z; options : Z; ptr_middle : Z; ptr_high : Z; _reserved : Z;
}.
Definition missing : Entry :=
  {| ptr_low := 0; gdt_selector := 0; options := EntryOptions_minimal;
     ptr_middle := 0; ptr_high := 0; _reserved := 0 |}.
(** [offset_of!(KernelGdt, kernel_code)] and [offset_of!(InterruptStacks, generic) / 8]. *)
Definition kernel_code_selector : Z := 8.
Definition generic_stack : Z := 0 / 8.
Definition entry_for (handler_address options : Z) : Entry :=
  {| ptr_low := u16 handler_address; gdt_selector := u16 kernel_code_selector; options := options;
     ptr_middle := u16 (Z.shiftr handler_address 16); ptr_high := u32 (Z.shiftr handler_address 32);
     _reserved := 0 |}.
Definition with_handler (handler : Z) : Entry := entry_for handler EntryOptions_present_minimal.
Definition with_handler_and_stack (handler tss_index : Z) : outcome Entry :=
  options ← present_with_stack_index tss_index; Returns (entry_for handler options).
Definition with_handler_and_generic_stack (handler : Z) : outcome Entry :=
  with_handler_and_stack handler (trunc 8 generic_stack).
(** The handler the processor calls for an entry. *)
Definition handler_of (e : Entry) : Z :=
  ptr_low e + Z.shiftl (ptr_middle e) 16 + Z.shiftl (ptr_high e) 32.
End idt.
Export (hints) idt.

(** ** Registers *)
Class Mmio (H : Type) : Type := {
  write_volatile : Z → Z → H → H;
  read_volatile : Z → H → Z * H;
}.
Definition mmio_read {H} `{Mmio H} (a : Z) : M H Z := λ h, Returns (read_volatile a h).
Definition mmio_write {H} `{Mmio H} (a v : Z) : M H () := modify (write_volatile a v).
Section mmio.
Context {H : Type} `{Mmio H}.
Lemma wp_mmio_read a (Q : Z → H → Prop) h :
  wp (mmio_read a) Q h ↔ Q (fst (read_volatile a h)) (snd (read_volatile a h)).
Proof. unfold wp, mmio_read. by destruct (read_volatile a h). Qed.
Lemma wp_mmio_write a v (Q : () → H → Prop) h : wp (mmio_write a v) Q h ↔ Q () (write_volatile a v h).
Proof. done. Qed.
End mmio.
Module local.
Inductive LocalApicRegister : Type :=
  | LapicId | LapicVersion | TaskPriority | ArbitrationPriority | ProcessorPriority | Eoi
  | RemoteRead | LogicalDestination | DestinationFormat | SpuriousInterruptVector | ErrorStatus
  | LvtCmci | LvtTimer | LvtThermalSensor | LvtPerfMonitoringCounters | LvtLint0 | LvtLint1
  | LvtError | InitialCount | CurrentCount | DivideConfiguration.
(** Offset, readable, writable. *)
Definition get_properties (r : LocalApicRegister) : Z * bool * bool :=
  match r with
  | LapicId => (0x20, true, true)
  | LapicVersion => (0x30, true, false)
  | TaskPriority => (0x80, true, true)
  | ArbitrationPriority => (0x90, true, false)
  | ProcessorPriority => (0xA0, true, false)
  | Eoi => (0xB0, false, true)
  | RemoteRead => (0xC0, true, false)
  | LogicalDestination => (0xD0, true, true)
  | DestinationFormat => (0xE0, true, true)
  | SpuriousInterruptVector => (0xF0, true, true)
  | ErrorStatus => (0x280, true, false)
  | LvtCmci => (0x2F0, true, true)
  | LvtTimer => (0x320, true, true)
  | LvtThermalSensor => (0x330, true, true)
  | LvtPerfMonitoringCounters => (0x340, true, true)
  | LvtLint0 => (0x350, true, true)
  | LvtLint1 => (0x360, true, true)
  | LvtError => (0x370, true, true)
  | InitialCount => (0x380, true, true)
  | CurrentCount => (0x390, true, false)
  | DivideConfiguration => (0x3E0, true, true)
  end.
(** A [LocalApic] is its base address. *)
Definition read_register {H} `{Mmio H} (self : Z) (register : LocalApicRegister) : M H Z :=
  let '(offset, readable, _) := get_properties register in
  rassert readable;; a ← chk 64 (self + offset); mmio_read a.
Definition write_register {H} `{Mmio H} (self : Z) (register : LocalApicRegister) (value : Z) : M H () :=
  let '(offset, _, writable) := get_properties register in
  rassert writable;; a ← chk 64 (self + offset); mmio_write a value.
Definition signal_eoi {H} `{Mmio H} (self : Z) : M H () := write_register self Eoi 0.
End local.

Module io.
Inductive DeliveryMode : Type :=
  | Normal | LowPriority | SystemManagementInterrupt | Unknown1 | NonMaskableInterrupt | Init
  | Unknown2 | External.
Definition DeliveryMode_u8 (d : DeliveryMode) : Z :=
  match d with
  | Normal => 0 | LowPriority => 1 | SystemManagementInterrupt => 2 | Unknown1 => 3
  | NonMaskableInterrupt => 4 | Init => 5 | Unknown2 => 6 | External => 7
  end.
Inductive DestinationMode : Type := Physical | Logical.
Inductive Polarity : Type := High | Low.
Inductive LevelTriggeredInterruptStatus : Type := EoiSent | InterruptReceived.
Inductive TriggerMode : Type := EdgeSensitive | LevelSensitive.
Definition DestinationMode_bool (m : DestinationMode) : bool := match m with Physical => false | Logical => true end.
Definition Polarity_bool (p : Polarity) : bool := match p with High => false | Low => true end.
Definition TriggerMode_bool (t : TriggerMode) : bool := match t with EdgeSensitive => false | LevelSensitive => true end.
(** The bit field [RedirectionEntry]. *)
Definition interrupt_vector (e : Z) : Z := get_bits e 7 0.
Definition set_interrupt_vector (v e : Z) : Z := set_bits e 7 0 v.
Definition delivery_mode_u3 (e : Z) : Z := get_bits e 10 8.
Definition set_delivery_mode (d : DeliveryMode) (e : Z) : Z := set_bits e 10 8 (DeliveryMode_u8 d).
Definition delivery_mode (e : Z) : outcome DeliveryMode :=
  match delivery_mode_u3 e with
  | 0 => Returns Normal
  | 1 => Returns LowPriority
  | 2 => Returns SystemManagementInterrupt
  | 3 => Returns Unknown1
  | 4 => Returns NonMaskableInterrupt
  | 5 => Returns Init
  | 6 => Returns Unknown1
  | 7 => Returns External
  | _ => Panics
  end.
Definition destination_mode (e : Z) : DestinationMode := if Z.testbit e 11 then Logical else Physical.
Definition set_destination_mode (m : DestinationMode) (e : Z) : Z := set_bit e 11 (DestinationMode_bool m).
Definition polarity (e : Z) : Polarity := if Z.testbit e 13 then Low else High.
Definition set_polarity (p : Polarity) (e : Z) : Z := set_bit e 13 (Polarity_bool p).
Definition trigger_mode (e : Z) : TriggerMode := if Z.testbit e 15 then LevelSensitive else EdgeSensitive.
Definition set_trigger_mode (t : TriggerMode) (e : Z) : Z := set_bit e 15 (TriggerMode_bool t).
Definition masked (e : Z) : bool := Z.testbit e 16.
Definition set_masked (b : bool) (e : Z) : Z := set_bit e 16 b.
Definition destination (e : Z) : Z := get_bits e 63 56.
Definition set_destination (v e : Z) : Z := set_bits e 63 56 v.

Record IoApic : Type := {
  base_address : Z; _id : Z; global_system_interrupt_base : Z; num_redirection_entries : Z;
}.
Section access.
Context {H : Type} `{Mmio H}.
Definition read_window (base : Z) : M H Z := a ← chk 64 (base + 0x10); mmio_read a.
Definition write_window (base value : Z) : M H () := a ← chk 64 (base + 0x10); mmio_write a value.
Definition read_redirection_entry (self : IoApic) (i : Z) : M H Z :=
  rassert (i <? num_redirection_entries self);;
  d ← chk 8 (i * 2); register_start_index ← chk 8 (d + 0x10);
  mmio_write (base_address self) register_start_index;;
  lower ← read_window (base_address self);
  mmio_write (base_address self) (register_start_index + 1);;
  upper ← read_window (base_address self);
  mret (Z.lor (Z.shiftl upper 32) lower).
Definition write_redirection_entry (self : IoApic) (i entry : Z) : M H () :=
  rassert (i <? num_redirection_entries self);;
  d ← chk 8 (i * 2); register_start_index ← chk 8 (d + 0x10);
  let lower := trunc 32 entry in let upper := trunc 32 (Z.shiftr entry 32) in
  mmio_write (base_address self) register_start_index;;
  write_window (base_address self) lower;;
  mmio_write (base_address self) (register_start_index + 1);;
  write_window (base_address self) upper.
End access.
End io.

(** ** Interrupt routing *)
Inductive Controller : Type := Apic.
Record InterruptSourceOverride : Type := {
  _bus_source : Z; irq_source : Z; global_system_interrupt : Z; flags : Z;
}.
Record State : Type := {
  io_apics : list io.IoApic;
  interrupt_source_overrides : list InterruptSourceOverride;
  interrupt_vector_map : list Z;
}.
(** The pointer [idt_entry] is the index of the entry in [apic_interrupts]. *)
Record IoHandler : Type := { idt_entry : Z; entry_index : Z }.
(** The globals of the module, the parts of the thread-local storage it uses, and
    the devices. *)
Record sys (H : Type) : Type := {
  ACTIVE_IO_INTERRUPT_SYSTEM : option Controller;
  LEGACY_IRQS : list (option IoHandler);
  STATE : option State;
  local_apic : option Z;
  apic_interrupts : list idt.Entry;
  devices : H;
}.
Arguments ACTIVE_IO_INTERRUPT_SYSTEM {H} _.
Arguments LEGACY_IRQS {H} _.
Arguments STATE {H} _.
Arguments local_apic {H} _.
Arguments apic_interrupts {H} _.
Arguments devices {H} _.

Section routing.
Context {H : Type} `{Mmio H}.
Implicit Types s : sys H.
Definition set_devices (h : H) s : sys H :=
  {| ACTIVE_IO_INTERRUPT_SYSTEM := ACTIVE_IO_INTERRUPT_SYSTEM s; LEGACY_IRQS := LEGACY_IRQS s;
     STATE := STATE s; local_apic := local_apic s; apic_interrupts := apic_interrupts s; devices := h |}.
Definition set_state (st : State) s : sys H :=
  {| ACTIVE_IO_INTERRUPT_SYSTEM := ACTIVE_IO_INTERRUPT_SYSTEM s; LEGACY_IRQS := LEGACY_IRQS s;
     STATE := Some st; local_apic := local_apic s; apic_interrupts := apic_interrupts s; devices := devices s |}.
Definition set_legacy_irqs (l : list (option IoHandler)) s : sys H :=
  {| ACTIVE_IO_INTERRUPT_SYSTEM := ACTIVE_IO_INTERRUPT_SYSTEM s; LEGACY_IRQS := l;
     STATE := STATE s; local_apic := local_apic s; apic_interrupts := apic_interrupts s; devices := devices s |}.
Definition set_apic_interrupts (l : list idt.Entry) s : sys H :=
  {| ACTIVE_IO_INTERRUPT_SYSTEM := ACTIVE_IO_INTERRUPT_SYSTEM s; LEGACY_IRQS := LEGACY_IRQS s;
     STATE := STATE s; local_apic := local_apic s; apic_interrupts := l; devices := devices s |}.
Definition on_devices {A} (m : M H A) : M (sys H) A := zoom devices set_devices m.
Definition the_state : M (sys H) State := s ← get; unwrap (STATE s).
Definition the_local_apic : M (sys H) Z := s ← get; unwrap (local_apic s).

(** [interrupts::signal_eoi]. *)
Definition signal_eoi : M (sys H) () :=
  s ← get;
  match ACTIVE_IO_INTERRUPT_SYSTEM s with
  | Some Apic => apic ← the_local_apic; on_devices (local.signal_eoi apic)
  | None => panic
  end.

(** The interrupt vectors: one bit each, most significant bit first. *)
Fixpoint reserve_loop (group_index : Z) (groups : list Z) : outcome (option Z * list Z) :=
  match groups with
  | [] => Returns (None, [])
  | group :: groups =>
      if negb (group =? Z.ones 64) then
        let index_in_group := leading_ones 64 group in
        let i := trunc 8 group_index + trunc 8 index_in_group in
        if fits 8 i
        then Returns (Some i, Z.lor group (Z.shiftr (Z.shiftl 1 63) index_in_group) :: groups)
        else Panics
      else
        '(r, groups) ← reserve_loop (group_index + 1) groups;
        Returns (r, group :: groups)
  end.
Definition with_vector_map (m : list Z) (st : State) : State :=
  {| io_apics := io_apics st; interrupt_source_overrides := interrupt_source_overrides st;
     interrupt_vector_map := m |}.
Definition try_find_and_reserve_entry : M (sys H) (option Z) :=
  state ← the_state;
  '(r, m) ← lift (reserve_loop 0 (interrupt_vector_map state));
  modify (set_state (with_vector_map m state));;
  mret r.
Definition free_entry (i : Z) : M (sys H) () :=
  state ← the_state;
  let group_index := Z.shiftr i 6 in
  let index_in_group := Z.land i 0x3F in
  group ← unwrap (interrupt_vector_map state !! Z.to_nat group_index);
  let group := Z.land group (unot 64 (Z.shiftr (Z.shiftl 1 63) index_in_group)) in
  modify (set_state (with_vector_map (<[Z.to_nat group_index := group]> (interrupt_vector_map state)) state)).

(** The loop over the I/O APICs, up to the one that has the line [irq]. *)
Fixpoint update_redirection (update : Z → Z) (irq : Z) (io_apics : list io.IoApic) : M H () :=
  match io_apics with
  | [] => panic
  | io_apic :: rest =>
      let start_irq := io.global_system_interrupt_base io_apic in
      end_irq ← chk 32 (start_irq + io.num_redirection_entries io_apic);
      if (start_irq <=? irq) && (irq <? end_irq) then
        rassert (irq - start_irq <=? 0x3F);;
        let index := trunc 8 (irq - start_irq) in
        redirect ← io.read_redirection_entry io_apic index;
        io.write_redirection_entry io_apic index (update redirect)
      else update_redirection update irq rest
  end.
Definition find_override (irq : Z) (st : State) : option InterruptSourceOverride :=
  List.find (λ source_override, irq_source source_override =? irq) (interrupt_source_overrides st).
Definition override_polarity (o : InterruptSourceOverride) : io.Polarity :=
  if negb (Z.land (flags o) 2 =? 0) then io.Low else io.High.
Definition override_trigger_mode (o : InterruptSourceOverride) : io.TriggerMode :=
  if negb (Z.land (flags o) 8 =? 0) then io.LevelSensitive else io.EdgeSensitive.
Definition route_entry (vector : Z) (p : io.Polarity) (t : io.TriggerMode) (dest redirect : Z) : Z :=
  let redirect := io.set_interrupt_vector vector redirect in
  let redirect := io.set_delivery_mode io.Normal redirect in
  let redirect := io.set_destination_mode io.Physical redirect in
  let redirect := io.set_polarity p redirect in
  let redirect := io.set_trigger_mode t redirect in
  let redirect := io.set_destination dest redirect in
  io.set_masked false redirect.
Definition register_legacy_irq (irq interrupt_vector : Z) : M (sys H) () :=
  rassert (irq <? 16);;
  state ← the_state;
  '(irq, polarity, trigger_mode) ←
    match find_override irq state with
    | Some source_override =>
        rassert (global_system_interrupt source_override <=? 255);;
        mret (global_system_interrupt source_override, override_polarity source_override,
              override_trigger_mode source_override)
    | None => mret (irq, io.High, io.EdgeSensitive)
    end;
  apic ← the_local_apic;
  local_apic_id ← on_devices (local.read_register apic local.LapicId);
  rassert (local_apic_id <? 256);;
  on_devices (update_redirection
    (route_entry interrupt_vector polarity trigger_mode (trunc 8 local_apic_id)) irq (io_apics state)).
Definition clear_route (redirect : Z) : Z :=
  io.set_masked true (io.set_destination 0 (io.set_interrupt_vector 0 redirect)).
Definition unregister_legacy_irq (irq : Z) : M (sys H) () :=
  state ← the_state;
  let irq := default irq (irq_source <$> find_override irq state) in
  on_devices (update_redirection clear_route irq (io_apics state)).

(** Mapping a legacy line to a handler. *)
Definition map_legacy_irq (irq handler : Z) : M (sys H) () :=
  rassert (irq <? 16);;
  s ← get;
  match ACTIVE_IO_INTERRUPT_SYSTEM s with
  | Some Apic =>
      index ← try_find_and_reserve_entry;
      index ← unwrap index;
      entry ← lift (idt.with_handler_and_generic_stack handler);
      s ← get;
      rassert (index <? Z.of_nat (length (apic_interrupts s)));;
      modify (set_apic_interrupts (<[Z.to_nat index := entry]> (apic_interrupts s)));;
      vector ← chk 8 (128 + index);
      register_legacy_irq irq vector;;
      s ← get;
      current ← unwrap (LEGACY_IRQS s !! Z.to_nat irq);
      rassert (match current with None => true | Some _ => false end);;
      modify (set_legacy_irqs (<[Z.to_nat irq := Some {| idt_entry := index; entry_index := index |}]> (LEGACY_IRQS s)))
  | None => panic
  end.
Definition unmap_legacy_id (irq : Z) : M (sys H) () :=
  rassert (irq <? 16);;
  s ← get;
  match ACTIVE_IO_INTERRUPT_SYSTEM s with
  | Some Apic =>
      current ← unwrap (LEGACY_IRQS s !! Z.to_nat irq);
      modify (set_legacy_irqs (<[Z.to_nat irq := None]> (LEGACY_IRQS s)));;
      irq_info ← unwrap current;
      unregister_legacy_irq irq;;
      free_entry (entry_index irq_info);;
      s ← get;
      modify (set_apic_interrupts (<[Z.to_nat (idt_entry irq_info) := idt.missing]> (apic_interrupts s)))
  | None => panic
  end.
(** [ScopedLegacyIrqMapping]: the line is unmapped when the mapping is dropped. *)
Definition scoped_map_legacy_irq {A} (irq handler : Z) (body : M (sys H) A) : M (sys H) A :=
  map_legacy_irq irq handler;;
  a ← body;
  unmap_legacy_id irq;;
  mret a.
End routing.

Lemma land_0xFF x : 0 ≤ x < 256 → Z.land x 0xFF = x.
Proof. intros Hx. change 0xFF with (Z.ones 8). rewrite Z.land_ones by done. by apply Z.mod_small. Qed.

(** ** I/O APICs *)

(** The bits of a redirection entry software can write: not the two status bits,
    nor the reserved ones. *)
Definition writable (k : Z) : bool :=
  (0 <=? k) && (k <=? 11) || (k =? 13) || (k =? 15) || (k =? 16) || (56 <=? k) && (k <=? 63).
(** What the I/O APICs at the addresses [is_io_apic] promise: a write to the base
    address selects a register, and the data window reads and writes it; and what
    the register LAPIC_ID of a local APIC is: the id in its bits 31 to 24, above
    reserved bits that are zero. *)
Class IoApics (H : Type) `{Mmio H} : Type := {
  is_io_apic : Z → Prop;
  selected : Z → H → Z;
  io_reg : Z → Z → H → Z;
  io_reg_bound b i h : 0 ≤ io_reg b i h < 2 ^ 32;
  selected_select b v h : is_io_apic b → selected b (write_volatile b v h) = Z.land v 0xFF;
  io_reg_select b b' i v h : is_io_apic b → is_io_apic b' → io_reg b' i (write_volatile b v h) = io_reg b' i h;
  read_window_reg b h : is_io_apic b → read_volatile (b + 0x10) h = (io_reg b (selected b h) h, h);
  selected_write b v h : is_io_apic b → selected b (write_volatile (b + 0x10) v h) = selected b h;
  io_reg_write b v h j k : is_io_apic b → selected b h = 0x10 + 2 * j → 0 ≤ k < 32 → writable k = true →
    Z.testbit (io_reg b (0x10 + 2 * j) (write_volatile (b + 0x10) v h)) k = Z.testbit v k;
  io_reg_write_high b v h j k : is_io_apic b → selected b h = 0x11 + 2 * j → 0 ≤ k < 32 → writable (32 + k) = true →
    Z.testbit (io_reg b (0x11 + 2 * j) (write_volatile (b + 0x10) v h)) k = Z.testbit v k;
  io_reg_write_other b b' i v h : is_io_apic b → is_io_apic b' → b' ≠ b ∨ i ≠ selected b h →
    io_reg b' i (write_volatile (b + 0x10) v h) = io_reg b' i h;
  is_local_apic : Z → Prop;
  local_apic_id : H → Z;
  local_apic_id_bound h : 0 ≤ local_apic_id h < 2 ^ 8;
  read_local_apic_id a h : is_local_apic a → read_volatile (a + 0x20) h = (Z.shiftl (local_apic_id h) 24, h);
}.

Section io_apics.
Context {H : Type} `{IoApics H}.
(** Entry [i] of the redirection table of the I/O APIC at [b]. *)
Definition redirection (b i : Z) (h : H) : Z :=
  Z.lor (Z.shiftl (io_reg b (0x11 + 2 * i) h) 32) (io_reg b (0x10 + 2 * i) h).
Lemma testbit_redirection b i h k : 0 ≤ k → Z.testbit (redirection b i h) k =
  if k <? 32 then Z.testbit (io_reg b (0x10 + 2 * i) h) k else Z.testbit (io_reg b (0x11 + 2 * i) h) (k - 32).
Proof.
  intros Hk. unfold redirection. rewrite Z.lor_spec, Z.shiftl_spec by done. destruct (Z.ltb_spec k 32).
  - by rewrite (Z.testbit_neg_r _ (k - 32)) by lia.
  - rewrite (testbit_above 32 (io_reg b (0x10 + 2 * i) h) k) by (try apply io_reg_bound; lia). apply orb_false_r.
Qed.
Definition io_apic_ok (a : io.IoApic) : Prop :=
  is_io_apic (io.base_address a) ∧ 0 ≤ io.base_address a ∧ io.base_address a + 0x10 < 2 ^ 64 ∧
  0 ≤ io.global_system_interrupt_base a ∧ 0 ≤ io.num_redirection_entries a < 0x3F ∧
  io.global_system_interrupt_base a + io.num_redirection_entries a < 2 ^ 32.
(** The other entries, of this I/O APIC or another one, are the same. *)
Definition other_entries_kept (b i : Z) (h h' : H) : Prop :=
  ∀ b' i', is_io_apic b' → (b', i') ≠ (b, i) → redirection b' i' h' = redirection b' i' h.
Lemma wp_read_redirection_entry a i h (Q : Z → H → Prop) :
  io_apic_ok a → 0 ≤ i < io.num_redirection_entries a →
  (∀ h', (∀ b' i', is_io_apic b' → io_reg b' i' h' = io_reg b' i' h) → Q (redirection (io.base_address a) i h) h') →
  wp (io.read_redirection_entry a i) Q h.
Proof.
  intros (Hio & Hb & Hb' & _ & Hn & _) Hi HQ. unfold io.read_redirection_entry, io.read_window.
  rewrite wp_bind, wp_rassert. split; [apply Z.ltb_lt; lia|].
  rewrite wp_bind, wp_chk. split; [lia|]. rewrite wp_bind, wp_chk. split; [lia|].
  rewrite wp_bind, wp_mmio_write, !wp_bind, wp_chk. split; [lia|].
  rewrite wp_mmio_read, read_window_reg, selected_select, io_reg_select by done. cbn [fst snd].
  rewrite wp_bind, wp_mmio_write, !wp_bind, wp_chk. split; [lia|].
  rewrite wp_mmio_read, read_window_reg, selected_select, !io_reg_select by done. cbn [fst snd].
  rewrite wp_ret, !land_0xFF by lia.
  replace (i * 2 + 16) with (0x10 + 2 * i) by lia. replace (0x10 + 2 * i + 1) with (0x11 + 2 * i) by lia.
  apply HQ. intros b' i' Hb2. by rewrite !io_reg_select.
Qed.
Lemma wp_write_redirection_entry a i entry h (Q : () → H → Prop) :
  io_apic_ok a → 0 ≤ i < io.num_redirection_entries a →
  (∀ h', (∀ k, writable k = true → Z.testbit (redirection (io.base_address a) i h') k = Z.testbit entry k) →
    other_entries_kept (io.base_address a) i h h' → Q () h') →
  wp (io.write_redirection_entry a i entry) Q h.
Proof.
  intros (Hio & Hb & Hb' & _ & Hn & _) Hi HQ. unfold io.write_redirection_entry, io.write_window.
  rewrite wp_bind, wp_rassert. split; [apply Z.ltb_lt; lia|].
  rewrite wp_bind, wp_chk. split; [lia|]. rewrite wp_bind, wp_chk. split; [lia|].
  rewrite wp_bind, wp_mmio_write, !wp_bind, wp_chk. split; [lia|].
  rewrite wp_mmio_write, wp_bind, wp_mmio_write, wp_bind, wp_chk. split; [lia|]. rewrite wp_mmio_write.
  replace (i * 2 + 16) with (0x10 + 2 * i) by lia. replace (0x10 + 2 * i + 1) with (0x11 + 2 * i) by lia.
  set (b := io.base_address a) in *. set (h1 := write_volatile b (0x10 + 2 * i) h).
  set (h2 := write_volatile (b + 16) (trunc 32 entry) h1).
  set (h3 := write_volatile b (0x11 + 2 * i) h2).
  assert (selected b h1 = 0x10 + 2 * i) as Hs1 by (unfold h1; rewrite selected_select, land_0xFF by (done || lia); done).
  assert (selected b h3 = 0x11 + 2 * i) as Hs3 by (unfold h3; rewrite selected_select, land_0xFF by (done || lia); done).
  apply HQ.
  - intros k Hk. assert (0 ≤ k < 64) as Hk64.
    { unfold writable in Hk. rewrite !orb_true_iff, !andb_true_iff, !Z.eqb_eq, !Z.leb_le in Hk. lia. }
    rewrite testbit_redirection by lia. destruct (Z.ltb_spec k 32).
    + rewrite io_reg_write_other by (done || (right; lia)). unfold h3. rewrite io_reg_select by done.
      unfold h2. rewrite io_reg_write by (done || lia). apply testbit_trunc. lia.
    + rewrite io_reg_write_high by (done || lia || (rewrite <-Hk; f_equal; lia)).
      rewrite testbit_trunc, Z.shiftr_spec by lia. f_equal. lia.
  - intros b' i' Hb2 Hne. unfold redirection.
    assert (∀ j, b' ≠ b ∨ (j ≠ 0x10 + 2 * i ∧ j ≠ 0x11 + 2 * i) →
      io_reg b' j (write_volatile (b + 16) (trunc 32 (entry ≫ 32)) h3) = io_reg b' j h) as Hj.
    { intros j Hj. rewrite io_reg_write_other by (done || (rewrite Hs3; destruct Hj as [?|[? ?]]; tauto)).
      unfold h3. rewrite io_reg_select by done. unfold h2.
      rewrite io_reg_write_other by (done || (rewrite Hs1; destruct Hj as [?|[? ?]]; tauto)).
      unfold h1. by rewrite io_reg_select. }
    assert (b' ≠ b ∨ i' ≠ i) as Hd by (destruct (decide (b' = b)), (decide (i' = i)); subst; tauto).
    rewrite !Hj by (destruct Hd as [?|?]; [by left|right; lia]). done.
Qed.
(** The I/O APIC that has a line. *)
Definition has_line (irq : Z) (a : io.IoApic) : bool :=
  (io.global_system_interrupt_base a <=? irq) &&
  (irq <? io.global_system_interrupt_base a + io.num_redirection_entries a).
Definition line_entry (a : io.IoApic) (irq : Z) : Z := irq - io.global_system_interrupt_base a.
(** [update_redirection] replaces the entry of the line, as far as it is
    writable, and keeps the others. *)
Lemma wp_update_redirection update irq io_apics a h (Q : () → H → Prop) :
  Forall io_apic_ok io_apics → List.find (has_line irq) io_apics = Some a →
  (∀ h', (∀ k, writable k = true → Z.testbit (redirection (io.base_address a) (line_entry a irq) h') k =
      Z.testbit (update (redirection (io.base_address a) (line_entry a irq) h)) k) →
    other_entries_kept (io.base_address a) (line_entry a irq) h h' → Q () h') →
  wp (update_redirection update irq io_apics) Q h.
Proof.
  intros Hok Hfind HQ. induction io_apics as [|a' l IH]; [done|].
  apply Forall_cons in Hok as [Ha Hok]. cbn [update_redirection].
  pose proof Ha as (_ & _ & _ & Hs & Hn & Hsn). rewrite wp_bind, wp_chk. split; [lia|].
  cbn [List.find] in Hfind. unfold has_line in Hfind at 1.
  destruct ((io.global_system_interrupt_base a' <=? irq) &&
    (irq <? io.global_system_interrupt_base a' + io.num_redirection_entries a')) eqn:E; [|by apply IH].
  injection Hfind as ->. rewrite andb_true_iff, Z.leb_le, Z.ltb_lt in E. unfold line_entry in *.
  rewrite wp_bind, wp_rassert. split; [apply Z.leb_le; lia|].
  assert (trunc 8 (irq - io.global_system_interrupt_base a) = irq - io.global_system_interrupt_base a) as ->
    by (apply Z.mod_small; lia).
  rewrite wp_bind. apply wp_read_redirection_entry; [done|lia|]. intros h1 Hh1.
  apply wp_write_redirection_entry; [done|lia|]. intros h2 Hh2 Hother.
  apply HQ; [done|]. intros b' i' Hb Hne. rewrite Hother by done. unfold redirection. by rewrite !Hh1.
Qed.
Lemma unmapped_line_panics update irq io_apics h :
  Forall io_apic_ok io_apics → List.find (has_line irq) io_apics = None →
  update_redirection update irq io_apics h = Panics.
Proof.
  intros Hok Hfind. induction io_apics as [|a l IH]; [done|].
  apply Forall_cons in Hok as [Ha Hok]. cbn [update_redirection List.find] in *.
  pose proof Ha as (_ & _ & _ & Hs & Hn & Hsn). unfold has_line in Hfind at 1.
  destruct ((io.global_system_interrupt_base a <=? irq) &&
    (irq <? io.global_system_interrupt_base a + io.num_redirection_entries a)) eqn:E; [done|].
  unfold mbind, M_bind, chk. rewrite (proj2 (fits_spec 32 _)) by lia. cbn [mret M_ret]. rewrite E. by apply IH.
Qed.
End io_apics.

(** The fields of an entry that routes a line to a vector. *)
Record routes (e vector : Z) (p : io.Polarity) (t : io.TriggerMode) (dest : Z) : Prop := {
  routes_vector : io.interrupt_vector e = vector;
  routes_delivery : io.delivery_mode e = Returns io.Normal;
  routes_mode : io.destination_mode e = io.Physical;
  routes_polarity : io.polarity e = p;
  routes_trigger : io.trigger_mode e = t;
  routes_destination : io.destination e = dest;
  routes_masked : io.masked e = false;
}.
Lemma testbit_route_entry v p t d r k : 0 ≤ k → Z.testbit (route_entry v p t d r) k =
  if k =? 16 then false else if (56 <=? k) && (k <=? 63) then Z.testbit d (k - 56)
  else if k =? 15 then io.TriggerMode_bool t else if k =? 13 then io.Polarity_bool p
  else if k =? 11 then false else if (8 <=? k) && (k <=? 10) then false
  else if (0 <=? k) && (k <=? 7) then Z.testbit v (k - 0) else Z.testbit r k.
Proof.
  intros Hk. unfold route_entry, io.set_masked, io.set_destination, io.set_trigger_mode, io.set_polarity,
    io.set_destination_mode, io.set_delivery_mode, io.set_interrupt_vector.
  rewrite ?testbit_set_bit, ?testbit_set_bits by lia. rewrite ?testbit_set_bit, ?testbit_set_bits by lia.
  rewrite ?testbit_set_bit, ?testbit_set_bits by lia. cbn [io.DestinationMode_bool io.DeliveryMode_u8].
  by rewrite Z.bits_0.
Qed.
Ltac bit_cases := repeat match goal with
  | |- context [?a =? ?b] => destruct (Z.eqb_spec a b); try lia
  | |- context [?a <=? ?b] => destruct (Z.leb_spec a b); try lia
  end; cbn [andb orb]; try done.
Lemma route_entry_routes e v p t d r : 0 ≤ v < 256 → 0 ≤ d < 256 →
  (∀ k, writable k = true → Z.testbit e k = Z.testbit (route_entry v p t d r) k) → routes e v p t d.
Proof.
  intros Hv Hd He. split.
  - apply get_bits_eq; [lia|lia|]. intros k Hk. rewrite He, testbit_route_entry by (unfold writable; bit_cases || lia).
    bit_cases.
  - unfold io.delivery_mode. replace (io.delivery_mode_u3 e) with 0; [done|]. symmetry.
    apply get_bits_eq; [lia|lia|]. intros k Hk. rewrite He, testbit_route_entry, Z.bits_0 by (unfold writable; bit_cases || lia).
    bit_cases.
  - unfold io.destination_mode. rewrite He, testbit_route_entry by (done || lia). done.
  - unfold io.polarity. rewrite He, testbit_route_entry by (done || lia). by destruct p.
  - unfold io.trigger_mode. rewrite He, testbit_route_entry by (done || lia). by destruct t.
  - apply get_bits_eq; [lia|lia|]. intros k Hk. rewrite He, testbit_route_entry by (unfold writable; bit_cases || lia).
    bit_cases.
  - unfold io.masked. rewrite He, testbit_route_entry by (done || lia). done.
Qed.

(** ** The vector map *)
Lemma leading_ones_spec g : 0 ≤ g < 2 ^ 64 → g ≠ Z.ones 64 →
  0 ≤ leading_ones 64 g < 64 ∧ Z.testbit g (63 - leading_ones 64 g) = false ∧
  ∀ j, 0 ≤ j < leading_ones 64 g → Z.testbit g (63 - j) = true.
Proof.
  intros Hg Hne. unfold leading_ones, leading_zeros. set (n := unot 64 g).
  assert (∀ k, 0 ≤ k < 64 → Z.testbit n k = negb (Z.testbit g k)) as Hk.
  { intros k Hk. unfold n, unot. rewrite Z.lxor_spec, testbit_ones by lia.
    rewrite (proj2 (Z.ltb_lt k 64)) by lia. by rewrite xorb_true_r. }
  assert (0 ≤ n) as Hn0 by (unfold n, unot; apply Z.lxor_nonneg; split; [done|lia]).
  assert (n < 2 ^ 64) as Hn.
  { apply bits_bound; [lia|done|]. intros i Hi. unfold n, unot.
    rewrite Z.lxor_spec, testbit_ones, (testbit_above 64 g) by lia. by rewrite (proj2 (Z.ltb_ge i 64)). }
  destruct (Z.eqb_spec n 0) as [E|E].
  { exfalso. apply Hne. unfold n, unot in E. by apply Z.lxor_eq in E. }
  pose proof (Z.log2_nonneg n). assert (Z.log2 n < 64) by (apply Z.log2_lt_pow2; lia).
  split; [lia|]. split.
  - replace (63 - (64 - 1 - Z.log2 n)) with (Z.log2 n) by lia.
    apply negb_true_iff. rewrite <-Hk by lia. apply Z.bit_log2. lia.
  - intros j Hj. apply negb_false_iff. rewrite <-Hk by lia. apply Z.bits_above_log2; lia.
Qed.
Definition vector_reserved (m : list Z) (i : Z) : bool :=
  Z.testbit (default 0 (m !! Z.to_nat (i / 64))) (63 - i mod 64).
Lemma testbit_top_shiftr i k : 0 ≤ i < 64 → 0 ≤ k < 64 →
  Z.testbit (Z.shiftr (Z.shiftl 1 63) i) (63 - k) = (k =? i).
Proof.
  intros Hi Hk. rewrite Z.shiftr_spec by lia.
  rewrite (testbit_shiftl_b2z true 63) by lia. rewrite andb_true_r.
  destruct (Z.eqb_spec k i), (Z.eqb_spec (63 - k + i) 63); lia.
Qed.
(** The result of reserving vector [i]. *)
Definition reserves (m m' : list Z) (i : Z) : Prop :=
  length m' = length m ∧ Forall (λ g, 0 ≤ g < 2 ^ 64) m' ∧
  ∀ j, 0 ≤ j < 128 → vector_reserved m' j = (j =? i) || vector_reserved m j.
Lemma lor_bound g x : 0 ≤ g < 2 ^ 64 → 0 ≤ x < 2 ^ 64 → 0 ≤ Z.lor g x < 2 ^ 64.
Proof.
  intros Hg Hx. split; [apply Z.lor_nonneg; lia|]. apply bits_bound; [lia|apply Z.lor_nonneg; lia|].
  intros i Hi. rewrite Z.lor_spec, !(testbit_above 64) by lia. done.
Qed.
Lemma top_shiftr_bound i : 0 ≤ i < 64 → 0 ≤ Z.shiftr (Z.shiftl 1 63) i < 2 ^ 64.
Proof.
  intros Hi. rewrite Z.shiftr_div_pow2, Z.shiftl_1_l by lia. split; [apply Z.div_pos; lia|].
  apply Z.le_lt_trans with (2 ^ 63); [|lia]. apply Z.div_le_upper_bound; [lia|]. nia.
Qed.
(** Reserving bit [i] of a group. *)
Lemma testbit_reserve g i k : 0 ≤ i < 64 → 0 ≤ k < 64 →
  Z.testbit (Z.lor g (Z.shiftr (Z.shiftl 1 63) i)) (63 - k) = (k =? i) || Z.testbit g (63 - k).
Proof. intros Hi Hk. rewrite Z.lor_spec, testbit_top_shiftr by done. apply orb_comm. Qed.
(** The lowest free vector [i] is reserved, but for the second group the number
    that is returned is [i - 63]. *)
Lemma reserve_loop_spec g0 g1 : 0 ≤ g0 < 2 ^ 64 → 0 ≤ g1 < 2 ^ 64 →
  (∃ i m', 0 ≤ i < 128 ∧ vector_reserved [g0; g1] i = false ∧
    (∀ j, 0 ≤ j < i → vector_reserved [g0; g1] j = true) ∧
    reserve_loop 0 [g0; g1] = Returns (Some (if i <? 64 then i else i - 63), m') ∧ reserves [g0; g1] m' i) ∨
  (∀ j, 0 ≤ j < 128 → vector_reserved [g0; g1] j = true) ∧ reserve_loop 0 [g0; g1] = Returns (None, [g0; g1]).
Proof.
  intros H0 H1. cbn [reserve_loop].
  assert (∀ a b j, 0 ≤ j < 128 → vector_reserved [a; b] j =
    if j <? 64 then Z.testbit a (63 - j) else Z.testbit b (63 - (j - 64))) as Hv.
  { intros a b j Hj. unfold vector_reserved. destruct (Z.ltb_spec j 64).
    - by rewrite Z.div_small, Z.mod_small by lia.
    - replace (j / 64) with 1 by (Z.div_mod_to_equations; lia).
      by replace (j mod 64) with (j - 64) by (Z.div_mod_to_equations; lia). }
  destruct (Z.eqb_spec g0 (Z.ones 64)) as [->|Hne0]; cbn [negb].
  2:{ left. destruct (leading_ones_spec g0) as (Hi & Hf & Hl); [done..|]. set (i := leading_ones 64 g0) in *.
      assert (trunc 8 0 + trunc 8 i = i) as -> by (unfold trunc; rewrite !Z.mod_small by lia; lia).
      rewrite (proj2 (fits_spec 8 i)) by lia. eexists i, _. split; [lia|].
      split; [rewrite Hv, (proj2 (Z.ltb_lt i 64)) by lia; done|].
      split; [intros j Hj; rewrite Hv, (proj2 (Z.ltb_lt j 64)) by lia; by apply Hl|].
      split; [by rewrite (proj2 (Z.ltb_lt i 64)) by lia|]. split; [done|].
      split; [repeat constructor; try lia; by apply lor_bound, top_shiftr_bound|].
      intros j Hj. rewrite !Hv by done. destruct (Z.ltb_spec j 64).
      - rewrite testbit_reserve by lia. done.
      - by rewrite (proj2 (Z.eqb_neq j i)) by lia. }
  assert (∀ j, 0 ≤ j < 64 → Z.testbit (Z.ones 64) (63 - j) = true) as Hones.
  { intros j Hj. apply Z.ones_spec_low. lia. }
  destruct (Z.eqb_spec g1 (Z.ones 64)) as [->|Hne1]; cbn [negb].
  { right. split; [|done]. intros j Hj. rewrite Hv by done. destruct (Z.ltb_spec j 64); apply Hones; lia. }
  left. destruct (leading_ones_spec g1) as (Hi & Hf & Hl); [done..|]. set (i := leading_ones 64 g1) in *.
  assert (trunc 8 (0 + 1) + trunc 8 i = i + 1) as -> by (unfold trunc; rewrite !Z.mod_small by lia; lia).
  rewrite (proj2 (fits_spec 8 (i + 1))) by lia. eexists (64 + i), _. split; [lia|].
  rewrite (proj2 (Z.ltb_ge (64 + i) 64)) by lia.
  split; [rewrite Hv, (proj2 (Z.ltb_ge (64 + i) 64)) by lia; by replace (64 + i - 64) with i by lia|].
  split.
  { intros j Hj. rewrite Hv by lia. destruct (Z.ltb_spec j 64); [apply Hones; lia|apply Hl; lia]. }
  split; [cbn; do 3 f_equal; lia|]. split; [done|].
  split; [repeat constructor; try lia; by apply lor_bound, top_shiftr_bound|].
  intros j Hj. rewrite !Hv by done. destruct (Z.ltb_spec j 64).
  - by rewrite (proj2 (Z.eqb_neq j (64 + i))) by lia.
  - rewrite testbit_reserve by lia. f_equal. destruct (Z.eqb_spec (j - 64) i), (Z.eqb_spec j (64 + i)); lia.
Qed.
Definition vector_map_ok (m : list Z) : Prop := length m = 2%nat ∧ Forall (λ g, 0 ≤ g < 2 ^ 64) m.
Lemma vector_map_ok_inv m : vector_map_ok m → ∃ g0 g1, m = [g0; g1] ∧ 0 ≤ g0 < 2 ^ 64 ∧ 0 ≤ g1 < 2 ^ 64.
Proof.
  intros [Hl Hm]. destruct m as [|g0 [|g1 [|]]]; try done.
  apply Forall_cons in Hm as [H0 Hm]. apply Forall_cons in Hm as [H1 _]. by exists g0, g1.
Qed.
Lemma vector_map_ext m m' : vector_map_ok m → vector_map_ok m' →
  (∀ j, 0 ≤ j < 128 → vector_reserved m j = vector_reserved m' j) → m = m'.
Proof.
  intros (g0 & g1 & -> & H0 & H1)%vector_map_ok_inv (f0 & f1 & -> & F0 & F1)%vector_map_ok_inv Hv.
  assert (∀ i, 0 ≤ i < 64 → Z.testbit g0 i = Z.testbit f0 i ∧ Z.testbit g1 i = Z.testbit f1 i) as Hb.
  { intros i Hi. pose proof (Hv (63 - i) ltac:(lia)) as Ha. pose proof (Hv (127 - i) ltac:(lia)) as Hb.
    unfold vector_reserved in Ha, Hb.
    rewrite (Z.div_small (63 - i)), (Z.mod_small (63 - i)) in Ha by lia.
    replace ((127 - i) / 64) with 1 in Hb by (Z.div_mod_to_equations; lia).
    replace ((127 - i) mod 64) with (63 - i) in Hb by (Z.div_mod_to_equations; lia).
    replace (63 - (63 - i)) with i in * by lia. done. }
  assert (∀ x y, 0 ≤ x < 2 ^ 64 → 0 ≤ y < 2 ^ 64 →
    (∀ i, 0 ≤ i < 64 → Z.testbit x i = Z.testbit y i) → x = y) as Hx.
  { intros x y Hx Hy Hi. apply Z.bits_inj'. intros i Hi0. destruct (decide (i < 64)); [by apply Hi|].
    by rewrite !(testbit_above 64) by lia. }
  f_equal; [|f_equal]; apply Hx; try done; intros i Hi; by apply Hb.
Qed.

Section system.
Context {H : Type} `{IoApics H}.
Implicit Types s : sys H.
Lemma set_state_same s st : STATE s = Some st → set_state st s = s.
Proof. destruct s. cbn. by intros ->. Qed.
Lemma wp_the_state s st (Q : State → sys H → Prop) : STATE s = Some st → Q st s → wp the_state Q s.
Proof. intros E HQ. unfold the_state. rewrite wp_bind, wp_get, wp_unwrap. by exists st. Qed.
Lemma wp_free_entry s st i (Q : () → sys H → Prop) :
  STATE s = Some st → vector_map_ok (interrupt_vector_map st) → 0 ≤ i < 128 →
  (∀ m, vector_map_ok m →
    (∀ j, 0 ≤ j < 128 → vector_reserved m j = negb (j =? i) && vector_reserved (interrupt_vector_map st) j) →
    Q () (set_state (with_vector_map m st) s)) → wp (free_entry i) Q s.
Proof.
  intros Est Hm Hi HQ. unfold free_entry. rewrite wp_bind. apply (wp_the_state _ st); [done|].
  destruct Hm as [Hl Hm]. set (g := interrupt_vector_map st) in *.
  rewrite Z.shiftr_div_pow2 by lia. change (2 ^ 6) with 64.
  change 0x3F with (Z.ones 6). rewrite Z.land_ones by lia. change (2 ^ 6) with 64.
  assert (0 ≤ i / 64 < 2) by (Z.div_mod_to_equations; lia). pose proof (Z.mod_pos_bound i 64 ltac:(lia)).
  destruct (lookup_lt_is_Some_2 g (Z.to_nat (i / 64))) as [group Hg]; [lia|].
  rewrite wp_bind, wp_unwrap. exists group. split; [done|]. rewrite wp_modify.
  pose proof (Forall_lookup_1 _ _ _ _ Hm Hg) as Hb. cbn beta in Hb.
  apply HQ.
  - split; [by rewrite length_insert|]. apply Forall_insert; [done|].
    split; [apply Z.land_nonneg; lia|]. apply bits_bound; [lia|apply Z.land_nonneg; lia|].
    intros k Hk. by rewrite Z.land_spec, (testbit_above 64 group) by lia.
  - intros j Hj. unfold vector_reserved. pose proof (Z.mod_pos_bound j 64 ltac:(lia)).
    destruct (decide (j / 64 = i / 64)) as [E|E].
    + rewrite E, list_lookup_insert_eq, Hg by (rewrite Hl; lia). cbn [default id].
      rewrite Z.land_spec. unfold unot. rewrite Z.lxor_spec, testbit_ones, testbit_top_shiftr by lia.
      rewrite (proj2 (Z.ltb_lt (63 - j mod 64) 64)), xorb_true_r, andb_comm by lia. f_equal. f_equal.
      destruct (Z.eqb_spec (j mod 64) (i mod 64)), (Z.eqb_spec j i); try done; exfalso; Z.div_mod_to_equations; lia.
    + rewrite list_lookup_insert_ne by (Z.div_mod_to_equations; lia).
      rewrite (proj2 (Z.eqb_neq j i)) by (intros ->; done). done.
Qed.
(** The line of the I/O APICs a legacy line is wired to, and how. *)
Definition target (irq : Z) (st : State) : Z := default irq (global_system_interrupt <$> find_override irq st).
Definition line_polarity (irq : Z) (st : State) : io.Polarity :=
  match find_override irq st with Some o => if Z.testbit (flags o) 1 then io.Low else io.High | None => io.High end.
Definition line_trigger (irq : Z) (st : State) : io.TriggerMode :=
  match find_override irq st with
  | Some o => if Z.testbit (flags o) 3 then io.LevelSensitive else io.EdgeSensitive
  | None => io.EdgeSensitive
  end.
(** The state [init_from_madt] leaves: the devices are there, and the lines of the
    overrides fit the eight bits a legacy line has. *)
Record routing_ok s (st : State) : Prop := {
  ok_active : ACTIVE_IO_INTERRUPT_SYSTEM s = Some Apic;
  ok_state : STATE s = Some st;
  ok_io_apics : Forall io_apic_ok (io_apics st);
  ok_overrides : Forall (λ o, global_system_interrupt o ≤ 255) (interrupt_source_overrides st);
  ok_vectors : vector_map_ok (interrupt_vector_map st);
  ok_local_apic : ∃ a, local_apic s = Some a ∧ is_local_apic a ∧ 0 ≤ a ∧ a + 0x20 < 2 ^ 64;
  ok_legacy : length (LEGACY_IRQS s) = 16%nat;
  ok_idt : length (apic_interrupts s) = 128%nat;
}.
Lemma find_override_le irq st o : Forall (λ o, global_system_interrupt o ≤ 255) (interrupt_source_overrides st) →
  find_override irq st = Some o → global_system_interrupt o ≤ 255.
Proof.
  intros Hf Ho. apply List.find_some in Ho as [Hin _]. rewrite Forall_forall in Hf. by apply Hf, list_elem_of_In.
Qed.
Lemma set_devices_same s : set_devices (devices s) s = s.
Proof. by destruct s. Qed.
(** Up to the assertion on the register LAPIC_ID, which has the id in its top byte. *)
Lemma register_legacy_irq_run s st irq v : routing_ok s st → irq < 16 →
  let id := Z.shiftl (local_apic_id (devices s)) 24 in
  register_legacy_irq irq v s = (rassert (id <? 256);;
    on_devices (update_redirection (route_entry v (line_polarity irq st) (line_trigger irq st) (trunc 8 id))
      (target irq st) (io_apics st))) s.
Proof.
  intros Hs Hirq id. unfold register_legacy_irq.
  apply bind_wp. rewrite wp_rassert. split; [by apply Z.ltb_lt|].
  apply bind_wp. apply (wp_the_state _ st); [apply Hs|]. apply bind_wp.
  assert (wp (match find_override irq st with
    | Some o => rassert (global_system_interrupt o <=? 255);;
        mret (global_system_interrupt o, override_polarity o, override_trigger_mode o)
    | None => mret (irq, io.High, io.EdgeSensitive)
    end) (λ r s', r = (target irq st, line_polarity irq st, line_trigger irq st) ∧ s' = s) s) as Hr.
  { unfold target, line_polarity, line_trigger. destruct (find_override irq st) as [o|] eqn:Eo; [|done].
    rewrite wp_bind, wp_rassert, wp_ret. unfold override_polarity, override_trigger_mode.
    rewrite (land_bit _ 1), (land_bit _ 3) by done. split; [|done]. apply Z.leb_le.
    eapply find_override_le; [apply Hs|done]. }
  eapply wp_mono; [exact Hr|]. intros r s' [-> ->]. cbn beta iota.
  destruct (ok_local_apic _ _ Hs) as (la & Hla & Hloc & Hla0 & Hla1). apply bind_wp.
  unfold the_local_apic. rewrite wp_bind, wp_get, wp_unwrap. exists la. split; [done|].
  apply bind_wp. unfold on_devices at 1. rewrite wp_zoom. unfold local.read_register.
  cbn [local.get_properties]. rewrite wp_bind, wp_rassert. split; [done|]. rewrite wp_bind, wp_chk. split; [lia|].
  rewrite wp_mmio_read, read_local_apic_id by done. cbn [fst snd]. by rewrite set_devices_same.
Qed.
Lemma shifted_id id : 0 ≤ id → Z.shiftl id 24 <? 256 = (id =? 0).
Proof. intros Hid. rewrite Z.shiftl_mul_pow2 by done. destruct (Z.ltb_spec (id * 2 ^ 24) 256), (Z.eqb_spec id 0); lia. Qed.
Lemma wp_register_legacy_irq s st irq v a (Q : () → sys H → Prop) :
  routing_ok s st → local_apic_id (devices s) = 0 → irq < 16 → 0 ≤ v < 256 →
  List.find (has_line (target irq st)) (io_apics st) = Some a →
  (∀ h, routes (redirection (io.base_address a) (line_entry a (target irq st)) h) v
      (line_polarity irq st) (line_trigger irq st) 0 →
    other_entries_kept (io.base_address a) (line_entry a (target irq st)) (devices s) h →
    Q () (set_devices h s)) →
  wp (register_legacy_irq irq v) Q s.
Proof.
  intros Hs Hid Hirq Hv Hfind HQ. eapply wp_eq; [by apply (register_legacy_irq_run s st)|]. rewrite Hid.
  rewrite wp_bind, wp_rassert. split; [done|].
  unfold on_devices. rewrite wp_zoom. apply (wp_update_redirection _ _ _ a); [apply Hs|done|].
  intros h Hh Hother. apply HQ; [|done]. change (trunc 8 (Z.shiftl 0 24)) with 0 in Hh. by eapply route_entry_routes.
Qed.
(** On any other processor the assertion fails. *)
Lemma register_legacy_irq_panics s st irq v : routing_ok s st → local_apic_id (devices s) ≠ 0 → irq < 16 →
  register_legacy_irq irq v s = Panics.
Proof.
  intros Hs Hid Hirq. rewrite (register_legacy_irq_run s st) by done. apply bind_panics.
  rewrite shifted_id by apply local_apic_id_bound. by rewrite (proj2 (Z.eqb_neq _ _)).
Qed.

(** The lowest free vector and the number it is handed out under. *)
Definition lowest_free (m : list Z) (i : Z) : Prop :=
  0 ≤ i < 128 ∧ vector_reserved m i = false ∧ ∀ j, 0 ≤ j < i → vector_reserved m j = true.
Definition vector_number (i : Z) : Z := if i <? 64 then i else i - 63.
Lemma lowest_free_unique m i j : lowest_free m i → lowest_free m j → i = j.
Proof.
  intros (Hi & Hif & Hil) (Hj & Hjf & Hjl). destruct (Z.lt_trichotomy i j) as [E|[E|E]]; [|done|].
  - rewrite Hjl in Hif by lia. done.
  - rewrite Hil in Hjf by lia. done.
Qed.
Lemma vector_number_bound i : 0 ≤ i < 128 → 0 ≤ vector_number i ≤ 64.
Proof. unfold vector_number. destruct (Z.ltb_spec i 64); lia. Qed.
Definition vectors_add (m m' : list Z) (i : Z) : Prop :=
  vector_map_ok m' ∧ ∀ j, 0 ≤ j < 128 → vector_reserved m' j = (j =? i) || vector_reserved m j.
Lemma wp_try_find_and_reserve_entry s st i (Q : option Z → sys H → Prop) :
  STATE s = Some st → vector_map_ok (interrupt_vector_map st) → lowest_free (interrupt_vector_map st) i →
  (∀ m, vectors_add (interrupt_vector_map st) m i →
    Q (Some (vector_number i)) (set_state (with_vector_map m st) s)) →
  wp try_find_and_reserve_entry Q s.
Proof.
  intros Est (g0 & g1 & Em & H0' & H1')%vector_map_ok_inv Hi HQ. rewrite Em in *.
  unfold try_find_and_reserve_entry. rewrite wp_bind. apply (wp_the_state _ st); [done|].
  rewrite wp_bind, wp_lift, Em.
  destruct (reserve_loop_spec g0 g1) as [(i' & m & Hi' & Hf & Hl & -> & Hlen & Hb & Hm)|[Hall _]]; [done..| |].
  - rewrite (lowest_free_unique _ i' i ltac:(done) Hi) in *. eexists. split; [done|]. cbn beta iota.
    rewrite wp_bind, wp_modify, wp_ret. by apply HQ.
  - destruct Hi as (Hi & Hf & _). rewrite Hall in Hf by done. done.
Qed.
(** The entry of a handler. *)
Definition handler_entry (handler : Z) : idt.Entry := idt.entry_for handler 0x8E01.
Definition after_map s (st : State) (irq index handler : Z) (m : list Z) (h : H) : sys H :=
  {| ACTIVE_IO_INTERRUPT_SYSTEM := ACTIVE_IO_INTERRUPT_SYSTEM s;
     LEGACY_IRQS := <[Z.to_nat irq := Some {| idt_entry := index; entry_index := index |}]> (LEGACY_IRQS s);
     STATE := Some (with_vector_map m st);
     local_apic := local_apic s;
     apic_interrupts := <[Z.to_nat index := handler_entry handler]> (apic_interrupts s);
     devices := h |}.
Definition routed s (st : State) (irq v : Z) (a : io.IoApic) (h : H) : Prop :=
  routes (redirection (io.base_address a) (line_entry a (target irq st)) h) v
    (line_polarity irq st) (line_trigger irq st) 0.
(** Up to the registration: the vector is reserved and the descriptor is set. *)
Definition before_register s (st : State) (index handler : Z) (m : list Z) : sys H :=
  set_apic_interrupts (<[Z.to_nat index := handler_entry handler]> (apic_interrupts s)) (set_state (with_vector_map m st) s).
Lemma map_legacy_irq_run s st irq handler i :
  routing_ok s st → 0 ≤ irq < 16 → lowest_free (interrupt_vector_map st) i →
  let n := vector_number i in
  ∃ m, vectors_add (interrupt_vector_map st) m i ∧ 0 ≤ n ≤ 64 ∧
    let s1 := before_register s st n handler m in
    routing_ok s1 (with_vector_map m st) ∧
    map_legacy_irq irq handler s = (register_legacy_irq irq (128 + n);;
      s ← get;
      current ← unwrap (LEGACY_IRQS s !! Z.to_nat irq);
      rassert (match current with None => true | Some _ => false end);;
      modify (set_legacy_irqs (<[Z.to_nat irq := Some {| idt_entry := n; entry_index := n |}]> (LEGACY_IRQS s)))) s1.
Proof.
  intros Hs Hirq Hi n. pose proof (vector_number_bound i ltac:(apply Hi)) as Hv. fold n in Hv.
  destruct Hs as [Hact Hst Hio Hov Hvm Hla Hleg Hidt].
  assert (wp try_find_and_reserve_entry (λ r s', ∃ m, vectors_add (interrupt_vector_map st) m i ∧ r = Some n ∧
    s' = set_state (with_vector_map m st) s) s) as (r & s' & E & m & Hm & -> & ->)%wp_returns.
  { apply (wp_try_find_and_reserve_entry _ st i); [done..|]. intros m Hm. by exists m. }
  exists m. split; [done|]. split; [done|]. split.
  { split; cbn; try done; [apply Hm|by rewrite length_insert]. }
  unfold map_legacy_irq. apply bind_wp. rewrite wp_rassert. split; [apply Z.ltb_lt; lia|].
  apply bind_wp. rewrite wp_get, Hact, (bind_step _ _ _ _ _ E). apply bind_wp. rewrite wp_unwrap.
  eexists. split; [done|]. apply bind_wp. rewrite wp_lift. exists (handler_entry handler). split; [done|].
  apply bind_wp. rewrite wp_get. apply bind_wp. rewrite wp_rassert. cbn [apic_interrupts set_state].
  split; [apply Z.ltb_lt; rewrite Hidt; lia|]. apply bind_wp. rewrite wp_modify. apply bind_wp. rewrite wp_chk. split; [lia|done].
Qed.
Lemma wp_map_legacy_irq s st irq handler i a (Q : () → sys H → Prop) :
  routing_ok s st → local_apic_id (devices s) = 0 → 0 ≤ irq < 16 → LEGACY_IRQS s !! Z.to_nat irq = Some None →
  lowest_free (interrupt_vector_map st) i → List.find (has_line (target irq st)) (io_apics st) = Some a →
  (∀ m h, vectors_add (interrupt_vector_map st) m i → routed s st irq (128 + vector_number i) a h →
    other_entries_kept (io.base_address a) (line_entry a (target irq st)) (devices s) h →
    Q () (after_map s st irq (vector_number i) handler m h)) →
  wp (map_legacy_irq irq handler) Q s.
Proof.
  intros Hs Hid Hirq Hnone Hi Hfind HQ.
  destruct (map_legacy_irq_run s st irq handler i Hs Hirq Hi) as (m & Hm & Hn & Hs1 & E).
  eapply wp_eq; [exact E|].
  rewrite wp_bind. apply (wp_register_legacy_irq _ (with_vector_map m st) _ _ a); [done|done|lia|lia|done|].
  intros h Hr Hother. rewrite wp_bind, wp_get, wp_bind, wp_unwrap. exists None. split; [done|].
  rewrite wp_bind, wp_rassert. split; [done|]. rewrite wp_modify. by apply (HQ m h).
Qed.
Lemma find_override_source irq st : default irq (irq_source <$> find_override irq st) = irq.
Proof.
  destruct (find_override irq st) as [o|] eqn:E; [|done]. apply List.find_some in E as [_ E].
  by apply Z.eqb_eq in E.
Qed.
(** The fields of an entry that is switched off. *)
Definition switched_off (e : Z) : Prop :=
  io.masked e = true ∧ io.interrupt_vector e = 0 ∧ io.destination e = 0.
Lemma testbit_clear_route r k : 0 ≤ k → Z.testbit (clear_route r) k =
  if k =? 16 then true else if (56 <=? k) && (k <=? 63) then false
  else if (0 <=? k) && (k <=? 7) then false else Z.testbit r k.
Proof.
  intros Hk. unfold clear_route, io.set_masked, io.set_destination, io.set_interrupt_vector.
  rewrite testbit_set_bit, !testbit_set_bits by lia. by rewrite !Z.bits_0.
Qed.
Lemma clear_route_off e r :
  (∀ k, writable k = true → Z.testbit e k = Z.testbit (clear_route r) k) → switched_off e.
Proof.
  intros He. split; [|split].
  - unfold io.masked. by rewrite He, testbit_clear_route by (done || lia).
  - apply get_bits_eq; [lia|lia|]. intros k Hk.
    rewrite He, testbit_clear_route, Z.bits_0 by (unfold writable; bit_cases || lia). bit_cases.
  - apply get_bits_eq; [lia|lia|]. intros k Hk.
    rewrite He, testbit_clear_route, Z.bits_0 by (unfold writable; bit_cases || lia). bit_cases.
Qed.
Lemma wp_unmap_legacy_id s st irq info a (Q : () → sys H → Prop) :
  ACTIVE_IO_INTERRUPT_SYSTEM s = Some Apic → STATE s = Some st → Forall io_apic_ok (io_apics st) →
  vector_map_ok (interrupt_vector_map st) → 0 ≤ irq < 16 → LEGACY_IRQS s !! Z.to_nat irq = Some (Some info) →
  0 ≤ entry_index info < 128 → List.find (has_line irq) (io_apics st) = Some a →
  (∀ m h, vector_map_ok m →
    (∀ j, 0 ≤ j < 128 → vector_reserved m j =
      negb (j =? entry_index info) && vector_reserved (interrupt_vector_map st) j) →
    switched_off (redirection (io.base_address a) (line_entry a irq) h) →
    other_entries_kept (io.base_address a) (line_entry a irq) (devices s) h →
    Q () {| ACTIVE_IO_INTERRUPT_SYSTEM := ACTIVE_IO_INTERRUPT_SYSTEM s;
            LEGACY_IRQS := <[Z.to_nat irq := None]> (LEGACY_IRQS s);
            STATE := Some (with_vector_map m st); local_apic := local_apic s;
            apic_interrupts := <[Z.to_nat (idt_entry info) := idt.missing]> (apic_interrupts s);
            devices := h |}) →
  wp (unmap_legacy_id irq) Q s.
Proof.
  intros Hact Hst Hio Hvm Hirq Hinfo Hidx Hfind HQ. unfold unmap_legacy_id.
  rewrite wp_bind, wp_rassert. split; [apply Z.ltb_lt; lia|]. rewrite wp_bind, wp_get, Hact, wp_bind, wp_unwrap.
  exists (Some info). split; [done|]. rewrite wp_bind, wp_modify, wp_bind, wp_unwrap. exists info. split; [done|].
  rewrite wp_bind. unfold unregister_legacy_irq. rewrite wp_bind. apply (wp_the_state _ st); [done|].
  rewrite find_override_source. unfold on_devices. rewrite wp_zoom.
  apply (wp_update_redirection _ _ _ a); [done..|]. intros h Hh Hother. rewrite wp_bind.
  apply (wp_free_entry _ st); [done..|]. intros m Hm Hr. rewrite wp_bind, wp_get, wp_modify.
  apply (HQ m h); [done..| |done]. by eapply clear_route_off.
Qed.

(** [try_find_and_reserve_entry] reserves the lowest free one of the 128
    vectors of the map and leaves the others, or returns [None] and changes
    nothing when there is none. But the number it returns for vector [i] of the
    second group is [i - 63], so a number from 1 on is handed out twice. *)
Theorem reserve_entry_correct s st :
  STATE s = Some st → vector_map_ok (interrupt_vector_map st) →
  (∃ i m, lowest_free (interrupt_vector_map st) i ∧ vectors_add (interrupt_vector_map st) m i ∧
    try_find_and_reserve_entry s =
      Returns (Some (if i <? 64 then i else i - 63), set_state (with_vector_map m st) s)) ∨
  (∀ j, 0 ≤ j < 128 → vector_reserved (interrupt_vector_map st) j = true) ∧
    try_find_and_reserve_entry s = Returns (None, s).
Proof.
  intros Est (g0 & g1 & Em & H0' & H1')%vector_map_ok_inv. rewrite Em.
  unfold try_find_and_reserve_entry, the_state, mbind, M_bind, get, unwrap. rewrite Est. cbn [mret M_ret].
  rewrite Em. unfold lift.
  destruct (reserve_loop_spec g0 g1) as [(i & m & Hi & Hf & Hl & -> & Hm)|[Hall ->]]; [done..| |].
  - left. exists i, m. destruct Hm as (? & ? & ?). done.
  - right. split; [done|]. unfold modify, mret, M_ret. rewrite <-Em.
    rewrite (set_state_same s); [done|]. by destruct st.
Qed.
(** C27: [map_legacy_irq] hands out the lowest free vector [i] of the map, under
    the number [i], or [i - 63] when it is in the map's second word (a number
    from 1 on, which vector [i - 63] has already). It puts the handler into the
    descriptor table at that number, and routes the line the legacy line is
    wired to (after the overrides of the firmware) to the interrupt vector 128
    above it: fixed delivery to this processor, with the polarity and trigger
    mode of the override, not masked. All other entries of the I/O APICs are
    unchanged. That is so on a processor whose local APIC has the id 0. The
    register LAPIC_ID has the id in its top byte and the code does not shift it
    down, so with any other id the assertion that it is below 256 fails, and the
    kernel panics. *)
Theorem map_legacy_irq_correct s st irq handler i a :
  routing_ok s st → 0 ≤ irq < 16 → LEGACY_IRQS s !! Z.to_nat irq = Some None →
  lowest_free (interrupt_vector_map st) i → List.find (has_line (target irq st)) (io_apics st) = Some a →
  let n := if i <? 64 then i else i - 63 in
  if local_apic_id (devices s) =? 0
  then ∃ m h, map_legacy_irq irq handler s = Returns ((), after_map s st irq n handler m h) ∧
    vectors_add (interrupt_vector_map st) m i ∧ routed s st irq (128 + n) a h ∧
    other_entries_kept (io.base_address a) (line_entry a (target irq st)) (devices s) h
  else map_legacy_irq irq handler s = Panics.
Proof.
  intros Hs Hirq Hnone Hi Hfind. destruct (Z.eqb_spec (local_apic_id (devices s)) 0) as [Hid|Hid].
  - destruct (wp_unit_returns (map_legacy_irq irq handler)
      (λ s', ∃ m h, s' = after_map s st irq (vector_number i) handler m h ∧
        vectors_add (interrupt_vector_map st) m i ∧ routed s st irq (128 + vector_number i) a h ∧
        other_entries_kept (io.base_address a) (line_entry a (target irq st)) (devices s) h) s)
      as (s' & E & m & h & -> & Hw).
    { eapply wp_map_legacy_irq; eauto 10. }
    by exists m, h.
  - destruct (map_legacy_irq_run s st irq handler i Hs Hirq Hi) as (m & _ & _ & Hs1 & E). rewrite E.
    apply bind_panics. apply (register_legacy_irq_panics _ (with_vector_map m st)); [done|done|lia].
Qed.
(** Mapping a legacy line and unmapping it again restores the table of legacy
    lines and the vector map and empties the entry of the descriptor table. What
    is switched off is the line with the number of the legacy line: when an
    override wires the legacy line to another one, that one stays routed to the
    vector, whose descriptor is now missing. *)
Theorem map_unmap_legacy_irq s st irq handler i a b :
  routing_ok s st → local_apic_id (devices s) = 0 → 0 ≤ irq < 16 → LEGACY_IRQS s !! Z.to_nat irq = Some None →
  lowest_free (interrupt_vector_map st) i → i < 64 →
  List.find (has_line (target irq st)) (io_apics st) = Some a → List.find (has_line irq) (io_apics st) = Some b →
  ∃ s', (map_legacy_irq irq handler;; unmap_legacy_id irq) s = Returns ((), s') ∧
    LEGACY_IRQS s' = LEGACY_IRQS s ∧ STATE s' = STATE s ∧
    apic_interrupts s' = <[Z.to_nat i := idt.missing]> (apic_interrupts s) ∧
    switched_off (redirection (io.base_address b) (line_entry b irq) (devices s')) ∧
    ((io.base_address a, line_entry a (target irq st)) ≠ (io.base_address b, line_entry b irq) →
      routed s st irq (128 + i) a (devices s')).
Proof.
  intros Hs Hid Hirq Hnone Hi Hlow Ha Hb. pose proof Hi as (Hi0 & Hfree & _).
  assert (vector_number i = i) as Hvi by (unfold vector_number; by rewrite (proj2 (Z.ltb_lt i 64))).
  pose proof (List.find_some _ _ Ha) as [Hina _]. apply list_elem_of_In in Hina.
  assert (is_io_apic (io.base_address a)) as Hioa.
  { pose proof (ok_io_apics _ _ Hs) as Hf. rewrite Forall_forall in Hf. by apply Hf. }
  apply wp_unit_returns. rewrite wp_bind. apply (wp_map_legacy_irq _ st _ _ i a); [done..|]. rewrite Hvi.
  intros m h [Hm Hadd] Hr Hother. destruct Hs as [Hact Hst Hio Hov Hvm Hla Hleg Hidt].
  assert (Z.to_nat irq < length (LEGACY_IRQS s))%nat as Hlt by lia.
  eapply (wp_unmap_legacy_id _ (with_vector_map m st) _ {| idt_entry := i; entry_index := i |} b);
    [done|done|done|done|done| |done|done|].
  { cbn [after_map LEGACY_IRQS]. by apply list_lookup_insert_eq. }
  intros m' h' Hm' Hrem Hoff Hother'. cbn [after_map LEGACY_IRQS STATE apic_interrupts devices idt_entry entry_index] in *.
  rewrite !list_insert_insert_eq. split; [by apply list_insert_id|].
  split.
  { rewrite Hst. f_equal. replace m' with (interrupt_vector_map st); [by destruct st|].
    apply vector_map_ext; [done|done|]. intros j Hj. rewrite Hrem, Hadd by done.
    destruct (Z.eqb_spec j i) as [->|]; [by rewrite Hfree|done]. }
  split; [done|]. split; [done|]. intros Hne. unfold routed in *. rewrite Hother'; [done|done|done].
Qed.
End system.

Lemma handler_of_entry handler o : 0 ≤ handler < 2 ^ 64 → idt.handler_of (idt.entry_for handler o) = handler.
Proof.
  intros Hh. unfold idt.handler_of, idt.entry_for, idt.u16, idt.u32, trunc. cbn [idt.ptr_low idt.ptr_middle idt.ptr_high].
  rewrite !Z.shiftr_div_pow2, !Z.shiftl_mul_pow2 by lia.
  rewrite (Z.mod_small (handler / 2 ^ 32)) by (Z.div_mod_to_equations; lia). Z.div_mod_to_equations; lia.
Qed.
(** An entry of the descriptor table made for a handler and a stack is a
    present, ring-0, interrupt-disabling gate of the kernel code segment whose
    three address parts give the handler back, with the stack index plus one in
    three bits; for the index 255 the increment overflows and panics. *)
Theorem idt_entry_roundtrip handler tss_index :
  0 ≤ handler < 2 ^ 64 → 0 ≤ tss_index < 256 →
  match idt.with_handler_and_stack handler tss_index with
  | Returns e => tss_index < 255 ∧ idt.handler_of e = handler ∧ idt.gdt_selector e = 8 ∧
      idt.present (idt.options e) = true ∧ idt.gate_type (idt.options e) = 7 ∧
      idt.interrupts_enabled (idt.options e) = false ∧ idt.discriptor_privilege_level (idt.options e) = 0 ∧
      idt.stack_index_minus_one (idt.options e) = (tss_index + 1) mod 8
  | Panics => tss_index = 255
  | _ => False
  end.
Proof.
  intros Hh Ht. unfold idt.with_handler_and_stack, idt.present_with_stack_index.
  destruct (fits 8 (tss_index + 1)) eqn:E; cbn [mbind outcome_bind].
  2:{ apply not_true_iff_false in E. rewrite fits_spec in E. lia. }
  apply fits_spec in E. split; [lia|]. split.
  { by apply handler_of_entry. }
  split; [done|]. cbn [idt.entry_for idt.options].
  pose proof (byte_forall (λ t, let o := Z.lor idt.EntryOptions_present_minimal (Z.land (t + 1) 7) in
    idt.present o && (idt.gate_type o =? 7) && negb (idt.interrupts_enabled o) &&
    (idt.discriptor_privilege_level o =? 0) && (idt.stack_index_minus_one o =? (t + 1) mod 8))
    ltac:(vm_compute; reflexivity) tss_index Ht) as Ho. cbn zeta in Ho.
  rewrite !andb_true_iff, !Z.eqb_eq, negb_true_iff in Ho. tauto.
Qed.
Lemma idt_entry_roundtrip_witness :
  match idt.with_handler_and_stack 0xFFFF80001234ABCD 2 with
  | Returns e => 2 < 255 ∧ idt.handler_of e = 0xFFFF80001234ABCD ∧ idt.gdt_selector e = 8 ∧
      idt.present (idt.options e) = true ∧ idt.gate_type (idt.options e) = 7 ∧
      idt.interrupts_enabled (idt.options e) = false ∧ idt.discriptor_privilege_level (idt.options e) = 0 ∧
      idt.stack_index_minus_one (idt.options e) = (2 + 1) mod 8
  | Panics => 2 = 255
  | _ => False
  end.
Proof. apply (idt_entry_roundtrip 0xFFFF80001234ABCD 2); done. Defined.

(** ** A machine to run the theorems on *)

(** The select registers and the registers of the I/O APICs at the page-aligned
    addresses, and the id of the local APIC. *)
Record demo_devices : Type := { demo_selected : Z → Z; demo_reg : Z → Z → Z }.
Definition demo_mask (i : Z) : Z := if Z.odd i then 0xFF000000 else 0x1AFFF.
#[export] Instance demo_mmio : Mmio demo_devices := {
  write_volatile a v h :=
    if a mod 4096 =? 0 then
      {| demo_selected := λ b, if b =? a then Z.land v 0xFF else demo_selected h b; demo_reg := demo_reg h |}
    else
      let b := a - 0x10 in let i := demo_selected h b in
      {| demo_selected := demo_selected h;
         demo_reg := λ b' j, if (b' =? b) && (j =? i)
           then Z.lor (Z.land v (demo_mask i)) (Z.ldiff (demo_reg h b i) (demo_mask i)) else demo_reg h b' j |};
  read_volatile a h :=
    if a mod 4096 =? 0x20 then (0, h)
    else (trunc 32 (demo_reg h (a - 0x10) (demo_selected h (a - 0x10))), h);
}.
Lemma demo_mask_bit i k : 0 ≤ k < 32 → writable (if Z.odd i then 32 + k else k) = true → Z.testbit (demo_mask i) k = true.
Proof.
  intros Hk. unfold demo_mask.
  assert (forallb (λ k, implb (writable (32 + k)) (Z.testbit 0xFF000000 k) &&
    implb (writable k) (Z.testbit 0x1AFFF k)) (seqZ 0 32) = true) as Hall by (vm_compute; reflexivity).
  rewrite forallb_forall in Hall.
  specialize (Hall k ltac:(apply list_elem_of_In, elem_of_seqZ; lia)).
  rewrite andb_true_iff, !implb_true_iff in Hall. destruct (Z.odd i); apply Hall.
Qed.
Lemma demo_window b : b mod 4096 = 0 → (b + 16) mod 4096 = 16.
Proof. intros Hb. Z.div_mod_to_equations. lia. Qed.
#[export] Program Instance demo_io_apics : IoApics demo_devices := {
  is_io_apic b := b mod 4096 = 0;
  selected b h := demo_selected h b;
  io_reg b i h := trunc 32 (demo_reg h b i);
  is_local_apic a := a mod 4096 = 0;
  local_apic_id h := 0;
}.
Next Obligation. intros. apply Z.mod_pos_bound. lia. Qed.
Next Obligation. intros b v h Hb. cbn in *. rewrite Hb. cbn. by rewrite Z.eqb_refl. Qed.
Next Obligation. intros b b' i v h Hb Hb'. cbn in *. by rewrite Hb. Qed.
Next Obligation.
  intros b h Hb. cbn in *. rewrite demo_window by done. cbn. by replace (b + 16 - 16) with b by lia.
Qed.
Next Obligation. intros b v h Hb. cbn in *. by rewrite demo_window. Qed.
Next Obligation.
  intros b v h j k Hb Hs Hk Hw. cbn in *. rewrite demo_window by done. cbn. replace (b + 16 - 16) with b by lia.
  rewrite Hs, !Z.eqb_refl, testbit_trunc by lia. cbn [andb].
  rewrite Z.lor_spec, Z.land_spec, Z.ldiff_spec, (demo_mask_bit _ k); [|done|].
  - by rewrite !andb_true_r, andb_false_r, orb_false_r.
  - by rewrite Z.odd_add, Z.odd_mul.
Qed.
Next Obligation.
  intros b v h j k Hb Hs Hk Hw. cbn in *. rewrite demo_window by done. cbn. replace (b + 16 - 16) with b by lia.
  rewrite Hs, !Z.eqb_refl, testbit_trunc by lia. cbn [andb].
  rewrite Z.lor_spec, Z.land_spec, Z.ldiff_spec, (demo_mask_bit _ k); [|done|].
  - by rewrite !andb_true_r, andb_false_r, orb_false_r.
  - by rewrite Z.odd_add, Z.odd_mul.
Qed.
Next Obligation.
  intros b b' i v h Hb Hb' Hne. cbn in *. rewrite demo_window by done. cbn. replace (b + 16 - 16) with b by lia.
  destruct (Z.eqb_spec b' b), (Z.eqb_spec i (demo_selected h b)); try done. tauto.
Qed.
Next Obligation. by split. Qed.
Next Obligation.
  intros a h Ha. cbn in *. by replace ((a + 32) mod 4096) with 32 by (Z.div_mod_to_equations; lia).
Qed.
(** Two I/O APICs; the firmware wires the timer, line 0, to line 2 and makes line
    9 active low and level triggered. *)
Definition demo_state : State := {|
  io_apics := [
    {| io.base_address := 0xFEC00000; io._id := 0; io.global_system_interrupt_base := 0; io.num_redirection_entries := 24 |};
    {| io.base_address := 0xFEC01000; io._id := 1; io.global_system_interrupt_base := 24; io.num_redirection_entries := 24 |}];
  interrupt_source_overrides := [
    {| _bus_source := 0; irq_source := 0; global_system_interrupt := 2; flags := 0 |};
    {| _bus_source := 0; irq_source := 9; global_system_interrupt := 9; flags := 0xF |}];
  interrupt_vector_map := [Z.shiftl 1 63; 0];
|}.
Definition demo_sys : sys demo_devices := {|
  ACTIVE_IO_INTERRUPT_SYSTEM := Some Apic; LEGACY_IRQS := replicate 16 None; STATE := Some demo_state;
  local_apic := Some 0xFEE00000; apic_interrupts := replicate 128 idt.missing;
  devices := {| demo_selected := λ _, 0; demo_reg := λ _ _, 0x10000 |};
|}.
Lemma demo_ok : routing_ok demo_sys demo_state.
Proof.
  split; try done.
  - repeat constructor; done.
  - repeat constructor; done.
  - split; [done|]. repeat constructor; done.
  - exists 0xFEE00000. done.
Qed.
Lemma demo_lowest : lowest_free (interrupt_vector_map demo_state) 1.
Proof. split; [done|]. split; [done|]. intros j Hj. by replace j with 0 by lia. Qed.
Lemma reserve_entry_correct_witness :
  (∃ i m, lowest_free [Z.ones 64; Z.shiftl 7 61] i ∧ vectors_add [Z.ones 64; Z.shiftl 7 61] m i ∧
    try_find_and_reserve_entry (set_state (with_vector_map [Z.ones 64; Z.shiftl 7 61] demo_state) demo_sys) =
      Returns (Some (if i <? 64 then i else i - 63),
        set_state (with_vector_map m (with_vector_map [Z.ones 64; Z.shiftl 7 61] demo_state))
          (set_state (with_vector_map [Z.ones 64; Z.shiftl 7 61] demo_state) demo_sys))) ∨
  (∀ j, 0 ≤ j < 128 → vector_reserved [Z.ones 64; Z.shiftl 7 61] j = true) ∧
    try_find_and_reserve_entry (set_state (with_vector_map [Z.ones 64; Z.shiftl 7 61] demo_state) demo_sys) =
      Returns (None, set_state (with_vector_map [Z.ones 64; Z.shiftl 7 61] demo_state) demo_sys).
Proof.
  apply (reserve_entry_correct (set_state (with_vector_map [Z.ones 64; Z.shiftl 7 61] demo_state) demo_sys)
    (with_vector_map [Z.ones 64; Z.shiftl 7 61] demo_state)); [done|].
  split; [done|]. repeat constructor; done.
Defined.
Lemma map_legacy_irq_correct_witness :
  ∃ a m h, map_legacy_irq 9 0xFFFF800000001000 demo_sys =
      Returns ((), after_map demo_sys demo_state 9 1 0xFFFF800000001000 m h) ∧
    vectors_add (interrupt_vector_map demo_state) m 1 ∧ routed demo_sys demo_state 9 129 a h ∧
    other_entries_kept (io.base_address a) (line_entry a (target 9 demo_state)) (devices demo_sys) h.
Proof.
  pose proof (map_legacy_irq_correct demo_sys demo_state 9 0xFFFF800000001000 1 _ demo_ok ltac:(done) ltac:(done)
    demo_lowest ltac:(reflexivity)) as Hmap.
  eexists. exact Hmap.
Defined.
(** The timer: line 2 stays routed to vector 129. *)
Lemma map_unmap_legacy_irq_witness :
  ∃ a s', (map_legacy_irq 0 0xFFFF800000001000;; unmap_legacy_id 0) demo_sys = Returns ((), s') ∧
    LEGACY_IRQS s' = LEGACY_IRQS demo_sys ∧ STATE s' = STATE demo_sys ∧
    apic_interrupts s' = <[1%nat := idt.missing]> (apic_interrupts demo_sys) ∧
    switched_off (redirection (io.base_address a) (line_entry a 0) (devices s')) ∧
    ((io.base_address a, line_entry a (target 0 demo_state)) ≠ (io.base_address a, line_entry a 0) →
      routed demo_sys demo_state 0 129 a (devices s')).
Proof.
  eexists. apply (map_unmap_legacy_irq demo_sys demo_state 0 0xFFFF800000001000 1);
    [apply demo_ok|done|done|done|apply demo_lowest|done|reflexivity|reflexivity].
Defined.
