(* ===== verification/Heap.v ===== *)
(** * The kernel heap (kernel/src/heap.rs)

    The global allocator: a list of blocks in a range of virtual memory. A block
    is a header word, with the length of the block, a flag for a used block and a
    flag for a further block, followed by its space. The allocator maps the pages
    it needs; it sees memory and page tables only through the class
    [HeapMemory], whose laws are the class [HeapMemoryOk]. *)
From S2P Require Import Prelude Paging PageAlloc.

(** ** The memory the heap lives in *)

(** Words are read and written through the page tables; an access to a page that
    is not mapped is a page fault, which panics. *)
Class HeapMemory (S : Type) : Type := {
  hp_map_page : Z → Z → M S (result () MapPageError);
  hp_unmap_and_free_page : Z → M S ();
  hp_free_page : Z → M S ();
  hp_load : Z → M S Z;
  hp_store : Z → Z → M S ();
}.
Definition page_of (a : Z) : Z := a / PAGE_SIZE.
(** What the heap relies on for the range of addresses it is given: [word] is the
    contents of an aligned word, if its page is mapped; [pages_left] is the number
    of free physical pages. Mapping a page may need three page tables. *)
Class HeapMemoryOk (S : Type) `{HeapMemory S} (lo hi : Z) : Type := {
  hp_ok : S → Prop;
  word : S → Z → option Z;
  pages_left : S → Z;
  hp_range : 0 < lo ∧ lo mod PAGE_SIZE = 0 ∧ hi + PAGE_SIZE < 2 ^ 64;
  hp_size : hi - lo < 2 ^ 62;
  hp_word_bound s a v : word s a = Some v → 0 ≤ v < 2 ^ 64;
  hp_mapped s a b v : page_of a = page_of b → word s a = Some v → is_Some (word s b);
  hp_load_spec s a v : hp_ok s → lo ≤ a < hi → a mod 8 = 0 → word s a = Some v → hp_load a s = Returns (v, s);
  hp_load_fault s a : hp_ok s → lo ≤ a < hi → word s a = None → hp_load a s = Panics;
  hp_store_spec s a v : hp_ok s → lo ≤ a < hi → a mod 8 = 0 → is_Some (word s a) → 0 ≤ v < 2 ^ 64 →
    wp (hp_store a v) (λ _ s', hp_ok s' ∧ pages_left s' = pages_left s ∧
      ∀ b, lo ≤ b < hi → b mod 8 = 0 → word s' b = if decide (b = a) then Some v else word s b) s;
  hp_map_page_spec s a : hp_ok s → lo ≤ a < hi → 4 ≤ pages_left s →
    wp (hp_map_page a READ_WRITE) (λ r s', hp_ok s' ∧ pages_left s - 4 ≤ pages_left s' ∧
      (r = Ok () ∧ word s a = None ∨ r = Err PageAlreadyExists ∧ is_Some (word s a)) ∧
      is_Some (word s' a) ∧ ∀ b v, lo ≤ b < hi → b mod 8 = 0 → word s b = Some v → word s' b = Some v) s;
  hp_unmap_spec s a : hp_ok s → lo ≤ a < hi →
    wp (hp_unmap_and_free_page a) (λ _ s', hp_ok s' ∧ pages_left s ≤ pages_left s' ∧
      ∀ b, lo ≤ b < hi → b mod 8 = 0 → word s' b = if decide (page_of b = page_of a) then None else word s b) s;
  hp_free_spec s a : hp_ok s → lo ≤ a < hi →
    wp (hp_free_page a) (λ _ s', s' = s) s;
}.

(** ** Blocks *)

(** The bit field [Block]. *)
Definition LEN_MASK : Z := 0x3FFFFFFFFFFFFFFF.
Definition Block_new (len : Z) (used has_next : bool) : Z :=
  Z.lor (Z.lor (Z.land len LEN_MASK) (Z.shiftl (Z.b2z used) 62)) (Z.shiftl (Z.b2z has_next) 63).
Definition block_len (b : Z) : Z := get_bits b 61 0.
Definition block_used (b : Z) : bool := Z.testbit b 62.
Definition block_has_next (b : Z) : bool := Z.testbit b 63.
Definition set_block_len (v b : Z) : Z := set_bits b 61 0 v.
Definition set_block_used (v : bool) (b : Z) : Z := set_bit b 62 v.
Definition set_block_has_next (v : bool) (b : Z) : Z := set_bit b 63 v.
Definition size_of_Block : Z := 8.
Definition align_of_Block : Z := 8.
Definition PAGE_FLAGS : Z := READ_WRITE.

Record heap (S : Type) : Type := { list_head : option Z; heap_memory : S }.
Arguments list_head {S} _.
Arguments heap_memory {S} _.
Definition next_multiple {S} (a b : Z) : M S Z := chk 64 (next_multiple_of a b).

Section heap.
Context {S : Type} `{HeapMemory S}.
(** Calling a setter of a block through its pointer. *)
Definition update_block (p : Z) (f : Z → Z) : M S () := b ← hp_load p; hp_store p (f b).
Definition get_len (p : Z) : M S Z := b ← hp_load p; mret (block_len b).
Definition get_used (p : Z) : M S bool := b ← hp_load p; mret (block_used b).
Definition get_has_next (p : Z) : M S bool := b ← hp_load p; mret (block_has_next b).
Definition start_address (p : Z) : M S Z := chk 64 (p + size_of_Block).
Definition get_next (p : Z) : M S (option Z) :=
  has_next ← get_has_next p;
  if negb has_next then mret None
  else start ← start_address p; len ← get_len p; address ← chk 64 (start + len); mret (Some address).
(** [map_page], which may find the page mapped already. *)
Definition ensure_page (page : Z) : M S () :=
  r ← hp_map_page page PAGE_FLAGS;
  match r with
  | Ok _ => mret ()
  | Err PageAlreadyExists => mret ()
  | Err _ => panic
  end.
Definition pages (start_page end_page : Z) : list Z :=
  (λ i, start_page + PAGE_SIZE * i) <$> seqZ 0 ((end_page - start_page) / PAGE_SIZE + 1).

(** [KernelHeapAllocator::alloc]: splitting a block, and reserving a block that is
    large enough. *)
Definition split_block (p unaligned_start_addr max_addr new_block_addr new_space_start : Z) : M S () :=
  len ← chk 64 (new_block_addr - unaligned_start_addr);
  update_block p (set_block_len len);;
  ensure_page new_block_addr;;
  len ← chk 64 (max_addr - new_space_start);
  len ← chk 64 (len + 1);
  has_next ← get_has_next p;
  hp_store new_block_addr (Block_new len false has_next);;
  update_block p (set_block_has_next true).
Definition reserve_block (p unaligned_start_addr max_addr end_addr : Z) : M S () :=
  update_block p (set_block_used true);;
  end1 ← chk 64 (end_addr + 1);
  new_block_addr ← next_multiple end1 align_of_Block;
  new_space_start ← chk 64 (new_block_addr + size_of_Block);
  (if new_space_start <? max_addr
   then split_block p unaligned_start_addr max_addr new_block_addr new_space_start else mret ());;
  for_each ensure_page (pages (align_to_page unaligned_start_addr) (align_to_page end_addr)).
(** The scan through the list; [0] is the null pointer. *)
Fixpoint alloc_loop (fuel : nat) (current_block : option Z) (size align : Z) : M S Z :=
  match current_block with
  | None => mret 0
  | Some p =>
      match fuel with
      | O => out_of_fuel
      | Datatypes.S fuel =>
          next ← get_next p;
          used ← get_used p;
          if used : bool then alloc_loop fuel next size align
          else
            unaligned_start_addr ← start_address p;
            start_addr ← next_multiple unaligned_start_addr align;
            len ← get_len p;
            len1 ← chk 64 (len - 1);
            max_addr ← chk 64 (unaligned_start_addr + len1);
            size1 ← chk 64 (size - 1);
            end_addr ← chk 64 (start_addr + size1);
            if max_addr <? end_addr then alloc_loop fuel next size align
            else reserve_block p unaligned_start_addr max_addr end_addr;; mret start_addr
      end
  end.
Definition on_memory {A} (m : M S A) : M (heap S) A :=
  zoom heap_memory (λ s h, {| list_head := list_head h; heap_memory := s |}) m.
Definition alloc (fuel : nat) (size align : Z) : M (heap S) Z :=
  h ← get;
  match list_head h with
  | None => mret 0
  | Some p => on_memory (alloc_loop fuel (Some p) size align)
  end.

(** [KernelHeapAllocator::dealloc]: merging a free block with the free block after
    it; [unmap] frees the page of the merged header. *)
Definition merge_blocks (p p_page q q_page : Z) : M S () :=
  len_p ← get_len p; len_q ← get_len q;
  len ← chk 64 (len_p + size_of_Block);
  len ← chk 64 (len + len_q);
  update_block p (set_block_len len);;
  has_next ← get_has_next q;
  update_block p (set_block_has_next has_next);;
  if negb (p_page =? q_page) then mret ()
  else
    next_next ← get_next q;
    match next_next with
    | None => mret ()
    | Some r =>
        if negb (align_to_page r =? q_page) then hp_unmap_and_free_page q_page else mret ()
    end.
Definition merge_forward (p : Z) : M S () :=
  let current_block_page := align_to_page p in
  next ← get_next p;
  match next with
  | Some q =>
      used ← get_used q;
      if used : bool then mret () else merge_blocks p current_block_page q (align_to_page q)
  | None => mret ()
  end.
Definition merge_backward (previous : option Z) (p : Z) : M S () :=
  let current_block_page := align_to_page p in
  match previous with
  | Some o =>
      used ← get_used o;
      if used : bool then mret () else merge_blocks o (align_to_page o) p current_block_page
  | None => mret ()
  end.
Definition release_block (previous : option Z) (p min_addr max_addr : Z) : M S () :=
  used ← get_used p;
  rassert used;;
  update_block p (set_block_used false);;
  start_page ← next_multiple min_addr PAGE_SIZE;
  for_each hp_free_page
    ((λ i, start_page + PAGE_SIZE * i) <$> seqZ 0 ((align_to_page max_addr - start_page) / PAGE_SIZE));;
  merge_forward p;;
  merge_backward previous p.
Fixpoint dealloc_loop (fuel : nat) (previous current_block : option Z) (search_addr : Z) : M S () :=
  match current_block with
  | None => mret ()
  | Some p =>
      match fuel with
      | O => out_of_fuel
      | Datatypes.S fuel =>
          next ← get_next p;
          min_addr ← start_address p;
          len ← get_len p;
          len1 ← chk 64 (len - 1);
          max_addr ← chk 64 (min_addr + len1);
          if (min_addr <=? search_addr) && (search_addr <=? max_addr)
          then release_block previous p min_addr max_addr
          else dealloc_loop fuel (Some p) next search_addr
      end
  end.
Definition dealloc (fuel : nat) (ptr : Z) : M (heap S) () :=
  h ← get;
  p ← unwrap (list_head h);
  on_memory (dealloc_loop fuel None (Some p) ptr).

(** [init_heap]. *)
Definition init_heap (start_address length : Z) : M (heap S) () :=
  new_block_addr ← next_multiple start_address align_of_Block;
  on_memory (r ← hp_map_page new_block_addr PAGE_FLAGS;
    match r with Ok _ => mret () | Err _ => panic end);;
  end_address ← chk 64 (start_address + length);
  len ← chk 64 (end_address - new_block_addr);
  len ← chk 64 (len - size_of_Block);
  on_memory (hp_store new_block_addr (Block_new len false false));;
  modify (λ h, {| list_head := Some new_block_addr; heap_memory := heap_memory h |}).
End heap.

(** ** Block words *)
Lemma testbit_Block_new len used has_next k : 0 ≤ len < 2 ^ 62 → 0 ≤ k →
  Z.testbit (Block_new len used has_next) k =
    if k <? 62 then Z.testbit len k else if k =? 62 then used else (k =? 63) && has_next.
Proof.
  intros Hl Hk. unfold Block_new. change LEN_MASK with (Z.ones 62).
  rewrite !Z.lor_spec, Z.land_spec, testbit_ones, !testbit_shiftl_b2z by lia.
  destruct (Z.ltb_spec k 62).
  - rewrite (proj2 (Z.eqb_neq k 62)), (proj2 (Z.eqb_neq k 63)) by lia. by rewrite andb_true_r, !orb_false_r.
  - rewrite andb_false_r, orb_false_l. destruct (Z.eqb_spec k 62) as [->|]; [by rewrite orb_false_r|done].
Qed.
Lemma Block_new_bound len used has_next : 0 ≤ len < 2 ^ 62 → 0 ≤ Block_new len used has_next < 2 ^ 64.
Proof.
  intros Hl. assert (0 ≤ Block_new len used has_next) as H0.
  { unfold Block_new. rewrite !Z.lor_nonneg, !Z.shiftl_nonneg. split; [split; [apply Z.land_nonneg; lia|]|].
    - by destruct used.
    - by destruct has_next. }
  split; [done|]. apply bits_bound; [lia|done|]. intros i Hi. rewrite testbit_Block_new by lia.
  rewrite (proj2 (Z.ltb_ge i 62)), (proj2 (Z.eqb_neq i 62)), (proj2 (Z.eqb_neq i 63)) by lia. done.
Qed.
Lemma block_len_new len used has_next : 0 ≤ len < 2 ^ 62 → block_len (Block_new len used has_next) = len.
Proof.
  intros Hl. apply get_bits_eq; [lia|lia|]. intros k Hk.
  rewrite testbit_Block_new, (proj2 (Z.ltb_lt k 62)), Z.sub_0_r by lia. done.
Qed.
Lemma block_used_new len used has_next : 0 ≤ len < 2 ^ 62 → block_used (Block_new len used has_next) = used.
Proof. intros Hl. unfold block_used. by rewrite testbit_Block_new by lia. Qed.
Lemma block_has_next_new len used has_next : 0 ≤ len < 2 ^ 62 → block_has_next (Block_new len used has_next) = has_next.
Proof. intros Hl. unfold block_has_next. by rewrite testbit_Block_new by lia. Qed.
Ltac block_bits := apply Z.bits_inj'; intros k Hk;
  unfold set_block_len, set_block_used, set_block_has_next;
  rewrite ?testbit_set_bit, ?testbit_set_bits, ?testbit_Block_new by lia;
  repeat match goal with
  | |- context [?a =? ?b] => destruct (Z.eqb_spec a b); try lia
  | |- context [?a <=? ?b] => destruct (Z.leb_spec a b); try lia
  | |- context [?a <? ?b] => destruct (Z.ltb_spec a b); try lia
  end; cbn [andb]; rewrite ?Z.sub_0_r; done.
Lemma set_block_len_new len used has_next v : 0 ≤ len < 2 ^ 62 → 0 ≤ v < 2 ^ 62 →
  set_block_len v (Block_new len used has_next) = Block_new v used has_next.
Proof. intros Hl Hv. block_bits. Qed.
Lemma set_block_used_new len used has_next v : 0 ≤ len < 2 ^ 62 →
  set_block_used v (Block_new len used has_next) = Block_new len v has_next.
Proof. intros Hl. block_bits. Qed.
Lemma set_block_has_next_new len used has_next v : 0 ≤ len < 2 ^ 62 →
  set_block_has_next v (Block_new len used has_next) = Block_new len used v.
Proof. intros Hl. block_bits. Qed.
Create HintDb block.
#[export] Hint Rewrite block_len_new block_used_new block_has_next_new set_block_len_new set_block_used_new
  set_block_has_next_new using lia : block.

(** ** The list of blocks *)
Abbreviation block := (Z * bool)%type.
Definition is_nil {A} (l : list A) : bool := match l with [] => true | _ => false end.
(** The address after the blocks [bs] at [p]. *)
Fixpoint extent (p : Z) (bs : list block) : Z :=
  match bs with [] => p | (len, _) :: bs => extent (p + 8 + len) bs end.
(** The addresses of their headers. *)
Fixpoint headers (p : Z) (bs : list block) : list Z :=
  match bs with [] => [] | (len, _) :: bs => p :: headers (p + 8 + len) bs end.
Lemma extent_app p l1 l2 : extent p (l1 ++ l2) = extent (extent p l1) l2.
Proof. revert p. induction l1 as [|[len u] l1 IH]; intros p; [done|]. apply IH. Qed.
Lemma headers_app p l1 l2 : headers p (l1 ++ l2) = headers p l1 ++ headers (extent p l1) l2.
Proof. revert p. induction l1 as [|[len u] l1 IH]; intros p; [done|]. cbn. by rewrite IH. Qed.
Definition lens_ok : list block → Prop := Forall (λ b, 1 ≤ fst b < 2 ^ 62).
Lemma extent_le p bs : lens_ok bs → p + 9 * Z.of_nat (length bs) ≤ extent p bs.
Proof.
  revert p. induction bs as [|[len u] bs IH]; intros p; [cbn; lia|].
  intros [Hl Hbs]%Forall_cons. cbn [extent length]. specialize (IH (p + 8 + len) Hbs). cbn [fst] in Hl. lia.
Qed.
Lemma headers_range p bs a : lens_ok bs → a ∈ headers p bs → p ≤ a ∧ a + 9 ≤ extent p bs.
Proof.
  revert p. induction bs as [|[len u] bs IH]; intros p; [by intros _ ?%elem_of_nil|].
  intros [Hl Hbs]%Forall_cons. cbn [headers extent fst] in *. intros [->|Ha]%elem_of_cons.
  - pose proof (extent_le (p + 8 + len) bs Hbs). lia.
  - destruct (IH _ Hbs Ha). lia.
Qed.

Section correctness.
Context {S : Type} {lo hi : Z} `{HeapMemoryOk S lo hi}.
Implicit Types s : S.
(** The blocks [bs] lie in memory from [p] on; [more] says whether the last of
    them has a next block. *)
Fixpoint chain s (p : Z) (bs : list block) (more : bool) : Prop :=
  match bs with
  | [] => True
  | (len, used) :: bs => word s p = Some (Block_new len used (negb (is_nil bs) || more)) ∧ p mod 8 = 0 ∧
      chain s (p + 8 + len) bs more
  end.
Lemma blocks_chain_app s p l1 l2 more :
  chain s p (l1 ++ l2) more ↔ chain s p l1 (negb (is_nil l2) || more) ∧ chain s (extent p l1) l2 more.
Proof.
  revert p. induction l1 as [|[len u] l1 IH]; intros p; cbn [chain app extent]; [tauto|].
  rewrite IH. destruct l1; cbn [is_nil app negb orb]; [|tauto].
  destruct l2; cbn [is_nil negb orb]; tauto.
Qed.
Lemma chain_frame s s' p bs more :
  (∀ a, a ∈ headers p bs → word s' a = word s a) → chain s p bs more → chain s' p bs more.
Proof.
  revert p. induction bs as [|[len u] bs IH]; intros p Hw; [done|]. cbn [chain]. intros (Hp & Ha & Hc).
  split; [rewrite Hw; [done|left]|]. split; [done|]. apply IH; [|done]. intros a Hin. apply Hw. by right.
Qed.
Lemma chain_aligned s p bs more a : chain s p bs more → a ∈ headers p bs → a mod 8 = 0.
Proof.
  revert p. induction bs as [|[len u] bs IH]; intros p; [by intros _ ?%elem_of_nil|]. cbn [chain headers].
  intros (_ & Ha & Hc) [->|Hin]%elem_of_cons; [done|by eapply IH].
Qed.
(** The heap: a list of blocks in the range of the heap. *)
Record heap_ok s (p : Z) (bs : list block) : Prop := {
  heap_memory_ok : hp_ok s;
  heap_lens : lens_ok bs;
  heap_nonempty : bs ≠ [];
  heap_lo : lo ≤ p;
  heap_hi : extent p bs ≤ hi;
  heap_chain : chain s p bs false;
}.

(** ** Reading and writing headers *)
Definition words_kept s s' : Prop := ∀ b v, lo ≤ b < hi → b mod 8 = 0 → word s b = Some v → word s' b = Some v.
Definition word_set s s' (a v : Z) : Prop :=
  ∀ b, lo ≤ b < hi → b mod 8 = 0 → word s' b = if decide (b = a) then Some v else word s b.
Lemma wp_load s a v (Q : Z → S → Prop) :
  hp_ok s → lo ≤ a < hi → a mod 8 = 0 → word s a = Some v → Q v s → wp (hp_load a) Q s.
Proof. intros. unfold wp. by rewrite (hp_load_spec s a v). Qed.
Lemma wp_update_block s p f v (Q : () → S → Prop) :
  hp_ok s → lo ≤ p < hi → p mod 8 = 0 → word s p = Some v → 0 ≤ f v < 2 ^ 64 →
  (∀ s', hp_ok s' → pages_left s' = pages_left s → word_set s s' p (f v) → Q () s') →
  wp (update_block p f) Q s.
Proof.
  intros Hok Hp Ha Hw Hf HQ. unfold update_block. rewrite wp_bind. eapply wp_load; [done..|].
  eapply wp_mono; [by apply hp_store_spec|]. cbn beta. intros [] s' (H1 & H2 & H3). by apply HQ.
Qed.
(** A header in memory. *)
Record header s (p len : Z) (used has_next : bool) : Prop := {
  header_ok : hp_ok s;
  header_lo : lo ≤ p;
  header_hi : p + 8 + len ≤ hi;
  header_aligned : p mod 8 = 0;
  header_len : 1 ≤ len < 2 ^ 62;
  header_word : word s p = Some (Block_new len used has_next);
}.
Lemma header_range s p len used has_next : header s p len used has_next → lo ≤ p < hi.
Proof. intros []. lia. Qed.
Lemma wp_get_len s p len used has_next (Q : Z → S → Prop) :
  header s p len used has_next → Q len s → wp (get_len p) Q s.
Proof.
  intros Hh HQ. pose proof (header_range _ _ _ _ _ Hh). destruct Hh. unfold get_len. rewrite wp_bind.
  eapply wp_load; [done..|]. by rewrite wp_ret, block_len_new by lia.
Qed.
Lemma wp_get_used s p len used has_next (Q : bool → S → Prop) :
  header s p len used has_next → Q used s → wp (get_used p) Q s.
Proof.
  intros Hh HQ. pose proof (header_range _ _ _ _ _ Hh). destruct Hh. unfold get_used. rewrite wp_bind.
  eapply wp_load; [done..|]. by rewrite wp_ret, block_used_new by lia.
Qed.
Lemma wp_get_has_next s p len used has_next (Q : bool → S → Prop) :
  header s p len used has_next → Q has_next s → wp (get_has_next p) Q s.
Proof.
  intros Hh HQ. pose proof (header_range _ _ _ _ _ Hh). destruct Hh. unfold get_has_next. rewrite wp_bind.
  eapply wp_load; [done..|]. by rewrite wp_ret, block_has_next_new by lia.
Qed.
Lemma wp_start_address s p len used has_next (Q : Z → S → Prop) :
  header s p len used has_next → Q (p + 8) s → wp (start_address p) Q s.
Proof.
  intros Hh HQ. pose proof hp_range. destruct Hh. unfold start_address. rewrite wp_chk. unfold size_of_Block, PAGE_SIZE in *.
  split; [lia|done].
Qed.
Lemma wp_get_next s p len used has_next (Q : option Z → S → Prop) :
  header s p len used has_next → Q (if has_next then Some (p + 8 + len) else None) s → wp (get_next p) Q s.
Proof.
  intros Hh HQ. unfold get_next. rewrite wp_bind. eapply wp_get_has_next; [done|]. destruct has_next; cbn [negb]; [|done].
  rewrite wp_bind. eapply wp_start_address; [done|]. rewrite wp_bind. eapply wp_get_len; [done|]. rewrite wp_bind, wp_chk.
  pose proof hp_range. destruct Hh. unfold PAGE_SIZE in *. split; [lia|done].
Qed.
(** Updating the header. *)
Lemma wp_update_header s p len used has_next f len' used' has_next' (Q : () → S → Prop) :
  header s p len used has_next →
  f (Block_new len used has_next) = Block_new len' used' has_next' → 0 ≤ len' < 2 ^ 62 →
  (∀ s', hp_ok s' → pages_left s' = pages_left s → word_set s s' p (Block_new len' used' has_next') → Q () s') →
  wp (update_block p f) Q s.
Proof.
  intros Hh Hf Hl HQ. pose proof (header_range _ _ _ _ _ Hh). destruct Hh. eapply wp_update_block; [done..| |].
  - rewrite Hf. by apply Block_new_bound.
  - by rewrite Hf.
Qed.
Lemma chain_header s p0 l1 len used l2 : heap_ok s p0 (l1 ++ (len, used) :: l2) →
  header s (extent p0 l1) len used (negb (is_nil l2)).
Proof.
  intros [Hok Hlens _ Hlo Hhi Hc]. apply Forall_app in Hlens as [Hl1 [Hl Hl2]%Forall_cons].
  rewrite extent_app in Hhi. cbn [extent] in Hhi. apply blocks_chain_app in Hc as [_ (Hw & Ha & _)].
  pose proof (extent_le p0 l1 Hl1). pose proof (extent_le (extent p0 l1 + 8 + len) l2 Hl2).
  split; [done|lia|lia|done|done|]. by rewrite orb_false_r in Hw.
Qed.
Lemma ensure_page_step s a (Q : () → S → Prop) :
  hp_ok s → lo ≤ a < hi → 4 ≤ pages_left s →
  (∀ s', hp_ok s' → pages_left s - 4 ≤ pages_left s' → is_Some (word s' a) → words_kept s s' → Q () s') →
  wp (ensure_page a) Q s.
Proof.
  intros Hok Ha Hp HQ. unfold ensure_page. rewrite wp_bind. eapply wp_mono; [by apply hp_map_page_spec|].
  intros r s' (Hok' & Hp' & Hr & Hm & Hk). destruct Hr as [[-> _]|[-> _]]; rewrite wp_ret; by apply HQ.
Qed.
(** The pages from the one of [a] to the one of [b]. *)
Definition num_pages (a b : Z) : Z := page_of b - page_of a + 1.
Lemma page_address_bounds a b i : lo ≤ a → a ≤ b < hi → 0 ≤ i < num_pages a b →
  lo ≤ align_to_page a + PAGE_SIZE * i < hi ∧ page_of (align_to_page a + PAGE_SIZE * i) = page_of a + i ∧
  (align_to_page a + PAGE_SIZE * i) mod 8 = 0.
Proof.
  intros Ha Hb Hi. destruct hp_range as (Hlo & Hlom & Hhi).
  rewrite align_to_page_spec by (unfold PAGE_SIZE in *; lia). unfold num_pages, page_of, PAGE_SIZE in *.
  Z.div_mod_to_equations. lia.
Qed.
Lemma wp_ensure_pages s a b (Q : () → S → Prop) :
  hp_ok s → lo ≤ a → a ≤ b < hi → 4 * num_pages a b ≤ pages_left s →
  (∀ s', hp_ok s' → words_kept s s' → pages_left s - 4 * num_pages a b ≤ pages_left s' →
    (∀ c, a ≤ c ≤ b → is_Some (word s' c)) → Q () s') →
  wp (for_each ensure_page (pages (align_to_page a) (align_to_page b))) Q s.
Proof.
  intros Hok Ha Hb Hp HQ. destruct hp_range as (Hlo & Hlom & Hhi).
  assert (pages (align_to_page a) (align_to_page b) =
    (λ i, align_to_page a + PAGE_SIZE * i) <$> seqZ 0 (num_pages a b)) as ->.
  { unfold pages. do 2 f_equal. rewrite !align_to_page_spec by (unfold PAGE_SIZE in *; lia).
    unfold num_pages, page_of, PAGE_SIZE. Z.div_mod_to_equations. lia. }
  assert (0 < num_pages a b) as Hn by (unfold num_pages, page_of, PAGE_SIZE; Z.div_mod_to_equations; lia).
  apply (wp_for_each _ (λ k s', hp_ok s' ∧ words_kept s s' ∧ pages_left s - 4 * Z.of_nat k ≤ pages_left s' ∧
    ∀ i, 0 ≤ i < Z.of_nat k → is_Some (word s' (align_to_page a + PAGE_SIZE * i)))).
  - split; [done|]. split; [by intros ???|]. split; lia.
  - intros k c s1 Hk (Hok1 & Hk1 & Hp1 & Hm1). apply list_lookup_fmap_Some in Hk as (i & -> & Hk).
    apply lookup_seqZ in Hk as [-> Hk]. rewrite Z.add_0_l in *.
    destruct (page_address_bounds a b (Z.of_nat k)) as (Hr & _ & _); [done|done|lia|].
    apply ensure_page_step; [done|done|lia|]. intros s2 Hok2 Hp2 Hw Hk2.
    split; [done|]. split; [intros x v ???; by apply Hk2, Hk1|]. split; [lia|].
    intros i Hi. destruct (decide (i = Z.of_nat k)) as [->|]; [done|].
    destruct (Hm1 i ltac:(lia)) as [v Hv]. destruct (page_address_bounds a b i) as (Hri & _ & Hali); [done|done|lia|].
    exists v. by apply Hk2.
  - rewrite length_fmap, length_seqZ, Z2Nat.id by lia. intros s' (Hok' & Hk' & Hp' & Hm'). apply HQ; [done..|].
    intros c Hc. pose proof (Z.div_le_mono a c PAGE_SIZE ltac:(done) ltac:(lia)) as H1.
    pose proof (Z.div_le_mono c b PAGE_SIZE ltac:(done) ltac:(lia)) as H2.
    assert (0 ≤ page_of c - page_of a < num_pages a b) as Hi by (unfold num_pages, page_of in *; lia).
    destruct (Hm' _ Hi) as [v Hv]. destruct (page_address_bounds a b _ Ha Hb Hi) as (_ & Hpg & _).
    eapply hp_mapped; [|exact Hv]. rewrite Hpg. lia.
Qed.

(** ** Reserving a block *)

(** All words but those with [P] are kept. *)
Definition kept_but (P : Z → Prop) s s' : Prop :=
  ∀ b v, ¬ P b → lo ≤ b < hi → b mod 8 = 0 → word s b = Some v → word s' b = Some v.
Lemma word_set_at s s' a v : lo ≤ a < hi → a mod 8 = 0 → word_set s s' a v → word s' a = Some v.
Proof. intros Hr Ha Hs. by rewrite Hs, decide_True. Qed.
Lemma chain_kept P s s' p bs more :
  kept_but P s s' → (∀ a, a ∈ headers p bs → ¬ P a ∧ lo ≤ a < hi) → chain s p bs more → chain s' p bs more.
Proof.
  intros Hk. revert p. induction bs as [|[len u] bs IH]; intros p Hh; [done|]. cbn [chain headers] in *.
  intros (Hw & Ha & Hc). destruct (Hh p ltac:(left)). split; [by apply Hk|]. split; [done|].
  apply IH; [|done]. intros a Hin. apply Hh. by right.
Qed.
(** Replacing some blocks by others in the same space. *)
Lemma heap_replace s s' p0 l1 mid mid' l2 :
  let p := extent p0 l1 in
  heap_ok s p0 (l1 ++ mid ++ l2) → hp_ok s' → mid ≠ [] → mid' ≠ [] → lens_ok mid' → extent p mid' = extent p mid →
  chain s' p mid' (negb (is_nil l2)) → kept_but (λ b, p ≤ b < extent p mid) s s' →
  heap_ok s' p0 (l1 ++ mid' ++ l2).
Proof.
  intros p [Hok Hlens _ Hlo Hhi Hc] Hok' Hm Hm' Hl' Hext Hc' Hk.
  apply Forall_app in Hlens as [Hl1 [Hlm Hl2]%Forall_app].
  rewrite !extent_app in Hhi. fold p in Hhi.
  apply blocks_chain_app in Hc as [Hc1 [Hcm Hc2]%blocks_chain_app]. fold p in Hcm, Hc2.
  assert (is_nil (mid' ++ l2) = false) as Hn' by (by destruct mid').
  assert (is_nil (mid ++ l2) = false) as Hn by (by destruct mid).
  pose proof (extent_le p0 l1 Hl1). pose proof (extent_le p mid Hlm). fold p in H2.
  pose proof (extent_le (extent p mid) l2 Hl2).
  split; [done| | |done| |].
  - apply Forall_app. split; [done|]. by apply Forall_app.
  - destruct l1; [|done]. by destruct mid'.
  - rewrite !extent_app. fold p. by rewrite Hext.
  - apply blocks_chain_app. rewrite Hn'. rewrite Hn in Hc1. split.
    + eapply chain_kept; [exact Hk| |done]. intros a Ha. apply headers_range in Ha; [|done]. fold p in Ha. cbn beta. lia.
    + apply blocks_chain_app. fold p. rewrite orb_false_r, Hext. split; [done|].
      eapply chain_kept; [exact Hk| |done]. intros a Ha. apply headers_range in Ha; [|done]. cbn beta. lia.
Qed.
Lemma wp_split_block s p len has_next n (Q : () → S → Prop) :
  header s p len true has_next → p + 8 < n → n mod 8 = 0 → n + 8 < p + 8 + len - 1 → 4 ≤ pages_left s →
  (∀ s', hp_ok s' → pages_left s - 4 ≤ pages_left s' →
    word s' p = Some (Block_new (n - (p + 8)) true true) →
    word s' n = Some (Block_new (p + 8 + len - (n + 8)) false has_next) →
    kept_but (λ b, b = p ∨ b = n) s s' → Q () s') →
  wp (split_block p (p + 8) (p + 8 + len - 1) n (n + 8)) Q s.
Proof.
  intros Hh Hn Hna Hlast Hpages HQ. pose proof (header_range _ _ _ _ _ Hh) as Hr.
  destruct hp_range as (Hlo & _ & Hhi). pose proof Hh as [_ _ Hp Hpa Hl _]. unfold PAGE_SIZE in Hhi.
  unfold split_block. rewrite wp_bind, wp_chk. split; [lia|]. rewrite wp_bind.
  eapply wp_update_header; [done|apply set_block_len_new; lia|lia|]. intros s1 Hok1 Hp1 Hs1. rewrite wp_bind.
  apply ensure_page_step; [done|lia|lia|]. intros s2 Hok2 Hp2 Hw2 Hk2.
  assert (word s2 p = Some (Block_new (n - (p + 8)) true has_next)) as Hwp by (apply Hk2; [done..|by eapply word_set_at]).
  assert (header s2 p (n - (p + 8)) true has_next) as Hh2 by (split; done || lia).
  rewrite wp_bind, wp_chk. split; [lia|]. rewrite wp_bind, wp_chk. split; [lia|]. rewrite wp_bind.
  eapply wp_get_has_next; [done|]. rewrite wp_bind.
  replace (p + 8 + len - 1 - (n + 8) + 1) with (p + 8 + len - (n + 8)) by lia.
  eapply wp_mono; [apply hp_store_spec; [done|lia|done|done|apply Block_new_bound; lia]|].
  intros [] s3 (Hok3 & Hp3 & Hs3). fold (word_set s2 s3 n (Block_new (p + 8 + len - (n + 8)) false has_next)) in Hs3.
  assert (header s3 p (n - (p + 8)) true has_next) as Hh3.
  { split; try done; try lia. by rewrite Hs3, decide_False by (done || lia). }
  eapply wp_update_header; [done|apply set_block_has_next_new; lia|lia|]. intros s4 Hok4 Hp4 Hs4.
  apply HQ; [done|lia|by eapply word_set_at| |].
  - rewrite Hs4, decide_False by (done || lia). by rewrite Hs3, decide_True by (done || lia).
  - intros b v Hb Hbr Hba Hw. rewrite Hs4, decide_False by (done || tauto).
    rewrite Hs3, decide_False by (done || tauto). apply Hk2; [done..|].
    by rewrite Hs1, decide_False by (done || tauto).
Qed.
(** The blocks a free block of length [len] at [p] becomes when the space up to
    [end_addr] is taken. *)
Definition new_block (end_addr : Z) : Z := next_multiple_of (end_addr + 1) 8.
Definition carve (p len end_addr : Z) : list block :=
  if new_block end_addr + 8 <? p + 8 + len - 1
  then [(new_block end_addr - (p + 8), true); (p + 8 + len - (new_block end_addr + 8), false)]
  else [(len, true)].
Lemma next_multiple_of_spec a b : 0 < b → a ≤ next_multiple_of a b < a + b ∧ next_multiple_of a b mod b = 0.
Proof.
  intros Hb. unfold next_multiple_of. rewrite Z.mod_mul by lia.
  pose proof (Z.div_mod (a + b - 1) b ltac:(lia)). pose proof (Z.mod_pos_bound (a + b - 1) b Hb). nia.
Qed.
Lemma extent_carve p len end_addr : extent p (carve p len end_addr) = p + 8 + len.
Proof. unfold carve. destruct (_ <? _); cbn [extent]; lia. Qed.
Lemma carve_not_nil p len end_addr : is_nil (carve p len end_addr) = false.
Proof. unfold carve. by destruct (_ <? _). Qed.
Lemma wp_reserve_block s p0 l1 len l2 end_addr (Q : () → S → Prop) :
  let p := extent p0 l1 in
  heap_ok s p0 (l1 ++ (len, false) :: l2) → p + 8 ≤ end_addr ≤ p + 8 + len - 1 →
  4 * (num_pages (p + 8) end_addr + 1) ≤ pages_left s →
  (∀ s', heap_ok s' p0 (l1 ++ carve p len end_addr ++ l2) →
    (∀ c, p + 8 ≤ c ≤ end_addr → is_Some (word s' c)) →
    (∀ b v, lo ≤ b < hi → b mod 8 = 0 → ¬ p ≤ b < p + 8 + len → word s b = Some v → word s' b = Some v) →
    Q () s') →
  wp (reserve_block p (p + 8) (p + 8 + len - 1) end_addr) Q s.
Proof.
  intros p Hh Hend Hpages HQ. pose proof (chain_header _ _ _ _ _ _ Hh) as Hhd. fold p in Hhd.
  pose proof (header_range _ _ _ _ _ Hhd) as Hr. destruct hp_range as (Hlo & _ & Hhi).
  pose proof Hhd as [_ _ Hp Hpa Hl _]. unfold PAGE_SIZE in Hhi.
  destruct (next_multiple_of_spec (end_addr + 1) 8 ltac:(lia)) as [Hn Hn8]. fold (new_block end_addr) in Hn, Hn8.
  assert (0 < num_pages (p + 8) end_addr) as Hnp by (unfold num_pages, page_of, PAGE_SIZE; Z.div_mod_to_equations; lia).
  unfold reserve_block. rewrite wp_bind.
  eapply wp_update_header; [done|apply set_block_used_new; lia|lia|]. intros s1 Hok1 Hp1 Hs1.
  assert (header s1 p len true (negb (is_nil l2))) as Hh1 by (split; first [done|lia|by eapply word_set_at]).
  rewrite wp_bind, wp_chk. split; [lia|]. unfold next_multiple, align_of_Block, size_of_Block.
  fold (new_block end_addr). rewrite wp_bind, wp_chk. split; [lia|]. rewrite wp_bind, wp_chk. split; [lia|].
  rewrite wp_bind. set (n := new_block end_addr) in *.
  assert (lens_ok (carve p len end_addr)) as Hcl.
  { unfold carve, lens_ok. fold n. destruct (Z.ltb_spec (n + 8) (p + 8 + len - 1)); repeat constructor; cbn [fst]; lia. }
  assert (∀ s2, hp_ok s2 → pages_left s1 - 4 ≤ pages_left s2 → chain s2 p (carve p len end_addr) (negb (is_nil l2)) →
    kept_but (λ b, p ≤ b < p + 8 + len) s s2 →
    wp (for_each ensure_page (pages (align_to_page (p + 8)) (align_to_page end_addr))) Q s2) as Hrest.
  { intros s2 Hok2 Hp2 Hc2 Hk2. apply wp_ensure_pages; [done|lia|lia|lia|]. intros s3 Hok3 Hk3 _ Hmap.
    apply HQ; [|done|].
    - apply (heap_replace s s3 p0 l1 [(len, false)] _ l2); [done|done|done|by unfold carve; destruct (_ <? _)| | | |].
      + done.
      + fold p. by rewrite extent_carve.
      + fold p. eapply (chain_kept (λ _, False)); [by intros b v _; apply Hk3| |done].
        intros a Ha. split; [tauto|]. apply headers_range in Ha; [|done].
        rewrite extent_carve in Ha. lia.
      + fold p. cbn [extent]. intros b v Hb Hbr Hba Hw. apply Hk3; [done..|]. by apply Hk2.
    - intros b v Hbr Hba Hb Hw. apply Hk3; [done..|]. by apply Hk2. }
  destruct (Z.ltb_spec (n + 8) (p + 8 + len - 1)) as [Hsplit|Hsplit].
  - eapply wp_split_block; [done|lia|done|lia|lia|]. intros s2 Hok2 Hp2 Hw2 Hwn2 Hk2.
    apply Hrest; [done|lia| |].
    + unfold carve. fold n. rewrite (proj2 (Z.ltb_lt _ _)) by done. cbn [chain is_nil negb orb].
      replace (p + 8 + (n - (p + 8))) with n by lia. done.
    + intros b v Hb Hbr Hba Hw. apply Hk2; [lia|done|done|]. by rewrite Hs1, decide_False by (done || lia).
  - rewrite wp_ret. apply Hrest; [done|lia| |].
    + unfold carve. fold n. rewrite (proj2 (Z.ltb_ge _ _)) by done. cbn [chain is_nil negb orb].
      split; [apply Hh1|done].
    + intros b v Hb Hbr Hba Hw. by rewrite Hs1, decide_False by (done || lia).
Qed.

(** ** Allocating *)

(** Does a block have room for an allocation, and do no blocks have room? *)
Definition fits_block (size align p : Z) (b : block) : bool :=
  negb (snd b) && (next_multiple_of (p + 8) align + size <=? p + 8 + fst b).
Fixpoint no_fit (size align p : Z) (bs : list block) : Prop :=
  match bs with
  | [] => True
  | b :: bs => fits_block size align p b = false ∧ no_fit size align (p + 8 + fst b) bs
  end.
Lemma no_fit_app size align p l1 l2 :
  no_fit size align p (l1 ++ l2) ↔ no_fit size align p l1 ∧ no_fit size align (extent p l1) l2.
Proof. revert p. induction l1 as [|[len u] l1 IH]; intros p; cbn; [tauto|]. rewrite IH. tauto. Qed.
(** What [alloc] has to have: the request is one of a [Layout], addresses do not
    overflow, and there are enough physical pages. *)
Record request_ok s (size align : Z) : Prop := {
  request_size : 0 < size;
  request_align : 0 < align;
  request_range : hi + align + size < 2 ^ 64;
  request_pages : 4 * ((size + align) / PAGE_SIZE + 3) ≤ pages_left s;
}.
Definition allocated s (p0 : Z) (l1 : list block) (len : Z) (l2 : list block) (size align r : Z) s' : Prop :=
  let p := extent p0 l1 in
  no_fit size align p0 l1 ∧ r mod align = 0 ∧ p + 8 ≤ r ∧ r + size ≤ p + 8 + len ∧
  heap_ok s' p0 (l1 ++ carve p len (r + size - 1) ++ l2) ∧
  (∀ c, r ≤ c < r + size → is_Some (word s' c)) ∧
  (∀ b v, lo ≤ b < hi → b mod 8 = 0 → ¬ p ≤ b < p + 8 + len → word s b = Some v → word s' b = Some v).
Lemma wp_alloc_loop s p0 l1 l2 fuel size align (Q : Z → S → Prop) :
  heap_ok s p0 (l1 ++ l2) → request_ok s size align → no_fit size align p0 l1 → l2 ≠ [] → (length l2 ≤ fuel)%nat →
  (no_fit size align p0 (l1 ++ l2) → Q 0 s) →
  (∀ la len lb r s', l1 ++ l2 = la ++ (len, false) :: lb → allocated s p0 la len lb size align r s' → Q r s') →
  wp (alloc_loop fuel (Some (extent p0 l1)) size align) Q s.
Proof.
  intros Hh [Hsize Halign Hrange Hpages]. revert l1 fuel Hh.
  induction l2 as [|[len used] l2 IH]; intros l1 fuel Hh Hno Hne Hfuel Hnone Hsome; [done|].
  destruct fuel as [|fuel]; [cbn in Hfuel; lia|]. cbn [alloc_loop].
  pose proof (chain_header _ _ _ _ _ _ Hh) as Hhd. set (p := extent p0 l1) in *.
  pose proof (header_range _ _ _ _ _ Hhd) as Hr. destruct hp_range as (Hlo & _ & Hhi).
  pose proof Hhd as [_ _ Hp Hpa Hl _]. unfold PAGE_SIZE in Hhi.
  destruct (next_multiple_of_spec (p + 8) align Halign) as [Hn Hna].
  assert (fits_block size align p (len, used) = false →
    wp (alloc_loop fuel (if negb (is_nil l2) then Some (p + 8 + len) else None) size align) Q s) as Hskip.
  { intros Hf. destruct l2 as [|b l2]; cbn [is_nil negb].
    - assert (Q 0 s) as HQ by (apply Hnone, no_fit_app; by split).
      by destruct fuel.
    - replace (p + 8 + len) with (extent p0 (l1 ++ [(len, used)])) by (by rewrite extent_app).
      apply IH; rewrite <-?app_assoc; try done.
      + apply no_fit_app. by split.
      + cbn in Hfuel |- *. lia. }
  rewrite wp_bind. eapply wp_get_next; [done|]. rewrite wp_bind. eapply wp_get_used; [done|].
  destruct used; [by apply Hskip|]. rewrite wp_bind. eapply wp_start_address; [done|].
  rewrite wp_bind. unfold next_multiple. rewrite wp_chk. split; [lia|].
  rewrite wp_bind. eapply wp_get_len; [done|]. rewrite wp_bind, wp_chk. split; [lia|].
  rewrite wp_bind, wp_chk. split; [lia|]. rewrite wp_bind, wp_chk. split; [lia|].
  rewrite wp_bind, wp_chk. split; [lia|].
  set (r := next_multiple_of (p + 8) align) in *.
  replace (p + 8 + (len - 1)) with (p + 8 + len - 1) by lia. replace (r + (size - 1)) with (r + size - 1) by lia.
  destruct (Z.ltb_spec (p + 8 + len - 1) (r + size - 1)) as [Hbig|Hfit].
  - apply Hskip. unfold fits_block. cbn [fst snd negb andb]. fold r. apply Z.leb_gt. lia.
  - rewrite wp_bind. apply (wp_reserve_block s p0 l1 len l2); [done|fold p; lia| |].
    + fold p. assert (num_pages (p + 8) (r + size - 1) ≤ (size + align) / PAGE_SIZE + 2); [|lia].
      unfold num_pages, page_of, PAGE_SIZE. Z.div_mod_to_equations. lia.
    + intros s' Hh' Hmap Hk. fold p in Hh', Hmap, Hk. rewrite wp_ret. eapply Hsome; [done|].
      split; [done|]. fold p. split_and!; [done|lia|lia|done| |done]. intros c Hc. apply Hmap. lia.
Qed.

(** ** Deallocating *)

(** Merging the block at [p] with the one at [q] frees the page of [q] when [p] is
    on it and the block at [next], after [q], is not. *)
Definition unmaps (p q : Z) (next : option Z) : bool :=
  (page_of p =? page_of q) && match next with Some r => negb (page_of r =? page_of q) | None => false end.
Definition next_header (p : Z) (l : list block) : option Z := if is_nil l then None else Some p.
Lemma align_to_page_eq a b : 0 ≤ a < 2 ^ 64 → 0 ≤ b < 2 ^ 64 →
  (align_to_page a =? align_to_page b) = (page_of a =? page_of b).
Proof.
  intros Ha Hb. rewrite !align_to_page_spec by done. unfold page_of, PAGE_SIZE.
  destruct (Z.eqb_spec (a / 4096) (b / 4096)), (Z.eqb_spec (a - a mod 4096) (b - b mod 4096)); try done;
    exfalso; Z.div_mod_to_equations; lia.
Qed.
(** The merge up to the decision about the page. *)
Lemma wp_merge s p0 l1 lp up lq uq l2 (Q : () → S → Prop) :
  let p := extent p0 l1 in let q := p + 8 + lp in
  heap_ok s p0 (l1 ++ (lp, up) :: (lq, uq) :: l2) →
  (∀ s', heap_ok s' p0 (l1 ++ (lp + 8 + lq, up) :: l2) → pages_left s' = pages_left s → kept_but (eq p) s s' →
    wp (if unmaps p q (next_header (q + 8 + lq) l2) then hp_unmap_and_free_page (align_to_page q) else mret ()) Q s') →
  wp (merge_blocks p (align_to_page p) q (align_to_page q)) Q s.
Proof.
  intros p q Hh HQ. pose proof (chain_header _ _ _ _ _ _ Hh) as Hp. fold p in Hp. cbn [is_nil negb] in Hp.
  assert (heap_ok s p0 ((l1 ++ [(lp, up)]) ++ (lq, uq) :: l2)) as Hh' by (by rewrite <-app_assoc).
  pose proof (chain_header _ _ _ _ _ _ Hh') as Hq. rewrite extent_app in Hq. cbn [extent] in Hq. fold p in Hq. fold q in Hq.
  pose proof (header_range _ _ _ _ _ Hp) as Hpr. pose proof (header_range _ _ _ _ _ Hq) as Hqr.
  pose proof Hp as [_ _ Hp2 Hpa Hpl _]. pose proof Hq as [_ _ Hq2 Hqa Hql Hqw].
  destruct hp_range as (Hlo & _ & Hhi). pose proof hp_size as Hsz. unfold PAGE_SIZE in Hhi.
  unfold merge_blocks, size_of_Block. rewrite wp_bind. eapply wp_get_len; [done|].
  rewrite wp_bind. eapply wp_get_len; [done|]. rewrite wp_bind, wp_chk. split; [lia|].
  rewrite wp_bind, wp_chk. split; [lia|]. rewrite wp_bind.
  eapply wp_update_header; [done|apply set_block_len_new; lia|lia|]. intros s1 Hok1 Hp1 Hs1.
  assert (header s1 p (lp + 8 + lq) up true) as Hph1 by (split; first [done|lia|by eapply word_set_at]).
  assert (header s1 q lq uq (negb (is_nil l2))) as Hqh1.
  { split; first [done|lia|idtac]. by rewrite Hs1, decide_False by (done || lia). }
  rewrite wp_bind. eapply wp_get_has_next; [done|]. rewrite wp_bind.
  eapply wp_update_header; [done|apply set_block_has_next_new; lia|lia|]. intros s2 Hok2 Hp2' Hs2.
  assert (kept_but (eq p) s s2) as Hk.
  { intros b v Hb Hbr Hba Hw. rewrite Hs2, decide_False by (done || congruence).
    by rewrite Hs1, decide_False by (done || congruence). }
  assert (header s2 q lq uq (negb (is_nil l2))) as Hqh2.
  { split; first [done|lia|idtac]. rewrite Hs2, decide_False by (done || lia). apply Hqh1. }
  rewrite (align_to_page_eq p q) by lia.
  assert (heap_ok s2 p0 (l1 ++ (lp + 8 + lq, up) :: l2)) as Hh2.
  { apply (heap_replace s s2 p0 l1 [(lp, up); (lq, uq)] [(lp + 8 + lq, up)] l2); try done.
    - repeat constructor; cbn [fst]; lia.
    - fold p. cbn [extent]. lia.
    - fold p. cbn [chain is_nil negb orb]. split; [by eapply word_set_at|done].
    - fold p. cbn [extent]. intros b v Hb Hbr Hba Hw. apply Hk; [intros <-; lia|done..]. }
  specialize (HQ s2 Hh2 ltac:(congruence) Hk).
  unfold unmaps, next_header in HQ. destruct (page_of p =? page_of q); cbn [andb negb] in HQ |- *; [|done].
  rewrite wp_bind. eapply wp_get_next; [done|]. pose proof Hqh2 as [_ _ Hq3 _ _ _].
  destruct (is_nil l2); cbn [negb] in HQ |- *; [done|].
  rewrite (align_to_page_eq (q + 8 + lq) q) by lia. done.
Qed.
Lemma wp_merge_forward s p0 l1 len l2 (Q : () → S → Prop) :
  let p := extent p0 l1 in
  heap_ok s p0 (l1 ++ (len, false) :: l2) →
  match l2 with
  | (lq, false) :: l2' => ∀ s', heap_ok s' p0 (l1 ++ (len + 8 + lq, false) :: l2') →
      pages_left s' = pages_left s → kept_but (eq p) s s' →
      wp (if unmaps p (p + 8 + len) (next_header (p + 8 + len + 8 + lq) l2')
          then hp_unmap_and_free_page (align_to_page (p + 8 + len)) else mret ()) Q s'
  | _ => Q () s
  end → wp (merge_forward p) Q s.
Proof.
  intros p Hh HQ. pose proof (chain_header _ _ _ _ _ _ Hh) as Hp. fold p in Hp.
  unfold merge_forward. rewrite wp_bind. eapply wp_get_next; [done|].
  destruct l2 as [|[lq uq] l2]; cbn [is_nil negb]; [done|].
  assert (heap_ok s p0 ((l1 ++ [(len, false)]) ++ (lq, uq) :: l2)) as Hh' by (by rewrite <-app_assoc).
  pose proof (chain_header _ _ _ _ _ _ Hh') as Hq. rewrite extent_app in Hq. cbn [extent] in Hq. fold p in Hq.
  rewrite wp_bind. eapply wp_get_used; [done|]. destruct uq; [done|]. by apply (wp_merge s p0 l1 len false lq false l2).
Qed.
(** The header before the blocks that follow [l1]. *)
Definition previous_header (p0 : Z) (l1 : list block) : option Z := last (headers p0 l1).
Lemma previous_header_snoc p0 l1 b : previous_header p0 (l1 ++ [b]) = Some (extent p0 l1).
Proof. destruct b. unfold previous_header. rewrite headers_app. cbn [headers]. apply last_snoc. Qed.
Lemma wp_merge_backward s p0 l1 len l2 (Q : () → S → Prop) :
  let p := extent p0 l1 in
  heap_ok s p0 (l1 ++ (len, false) :: l2) →
  match rev l1 with
  | (lo, false) :: r => let o := extent p0 (rev r) in
      ∀ s', heap_ok s' p0 (rev r ++ (lo + 8 + len, false) :: l2) → kept_but (eq o) s s' →
      wp (if unmaps o p (next_header (p + 8 + len) l2)
          then hp_unmap_and_free_page (align_to_page p) else mret ()) Q s'
  | _ => Q () s
  end → wp (merge_backward (previous_header p0 l1) p) Q s.
Proof.
  intros p Hh HQ. unfold merge_backward. destruct l1 as [|[lo' u] l1 _] using rev_ind; [done|].
  rewrite previous_header_snoc. rewrite rev_unit, ?rev_involutive in HQ. rewrite <-app_assoc in Hh. cbn [app] in Hh.
  pose proof (chain_header _ _ _ _ _ _ Hh) as Ho. rewrite wp_bind. eapply wp_get_used; [done|].
  destruct u; [done|]. unfold p in *. rewrite extent_app in *. cbn [extent] in *.
  apply (wp_merge s p0 l1 lo' false len false l2); [done|]. intros s' Hs' _ Hk. by apply HQ.
Qed.
(** The blocks after the block of length [len] between [l1] and [l2] is freed. *)
Definition forward (len : Z) (l2 : list block) : Z * list block :=
  match l2 with (lq, false) :: l2' => (len + 8 + lq, l2') | _ => (len, l2) end.
Definition coalesced (l1 : list block) (len : Z) (l2 : list block) : list block :=
  match rev l1 with
  | (lo, false) :: r => rev r ++ (lo + 8 + fst (forward len l2), false) :: snd (forward len l2)
  | _ => l1 ++ (fst (forward len l2), false) :: snd (forward len l2)
  end.
(** No page is unmapped by the two merges. *)
Definition keeps_pages (p0 : Z) (l1 : list block) (len : Z) (l2 : list block) : bool :=
  let p := extent p0 l1 in
  match l2 with
  | (lq, false) :: l2' => negb (unmaps p (p + 8 + len) (next_header (p + 8 + len + 8 + lq) l2'))
  | _ => true
  end &&
  match rev l1 with
  | (_, false) :: r =>
      negb (unmaps (extent p0 (rev r)) p (next_header (p + 8 + fst (forward len l2)) (snd (forward len l2))))
  | _ => true
  end.
Lemma wp_free_pages s a b (Q : () → S → Prop) :
  hp_ok s → lo ≤ a → a ≤ b < hi → Q () s →
  wp (start_page ← next_multiple a PAGE_SIZE;
      for_each hp_free_page
        ((λ i, start_page + PAGE_SIZE * i) <$> seqZ 0 ((align_to_page b - start_page) / PAGE_SIZE))) Q s.
Proof.
  intros Hok Ha Hb HQ. destruct hp_range as (Hlo & _ & Hhi). unfold next_multiple.
  destruct (next_multiple_of_spec a PAGE_SIZE ltac:(done)) as [Hn Hnm].
  rewrite wp_bind, wp_chk. split; [unfold PAGE_SIZE in *; lia|].
  rewrite align_to_page_spec by (unfold PAGE_SIZE in *; lia).
  apply (wp_for_each _ (λ _ s', s' = s)); [done| |by intros ? ->].
  intros k c s1 Hk ->. apply list_lookup_fmap_Some in Hk as (i & -> & Hi). apply lookup_seqZ in Hi as [-> Hi].
  apply hp_free_spec; [done|]. unfold PAGE_SIZE in *. split; [lia|]. Z.div_mod_to_equations. lia.
Qed.
Lemma wp_release_block s p0 l1 len l2 (Q : () → S → Prop) :
  let p := extent p0 l1 in
  heap_ok s p0 (l1 ++ (len, true) :: l2) →
  (∀ s', heap_ok s' p0 (l1 ++ (len, false) :: l2) → kept_but (eq p) s s' →
    wp (merge_forward p;; merge_backward (previous_header p0 l1) p) Q s') →
  wp (release_block (previous_header p0 l1) p (p + 8) (p + 8 + len - 1)) Q s.
Proof.
  intros p Hh HQ. pose proof (chain_header _ _ _ _ _ _ Hh) as Hp. fold p in Hp.
  pose proof (header_range _ _ _ _ _ Hp) as Hpr. pose proof Hp as [_ _ Hp2 Hpa Hpl _].
  unfold release_block. rewrite wp_bind. eapply wp_get_used; [done|]. rewrite wp_bind, wp_rassert. split; [done|].
  rewrite wp_bind. eapply wp_update_header; [done|apply set_block_used_new; lia|lia|]. intros s1 Hok1 _ Hs1.
  assert (kept_but (eq p) s s1) as Hk.
  { intros b v Hb Hbr Hba Hw. by rewrite Hs1, decide_False by (done || congruence). }
  assert (heap_ok s1 p0 (l1 ++ (len, false) :: l2)) as Hh1.
  { apply (heap_replace s s1 p0 l1 [(len, true)] [(len, false)] l2); try done.
    - repeat constructor; cbn [fst]; lia.
    - fold p. cbn [chain is_nil negb orb]. split; [by eapply word_set_at|done].
    - fold p. cbn [extent]. intros b v Hb Hbr Hba Hw. apply Hk; [intros <-; lia|done..]. }
  pose proof (wp_free_pages s1 (p + 8) (p + 8 + len - 1)
    (λ _ s2, wp (merge_forward p;; merge_backward (previous_header p0 l1) p) Q s2) Hok1 ltac:(lia) ltac:(lia)) as Hf.
  rewrite wp_bind. rewrite wp_bind in Hf. eapply wp_mono; [by apply Hf, HQ|]. cbn beta.
  intros start s2 Hs2. rewrite wp_bind. exact Hs2.
Qed.
(** A read, and what comes after it. *)
Lemma bind_read {A B} (m : M S A) (f : A → M S B) x s :
  wp m (λ a s', a = x ∧ s' = s) s → (m ≫= f) s = f x s.
Proof. intros (a & s' & E & -> & ->)%wp_returns. unfold mbind, M_bind. by rewrite E. Qed.
Lemma dealloc_loop_at s p0 la lb len used l2 ptr fuel :
  let p := extent p0 (la ++ lb) in
  heap_ok s p0 ((la ++ lb) ++ (len, used) :: l2) → p + 8 ≤ ptr < p + 8 + len → (length lb < fuel)%nat →
  dealloc_loop fuel (previous_header p0 la) (Some (extent p0 la)) ptr s =
  release_block (previous_header p0 (la ++ lb)) p (p + 8) (p + 8 + len - 1) s.
Proof.
  revert la fuel. induction lb as [|[lc uc] lb IH]; intros la fuel p Hh Hptr Hfuel;
    (destruct fuel as [|fuel]; [cbn in Hfuel; lia|]); cbn [dealloc_loop].
  - unfold p in *. clear p. rewrite app_nil_r in *. set (p := extent p0 la) in *.
    pose proof (chain_header _ _ _ _ _ _ Hh) as Hd. fold p in Hd. pose proof Hd as [_ Hplo Hphi _ Hl _].
    pose proof hp_range as (Hlo & _ & Hhi). unfold PAGE_SIZE in Hhi.
    erewrite bind_read by (by eapply wp_get_next). erewrite bind_read by (by eapply wp_start_address).
    erewrite bind_read by (by eapply wp_get_len). erewrite bind_read by (rewrite wp_chk; split; [lia|done]).
    erewrite bind_read by (rewrite wp_chk; split; [lia|done]).
    replace (p + 8 + (len - 1)) with (p + 8 + len - 1) by lia.
    by rewrite (proj2 (Z.leb_le _ _)), (proj2 (Z.leb_le _ _)) by lia.
  - assert (la ++ (lc, uc) :: lb = (la ++ [(lc, uc)]) ++ lb) as El by (by rewrite <-app_assoc).
    unfold p in *. clear p. set (p := extent p0 (la ++ (lc, uc) :: lb)) in *.
    pose proof Hh as Hh0. rewrite El in Hh0. pose proof (heap_lens _ _ _ Hh0) as Hlens. rewrite <-app_assoc in Hh0. cbn [app] in Hh0.
    pose proof (chain_header s p0 la lc uc (lb ++ (len, used) :: l2)) as Hd. rewrite <-app_assoc in Hh0.
    specialize (Hd Hh0). pose proof Hd as [_ Hplo Hphi _ Hl _]. set (c := extent p0 la) in *.
    pose proof hp_range as (Hlo & _ & Hhi). unfold PAGE_SIZE in Hhi.
    assert (c + 8 + lc ≤ p) as Hcp.
    { unfold p. rewrite extent_app. fold c. cbn [extent]. unfold lens_ok in Hlens. rewrite !Forall_app in Hlens.
      pose proof (extent_le (c + 8 + lc) lb (proj2 (proj1 Hlens))). lia. }
    erewrite bind_read by (by eapply wp_get_next). erewrite bind_read by (by eapply wp_start_address).
    erewrite bind_read by (by eapply wp_get_len). erewrite bind_read by (rewrite wp_chk; split; [lia|done]).
    erewrite bind_read by (rewrite wp_chk; split; [lia|done]).
    rewrite (proj2 (Z.leb_gt ptr _)), andb_false_r by lia.
    assert (is_nil (lb ++ (len, used) :: l2) = false) as -> by (by destruct lb). cbn [negb].
    assert (c + 8 + lc = extent p0 (la ++ [(lc, uc)])) as -> by (by rewrite extent_app).
    replace (Some c) with (previous_header p0 (la ++ [(lc, uc)])) by apply previous_header_snoc.
    unfold p. rewrite El. apply IH; [by rewrite <-El|by rewrite <-El|cbn in Hfuel; lia].
Qed.

(** C22: [alloc] is first fit. It returns null, and changes nothing, when no free
    block has room for the request at its alignment. Otherwise it takes the space
    from the first block that has: the address is aligned, the requested bytes lie
    inside that block, so in no block in use, and their pages are mapped; the rest
    of the block becomes a free block when it is large enough; all words outside
    the block are kept, and the list of blocks stays well formed. *)
Theorem alloc_correct (h : heap S) p0 bs fuel size align :
  list_head h = Some p0 → heap_ok (heap_memory h) p0 bs → request_ok (heap_memory h) size align →
  (length bs ≤ fuel)%nat →
  ∃ r s', alloc fuel size align h = Returns (r, {| list_head := Some p0; heap_memory := s' |}) ∧
    (r = 0 ∧ s' = heap_memory h ∧ no_fit size align p0 bs ∨
     ∃ l1 len l2, bs = l1 ++ (len, false) :: l2 ∧ allocated (heap_memory h) p0 l1 len l2 size align r s').
Proof.
  intros Hhead Hh Hreq Hfuel. destruct h as [head s]. cbn [list_head heap_memory] in *. subst head.
  assert (wp (alloc fuel size align) (λ r h', list_head h' = Some p0 ∧
    (r = 0 ∧ heap_memory h' = s ∧ no_fit size align p0 bs ∨
     ∃ l1 len l2, bs = l1 ++ (len, false) :: l2 ∧ allocated s p0 l1 len l2 size align r (heap_memory h')))
    {| list_head := Some p0; heap_memory := s |}) as Hw.
  2:{ apply wp_returns in Hw as (r & [head s'] & E & Eh & Hw). cbn in Eh, Hw. subst head. by exists r, s'. }
  unfold alloc. rewrite wp_bind, wp_get. cbn [list_head]. unfold on_memory. rewrite wp_zoom. cbn [heap_memory list_head].
  apply (wp_alloc_loop s p0 [] bs); try done; [by apply Hh| |].
  - intros Hno. split; [done|]. by left.
  - intros l1 len l2 r s' E Ha. split; [done|]. right. by exists l1, len, l2.
Qed.
(** C23: [dealloc] of an address in a block that is not in use panics (a double
    free). In a block in use it frees the block and merges it with a free block
    after it and a free block before it, keeping every word that is not a header,
    provided neither merge takes the page of a header for one that is no longer
    needed. *)
Theorem dealloc_correct (h : heap S) p0 l1 len (used : bool) l2 ptr fuel :
  let p := extent p0 l1 in
  list_head h = Some p0 → heap_ok (heap_memory h) p0 (l1 ++ (len, used) :: l2) → p + 8 ≤ ptr < p + 8 + len →
  (length l1 < fuel)%nat →
  if used then
    keeps_pages p0 l1 len l2 = true →
    ∃ s', dealloc fuel ptr h = Returns ((), {| list_head := Some p0; heap_memory := s' |}) ∧
      heap_ok s' p0 (coalesced l1 len l2) ∧
      kept_but (λ b, b = p ∨ previous_header p0 l1 = Some b) (heap_memory h) s'
  else dealloc fuel ptr h = Panics.
Proof.
  intros p Hhead Hh Hptr Hfuel. destruct h as [head s]. cbn [list_head heap_memory] in *. subst head.
  assert (∀ o, dealloc_loop fuel None (Some p0) ptr s = o → dealloc fuel ptr {| list_head := Some p0; heap_memory := s |} =
    match o with
    | Returns (a, s') => Returns (a, {| list_head := Some p0; heap_memory := s' |})
    | Panics => Panics | Undefined => Undefined | OutOfFuel => OutOfFuel
    end) as Hrun by (by intros o <-).
  pose proof (dealloc_loop_at s p0 [] l1 len used l2 ptr fuel Hh Hptr Hfuel) as Hloop. cbn [app extent] in Hloop.
  change (previous_header p0 []) with (@None Z) in Hloop. fold p in Hloop. apply Hrun in Hloop. rewrite Hloop. clear Hrun Hloop.
  destruct used.
  2:{ unfold release_block. rewrite (bind_read _ _ false); [done|]. eapply wp_get_used; [|done].
      by apply (chain_header s p0 l1 len false l2). }
  intros Hkeep. assert (wp (release_block (previous_header p0 l1) p (p + 8) (p + 8 + len - 1))
    (λ _ s', heap_ok s' p0 (coalesced l1 len l2) ∧ kept_but (λ b, b = p ∨ previous_header p0 l1 = Some b) s s') s) as Hw.
  2:{ apply wp_returns in Hw as ([] & s' & -> & Hw). by exists s'. }
  unfold keeps_pages in Hkeep. fold p in Hkeep. apply andb_true_iff in Hkeep as [Hkf Hkb].
  apply (wp_release_block s p0 l1 len l2); [done|]. intros s1 Hh1 Hk1. rewrite wp_bind.
  assert (∀ s2, heap_ok s2 p0 (l1 ++ (fst (forward len l2), false) :: snd (forward len l2)) → kept_but (eq p) s1 s2 →
    wp (merge_backward (previous_header p0 l1) p) (λ _ s', heap_ok s' p0 (coalesced l1 len l2) ∧
      kept_but (λ b, b = p ∨ previous_header p0 l1 = Some b) s s') s2) as Hback.
  { intros s2 Hh2 Hk2.
    assert (kept_but (λ b, b = p ∨ previous_header p0 l1 = Some b) s s2) as Hk.
    { intros b v Hb Hbr Hba Hw. apply Hk2; [intros <-; tauto|done..|]. apply Hk1; [intros <-; tauto|done..]. }
    eapply (wp_merge_backward s2 p0 l1); [done|]. unfold coalesced.
    destruct (rev l1) as [|[lo' []] r] eqn:Er; [done|done|]. intros s3 Hh3 Hk3.
    fold p in Hkb |- *. apply negb_true_iff in Hkb. rewrite Hkb, wp_ret. split; [done|].
    intros b v Hb Hbr Hba Hw. apply Hk3; [|done|done|by apply Hk].
    intros <-. apply Hb. right. rewrite <-(rev_involutive l1), Er. cbn [rev]. apply previous_header_snoc. }
  eapply (wp_merge_forward s1 p0 l1 len l2); [done|].
  destruct l2 as [|[lq []] l2]; [apply Hback; [done|by intros b v]|apply Hback; [done|by intros b v]|].
  intros s2 Hh2 _ Hk2. fold p. apply negb_true_iff in Hkf. rewrite Hkf, wp_ret. by apply Hback.
Qed.
(** The page a merge gives back can hold a live header. When the block at the
    head of the list is freed, the block after it is free and starts on the same
    page, and the block after that starts on another one, [dealloc] unmaps the
    page of the merged block's own header: from then on every allocation faults. *)
Theorem dealloc_unmaps_live_header (h : heap S) p0 len lq b l2 ptr fuel :
  let q := p0 + 8 + len in let r := q + 8 + lq in
  list_head h = Some p0 → heap_ok (heap_memory h) p0 ((len, true) :: (lq, false) :: b :: l2) →
  p0 + 8 ≤ ptr < p0 + 8 + len → (0 < fuel)%nat →
  page_of p0 = page_of q → page_of r ≠ page_of q →
  ∃ h', dealloc fuel ptr h = Returns ((), h') ∧ list_head h' = Some p0 ∧ word (heap_memory h') p0 = None ∧
    ∀ fuel' size align, alloc (Datatypes.S fuel') size align h' = Panics.
Proof.
  intros q r Hhead Hh Hptr Hfuel Hpq Hrq. destruct h as [head s]. cbn [list_head heap_memory] in *. subst head.
  pose proof (dealloc_loop_at s p0 [] [] len true ((lq, false) :: b :: l2) ptr fuel Hh Hptr Hfuel) as Hloop.
  cbn [app extent] in Hloop. change (previous_header p0 []) with (@None Z) in Hloop.
  pose proof (chain_header s p0 [] len true _ Hh) as Hp. cbn [extent] in Hp.
  assert (wp (release_block None p0 (p0 + 8) (p0 + 8 + len - 1)) (λ _ s', hp_ok s' ∧ word s' p0 = None) s) as Hw.
  { apply (wp_release_block s p0 [] len ((lq, false) :: b :: l2)); [done|]. intros s1 Hh1 _. rewrite wp_bind.
    eapply (wp_merge_forward s1 p0 [] len); [done|]. intros s2 Hh2 _ _. cbn [extent]. fold q. fold r.
    unfold unmaps, next_header. cbn [is_nil]. rewrite (proj2 (Z.eqb_eq _ _) Hpq), (proj2 (Z.eqb_neq _ _) Hrq). cbn [andb negb].
    pose proof (chain_header s p0 [(len, true)] lq false _ Hh) as Hq. cbn [extent] in Hq. fold q in Hq.
    pose proof (header_range _ _ _ _ _ Hq). pose proof (header_range _ _ _ _ _ Hp).
    destruct hp_range as (Hlo & Hlom & Hhi).
    assert (page_of (align_to_page q) = page_of q ∧ lo ≤ align_to_page q < hi) as [Hpg Hr].
    { rewrite align_to_page_spec by (unfold PAGE_SIZE in *; lia). unfold page_of, PAGE_SIZE in *. Z.div_mod_to_equations; lia. }
    eapply wp_mono; [apply hp_unmap_spec; [apply Hh2|done]|]. intros [] s3 (Hok3 & _ & Hw3). cbn beta.
    change (previous_header p0 []) with (@None Z). unfold merge_backward. rewrite wp_ret. split; [done|].
    by rewrite Hw3, decide_True by (done || congruence || apply Hp). }
  apply wp_returns in Hw as ([] & s' & E & Hok' & Hnone). exists {| list_head := Some p0; heap_memory := s' |}.
  cbn [list_head heap_memory]. split; [|split; [done|split; [done|]]].
  - unfold dealloc, mbind, M_bind, get. cbn [list_head unwrap mret M_ret]. unfold on_memory, zoom. cbn [heap_memory].
    by rewrite Hloop, E.
  - intros fuel' size align. unfold alloc, mbind, M_bind, get. cbn [list_head]. unfold on_memory, zoom.
    cbn [heap_memory alloc_loop]. unfold get_next, get_has_next, mbind, M_bind.
    rewrite hp_load_fault; [done|done|by apply (header_range _ _ _ _ _ Hp)|done].
Qed.
Lemma wp_init_heap (h : heap S) start_address len (Q : () → heap S → Prop) :
  let p := next_multiple_of start_address 8 in
  hp_ok (heap_memory h) → lo ≤ start_address → p + 9 ≤ start_address + len ≤ hi →
  word (heap_memory h) p = None → 4 ≤ pages_left (heap_memory h) →
  (∀ s', heap_ok s' p [(start_address + len - p - 8, false)] → Q () {| list_head := Some p; heap_memory := s' |}) →
  wp (init_heap start_address len) Q h.
Proof.
  intros p Hok Hlo0 Hend Hun Hpages HQ. destruct hp_range as (Hlo & Hlom & Hhi). pose proof hp_size as Hsz.
  destruct (next_multiple_of_spec start_address 8 ltac:(lia)) as [Hn Hn8]. fold p in Hn, Hn8. unfold PAGE_SIZE in Hhi.
  unfold init_heap, next_multiple, align_of_Block. fold p. rewrite wp_bind, wp_chk. split; [lia|].
  unfold on_memory. rewrite wp_bind, wp_zoom, wp_bind.
  eapply wp_mono; [apply hp_map_page_spec; [done|lia|done]|].
  intros r s1 (Hok1 & _ & Hr & Hm & _). destruct Hr as [[-> _]|[-> [v Hv]]]; [|by rewrite Hun in Hv].
  rewrite wp_ret, wp_bind, wp_chk. split; [lia|]. rewrite wp_bind, wp_chk. split; [lia|].
  unfold size_of_Block. rewrite wp_bind, wp_chk. split; [lia|]. rewrite wp_bind, wp_zoom. cbn [heap_memory].
  eapply wp_mono; [apply hp_store_spec; [done|lia|done|done|apply Block_new_bound; lia]|].
  intros [] s2 (Hok2 & _ & Hs2). rewrite wp_modify. cbn [list_head heap_memory]. apply HQ.
  split; [done| |done|lia|cbn [extent]; lia|].
  - repeat constructor; cbn [fst]; lia.
  - cbn [chain is_nil negb orb]. split; [|done]. by rewrite Hs2, decide_True by (done || lia).
Qed.
(** [init_heap] on an unmapped range maps the page of the first header and
    leaves a heap of one free block that ends with the range. *)
Theorem init_heap_correct (h : heap S) start_address len :
  let p := next_multiple_of start_address 8 in
  hp_ok (heap_memory h) → lo ≤ start_address → p + 9 ≤ start_address + len ≤ hi →
  word (heap_memory h) p = None → 4 ≤ pages_left (heap_memory h) →
  ∃ s', init_heap start_address len h = Returns ((), {| list_head := Some p; heap_memory := s' |}) ∧
    heap_ok s' p [(start_address + len - p - 8, false)].
Proof.
  intros p Hok Hlo0 Hend Hun Hpages.
  assert (wp (init_heap start_address len) (λ _ h', ∃ s', h' = {| list_head := Some p; heap_memory := s' |} ∧
    heap_ok s' p [(start_address + len - p - 8, false)]) h) as ([] & h' & E & s' & -> & Hs')%wp_returns; [|by exists s'].
  apply wp_init_heap; [done..|]. intros s' Hs'. by exists s'.
Qed.
End correctness.

(** ** A memory to run the theorems on *)

(** Which pages are mapped, and the words; there are always pages left. *)
Record demo_memory : Type := { demo_mapped : Z → bool; demo_words : Z → Z }.
Definition demo_word (s : demo_memory) (a : Z) : option Z :=
  if demo_mapped s (page_of a) then Some (demo_words s a mod 2 ^ 64) else None.
#[export] Instance demo_heap_memory : HeapMemory demo_memory := {
  hp_map_page a _ s :=
    if demo_mapped s (page_of a) then Returns (Err PageAlreadyExists, s)
    else Returns (Ok (), {| demo_mapped := λ q, (q =? page_of a) || demo_mapped s q; demo_words := demo_words s |});
  hp_unmap_and_free_page a :=
    modify (λ s, {| demo_mapped := λ q, negb (q =? page_of a) && demo_mapped s q; demo_words := demo_words s |});
  hp_free_page _ := mret ();
  hp_load a s := match demo_word s a with Some v => Returns (v, s) | None => Panics end;
  hp_store a v s := match demo_word s a with
    | Some _ => Returns ((), {| demo_mapped := demo_mapped s; demo_words := λ b, if b =? a then v else demo_words s b |})
    | None => Panics
    end;
}.
Definition demo_lo : Z := 0xFFFFFFFF30000000.
Definition demo_hi : Z := 0xFFFFFFFF50000000.
#[export] Program Instance demo_heap_memory_ok : HeapMemoryOk demo_memory demo_lo demo_hi := {
  hp_ok _ := True;
  word := demo_word;
  pages_left _ := 2 ^ 30;
}.
Next Obligation. done. Qed.
Next Obligation. done. Qed.
Next Obligation. intros s a v. unfold demo_word. destruct (demo_mapped _ _); [|done]. intros [= <-]. by apply Z.mod_pos_bound. Qed.
Next Obligation. intros s a b v E. unfold demo_word. rewrite E. destruct (demo_mapped _ _); [by eexists|done]. Qed.
Next Obligation. intros s a v _ _ _ Hw. cbn in *. by rewrite Hw. Qed.
Next Obligation. intros s a _ _ Hw. cbn in *. by rewrite Hw. Qed.
Next Obligation.
  intros s a v _ _ _ [w Hw] Hv. unfold wp. cbn in *. rewrite Hw. split; [done|]. split; [done|]. intros b _ _.
  unfold demo_word in *. cbn. destruct (Z.eqb_spec b a) as [->|Hne].
  - rewrite decide_True by done. destruct (demo_mapped _ _); [|done]. by rewrite Z.mod_small.
  - by rewrite decide_False.
Qed.
Next Obligation.
  intros s a _ _ _. unfold wp, hp_map_page, demo_heap_memory, demo_word. destruct (demo_mapped s (page_of a)) eqn:E.
  - split; [done|]. split; [lia|]. split; [right; by split|]. rewrite E. split; [by eexists|done].
  - split; [done|]. split; [lia|]. split; [by left|]. cbn. rewrite Z.eqb_refl. split; [by eexists|].
    intros b v _ _. destruct (demo_mapped s (page_of b)); [by rewrite orb_true_r|done].
Qed.
Next Obligation.
  intros s a _ _. unfold wp. cbn. split; [done|]. split; [lia|]. intros b _ _. unfold demo_word. cbn.
  destruct (Z.eqb_spec (page_of b) (page_of a)); [by rewrite decide_True|by rewrite decide_False].
Qed.
Next Obligation. done. Qed.
(** Three blocks: one in use, a free one on the same page, and one in use on the
    next page; all pages mapped. *)
Definition demo_blocks : list block := [(56, true); (4040, false); (64, true)].
Fixpoint demo_write (p : Z) (bs : list block) (m : Z → Z) : Z → Z :=
  match bs with
  | [] => m
  | (len, used) :: bs => demo_write (p + 8 + len) bs (λ a, if a =? p then Block_new len used (negb (is_nil bs)) else m a)
  end.
Definition demo_heap : heap demo_memory :=
  {| list_head := Some demo_lo;
     heap_memory := {| demo_mapped := λ _, true; demo_words := demo_write demo_lo demo_blocks (λ _, 0) |} |}.
Lemma demo_heap_ok : heap_ok (heap_memory demo_heap) demo_lo demo_blocks.
Proof.
  split; [done| |done|done|vm_compute; discriminate|].
  - by apply (bool_decide_unpack _); vm_compute.
  - vm_compute. done.
Qed.
Lemma alloc_correct_witness :
  ∃ r s', alloc 3 100 16 demo_heap = Returns (r, {| list_head := Some demo_lo; heap_memory := s' |}) ∧
    (r = 0 ∧ s' = heap_memory demo_heap ∧ no_fit 100 16 demo_lo demo_blocks ∨
     ∃ l1 len l2, demo_blocks = l1 ++ (len, false) :: l2 ∧
       allocated (heap_memory demo_heap) demo_lo l1 len l2 100 16 r s').
Proof.
  apply (alloc_correct demo_heap demo_lo demo_blocks 3 100 16); [done|exact demo_heap_ok| |cbn; lia].
  split; vm_compute; done.
Defined.
Lemma dealloc_correct_witness :
  ∃ s', dealloc 3 (demo_lo + 4120) demo_heap = Returns ((), {| list_head := Some demo_lo; heap_memory := s' |}) ∧
    heap_ok s' demo_lo (coalesced [(56, true); (4040, false)] 64 []) ∧
    kept_but (λ b, b = extent demo_lo [(56, true); (4040, false)] ∨
      previous_header demo_lo [(56, true); (4040, false)] = Some b) (heap_memory demo_heap) s'.
Proof.
  apply (dealloc_correct demo_heap demo_lo [(56, true); (4040, false)] 64 true [] (demo_lo + 4120) 3);
    [done|exact demo_heap_ok|vm_compute; split; [discriminate|done]|cbn; lia|vm_compute; reflexivity].
Defined.
Lemma dealloc_unmaps_live_header_witness :
  ∃ h', dealloc 3 (demo_lo + 8) demo_heap = Returns ((), h') ∧ list_head h' = Some demo_lo ∧
    word (heap_memory h') demo_lo = None ∧ ∀ fuel' size align, alloc (S fuel') size align h' = Panics.
Proof.
  apply (dealloc_unmaps_live_header demo_heap demo_lo 56 4040 (64, true) [] (demo_lo + 8) 3);
    [done|exact demo_heap_ok|vm_compute; split; [discriminate|done]|lia|vm_compute; reflexivity|vm_compute; discriminate].
Defined.
