(* ===== verification/HeapPages.v ===== *)
(** * The heap on the kernel's page tables

    The page tables of PageTables.v are a memory for the heap: reads and writes go
    through the walk of the hardware, and [map_page], [unmap_and_free_page] and
    [free_page] are the functions of the page allocator. The instance
    [kernel_memory_ok] proves the laws the heap relies on. *)
From S2P Require Import Prelude Paging Heap PageAlloc PageTables.

Definition virtual_word (s : sys) (a : Z) : option Z :=
  match walk_at s a with Some e => Some (read64 s.(ram) (address e + a mod PAGE_SIZE)) | None => None end.
#[export] Instance kernel_memory : HeapMemory sys := {
  hp_map_page := PageTables.map_page;
  hp_unmap_and_free_page := PageTables.unmap_and_free_page;
  hp_free_page := PageAlloc.free_page;
  hp_load a s := match virtual_word s a with Some v => Returns (v, s) | None => Panics end;
  hp_store a v s :=
    match walk_at s a with
    | Some e => if PageTableEntry.writable e
        then Returns ((), Sys s.(alloc) (write64 s.(ram) (address e + a mod PAGE_SIZE) v)) else Panics
    | None => Panics
    end;
}.

(** ** What mapping a page costs *)
Definition budget (s : sys) (k : Z) (r : result () MapPageError) (s' : sys) : Prop :=
  free_pages s.(alloc) - k ≤ free_pages s'.(alloc) ∧
  (r = Err OutOfPages → free_pages s.(alloc) - (k - 1) ≤ free_pages s'.(alloc)).
Definition reservable (s : sys) : Prop := alloc_ok s.(alloc) ∧ page_bit (memory_bitmap s.(alloc)) 0 = true.
Lemma budget_leaf i mask cur phys va flags s : i = 3 →
  wp (map_translation_loop [(i, mask)] cur phys va flags) (budget s 0) s.
Proof.
  intros ->. cbn [map_translation_loop]. kernel_simpl. change (3 =? 3) with true. cbv iota.
  destruct (PageTableEntry.present _); kernel_simpl; (split; cbn [alloc]; [lia|done]).
Qed.
Lemma budget_step i mask rest k cur phys va flags s : i ≠ 3 → 0 ≤ k → reservable s →
  (∀ cur s, reservable s → wp (map_translation_loop rest cur phys va flags) (budget s k) s) →
  wp (map_translation_loop ((i, mask) :: rest) cur phys va flags) (budget s (k + 1)) s.
Proof.
  intros Hi Hk [Hok H0] IH. cbn [map_translation_loop]. kernel_simpl. rewrite (proj2 (Z.eqb_neq i 3) Hi).
  destruct (PageTableEntry.present _).
  { eapply wp_mono; [by apply IH|]. intros r s' [H1 H2]. split; [lia|]. intros E. specialize (H2 E). lia. }
  rewrite wp_bind. eapply wp_mono; [by apply wp_find_and_reserve_page|].
  intros [f|[]] s1 (Hok1 & Hres).
  2:{ destruct Hres as [-> _]. rewrite wp_ret. split; lia. }
  destruct Hres as (n & -> & Hn & _ & _ & Hbits & _ & Hfree & _). kernel_simpl. cbn [alloc ram].
  eapply wp_mono; [apply IH; split; [done|]|].
  - cbn [alloc]. rewrite Hbits, H0 by lia. by rewrite orb_true_r.
  - intros r s' [H1 H2]. cbn [alloc] in *. split; [lia|]. intros E. specialize (H2 E). lia.
Qed.
Lemma map_page_translation_budget phys va flags s : reservable s →
  wp (map_page_translation phys va flags) (budget s 3) s.
Proof.
  intros Hs. unfold map_page_translation. kernel_simpl. unfold LEVEL_MASKS.
  apply (budget_step _ _ _ 2); [done..|]. intros c1 s1 Hs1. apply (budget_step _ _ _ 1); [done..|].
  intros c2 s2 Hs2. apply (budget_step _ _ _ 0); [done..|]. intros c3 s3 Hs3. by apply budget_leaf.
Qed.
(** ** Mapping a page of the heap *)
Record mapped_post (s : sys) (tables : gmap (list Z) Z) (va : Z) (r : result () MapPageError) (s' : sys)
    (tables' : gmap (list Z) Z) : Prop := {
  mapped_ok : kernel_ok s' tables';
  mapped_grows : grows s.(alloc) s'.(alloc);
  mapped_cost : free_pages s.(alloc) - 4 ≤ free_pages s'.(alloc);
  mapped_tables : ∀ p a, tables' !! p = Some a → tables !! p = Some a ∨ page_bit (memory_bitmap s.(alloc)) (a / PAGE_SIZE) = false;
  mapped_data : data_kept s tables s';
  mapped_result : match r with
    | Ok _ => walk_at s va = None ∧ ∃ n, 0 < n ∧ n * PAGE_SIZE < 2 ^ 51 ∧
        page_bit (memory_bitmap s.(alloc)) n = false ∧ page_bit (memory_bitmap s'.(alloc)) n = true ∧
        walk_at s' va = Some (replace_addr_with READ_WRITE (n * PAGE_SIZE)) ∧
        (∀ p, tables' !! p ≠ Some (n * PAGE_SIZE)) ∧
        ∀ va', va' / PAGE_SIZE mod 2 ^ 36 ≠ va / PAGE_SIZE mod 2 ^ 36 → walk_at s' va' = walk_at s va'
    | Err PageAlreadyExists => is_Some (walk_at s va) ∧ ∀ va', walk_at s' va' = walk_at s va'
    | Err OutOfPages => False
    end;
}.
Lemma grows_free s n s' : free_post s n s' → page_bit (memory_bitmap s.(alloc)) n = true →
  page_table s'.(alloc) = page_table s.(alloc) ∧ total_pages s'.(alloc) = total_pages s.(alloc) ∧
  num_bits (memory_bitmap s'.(alloc)) = num_bits (memory_bitmap s.(alloc)) ∧
  free_pages s.(alloc) ≤ free_pages s'.(alloc) ∧
  ∀ k, 0 ≤ k → k ≠ n → page_bit (memory_bitmap s'.(alloc)) k = page_bit (memory_bitmap s.(alloc)) k.
Proof.
  intros (_ & Hout & Hin) Hu. destruct (decide (total_pages s.(alloc) ≤ n)) as [H|H].
  { rewrite Hout by done. split_and!; (done || lia). }
  destruct (Hin ltac:(lia)) as (Hb & Hn & Ht & Hp & Hf & _). split_and!; try done; [lia|].
  intros k Hk Hne. by rewrite Hb, (proj2 (Z.eqb_neq k n)) by done.
Qed.
(** Reserving a page keeps the data of the pages in use. *)
Lemma reserve_data s tables addr s1 s2 : reserve_post s (Ok addr) s1 → data_kept s1 tables s2 → data_kept s tables s2.
Proof.
  intros (_ & n & -> & _ & Hclear & _ & Hbits & _ & _ & _ & _ & Hram) Hd x Hx Hu Hnt.
  rewrite Hd; [|done|by rewrite Hbits, Hu, orb_true_r by (apply Z.div_pos; done)|done].
  rewrite Hram. unfold fill. assert (x / PAGE_SIZE ≠ n) as Hxn by congruence. unfold PAGE_SIZE in *.
  destruct (Z.leb_spec (n * 4096) x), (Z.ltb_spec x (n * 4096 + 4096)); try done.
  exfalso. apply Hxn. Z.div_mod_to_equations. lia.
Qed.
Lemma wp_map_page s tables va : kernel_ok s tables → 4 ≤ free_pages s.(alloc) →
  wp (PageTables.map_page va READ_WRITE) (λ r s', ∃ tables', mapped_post s tables va r s' tables') s.
Proof.
  intros Hk Hfree. unfold PageTables.map_page. rewrite wp_bind.
  eapply wp_mono; [apply wp_find_and_reserve_page; apply Hk|]. intros [f|[]] s1 Hres.
  2:{ destruct Hres as (_ & -> & Hfull). exfalso. apply all_used_count in Hfull; [|apply Hk].
      rewrite <-(alloc_count _ (kernel_alloc _ _ _ Hk)) in Hfull. lia. }
  destruct (reserve_kernel _ _ _ _ Hk Hres) as (Hfa & Hfb & Hfr & Hus & Hgr & Hk1 & Hframe).
  pose proof Hres as (_ & n & -> & Hn & Hclear & _ & Hbits & _ & Hf1 & _ & _ & Hram).
  rewrite Z.div_mul in Hfr, Hus by done.
  assert (∀ va', walk_at s1 va' = walk_at s va') as Hw1 by (intros va'; by apply (reserve_walk s tables s1 (n * PAGE_SIZE))).
  assert (∀ s2, data_kept s1 tables s2 → data_kept s tables s2) as Hdata by (intros s2; by eapply reserve_data).
  rewrite wp_bind. eapply wp_mono; [apply wp_and|].
  { apply (wp_map_page_translation s1 tables (n * PAGE_SIZE) va READ_WRITE Hk1); [unfold PAGE_SIZE; lia|done]. }
  { apply map_page_translation_budget. split; apply Hk1. }
  rewrite (land_ADDR_MASK_id (n * PAGE_SIZE)) by (done || lia).
  intros r s2 [Hpost [Hcost Hoom]]. pose proof Hpost as (t2 & Hk2 & Hgr2 & Hnew & Hd2 & Hr).
  assert (page_bit (memory_bitmap (alloc s2)) n = true) as Hused2 by (apply (grows_bits _ _ Hgr2); [lia|done]).
  assert (∀ p, t2 !! p ≠ Some (n * PAGE_SIZE)) as Hfresh.
  { intros p Hp. destruct (Hnew p _ Hp) as [Hp'|Hb]; rewrite ?Z.div_mul in * by done; [|congruence].
    destruct (pt_frames _ _ _ _ (kernel_pt _ _ _ Hk) p _ Hp') as (_ & _ & _ & Hb).
    rewrite Z.div_mul in Hb by done. congruence. }
  assert (∀ p a, t2 !! p = Some a → tables !! p = Some a ∨ page_bit (memory_bitmap s.(alloc)) (a / PAGE_SIZE) = false) as Hnew'.
  { intros p a Hp. destruct (Hnew p a Hp) as [?|Hb]; [by left|right].
    destruct (pt_frames _ _ _ _ (kernel_pt _ _ _ Hk2) p a Hp) as (_ & _ & Ha & _).
    rewrite Hbits in Hb by (apply Z.div_pos; [lia|done]). by apply orb_false_iff in Hb as [_ Hb]. }
  destruct r as [[]|err].
  { rewrite wp_ret. exists t2. destruct Hr as [Hold Hnewm].
    apply (update_walks s1 tables s2 t2) in Hnewm as [Hva Hother]; [|done..].
    rewrite present_replace_addr in Hva. change (PageTableEntry.present READ_WRITE) with true in Hva.
    split; [done|by trans (alloc s1)|lia|done|by apply Hdata|].
    split; [by rewrite <-Hw1, <-(mapping_walk_at s1 tables)|]. exists n. split_and!; try done; [lia|lia|].
    intros va' Hne. rewrite <-Hw1. by apply Hother. }
  rewrite wp_bind. eapply wp_mono; [by apply (free_kernel s2 t2 n Hk2); [lia|..]|].
  intros [] s3 [Hk3 Hfp]. rewrite wp_ret.
  destruct (grows_free _ _ _ Hfp Hused2) as (Hpt3 & Htot3 & Hnum3 & Hf3 & Hbits3).
  assert (∀ va', walk_at s3 va' = walk_at s va') as Hw3.
  { intros va'. rewrite (free_post_walk s2 n s3) by done. rewrite <-Hw1.
    by apply (map_err_walks (n * PAGE_SIZE) va READ_WRITE s1 tables err s2). }
  exists t2. split; [done| |lia|done| |].
  - assert (grows (alloc s) (alloc s2)) as [G1 G2 G3 G4] by (by trans (alloc s1)). split; [|congruence..].
    intros k Hk0 Hb. rewrite Hbits3; [by apply G1|done|congruence].
  - intros x Hx Hu Hnt. destruct Hfp as (-> & _). by apply Hdata.
  - destruct err.
    + specialize (Hoom eq_refl). destruct Hr as (_ & _ & Hfull). apply all_used_count in Hfull; [|apply Hk2].
      rewrite <-(alloc_count _ (kernel_alloc _ _ _ Hk2)) in Hfull. lia.
    + destruct Hr as (Hsome & _). split; [by rewrite <-Hw1, <-(mapping_walk_at s1 tables)|done].
Qed.

(** ** The range of the heap *)
Class HeapRange (lo hi : Z) : Prop := {
  range_lo : 0 < lo ∧ lo mod PAGE_SIZE = 0;
  range_hi : hi + PAGE_SIZE < 2 ^ 64;
  range_size : hi - lo < 2 ^ 48;
}.
Lemma page_indices a b : page_of a = page_of b → indices a = indices b.
Proof. intros E. apply indices_eq_iff. unfold page_of in E. by rewrite E. Qed.
Lemma walk_page s a b : page_of a = page_of b → walk_at s a = walk_at s b.
Proof. intros E. unfold walk_at. by rewrite (page_indices a b). Qed.
(** Writing to a page that is not a page table. *)
Lemma write_data s tables f off v :
  kernel_ok s tables → f mod PAGE_SIZE = 0 → (∀ p, tables !! p ≠ Some f) → 0 ≤ off → off + 8 ≤ PAGE_SIZE →
  let s' := Sys s.(alloc) (write64 s.(ram) (f + off) v) in
  kernel_ok s' tables ∧ ∀ va, walk_at s' va = walk_at s va.
Proof.
  intros Hk Hf Hnt H0 H8 s'.
  assert (∀ q b j, tables !! q = Some b → 0 ≤ j < 512 →
    read64 s'.(ram) (entry_addr b j) = read64 s.(ram) (entry_addr b j)) as Hframe.
  { intros q b j Hq Hj. apply read64_write64_ne.
    destruct (pt_frames _ _ _ _ (kernel_pt _ _ _ Hk) q b Hq) as (_ & Hb & _).
    assert (b ≠ f) as Hbf by (intros ->; by apply (Hnt q)).
    unfold entry_addr, PAGE_SIZE in *. Z.div_mod_to_equations. lia. }
  assert (kernel_ok s' tables) as Hk'.
  { split; [apply Hk..|]. destruct (kernel_pt _ _ _ Hk) as [Hr Hfr Hi Hc Hp]. split; try done.
    intros p a i Hpa Hl Hi'. cbn zeta. rewrite (Hframe p a i Hpa Hi'). by apply Hc. }
  split; [done|]. intros va. rewrite <-(mapping_walk_at s' tables), <-(mapping_walk_at s tables) by done.
  apply mapping_frame; [done|apply indices_bound].
Qed.

Section range.
Context {lo hi : Z} {Hrange : HeapRange lo hi}.
(** Every page of the range that is mapped has a frame of its own, which is in use
    and not a page table. *)
Record frames_ok (s : sys) (tables : gmap (list Z) Z) : Prop := {
  frame_of a e : lo ≤ a < hi → walk_at s a = Some e → PageTableEntry.writable e = true ∧ 0 < address e < 2 ^ 51 ∧
    page_bit (memory_bitmap s.(alloc)) (address e / PAGE_SIZE) = true ∧ ∀ p, tables !! p ≠ Some (address e);
  frame_inj a b e f : lo ≤ a < hi → lo ≤ b < hi → walk_at s a = Some e → walk_at s b = Some f →
    address e = address f → page_of a = page_of b;
}.
(** Physical memory lies below the heap. *)
Definition kernel_heap_ok (s : sys) : Prop :=
  ∃ tables, kernel_ok s tables ∧ frames_ok s tables ∧ total_pages s.(alloc) * PAGE_SIZE ≤ lo.
Lemma other_page a b : lo ≤ a < hi → lo ≤ b < hi → page_of a ≠ page_of b →
  a / PAGE_SIZE mod 2 ^ 36 ≠ b / PAGE_SIZE mod 2 ^ 36.
Proof.
  intros Ha Hb. unfold page_of. destruct Hrange as [[_ Hlo] _ Hs]. unfold PAGE_SIZE in *.
  assert (∀ c, lo ≤ c < hi → lo / 4096 ≤ c / 4096 < lo / 4096 + 2 ^ 36) as Hc
    by (intros c Hc; Z.div_mod_to_equations; lia).
  pose proof (Hc a Ha) as Hca. pose proof (Hc b Hb) as Hcb. clear Hc.
  generalize dependent (a / 4096). generalize dependent (b / 4096). generalize (lo / 4096).
  intros l y Hy x Hx Hne E. apply Hne. clear - Hx Hy E. Z.div_mod_to_equations. lia.
Qed.
(** A word of a page whose frame is kept. *)
Lemma word_kept s s' tables a e :
  kernel_ok s tables → frames_ok s tables → data_kept s tables s' → lo ≤ a < hi → a mod 8 = 0 →
  walk_at s a = Some e → walk_at s' a = Some e → virtual_word s' a = virtual_word s a.
Proof.
  intros Hk Hf Hd Ha Ha8 Hw Hw'. unfold virtual_word. rewrite Hw, Hw'. f_equal. apply read_le_ext. intros x Hx.
  destruct (frame_of _ _ Hf a e Ha Hw) as (_ & He & Hu & Hnt). pose proof (address_aligned e) as Hal.
  assert (x / PAGE_SIZE = address e / PAGE_SIZE ∧ 0 ≤ x) as [Hxp Hx0].
  { unfold PAGE_SIZE in *. split; [|Z.div_mod_to_equations; lia]. Z.div_mod_to_equations. lia. }
  apply Hd; [done|by rewrite Hxp|]. intros p b Hp E. apply (Hnt p). rewrite Hp. f_equal.
  destruct (pt_frames _ _ _ _ (kernel_pt _ _ _ Hk) p b Hp) as (_ & Hb & _).
  unfold PAGE_SIZE in *. Z.div_mod_to_equations. lia.
Qed.
Lemma store_law s a v : kernel_heap_ok s → lo ≤ a < hi → a mod 8 = 0 → is_Some (virtual_word s a) → 0 ≤ v < 2 ^ 64 →
  wp (hp_store a v) (λ _ s', kernel_heap_ok s' ∧ free_pages s'.(alloc) = free_pages s.(alloc) ∧
    ∀ b, lo ≤ b < hi → b mod 8 = 0 → virtual_word s' b = if decide (b = a) then Some v else virtual_word s b) s.
Proof.
  intros (tables & Hk & Hf & Ht) Ha Ha8 [w Hw] Hv. unfold wp, hp_store, kernel_memory.
  unfold virtual_word in Hw. destruct (walk_at s a) as [e|] eqn:Ee; [|done].
  destruct (frame_of _ _ Hf a e Ha Ee) as (-> & He & Hu & Hnt). pose proof (address_aligned e) as Hal.
  pose proof (Z.mod_pos_bound a PAGE_SIZE ltac:(done)) as Hoff.
  assert (a mod PAGE_SIZE + 8 ≤ PAGE_SIZE) as Hoff8 by (unfold PAGE_SIZE in *; Z.div_mod_to_equations; lia).
  destruct (write_data s tables (address e) (a mod PAGE_SIZE) v Hk Hal Hnt ltac:(lia) Hoff8) as [Hk' Hw'].
  set (s' := Sys _ _) in *. split.
  { exists tables. split; [done|]. split; [|done]. split.
    - intros b f Hb. rewrite Hw'. by apply Hf.
    - intros b c f g Hb Hc. rewrite !Hw'. by apply Hf. }
  split; [done|]. intros b Hb Hb8. unfold virtual_word. rewrite Hw'. case_decide as Eb.
  { subst b. rewrite Ee. cbn [ram s']. by rewrite read64_write64_eq. }
  destruct (walk_at s b) as [f|] eqn:Ef; [|done]. f_equal. cbn [ram s']. apply read64_write64_ne.
  pose proof (address_aligned f) as Hfl.
  destruct (decide (address e = address f)) as [E|E].
  - pose proof (frame_inj _ _ Hf a b e f Ha Hb Ee Ef E) as Hpg. rewrite <-E. unfold page_of, PAGE_SIZE in *.
    Z.div_mod_to_equations. lia.
  - unfold PAGE_SIZE in *. Z.div_mod_to_equations. lia.
Qed.
(** The frames after a page was mapped to a new frame, and after nothing was. *)
Lemma frames_same s s' tables t' : frames_ok s tables → (∀ b, walk_at s' b = walk_at s b) →
  (∀ b e, lo ≤ b < hi → walk_at s b = Some e → page_bit (memory_bitmap s'.(alloc)) (address e / PAGE_SIZE) = true ∧
    ∀ p, t' !! p ≠ Some (address e)) → frames_ok s' t'.
Proof.
  intros Hf Hsame Hold. split.
  - intros b f Hb Hw. rewrite Hsame in Hw. destruct (frame_of _ _ Hf b f Hb Hw) as (H1 & H2 & _ & _).
    destruct (Hold b f Hb Hw). split_and!; done || lia.
  - intros b c f g Hb Hc. rewrite !Hsame. by apply Hf.
Qed.
Lemma frames_mapped s s' tables t' a n (e := replace_addr_with READ_WRITE (n * PAGE_SIZE)) :
  frames_ok s tables → 0 < n → n * PAGE_SIZE < 2 ^ 51 → lo ≤ a < hi → page_bit (memory_bitmap s.(alloc)) n = false →
  page_bit (memory_bitmap s'.(alloc)) n = true → walk_at s' a = Some e → (∀ p, t' !! p ≠ Some (n * PAGE_SIZE)) →
  (∀ b, lo ≤ b < hi → page_of b ≠ page_of a → walk_at s' b = walk_at s b) →
  (∀ b e, lo ≤ b < hi → walk_at s b = Some e → page_bit (memory_bitmap s'.(alloc)) (address e / PAGE_SIZE) = true ∧
    ∀ p, t' !! p ≠ Some (address e)) → frames_ok s' t'.
Proof.
  intros Hf Hn Hnb Ha Hfr Hus Hwa Hnt Hother Hold.
  assert (address e = n * PAGE_SIZE) as Hadr
    by (apply address_replace_addr; [unfold PAGE_SIZE in *; lia|by apply Z.mod_mul]).
  assert (∀ b f, lo ≤ b < hi → walk_at s' b = Some f → page_of b = page_of a ∧ f = e ∨
    page_of b ≠ page_of a ∧ walk_at s b = Some f) as Hcase.
  { intros b f Hb Hw. destruct (decide (page_of b = page_of a)) as [E|E]; [left|right].
    - rewrite (walk_page s' b a E), Hwa in Hw. split; congruence.
    - split; [done|]. rewrite <-Hw. symmetry. by apply Hother. }
  assert (∀ x y, lo ≤ x < hi → walk_at s x = Some y → address y ≠ n * PAGE_SIZE) as Hfresh.
  { intros x y Hx Hy Ey. destruct (frame_of _ _ Hf x y Hx Hy) as (_ & _ & Hu & _). rewrite Ey, Z.div_mul in Hu by done. congruence. }
  split.
  - intros b f Hb Hw. destruct (Hcase b f Hb Hw) as [[_ ->]|[_ Hw']].
    + rewrite Hadr, Z.div_mul by done. split_and!; [|unfold PAGE_SIZE in *; lia|done..|done].
      unfold PageTableEntry.writable, e, replace_addr_with. rewrite Z.lor_spec, !Z.land_spec.
      apply orb_true_iff. by right.
    + destruct (frame_of _ _ Hf b f Hb Hw') as (H1 & H2 & _ & _). destruct (Hold b f Hb Hw'). split_and!; done || lia.
  - intros b c f g Hb Hc Hwb Hwc E.
    destruct (Hcase b f Hb Hwb) as [[-> ->]|[_ Hwb']], (Hcase c g Hc Hwc) as [[-> ->]|[_ Hwc']]; [done| | |].
    + exfalso. apply (Hfresh c g Hc Hwc'). congruence.
    + exfalso. apply (Hfresh b f Hb Hwb'). congruence.
    + by eapply Hf.
Qed.
Lemma map_page_law s a : kernel_heap_ok s → lo ≤ a < hi → 4 ≤ free_pages s.(alloc) →
  wp (hp_map_page a READ_WRITE) (λ r s', kernel_heap_ok s' ∧ free_pages s.(alloc) - 4 ≤ free_pages s'.(alloc) ∧
    (r = Ok () ∧ virtual_word s a = None ∨ r = Err PageAlreadyExists ∧ is_Some (virtual_word s a)) ∧
    is_Some (virtual_word s' a) ∧
    ∀ b v, lo ≤ b < hi → b mod 8 = 0 → virtual_word s b = Some v → virtual_word s' b = Some v) s.
Proof.
  intros (tables & Hk & Hf & Ht) Ha Hfree. eapply wp_mono; [by apply (wp_map_page s tables a)|].
  intros r s' (t' & [Hk' Hgr Hcost Hnew Hdata Hr]). destruct Hgr as [Hmono Hnum Htot Hroot].
  assert (∀ b e, lo ≤ b < hi → walk_at s b = Some e → page_bit (memory_bitmap s'.(alloc)) (address e / PAGE_SIZE) = true ∧
    ∀ p, t' !! p ≠ Some (address e)) as Hold.
  { intros b e Hb He. destruct (frame_of _ _ Hf b e Hb He) as (_ & Hea & Hu & Hnt).
    split; [apply Hmono; [apply Z.div_pos; [lia|done]|done]|]. intros p Hp.
    destruct (Hnew p _ Hp) as [Hp'|Hp']; [by apply (Hnt p)|congruence]. }
  assert (∀ b v, lo ≤ b < hi → b mod 8 = 0 → walk_at s' b = walk_at s b → virtual_word s b = Some v → virtual_word s' b = Some v) as Hkept.
  { intros b v Hb Hb8 Hw Hv. rewrite <-Hv. unfold virtual_word in Hv. destruct (walk_at s b) as [e|] eqn:Ee; [|done].
    eapply word_kept; try done. }
  destruct r as [[]|[]]; [|done|].
  - destruct Hr as (Hnone & n & Hn & Hnb & Hfr & Hus & Hwa & Hnt & Hother).
    assert (∀ b, lo ≤ b < hi → page_of b ≠ page_of a → walk_at s' b = walk_at s b) as Hother'
      by (intros b Hb E; by apply Hother, other_page).
    split; [exists t'; split; [done|split; [by eapply frames_mapped|by rewrite Htot]]|].
    split; [done|]. split; [left; split; [done|unfold virtual_word; by rewrite Hnone]|].
    split; [unfold virtual_word; rewrite Hwa; by eexists|].
    intros b v Hb Hb8 Hv. apply Hkept; [done|done| |done]. apply Hother'; [done|].
    intros E. unfold virtual_word in Hv. by rewrite (walk_page s b a E), Hnone in Hv.
  - destruct Hr as [[e He] Hsame].
    split; [exists t'; split; [done|split; [by eapply frames_same|by rewrite Htot]]|].
    split; [done|]. split; [right; split; [done|unfold virtual_word; rewrite He; by eexists]|].
    split; [unfold virtual_word; rewrite Hsame, He; by eexists|]. intros b v Hb Hb8 Hv. by apply Hkept.
Qed.
Lemma unmap_law s a : kernel_heap_ok s → lo ≤ a < hi →
  wp (hp_unmap_and_free_page a) (λ _ s', kernel_heap_ok s' ∧ free_pages s.(alloc) ≤ free_pages s'.(alloc) ∧
    ∀ b, lo ≤ b < hi → b mod 8 = 0 → virtual_word s' b =
      if decide (page_of b = page_of a) then None else virtual_word s b) s.
Proof.
  intros (tables & Hk & Hf & Ht) Ha. cbn [hp_unmap_and_free_page kernel_memory]. unfold wp.
  pose proof (unmap_walk s tables a Hk) as Hw. destruct (walk_at s a) as [e|] eqn:Ee.
  2:{ rewrite Hw. split; [by exists tables|]. split; [done|]. intros b Hb _. case_decide as E; [|done].
      unfold virtual_word. by rewrite (walk_page s b a E), Ee. }
  clear Hw. destruct (frame_of _ _ Hf a e Ha Ee) as (_ & Hea & Hu & Hnt).
  assert (0 < address e / PAGE_SIZE) as Hpos.
  { pose proof (address_aligned e). unfold PAGE_SIZE in *. Z.div_mod_to_equations. lia. }
  destruct (unmap_run s tables a e Hk Ee Hpos Hu Hnt) as (s1 & s' & -> & Ha1 & Hk' & Hpost & Hdata & Hnone & Hother).
  rewrite <-Ha1 in Hu. destruct (grows_free _ _ _ Hpost Hu) as (_ & Htot & _ & Hfree & Hbits).
  rewrite Ha1 in *.
  assert (∀ b f, lo ≤ b < hi → walk_at s' b = Some f → page_of b ≠ page_of a ∧ walk_at s b = Some f) as Hcase.
  { intros b f Hb Hw. assert (page_of b ≠ page_of a) as Hne.
    { intros E. by rewrite (walk_page s' b a E), Hnone in Hw. }
    split; [done|]. rewrite <-Hw. symmetry. apply Hother. by apply other_page. }
  split; [exists tables; split; [done|split; [split|by rewrite Htot]]|split; [done|]].
  - intros b f Hb Hw. destruct (Hcase b f Hb Hw) as [Hne Hw'].
    destruct (frame_of _ _ Hf b f Hb Hw') as (H1 & H2 & H3 & H4). split_and!; [done|lia|lia| |done].
    rewrite Hbits; [done|apply Z.div_pos; [lia|done]|]. intros E. apply Hne.
    apply (frame_inj _ _ Hf b a f e); try done. rewrite (address_page f), (address_page e). congruence.
  - intros b c f g Hb Hc Hwb Hwc. destruct (Hcase b f Hb Hwb), (Hcase c g Hc Hwc). by eapply Hf.
  - intros b Hb Hb8. case_decide as E.
    + unfold virtual_word. by rewrite (walk_page s' b a E), Hnone.
    + assert (walk_at s' b = walk_at s b) as Hwb by (apply Hother; by apply other_page).
      destruct (walk_at s b) as [f|] eqn:Ef; [by eapply word_kept|]. unfold virtual_word. by rewrite Hwb, Ef.
Qed.
Lemma free_law s a : kernel_heap_ok s → lo ≤ a < hi → wp (hp_free_page a) (λ _ s', s' = s) s.
Proof.
  intros (tables & Hk & _ & Ht) Ha. cbn [hp_free_page kernel_memory]. unfold PageAlloc.free_page. rewrite wp_bind, wp_get.
  destruct Hrange as [[Hlo _] _ _].
  assert (a / BYTE_RATIO * 8 + (a / PAGE_SIZE) mod 8 = a / PAGE_SIZE) as ->.
  { unfold BYTE_RATIO, PAGE_SIZE. change (4096 * 8) with 32768. Z.div_mod_to_equations. lia. }
  rewrite (proj2 (Z.leb_le _ _)); [done|]. unfold PAGE_SIZE in *. Z.div_mod_to_equations. lia.
Qed.
#[export] Program Instance kernel_memory_ok : HeapMemoryOk sys lo hi := {
  hp_ok := kernel_heap_ok;
  word := virtual_word;
  pages_left s := free_pages s.(alloc);
}.
Next Obligation. destruct Hrange as [[? ?] ? ?]. done. Qed.
Next Obligation. destruct Hrange as [_ _ ?]. lia. Qed.
Next Obligation. intros s a v. unfold virtual_word. destruct (walk_at s a); [|done]. intros [= <-]. apply read64_bound. Qed.
Next Obligation. intros s a b v E. unfold virtual_word. rewrite (walk_page s a b E). destruct (walk_at s b); [by eexists|done]. Qed.
Next Obligation. intros s a v _ _ _ Hw. cbn. by rewrite Hw. Qed.
Next Obligation. intros s a _ _ Hw. cbn. by rewrite Hw. Qed.
Next Obligation. exact store_law. Qed.
Next Obligation. exact map_page_law. Qed.
Next Obligation. exact unmap_law. Qed.
Next Obligation. exact free_law. Qed.
End range.

(** ** The heap of the kernel *)

(** [HEAP_BASE] and [HEAP_END + 1] (kernel/targets/x86_64-unknown-kernel.ld). *)
Definition HEAP_BASE : Z := 0xFFFFFFFF30000000.
Definition HEAP_END : Z := 0xFFFFFFFF4FFFFFFF.
#[export] Instance kernel_heap_range : HeapRange HEAP_BASE (HEAP_END + 1).
Proof. split; done. Qed.
Lemma demo_walk va : walk_at demo_sys va = None.
Proof. unfold walk_at. rewrite indices_spec. cbn [walk]. done. Qed.
Lemma demo_kernel_heap_ok : kernel_heap_ok (lo:=HEAP_BASE) (hi:=HEAP_END + 1) demo_sys.
Proof.
  exists demo_tables. split; [exact demo_sys_ok|]. split; [|done]. split.
  - intros a e _. by rewrite demo_walk.
  - intros a b e f _ _. by rewrite demo_walk.
Qed.
Lemma init_heap_correct_witness :
  ∃ s', init_heap HEAP_BASE (HEAP_END - HEAP_BASE + 1) {| list_head := None; heap_memory := demo_sys |} =
      Returns ((), {| list_head := Some HEAP_BASE; heap_memory := s' |}) ∧
    heap_ok (lo:=HEAP_BASE) (hi:=HEAP_END + 1) s' HEAP_BASE [(HEAP_END + 1 - HEAP_BASE - 8, false)].
Proof.
  apply (init_heap_correct (lo:=HEAP_BASE) (hi:=HEAP_END + 1) {| list_head := None; heap_memory := demo_sys |}
    HEAP_BASE (HEAP_END - HEAP_BASE + 1)); cbn [heap_memory];
    [exact demo_kernel_heap_ok|done|vm_compute; split; discriminate| |vm_compute; discriminate].
  change (virtual_word demo_sys (next_multiple_of HEAP_BASE 8) = None).
  unfold virtual_word. by rewrite demo_walk.
Defined.

(** ** Starting the heap of the kernel *)

(** It changes the address space at the page of its first header only. *)
Lemma walk_of_first_page (s : sys) tables start len : kernel_ok s tables → 4 ≤ free_pages s.(alloc) →
  let p := next_multiple_of start 8 in
  walk_at s p = None → 0 ≤ start → p + 9 ≤ start + len < 2 ^ 64 →
  wp (init_heap start len) (λ _ h, total_pages (heap_memory h).(alloc) = total_pages s.(alloc) ∧
    ∀ va, va / PAGE_SIZE mod 2 ^ 36 ≠ p / PAGE_SIZE mod 2 ^ 36 → walk_at (heap_memory h) va = walk_at s va)
    {| list_head := None; heap_memory := s |}.
Proof.
  intros Hk Hfree p Hnone Hs Hl. destruct (next_multiple_of_spec start 8 ltac:(lia)) as [Hn Hn8]. fold p in Hn, Hn8.
  unfold init_heap, next_multiple, align_of_Block. fold p. rewrite wp_bind, wp_chk. split; [lia|].
  unfold on_memory. rewrite wp_bind, wp_zoom, wp_bind. eapply wp_mono; [by apply (wp_map_page s tables p)|].
  intros r s1 (t1 & [Hk1 [_ _ Htot _] _ _ _ Hr]).
  destruct r as [[]|[]]; [|done|rewrite Hnone in Hr; by destruct Hr as [[? ?] _]].
  destruct Hr as (_ & n & Hn0 & Hn51 & _ & _ & Hw & Hnt & Hother).
  rewrite wp_ret, wp_bind, wp_chk. split; [lia|]. rewrite wp_bind, wp_chk. split; [lia|].
  unfold size_of_Block. rewrite wp_bind, wp_chk. split; [lia|]. rewrite wp_bind, wp_zoom. cbn [heap_memory list_head].
  assert (address (replace_addr_with READ_WRITE (n * PAGE_SIZE)) = n * PAGE_SIZE) as Hadr
    by (apply address_replace_addr; [unfold PAGE_SIZE in *; lia|by apply Z.mod_mul]).
  unfold wp at 1, hp_store, kernel_memory. rewrite Hw. destruct (PageTableEntry.writable _) eqn:Ewr.
  2:{ unfold PageTableEntry.writable, replace_addr_with in Ewr. rewrite Z.lor_spec, !Z.land_spec in Ewr.
      by apply orb_false_iff in Ewr as [_ Ewr]. }
  rewrite wp_modify. cbn [heap_memory PageAlloc.alloc]. split; [done|]. rewrite Hadr. intros va Hne.
  destruct (write_data s1 t1 (n * PAGE_SIZE) (p mod PAGE_SIZE)
    (Block_new (start + len - p - 8) false false) Hk1) as [_ ->]; [by apply Z.mod_mul|done|apply Z.mod_pos_bound; done| |by apply Hother].
  unfold PAGE_SIZE. Z.div_mod_to_equations. lia.
Qed.
