(* ===== verification/Text.v ===== *)
(** * Strings

    What the kernel uses of Rust's strings and formatting: a [&str] is a list of
    code points, its bytes are the UTF-8 encoding, positions are byte offsets, and
    [{arg:fill>width$.precision$}] pads an argument. *)
From S2P Require Import Prelude.

(** ** UTF-8 *)
Definition is_scalar (c : Z) : bool := (0 <=? c) && (c <? 0xD800) || (0xE000 <=? c) && (c <=? 0x10FFFF).
Definition utf8_len (c : Z) : Z := if c <? 0x80 then 1 else if c <? 0x800 then 2 else if c <? 0x10000 then 3 else 4.
Definition encode_char (c : Z) : list Z :=
  if c <? 0x80 then [c]
  else if c <? 0x800 then [0xC0 + c / 64; 0x80 + c mod 64]
  else if c <? 0x10000 then [0xE0 + c / 4096; 0x80 + c / 64 mod 64; 0x80 + c mod 64]
  else [0xF0 + c / 262144; 0x80 + c / 4096 mod 64; 0x80 + c / 64 mod 64; 0x80 + c mod 64].
(** [str::bytes] and [str::len]. *)
Definition str_bytes (s : list Z) : list Z := s ≫= encode_char.
Definition str_len (s : list Z) : Z := foldr (λ c n, utf8_len c + n) 0 s.
Definition continuation (b : Z) : bool := (0x80 <=? b) && (b <? 0xC0).
(** [core::str::from_utf8]: [None] for bytes that are not UTF-8. *)
Fixpoint from_utf8 (bytes : list Z) : option (list Z) :=
  match bytes with
  | [] => Some []
  | b :: l =>
      if b <? 0x80 then cons b <$> from_utf8 l
      else if b <? 0xE0 then
        match l with
        | b1 :: l =>
            let c := (b - 0xC0) * 64 + (b1 - 0x80) in
            if continuation b1 && (0x80 <=? c) then cons c <$> from_utf8 l else None
        | _ => None
        end
      else if b <? 0xF0 then
        match l with
        | b1 :: b2 :: l =>
            let c := (b - 0xE0) * 4096 + (b1 - 0x80) * 64 + (b2 - 0x80) in
            if continuation b1 && continuation b2 && (0x800 <=? c) && is_scalar c
            then cons c <$> from_utf8 l else None
        | _ => None
        end
      else
        match l with
        | b1 :: b2 :: b3 :: l =>
            let c := (b - 0xF0) * 262144 + (b1 - 0x80) * 4096 + (b2 - 0x80) * 64 + (b3 - 0x80) in
            if continuation b1 && continuation b2 && continuation b3 && (0x10000 <=? c) && is_scalar c
            then cons c <$> from_utf8 l else None
        | _ => None
        end
  end.
(** [s.split_at(n)]; [None] where it panics. *)
Fixpoint str_split (s : list Z) (n : Z) : option (list Z * list Z) :=
  if n =? 0 then Some ([], s)
  else match s with
  | [] => None
  | c :: s =>
      if n <? utf8_len c then None
      else match str_split s (n - utf8_len c) with Some (x, y) => Some (c :: x, y) | None => None end
  end.
(** [&s[a..b]] and [&s[a..]]. *)
Definition str_slice {S} (s : list Z) (a b : Z) : M S (list Z) :=
  rassert (a <=? b);;
  x ← unwrap (str_split s b);
  y ← unwrap (str_split (fst x) a);
  mret (snd y).
Definition str_slice_from {S} (s : list Z) (a : Z) : M S (list Z) :=
  x ← unwrap (str_split s a); mret (snd x).

(** ** Formatting *)

(** Padding to [width] with [fill], on the right for [left] aligned text. *)
Definition pad (left : bool) (fill width : Z) (text : list Z) : list Z :=
  let padding := replicate (Z.to_nat width - length text) fill in
  if left then text ++ padding else padding ++ text.
Definition digit_char (upper : bool) (d : Z) : Z := if d <? 10 then 48 + d else if upper then 55 + d else 87 + d.
(** The digits of a [u32], the most significant first. *)
Fixpoint digits_loop (fuel : nat) (base n : Z) (acc : list Z) : list Z :=
  match fuel with
  | O => acc
  | S fuel => if n <? base then n :: acc else digits_loop fuel base (n / base) (n mod base :: acc)
  end.
Definition digits (base n : Z) : list Z := digits_loop 32 base n [].
(** The types of a format argument: none, [o], [x] and [X]. *)
Inductive fmt_type : Type := Display | Octal | LowerHex | UpperHex.
Definition fmt_base (ty : fmt_type) : Z := match ty with Display => 10 | Octal => 8 | LowerHex | UpperHex => 16 end.
Definition format_number (ty : fmt_type) (n : Z) : list Z :=
  (if n <? 0 then [45] else []) ++
  (digit_char (match ty with UpperHex => true | _ => false end) <$> digits (fmt_base ty) (Z.abs n)).
(** An argument; the precision limits the length of a string and is ignored for
    an integer. *)
Inductive fmt_arg : Type := StrArg (s : list Z) | IntArg (n : Z).
Definition format_arg (a : fmt_arg) (ty : fmt_type) (precision : option Z) : list Z :=
  match a with
  | StrArg s => match precision with Some p => take (Z.to_nat p) s | None => s end
  | IntArg n => format_number ty n
  end.

(** ** Facts *)
Lemma str_len_app x y : str_len (x ++ y) = str_len x + str_len y.
Proof. induction x as [|c x IH]; cbn; [done|]. fold (str_len (x ++ y)) (str_len x). rewrite IH. lia. Qed.
Lemma utf8_len_pos c : 1 ≤ utf8_len c.
Proof. unfold utf8_len. repeat case_match; lia. Qed.
Lemma str_len_nonneg x : 0 ≤ str_len x.
Proof. induction x as [|c x IH]; cbn; [lia|]. pose proof (utf8_len_pos c). fold (str_len x). lia. Qed.
Lemma str_len_pos c x : 1 ≤ str_len (c :: x).
Proof. cbn. pose proof (utf8_len_pos c). pose proof (str_len_nonneg x). fold (str_len x). lia. Qed.
Lemma str_split_app x y : str_split (x ++ y) (str_len x) = Some (x, y).
Proof.
  induction x as [|c x IH]; [by destruct y|]. pose proof (str_len_pos c x). pose proof (str_len_nonneg x). cbn [app str_split].
  rewrite (proj2 (Z.eqb_neq _ _)) by lia. cbn [str_len foldr] in *. fold (str_len x) in *.
  rewrite (proj2 (Z.ltb_ge _ _)) by lia. replace (utf8_len c + str_len x - utf8_len c) with (str_len x) by lia. by rewrite IH.
Qed.
Lemma str_slice_app {S} x y z (s : S) :
  str_slice (x ++ y ++ z) (str_len x) (str_len (x ++ y)) s = Returns (y, s).
Proof.
  unfold str_slice, mbind, M_bind, rassert. rewrite (proj2 (Z.leb_le _ _)).
  2:{ rewrite str_len_app. pose proof (str_len_nonneg y). lia. }
  cbn. rewrite app_assoc, str_split_app. cbn. by rewrite str_split_app.
Qed.
Lemma str_slice_from_app {S} x y (s : S) : str_slice_from (x ++ y) (str_len x) s = Returns (y, s).
Proof. unfold str_slice_from, mbind, M_bind. by rewrite str_split_app. Qed.
Lemma encode_char_spec c l : is_scalar c = true → from_utf8 (encode_char c ++ l) = cons c <$> from_utf8 l.
Proof.
  intros Hc. assert (0 ≤ c ≤ 0x10FFFF ∧ (c < 0xD800 ∨ 0xE000 ≤ c)) as [Hr Hs].
  { unfold is_scalar in Hc. apply orb_true_iff in Hc as [[? ?]%andb_true_iff|[? ?]%andb_true_iff]; lia. }
  unfold encode_char.
  destruct (Z.ltb_spec c 0x80) as [?|?].
  { cbn [app from_utf8]. by rewrite (proj2 (Z.ltb_lt c 0x80)) by lia. }
  destruct (Z.ltb_spec c 0x800) as [?|?].
  { cbn [app from_utf8]. rewrite (proj2 (Z.ltb_ge _ 0x80)), (proj2 (Z.ltb_lt _ 0xE0)) by (Z.div_mod_to_equations; lia).
    replace ((0xC0 + c / 64 - 0xC0) * 64 + (0x80 + c mod 64 - 0x80)) with c by (Z.div_mod_to_equations; lia).
    unfold continuation. rewrite !(proj2 (Z.leb_le _ _)), (proj2 (Z.ltb_lt _ _)) by (Z.div_mod_to_equations; lia). done. }
  destruct (Z.ltb_spec c 0x10000) as [?|?]; cbn [app from_utf8].
  - rewrite (proj2 (Z.ltb_ge _ 0x80)), (proj2 (Z.ltb_ge _ 0xE0)), (proj2 (Z.ltb_lt _ 0xF0)) by (Z.div_mod_to_equations; lia).
    replace ((0xE0 + c / 4096 - 0xE0) * 4096 + (0x80 + c / 64 mod 64 - 0x80) * 64 + (0x80 + c mod 64 - 0x80))
      with c by (Z.div_mod_to_equations; lia).
    unfold continuation. rewrite !(proj2 (Z.leb_le _ _)), !(proj2 (Z.ltb_lt _ _)) by (Z.div_mod_to_equations; lia). by rewrite Hc.
  - rewrite (proj2 (Z.ltb_ge _ 0x80)), (proj2 (Z.ltb_ge _ 0xE0)), (proj2 (Z.ltb_ge _ 0xF0)) by (Z.div_mod_to_equations; lia).
    replace ((0xF0 + c / 262144 - 0xF0) * 262144 + (0x80 + c / 4096 mod 64 - 0x80) * 4096 + (0x80 + c / 64 mod 64 - 0x80) * 64
      + (0x80 + c mod 64 - 0x80)) with c by (Z.div_mod_to_equations; lia).
    unfold continuation. rewrite !(proj2 (Z.leb_le _ _)), !(proj2 (Z.ltb_lt _ _)) by (Z.div_mod_to_equations; lia). by rewrite Hc.
Qed.
Lemma from_utf8_bytes s : forallb is_scalar s = true → from_utf8 (str_bytes s) = Some s.
Proof.
  induction s as [|c s IH]; [done|]. cbn [forallb]. intros [Hc Hs]%andb_true_iff. unfold str_bytes. cbn [mbind list_bind].
  rewrite encode_char_spec by done. fold (str_bytes s). by rewrite IH.
Qed.
(** The value of digits, continuing from [a]. *)
Definition undigits (base a : Z) (ds : list Z) : Z := foldl (λ a d, a * base + d) a ds.
Lemma undigits_app base a x y : undigits base a (x ++ y) = undigits base (undigits base a x) y.
Proof. apply foldl_app. Qed.
Lemma digits_loop_spec fuel base n acc : 2 ≤ base → (0 < fuel)%nat → 0 ≤ n < base ^ Z.of_nat fuel →
  ∃ ds, digits_loop fuel base n acc = ds ++ acc ∧ undigits base 0 ds = n ∧
    Forall (λ d, 0 ≤ d < base) ds ∧ ds ≠ [] ∧ (hd 0 ds = 0 → ds = [0]).
Proof.
  intros Hb. revert n acc. induction fuel as [|fuel IH]; intros n acc H0 Hn; [lia|]. cbn [digits_loop].
  destruct (Z.ltb_spec n base) as [Hlt|Hge].
  { exists [n]. split_and!; [done|done|apply Forall_singleton; lia|done|cbn; by intros ->]. }
  rewrite Nat2Z.inj_succ, Z.pow_succ_r in Hn by lia.
  assert (0 < n / base) as Hpos by (apply Z.div_str_pos; lia).
  assert (n / base < base ^ Z.of_nat fuel) as Hlt by (apply Z.div_lt_upper_bound; lia).
  destruct fuel as [|fuel]; [change (base ^ Z.of_nat 0) with 1 in Hlt; lia|].
  destruct (IH (n / base) (n mod base :: acc)) as (ds & -> & Hv & Hd & Hne & Hz); [lia|lia|].
  pose proof (Z.mod_pos_bound n base ltac:(lia)).
  exists (ds ++ [n mod base]). split_and!.
  - by rewrite <-app_assoc.
  - rewrite undigits_app, Hv. cbn. rewrite Z.mul_comm. symmetry. apply Z.div_mod. lia.
  - apply Forall_app. split; [done|]. apply Forall_singleton. lia.
  - by destruct ds.
  - destruct ds as [|d ds]; [done|]. cbn in *. intros E. specialize (Hz E). injection Hz as -> ->. cbn in Hv. lia.
Qed.
Lemma digits_spec base n : 2 ≤ base → 0 ≤ n < 2 ^ 32 →
  undigits base 0 (digits base n) = n ∧ Forall (λ d, 0 ≤ d < base) (digits base n) ∧
  digits base n ≠ [] ∧ (hd 0 (digits base n) = 0 → digits base n = [0]).
Proof.
  intros Hb Hn. destruct (digits_loop_spec 32 base n []) as (ds & E & H); [done|lia| |].
  - split; [lia|]. apply Z.lt_le_trans with (2 ^ 32); [lia|]. by apply Z.pow_le_mono_l.
  - unfold digits. by rewrite E, app_nil_r.
Qed.
(** Reading a number back. *)
Definition digit_value (c : Z) : Z := if c <=? 57 then c - 48 else if c <=? 70 then c - 55 else c - 87.
Definition read_number (ty : fmt_type) (text : list Z) : Z :=
  match text with
  | 45 :: ds => - undigits (fmt_base ty) 0 (digit_value <$> ds)
  | ds => undigits (fmt_base ty) 0 (digit_value <$> ds)
  end.
Lemma digit_value_char upper d : 0 ≤ d < 16 → digit_value (digit_char upper d) = d ∧ digit_char upper d ≠ 45.
Proof.
  intros Hd. unfold digit_char, digit_value. destruct (Z.ltb_spec d 10), upper;
    repeat match goal with |- context [?a <=? ?b] => destruct (Z.leb_spec a b) end; lia.
Qed.
(** Printed integers can be read back: the digits an integer of 32 bits is
    printed with, in any of the bases, denote it, and there is no leading zero. *)
Theorem number_roundtrip ty n : - 2 ^ 31 ≤ n < 2 ^ 32 →
  read_number ty (format_number ty n) = n ∧ (n ≠ 0 → hd 48 (format_number ty (Z.abs n)) ≠ 48).
Proof.
  intros Hn. assert (2 ≤ fmt_base ty ≤ 16) as Hb by (by destruct ty).
  destruct (digits_spec (fmt_base ty) (Z.abs n)) as (Hv & Hd & Hne & Hz); [lia|lia|].
  unfold format_number. rewrite Z.abs_involutive, (proj2 (Z.ltb_ge (Z.abs n) 0)) by lia.
  set (up := match ty with UpperHex => true | _ => false end). set (ds := digits _ _) in *.
  assert (Forall (λ d, 0 ≤ d < 16) ds) as Hd16 by (eapply Forall_impl; [exact Hd|]; cbn beta; lia). clear Hd.
  assert (digit_value <$> (digit_char up <$> ds) = ds) as Hvals.
  { clear - Hd16. induction Hd16 as [|d ds Hd _ IH]; [done|]. cbn [fmap list_fmap]. f_equal; [by apply digit_value_char|exact IH]. }
  destruct ds as [|d ds]; [done|]. apply Forall_cons in Hd16 as [Hd _]. destruct (digit_value_char up d Hd) as [Hdv Hd45].
  cbn [fmap list_fmap hd app] in *. split.
  - destruct (Z.ltb_spec n 0); cbn [app].
    + cbn [read_number fmap list_fmap]. rewrite Hvals, Hv. lia.
    + assert (read_number ty (digit_char up d :: (digit_char up <$> ds)) =
        undigits (fmt_base ty) 0 (digit_value <$> (digit_char up d :: (digit_char up <$> ds)))) as ->.
      { unfold read_number. by repeat case_match. }
      cbn [fmap list_fmap]. rewrite Hvals, Hv. lia.
  - intros Hn0 E. assert (d = 0) as ->. { rewrite <-Hdv, E. done. }
    specialize (Hz eq_refl). injection Hz as ->. cbn in Hv. lia.
Qed.
Lemma number_roundtrip_witness :
  read_number LowerHex (format_number LowerHex (-48879)) = -48879 ∧ (-48879 ≠ 0 → hd 48 (format_number LowerHex (Z.abs (-48879))) ≠ 48).
Proof. apply (number_roundtrip LowerHex (-48879)). lia. Defined.
