(* ===== verification/Ports.v ===== *)
(** * Port input and output (kernel/src/arch/x86_64/mod.rs, module port)

    The devices behind the ports are the class [PortDevices]: the value a port gives
    may depend on everything that was read and written before. *)
From S2P Require Import Prelude.

Inductive port_event : Type := In (port value : Z) | Out (port value : Z).
Class PortDevices : Type := port_input : list port_event → Z → Z.

Module port.
Definition BOCHS_DEBUG : Z := 0xE9.
Definition CMOS_NMI_AND_REGISTER : Z := 0x70.
Definition CMOS_DATA : Z := 0x71.
Section port.
Context `{PortDevices}.
(** The state is what happened at the ports so far, the oldest event first. *)
Definition read_byte (p : Z) : M (list port_event) Z :=
  trace ← get; let byte := port_input trace p mod 256 in
  modify (λ trace, trace ++ [In p byte]);; mret byte.
Definition write_byte (p byte : Z) : M (list port_event) () := modify (λ trace, trace ++ [Out p byte]).
End port.
End port.
