(* ===== verification/Logging.v ===== *)
(** * Logging (kernel/src/logging.rs, arch/x86_64/bochs_debug.rs and the module
    debug_output of arch/x86_64/mod.rs)

    A log record goes from the wrapper that is registered with the log crate to the
    current logger, and from the kernel's logger to the debug port of the emulator
    and to the terminal. *)
From S2P Require Import Prelude Text Ports Terminal.

(** The loggers that can be current, and a record. *)
Inductive logger : Type := LimineDebugLogger | KernelLogger.
Record log_record : Type := { level : list Z; target : list Z; args : list Z }.
Record machine : Type := {
  ports : list port_event;
  BOCHS_WRITER_ENABLED : bool;
  LOG_WRAPPER_INITIALISED : bool;
  CURRENT_LOGGER : option logger;
  TERMINAL : option terminal;
}.
Definition set_ports (p : list port_event) (m : machine) : machine :=
  {| ports := p; BOCHS_WRITER_ENABLED := BOCHS_WRITER_ENABLED m; LOG_WRAPPER_INITIALISED := LOG_WRAPPER_INITIALISED m;
     CURRENT_LOGGER := CURRENT_LOGGER m; TERMINAL := TERMINAL m |}.
Definition set_terminal (t : option terminal) (m : machine) : machine :=
  {| ports := ports m; BOCHS_WRITER_ENABLED := BOCHS_WRITER_ENABLED m; LOG_WRAPPER_INITIALISED := LOG_WRAPPER_INITIALISED m;
     CURRENT_LOGGER := CURRENT_LOGGER m; TERMINAL := t |}.
Definition enable_bochs_writer (m : machine) : machine :=
  {| ports := ports m; BOCHS_WRITER_ENABLED := true; LOG_WRAPPER_INITIALISED := LOG_WRAPPER_INITIALISED m;
     CURRENT_LOGGER := CURRENT_LOGGER m; TERMINAL := TERMINAL m |}.
Definition wrapper_initialised (m : machine) : machine :=
  {| ports := ports m; BOCHS_WRITER_ENABLED := BOCHS_WRITER_ENABLED m; LOG_WRAPPER_INITIALISED := true;
     CURRENT_LOGGER := CURRENT_LOGGER m; TERMINAL := TERMINAL m |}.
Definition replace_logger (l : logger) : M machine () := modify (λ m,
  {| ports := ports m; BOCHS_WRITER_ENABLED := BOCHS_WRITER_ENABLED m; LOG_WRAPPER_INITIALISED := LOG_WRAPPER_INITIALISED m;
     CURRENT_LOGGER := Some l; TERMINAL := TERMINAL m |}).

Section logging.
Context `{PortDevices}.
Definition on_ports {A} (m : M (list port_event) A) : M machine A := zoom ports set_ports m.

(** ** The debug port *)
Definition BochsWriter_test_port_exists : M machine bool :=
  byte ← on_ports (port.read_byte port.BOCHS_DEBUG); mret (byte =? 0xE9).
Definition BochsWriter_write_byte (byte : Z) : M machine () :=
  (if byte =? 10 then on_ports (port.write_byte port.BOCHS_DEBUG 13) else mret ());;
  on_ports (port.write_byte port.BOCHS_DEBUG byte).
Definition BochsWriter_write_str (s : list Z) : M machine () := for_each BochsWriter_write_byte (str_bytes s).
Definition init_writers : M machine () :=
  exists_ ← BochsWriter_test_port_exists;
  if exists_ : bool then modify enable_bochs_writer else mret ().
Definition ArchWriter_write_str (s : list Z) : M machine () :=
  m ← get; if BOCHS_WRITER_ENABLED m then BochsWriter_write_str s else mret ().

(** ** The loggers *)
Definition terminal_write (s : list Z) : M machine () := λ m,
  match TERMINAL m with
  | Some t => zoom (λ _, t) (λ t m, set_terminal (Some t) m) (write s) m
  | None => Returns ((), m)
  end.
Definition KernelLogger_write_str (s : list Z) : M machine () := ArchWriter_write_str s;; terminal_write s.
(** ["[{}] ({}) {}\n"] *)
Definition log_line (r : log_record) : list Z :=
  [91] ++ level r ++ [93; 32; 40] ++ target r ++ [41; 32] ++ args r ++ [10].
Definition KernelLogger_enabled : bool := true.
Definition KernelLogger_log (r : log_record) : M machine () :=
  if KernelLogger_enabled then KernelLogger_write_str (log_line r) else mret ().
Definition LimineDebugLogger_log (r : log_record) : M machine () := ArchWriter_write_str (log_line r).
Definition LogWrapper_log (r : log_record) : M machine () :=
  m ← get;
  match CURRENT_LOGGER m with
  | Some KernelLogger => KernelLogger_log r
  | Some LimineDebugLogger => LimineDebugLogger_log r
  | None => mret ()
  end.
(** Registers the wrapper, the first time it is called. *)
Definition init_wrapper : M machine () :=
  m ← get;
  if negb (LOG_WRAPPER_INITIALISED m) then modify wrapper_initialised else mret ().

(** Both entry points start with these three calls. *)
Definition start_logging (l : logger) : M machine () := init_writers;; init_wrapper;; replace_logger l.

(** ** Facts *)

Lemma wp_init_wrapper m (Q : () → machine → Prop) :
  (∀ m', LOG_WRAPPER_INITIALISED m' = true → TERMINAL m' = TERMINAL m → BOCHS_WRITER_ENABLED m' = BOCHS_WRITER_ENABLED m →
    ports m' = ports m → Q () m') → wp init_wrapper Q m.
Proof.
  intros HQ. unfold init_wrapper. rewrite wp_bind, wp_get.
  destruct (LOG_WRAPPER_INITIALISED m) eqn:El; cbn [negb]; rewrite ?wp_modify, ?wp_ret; by apply HQ.
Qed.
Lemma wp_start_logging l (Q : () → machine → Prop) m :
  (∀ m', CURRENT_LOGGER m' = Some l → LOG_WRAPPER_INITIALISED m' = true → TERMINAL m' = TERMINAL m →
    BOCHS_WRITER_ENABLED m' = BOCHS_WRITER_ENABLED m || (port_input (ports m) port.BOCHS_DEBUG mod 256 =? 0xE9) →
    ports m' = ports m ++ [In port.BOCHS_DEBUG (port_input (ports m) port.BOCHS_DEBUG mod 256)] → Q () m') →
  wp (start_logging l) Q m.
Proof.
  intros HQ. unfold start_logging, init_writers, BochsWriter_test_port_exists, on_ports, port.read_byte, replace_logger.
  rewrite !wp_bind, wp_zoom, !wp_bind, wp_get, wp_bind, wp_modify, !wp_ret.
  destruct (_ =? 0xE9) eqn:E; rewrite ?wp_modify, ?wp_ret, wp_bind; apply wp_init_wrapper;
    intros m' H1 H2 H3 H4; rewrite wp_modify; apply HQ; cbn; rewrite ?H1, ?H2, ?H3, ?H4, ?orb_true_r, ?orb_false_r; done.
Qed.
(** A line feed is sent as carriage return and line feed. *)
Definition crlf (bytes : list Z) : list Z := bytes ≫= λ b, if b =? 10 then [13; 10] else [b].
Definition sent (bytes : list Z) : list port_event := Out port.BOCHS_DEBUG <$> crlf bytes.
Lemma wp_write_bytes bytes (Q : () → machine → Prop) m :
  Q () (set_ports (ports m ++ sent bytes) m) → wp (for_each BochsWriter_write_byte bytes) Q m.
Proof.
  revert m. induction bytes as [|b bytes IH]; intros m HQ; cbn [for_each foldr].
  { rewrite wp_ret. cbn in HQ. rewrite app_nil_r in HQ. by destruct m. }
  unfold BochsWriter_write_byte, on_ports, port.write_byte. rewrite wp_bind, wp_bind.
  unfold sent, crlf in HQ. cbn [mbind list_bind] in HQ. fold (crlf bytes) in HQ. rewrite fmap_app in HQ.
  fold (sent bytes) in HQ. rewrite app_assoc in HQ.
  destruct (Z.eqb_spec b 10) as [->|]; rewrite ?wp_zoom, ?wp_ret, ?wp_modify, ?wp_zoom, ?wp_modify; apply IH; cbn in HQ |- *.
  - by rewrite <-!app_assoc in *.
  - done.
Qed.
Lemma wp_arch_write s (Q : () → machine → Prop) m :
  Q () (set_ports (ports m ++ if BOCHS_WRITER_ENABLED m then sent (str_bytes s) else []) m) →
  wp (ArchWriter_write_str s) Q m.
Proof.
  intros HQ. unfold ArchWriter_write_str. rewrite wp_bind, wp_get. destruct (BOCHS_WRITER_ENABLED m).
  - by apply wp_write_bytes.
  - rewrite wp_ret. rewrite app_nil_r in HQ. by destruct m.
Qed.
(** The terminal can show the record. *)
Definition printable_record (fn : psf.Font) (r : log_record) : Prop := Forall (printable fn) (log_line r).
Definition terminal_ok (fn : psf.Font) (m : machine) : Prop := ∀ t, TERMINAL m = Some t → writable fn t.

(** What logging a record leaves. *)
Record logged (fn : psf.Font) (r : log_record) (m m' : machine) : Prop := {
  logged_terminal : terminal_ok fn m';
  logged_kept : CURRENT_LOGGER m' = CURRENT_LOGGER m ∧ BOCHS_WRITER_ENABLED m' = BOCHS_WRITER_ENABLED m;
  logged_ports : ports m' = ports m ++
    match CURRENT_LOGGER m with Some _ => if BOCHS_WRITER_ENABLED m then sent (str_bytes (log_line r)) else [] | None => [] end;
  logged_screen : match CURRENT_LOGGER m, TERMINAL m with
    | Some KernelLogger, Some t => ∃ t', write (log_line r) t = Returns ((), t') ∧ TERMINAL m' = Some t'
    | _, _ => TERMINAL m' = TERMINAL m
    end;
}.
Lemma wp_log fn r m : terminal_ok fn m → (is_Some (TERMINAL m) → printable_record fn r) →
  wp (LogWrapper_log r) (λ _, logged fn r m) m.
Proof.
  intros Ht Hp. unfold LogWrapper_log. rewrite wp_bind, wp_get. destruct (CURRENT_LOGGER m) as [[]|] eqn:El.
  - apply wp_arch_write. split; [exact Ht|done|by rewrite El|]. rewrite El. cbn. by destruct (TERMINAL m).
  - unfold KernelLogger_log. change KernelLogger_enabled with true. cbn iota. unfold KernelLogger_write_str. rewrite wp_bind. apply wp_arch_write.
    unfold terminal_write, wp. cbn [TERMINAL set_ports]. destruct (TERMINAL m) as [t|] eqn:Et.
    + destruct (wp_unit_returns _ _ _ (wp_write fn t _ (Ht t Et) (Hp ltac:(by eexists)))) as (t' & E & Ht').
      unfold zoom. rewrite E. split; [by intros t1 [= <-]|done|by rewrite El|]. rewrite El, Et. by exists t'.
    + split; [by intros t1; cbn; rewrite Et|done|by rewrite El|by rewrite El, Et].
  - rewrite wp_ret. split; [exact Ht|by rewrite El|by rewrite El, app_nil_r|]. rewrite El. by destruct (TERMINAL m).
Qed.
(** C25: Logging a record of plain characters does not fail: whatever logger is
    current, when the terminal is in its normal state and the record's line has
    no escape character, and of other characters only line feeds, carriage
    returns, tabs and those the font draws, the call returns and leaves the
    terminal in its normal state. The line goes to the debug port when that port
    is enabled and there is a logger, with a carriage return before each line
    feed; the terminal changes only under the kernel's logger. The condition is
    needed: under the kernel's logger a record with a character the font cannot
    draw, or with a long argument in an escape sequence
    ([Terminal.long_argument_panics]), makes the kernel panic. *)
Theorem log_correct (fn : psf.Font) (r : log_record) (m : machine) :
  terminal_ok fn m → printable_record fn r →
  ∃ m', LogWrapper_log r m = Returns ((), m') ∧ terminal_ok fn m' ∧
    ports m' = ports m ++
      (match CURRENT_LOGGER m with Some _ => if BOCHS_WRITER_ENABLED m then sent (str_bytes (log_line r)) else [] | None => [] end) ∧
    match CURRENT_LOGGER m, TERMINAL m with
    | Some KernelLogger, Some t => ∃ t', write (log_line r) t = Returns ((), t') ∧ TERMINAL m' = Some t'
    | _, _ => TERMINAL m' = TERMINAL m
    end.
Proof.
  intros Ht Hp. apply wp_unit_returns. eapply wp_mono; [by apply (wp_log fn r m)|].
  by intros [] m' [H1 H2 H3 H4].
Qed.
End logging.

(** A machine with the debug port and a terminal. *)
#[local] Instance no_input : PortDevices := λ _ _, 0.
Definition demo_machine : machine :=
  {| ports := []; BOCHS_WRITER_ENABLED := true; LOG_WRAPPER_INITIALISED := true;
     CURRENT_LOGGER := Some KernelLogger; TERMINAL := Some demo_terminal |}.
Definition demo_record : log_record := {| level := [73; 78; 70; 79]; target := [107]; args := [111; 107] |}.
Lemma log_correct_witness :
  ∃ m', LogWrapper_log demo_record demo_machine = Returns ((), m') ∧ terminal_ok demo_font m' ∧
    ports m' = [] ++ sent (str_bytes (log_line demo_record)) ∧
    ∃ t', write (log_line demo_record) demo_terminal = Returns ((), t') ∧ TERMINAL m' = Some t'.
Proof.
  apply (log_correct demo_font demo_record demo_machine).
  - intros t [= <-]. split; [exact demo_terminal_ok|]. split; [by split|]. split; [by split|done].
  - unfold printable_record. cbn [log_line demo_record level target args app].
    repeat (apply Forall_cons; split; [split; [done|first
      [by left|by right; left|by right; right; left|right; right; right; right; vm_compute; discriminate]]|]).
    by apply Forall_nil.
Defined.
