(* ===== verification/Printf.v ===== *)
(** * Formatted output for ACPICA (AcpiOsPrintf and AcpiOsVprintf in
    kernel/src/platform/acpi/acpica_os_layer.rs)

    The ACPI component calls back into the kernel to print with C format strings.
    The kernel reads the format with a state machine of its own and writes the
    pieces to its logger. The logger is the class [Writer]; nothing is assumed of
    it. *)
From S2P Require Import Prelude Text.

Class Writer (S : Type) : Type := write_str : list Z → M S ().

(** ** The state machine *)
Inductive State : Type := RawString (string_start : Z) | FormatStart | Flags | Width | Precision.
Record FormatInfo : Type := { right_aligned : option bool; fill_char : Z; width : Z; precision : option Z }.
Definition FormatInfo_default : FormatInfo := {| right_aligned := None; fill_char := 32; width := 0; precision := None |}.
Definition with_left (i : FormatInfo) : FormatInfo :=
  {| right_aligned := Some false; fill_char := fill_char i; width := width i; precision := precision i |}.
Definition with_fill (i : FormatInfo) : FormatInfo :=
  {| right_aligned := right_aligned i; fill_char := 48; width := width i; precision := precision i |}.
Definition with_width (w : Z) (i : FormatInfo) : FormatInfo :=
  {| right_aligned := right_aligned i; fill_char := fill_char i; width := w; precision := precision i |}.
Definition with_precision (p : Z) (i : FormatInfo) : FormatInfo :=
  {| right_aligned := right_aligned i; fill_char := fill_char i; width := width i; precision := Some p |}.
(** What the loop carries: the state, the format read so far and the arguments. *)
Record vstate : Type := VState { state : State; format_info : FormatInfo; va : list Z }.

Section vprintf.
Context {S : Type} `{Writer S}.
(** Memory, for the strings, and a bound on the bytes of a string looked at. *)
Variable mem : memory.
Variable fuel : nat.

(** ** Printing an argument *)

(** [args.arg::<T>()]: reading past the arguments is undefined. *)
Definition next_arg (va : list Z) : M S (Z * list Z) :=
  deref (match va with [] => None | a :: va => Some (a, va) end).
(** [as c_int]. *)
Definition signed32 (x : Z) : Z := if Z.testbit x 31 then trunc 32 x - 2 ^ 32 else trunc 32 x.
(** A width or a precision that is given as an argument has sixteen bits in the Rust
    library, which panics when one does not fit. *)
Definition counts_fit (width : Z) (precision : option Z) : bool :=
  (width <=? 0xFFFF) && match precision with Some p => p <=? 0xFFFF | None => true end.
Definition write_formatted_with_type (arg : fmt_arg) (ty : fmt_type) (width : Z) (right_aligned : bool)
    (fill_char : Z) (precision : option Z) : M S () :=
  if (fill_char =? 32) || (fill_char =? 48)
  then rassert (counts_fit width precision);; write_str (pad (negb right_aligned) fill_char width (format_arg arg ty precision))
  else panic.
Definition write_formatted (arg : fmt_arg) : Z → bool → Z → option Z → M S () := write_formatted_with_type arg Display.
Definition print_c (va : list Z) : M S (list Z) :=
  '(a, va) ← next_arg va;
  rassert (is_scalar (trunc 32 a));;
  write_str [trunc 32 a];;
  mret va.
(** The length of the string argument: the pointer stays on the first byte. *)
Fixpoint string_len_loop (fuel : nat) (limit : option Z) (byte string_len : Z) : M S Z :=
  match fuel with
  | O => out_of_fuel
  | Datatypes.S fuel =>
      if match limit with Some p => negb (string_len <? p) | None => false end then mret string_len
      else if byte =? 0 then mret string_len
      else n ← chk 64 (string_len + 1); string_len_loop fuel limit byte n
  end.
Definition bytes_at (a n : Z) : list Z := (λ i, read_byte mem (a + i)) <$> seqZ 0 n.
Definition print_s (info : FormatInfo) (va : list Z) : M S (list Z) :=
  '(string_ptr, va) ← next_arg va;
  string_len ← string_len_loop fuel (precision info) (read_byte mem string_ptr) 0;
  string ← unwrap (from_utf8 (bytes_at string_ptr string_len));
  write_formatted (StrArg string) (width info) (default true (right_aligned info)) (fill_char info) (precision info);;
  mret va.
Definition print_int (n : Z) (ty : fmt_type) (info : FormatInfo) : M S () :=
  match precision info with
  | Some p =>
      rassert (width info <=? p);;
      write_formatted_with_type (IntArg n) ty p (default true (right_aligned info)) 48 (precision info)
  | None => write_formatted_with_type (IntArg n) ty (width info) (default true (right_aligned info)) (fill_char info) None
  end.
Definition print_d (info : FormatInfo) (va : list Z) : M S (list Z) :=
  '(a, va) ← next_arg va; print_int (signed32 a) Display info;; mret va.
Definition print_u (info : FormatInfo) (va : list Z) : M S (list Z) :=
  '(a, va) ← next_arg va; print_int (trunc 32 a) Display info;; mret va.
Definition print_o (info : FormatInfo) (va : list Z) : M S (list Z) :=
  '(a, va) ← next_arg va; print_int (trunc 32 a) Octal info;; mret va.
Definition print_x (info : FormatInfo) (va : list Z) : M S (list Z) :=
  '(a, va) ← next_arg va; print_int (trunc 32 a) LowerHex info;; mret va.
Definition print_X (info : FormatInfo) (va : list Z) : M S (list Z) :=
  '(a, va) ← next_arg va; print_int (trunc 32 a) UpperHex info;; mret va.
Definition print_type (specifier : Z) (info : FormatInfo) (va : list Z) : M S (list Z) :=
  if specifier =? 99 then print_c va
  else if specifier =? 115 then print_s info va
  else if (specifier =? 100) || (specifier =? 105) then print_d info va
  else if specifier =? 117 then print_u info va
  else if specifier =? 111 then print_o info va
  else if specifier =? 120 then print_x info va
  else if specifier =? 88 then print_X info va
  else panic.

(** ** Reading the format string *)
Definition is_specifier (c : Z) : bool :=
  bool_decide (c ∈ [99; 67; 100; 105; 111; 117; 120; 88; 101; 69; 102; 70; 103; 71; 97; 65; 110; 112; 115; 83; 90]).
Definition is_nonzero_digit (c : Z) : bool := (49 <=? c) && (c <=? 57).
Definition is_digit (c : Z) : bool := (48 <=? c) && (c <=? 57).
Definition push_digit (n c : Z) : M S Z :=
  a ← chk 64 (n * 10); d ← chk 64 (c - 48); chk 64 (a + d).
Definition finish_specifier (char_pos c : Z) (v : vstate) : M S vstate :=
  va ← print_type c (format_info v) (va v);
  start ← chk 64 (char_pos + 1);
  mret (VState (RawString start) FormatInfo_default va).
Definition raw_step (s : list Z) (start char_pos c : Z) (v : vstate) : M S vstate :=
  if c =? 37 then
    n ← chk 64 (char_pos - start);
    (if 0 <? n then text ← str_slice s start char_pos; write_str text else mret ());;
    mret (VState FormatStart FormatInfo_default (va v))
  else mret v.
(** The width, the precision and the type, which all states accept. *)
Definition width_digit (c : Z) (v : vstate) : M S vstate :=
  w ← push_digit (width (format_info v)) c; mret (VState Width (with_width w (format_info v)) (va v)).
Definition start_precision (v : vstate) : vstate := VState Precision (with_precision 0 (format_info v)) (va v).
Definition format_start_step (char_pos c : Z) (v : vstate) : M S vstate :=
  if c =? 45 then mret (VState Flags (with_left (format_info v)) (va v))
  else if c =? 48 then mret (VState Flags (with_fill (format_info v)) (va v))
  else if is_nonzero_digit c then width_digit c v
  else if c =? 46 then mret (start_precision v)
  else if is_specifier c then finish_specifier char_pos c v
  else if c =? 37 then mret (VState (RawString char_pos) FormatInfo_default (va v))
  else panic.
Definition flags_step (char_pos c : Z) (v : vstate) : M S vstate :=
  if c =? 45 then mret (VState Flags (with_left (format_info v)) (va v))
  else if c =? 48 then mret (VState Flags (with_fill (format_info v)) (va v))
  else if is_nonzero_digit c then width_digit c v
  else if c =? 46 then mret (start_precision v)
  else if is_specifier c then finish_specifier char_pos c v
  else panic.
Definition width_step (char_pos c : Z) (v : vstate) : M S vstate :=
  if is_digit c then width_digit c v
  else if c =? 46 then mret (start_precision v)
  else if is_specifier c then finish_specifier char_pos c v
  else panic.
Definition precision_step (char_pos c : Z) (v : vstate) : M S vstate :=
  if is_digit c then
    p ← unwrap (precision (format_info v));
    p ← push_digit p c;
    mret (VState Precision (with_precision p (format_info v)) (va v))
  else if is_specifier c then finish_specifier char_pos c v
  else panic.
Definition step (s : list Z) (char_pos c : Z) (v : vstate) : M S vstate :=
  match state v with
  | RawString start => raw_step s start char_pos c v
  | FormatStart => format_start_step char_pos c v
  | Flags => flags_step char_pos c v
  | Width => width_step char_pos c v
  | Precision => precision_step char_pos c v
  end.
(** [for (char_pos, character) in format_string.char_indices()]. *)
Fixpoint step_loop (s rest : list Z) (char_pos : Z) (v : vstate) : M S vstate :=
  match rest with
  | [] => mret v
  | c :: rest => v ← step s char_pos c v; step_loop s rest (char_pos + utf8_len c) v
  end.
Definition print_end (s : list Z) (v : vstate) : M S () :=
  match state v with
  | RawString start => if start <? str_len s then text ← str_slice_from s start; write_str text else mret ()
  | _ => panic
  end.
Definition print_format (s : list Z) (args : list Z) : M S () :=
  v ← step_loop s s 0 (VState (RawString 0) FormatInfo_default args);
  print_end s v.
(** [CStr::from_ptr]. *)
Fixpoint c_str (fuel : nat) (p : Z) : M S (list Z) :=
  match fuel with
  | O => out_of_fuel
  | Datatypes.S fuel =>
      if read_byte mem p =? 0 then mret [] else rest ← c_str fuel (p + 1); mret (read_byte mem p :: rest)
  end.
Definition AcpiOsVprintf (format_string_ptr : Z) (args : list Z) : M S () :=
  bytes ← c_str fuel format_string_ptr;
  format_string ← unwrap (from_utf8 bytes);
  print_format format_string args.
Definition AcpiOsPrintf (format_string_ptr : Z) (args : list Z) : M S () := AcpiOsVprintf format_string_ptr args.
End vprintf.

(** ** Format strings as a grammar

    A piece is literal text, [%%], or a conversion: flags, width, precision and
    type. *)
Inductive piece : Type :=
  | Literal (text : list Z)
  | Percent
  | Conversion (flags width_digits : list Z) (precision_digits : option (list Z)) (specifier : Z).
Definition spelling (p : piece) : list Z :=
  match p with
  | Literal text => text
  | Percent => [37; 37]
  | Conversion flags ws ps c => 37 :: flags ++ ws ++ match ps with Some ds => 46 :: ds | None => [] end ++ [c]
  end.
Definition decimal (n : Z) (ds : list Z) : Z := foldl (λ n c, n * 10 + (c - 48)) n ds.
Definition info_of (flags ws : list Z) (ps : option (list Z)) : FormatInfo :=
  {| right_aligned := if bool_decide (45 ∈ flags) then Some false else None;
     fill_char := if bool_decide (48 ∈ flags) then 48 else 32;
     width := decimal 0 ws;
     precision := decimal 0 <$> ps |}.
Definition piece_ok (p : piece) : Prop :=
  match p with
  | Literal text => 37 ∉ text
  | Percent => True
  | Conversion flags ws ps c =>
      Forall (λ f, f = 45 ∨ f = 48) flags ∧
      Forall (λ d, 48 ≤ d ≤ 57) ws ∧ hd 49 ws ≠ 48 ∧ decimal 0 ws < 2 ^ 64 ∧
      match ps with Some ds => Forall (λ d, 48 ≤ d ≤ 57) ds ∧ decimal 0 ds < 2 ^ 64 | None => True end
  end.
(** The text an integer conversion prints: with a precision the digits are padded
    with zeros to it, and without one the text is padded to the width. *)
Definition int_text (n : Z) (ty : fmt_type) (i : FormatInfo) : option (list Z) :=
  let left := negb (default true (right_aligned i)) in
  match precision i with
  | Some p => if (width i <=? p) && counts_fit p (Some p) then Some (pad left 48 p (format_number ty n)) else None
  | None => if counts_fit (width i) None then Some (pad left (fill_char i) (width i) (format_number ty n)) else None
  end.
Section spec.
Variable mem : memory.
(** The text of a conversion for the argument [a]; [None] where it fails. A string
    argument is printed up to the precision, whether or not it ends before. *)
Definition conversion_text (c : Z) (i : FormatInfo) (a : Z) : option (list Z) :=
  if c =? 99 then if is_scalar (trunc 32 a) then Some [trunc 32 a] else None
  else if c =? 115 then
    let n := if read_byte mem a =? 0 then Some 0 else precision i in
    match n with
    | Some n =>
        match from_utf8 (bytes_at mem a n) with
        | Some s =>
            if counts_fit (width i) (precision i)
            then Some (pad (negb (default true (right_aligned i))) (fill_char i) (width i)
              (match precision i with Some p => take (Z.to_nat p) s | None => s end))
            else None
        | None => None
        end
    | None => None
    end
  else if (c =? 100) || (c =? 105) then int_text (signed32 a) Display i
  else if c =? 117 then int_text (trunc 32 a) Display i
  else if c =? 111 then int_text (trunc 32 a) Octal i
  else if c =? 120 then int_text (trunc 32 a) LowerHex i
  else if c =? 88 then int_text (trunc 32 a) UpperHex i
  else None.
Definition flush (pending : list Z) : list (list Z) := match pending with [] => [] | _ => [pending] end.
(** The pieces of text written for a format; [pending] is literal text that has
    been read and not written. *)
Fixpoint format_texts (ps : list piece) (pending args : list Z) : option (list (list Z)) :=
  match ps with
  | [] => Some (flush pending)
  | Literal text :: ps => format_texts ps (pending ++ text) args
  | Percent :: ps => app (flush pending) <$> format_texts ps [37] args
  | Conversion flags ws pr c :: ps =>
      match args with
      | [] => None
      | a :: args =>
          t ← conversion_text c (info_of flags ws pr) a;
          app (flush pending) ∘ cons t <$> format_texts ps [] args
      end
  end.
(** A string argument is looked at up to its precision. *)
Definition args_fit (fuel : nat) (ps : list piece) : Prop :=
  Forall (λ p, match p with Conversion _ _ (Some ds) _ => decimal 0 ds < Z.of_nat fuel | _ => True end) ps ∧ (0 < fuel)%nat.
End spec.

Section correctness.
Context {S : Type} `{Writer S}.
Variable mem : memory.
Variable fuel : nat.
Implicit Types (st : S) (v : vstate).

(** ** Running the machine *)
Definition finish (s rest : list Z) (pos : Z) v : M S () := v ← step_loop mem fuel s rest pos v; print_end s v.
Lemma finish_cons s c rest pos v st :
  finish s (c :: rest) pos v st = (v ← step mem fuel s pos c v; finish s rest (pos + utf8_len c) v) st.
Proof. unfold finish. cbn [step_loop]. apply bind_assoc. Qed.
(** Reading [l] takes the machine from [v] to [v'], without effect. *)
Definition runs (s l : list Z) (pos : Z) v v' : Prop :=
  ∀ rest st, finish s (l ++ rest) pos v st = finish s rest (pos + str_len l) v' st.
Lemma runs_nil s pos v : runs s [] pos v v.
Proof. intros rest st. by rewrite Z.add_0_r. Qed.
Lemma runs_cons s c l pos v v1 v2 :
  (∀ st, step mem fuel s pos c v st = Returns (v1, st)) → runs s l (pos + utf8_len c) v1 v2 → runs s (c :: l) pos v v2.
Proof.
  intros Hc Hl rest st. cbn [app]. rewrite finish_cons, (bind_step _ _ _ _ _ (Hc st)), Hl.
  cbn [str_len foldr]. fold (str_len l). by rewrite Z.add_assoc.
Qed.
Lemma runs_app s l1 l2 pos v v1 v2 :
  runs s l1 pos v v1 → runs s l2 (pos + str_len l1) v1 v2 → runs s (l1 ++ l2) pos v v2.
Proof. intros H1 H2 rest st. by rewrite <-app_assoc, H1, H2, str_len_app, Z.add_assoc. Qed.
Lemma runs_literal s text pos start i args : 37 ∉ text → runs s text pos (VState (RawString start) i args) (VState (RawString start) i args).
Proof.
  revert pos. induction text as [|c text IH]; intros pos Ht; [apply runs_nil|].
  apply not_elem_of_cons in Ht as [Hc Ht]. eapply runs_cons; [|by apply IH].
  intros st. unfold step, raw_step. cbn [state]. by rewrite (proj2 (Z.eqb_neq c 37)).
Qed.

(** ** Conversions *)
Definition add_flag (i : FormatInfo) (f : Z) : FormatInfo := if f =? 45 then with_left i else with_fill i.
Lemma runs_flags s flags pos x i args :
  Forall (λ f, f = 45 ∨ f = 48) flags → x = FormatStart ∨ x = Flags →
  ∃ x', (x' = FormatStart ∨ x' = Flags) ∧
    runs s flags pos (VState x i args) (VState x' (foldl add_flag i flags) args).
Proof.
  revert pos x i. induction flags as [|f flags IH]; intros pos x i Hf Hx.
  { exists x. split; [done|]. apply runs_nil. }
  apply Forall_cons in Hf as [Hf Hfs]. destruct (IH (pos + utf8_len f) Flags (add_flag i f) Hfs) as (x' & Hx' & Hr); [by right|].
  exists x'. split; [done|]. cbn [foldl]. eapply runs_cons; [|exact Hr]. intros st.
  destruct Hf as [-> | ->], Hx as [-> | ->]; done.
Qed.
Lemma foldl_add_flag flags r fl w p : Forall (λ f, f = 45 ∨ f = 48) flags →
  foldl add_flag {| right_aligned := r; fill_char := fl; width := w; precision := p |} flags =
  {| right_aligned := if bool_decide (45 ∈ flags) then Some false else r;
     fill_char := if bool_decide (48 ∈ flags) then 48 else fl; width := w; precision := p |}.
Proof.
  revert r fl. induction flags as [|f flags IH]; intros r fl; [done|]. intros [Hf Hfs]%Forall_cons.
  destruct Hf as [-> | ->]; cbn [foldl]; unfold add_flag at 2; cbn; unfold with_left, with_fill; cbn; rewrite IH by done; f_equal;
    repeat case_bool_decide; rewrite ?elem_of_cons in *; naive_solver.
Qed.
Lemma decimal_ge ds n : 0 ≤ n → Forall (λ d, 48 ≤ d ≤ 57) ds → n ≤ decimal n ds.
Proof.
  revert n. induction ds as [|d ds IH]; intros n Hn; [cbn; lia|]. intros [Hd Hds]%Forall_cons. cbn.
  specialize (IH (n * 10 + (d - 48)) ltac:(lia) Hds). unfold decimal in IH. lia.
Qed.
Lemma push_digit_run n d ds st : 0 ≤ n → 48 ≤ d ≤ 57 → Forall (λ d, 48 ≤ d ≤ 57) ds → decimal n (d :: ds) < 2 ^ 64 →
  push_digit (S:=S) n d st = Returns (n * 10 + (d - 48), st).
Proof.
  intros Hn Hd Hds Hb. pose proof (decimal_ge ds (n * 10 + (d - 48)) ltac:(lia) Hds) as Hge. cbn in Hb.
  unfold decimal in Hge. unfold push_digit, mbind, M_bind, chk, fits.
  rewrite !(proj2 (Z.leb_le 0 _)), !(proj2 (Z.ltb_lt _ _)) by lia. cbn.
  by rewrite !(proj2 (Z.leb_le 0 _)), !(proj2 (Z.ltb_lt _ _)) by lia.
Qed.
Lemma digit_is_digit d : 48 ≤ d ≤ 57 → is_digit d = true.
Proof. intros Hd. apply andb_true_iff. split; apply Z.leb_le; lia. Qed.
Lemma runs_width_digits s ds pos i args : Forall (λ d, 48 ≤ d ≤ 57) ds → 0 ≤ width i → decimal (width i) ds < 2 ^ 64 →
  runs s ds pos (VState Width i args) (VState Width (with_width (decimal (width i) ds) i) args).
Proof.
  revert pos i. induction ds as [|d ds IH]; intros pos i; [intros; destruct i; apply runs_nil|].
  intros [Hd Hds]%Forall_cons Hw Hb. eapply runs_cons; [|apply (IH _ (with_width (width i * 10 + (d - 48)) i))]; [|done|cbn; lia|done].
  intros st. unfold step, width_step, width_digit. cbn [state format_info va]. rewrite digit_is_digit by done.
  by rewrite (bind_step _ _ _ _ _ (push_digit_run (width i) d ds st Hw Hd Hds Hb)).
Qed.
Lemma runs_precision_digits s ds pos i p args : Forall (λ d, 48 ≤ d ≤ 57) ds → precision i = Some p → 0 ≤ p → decimal p ds < 2 ^ 64 →
  runs s ds pos (VState Precision i args) (VState Precision (with_precision (decimal p ds) i) args).
Proof.
  revert pos i p. induction ds as [|d ds IH]; intros pos i p; [intros _ E _ _; destruct i; cbn in E; subst; apply runs_nil|].
  intros [Hd Hds]%Forall_cons Ei Hp Hb.
  eapply runs_cons; [|apply (IH _ (with_precision (p * 10 + (d - 48)) i) (p * 10 + (d - 48)))]; [|done|done|lia|done].
  intros st. unfold step, precision_step. cbn [state format_info va]. rewrite digit_is_digit, Ei by done.
  by rewrite (bind_step _ _ _ _ _ eq_refl), (bind_step _ _ _ _ _ (push_digit_run p d ds st Hp Hd Hds Hb)).
Qed.
Lemma runs_width s ws pos x i args :
  x = FormatStart ∨ x = Flags → Forall (λ d, 48 ≤ d ≤ 57) ws → hd 49 ws ≠ 48 → decimal 0 ws < 2 ^ 64 → width i = 0 →
  ∃ x', (x' = FormatStart ∨ x' = Flags ∨ x' = Width) ∧
    runs s ws pos (VState x i args) (VState x' (with_width (decimal 0 ws) i) args).
Proof.
  intros Hx Hd H0 Hb Hw. destruct ws as [|d ws].
  { exists x. split; [tauto|]. destruct i; cbn in Hw; subst. apply runs_nil. }
  apply Forall_cons in Hd as [Hd Hds]. cbn in H0. exists Width. split; [tauto|].
  eapply runs_cons; [|apply (runs_width_digits s ws _ (with_width (0 * 10 + (d - 48)) i))]; [|done|cbn; lia|done].
  intros st. assert (is_nonzero_digit d = true) as Hn by (apply andb_true_iff; split; apply Z.leb_le; lia).
  destruct Hx as [-> | ->]; unfold step, format_start_step, flags_step, width_digit; cbn [state format_info va];
    rewrite (proj2 (Z.eqb_neq d 45)), (proj2 (Z.eqb_neq d 48)), Hn, Hw by lia;
    by rewrite (bind_step _ _ _ _ _ (push_digit_run 0 d ws st ltac:(lia) Hd Hds Hb)).
Qed.
Definition in_specifier (x : State) : Prop := match x with RawString _ => False | _ => True end.
Lemma runs_precision s pr pos x i args :
  x = FormatStart ∨ x = Flags ∨ x = Width → precision i = None →
  match pr with Some ds => Forall (λ d, 48 ≤ d ≤ 57) ds ∧ decimal 0 ds < 2 ^ 64 | None => True end →
  ∃ x', in_specifier x' ∧ runs s (match pr with Some ds => 46 :: ds | None => [] end) pos (VState x i args)
    (VState x' {| right_aligned := right_aligned i; fill_char := fill_char i; width := width i; precision := decimal 0 <$> pr |} args).
Proof.
  intros Hx Hi Hpr. destruct pr as [ds|].
  2:{ exists x. split; [by destruct Hx as [-> |[-> | ->]]|]. destruct i; cbn in *; subst. apply runs_nil. }
  destruct Hpr as [Hds Hb]. exists Precision. split; [done|].
  eapply runs_cons; [|by apply (runs_precision_digits s ds _ (with_precision 0 i) 0)].
  intros st. by destruct Hx as [-> |[-> | ->]].
Qed.
Lemma runs_conversion s flags ws pr c pos args :
  piece_ok (Conversion flags ws pr c) →
  ∃ x, in_specifier x ∧ runs s (flags ++ ws ++ match pr with Some ds => 46 :: ds | None => [] end) pos
    (VState FormatStart FormatInfo_default args) (VState x (info_of flags ws pr) args).
Proof.
  intros (Hf & Hws & H0 & Hb & Hpr). destruct (runs_flags s flags pos FormatStart FormatInfo_default args) as (x1 & Hx1 & R1); [done|by left|].
  unfold FormatInfo_default in R1. rewrite foldl_add_flag in R1 by done.
  edestruct (runs_width s ws) as (x2 & Hx2 & R2); [exact Hx1|done..| |]; [|].
  2:{ edestruct (runs_precision s pr) as (x3 & Hx3 & R3); [exact Hx2| |exact Hpr|].
      2:{ exists x3. split; [done|]. eapply runs_app; [exact R1|]. eapply runs_app; [exact R2|exact R3]. }
      done. }
  done.
Qed.
Lemma step_specifier s pos c x i args : in_specifier x → is_specifier c = true →
  step mem fuel s pos c (VState x i args) = finish_specifier mem fuel pos c (VState x i args).
Proof.
  intros Hx Hc. unfold is_specifier in Hc. apply bool_decide_eq_true in Hc.
  repeat (apply elem_of_cons in Hc as [-> |Hc]; [by destruct x|]). by apply elem_of_nil in Hc.
Qed.

(** ** Printing an argument *)
Lemma print_int_text n ty i t st : int_text n ty i = Some t → fill_char i = 32 ∨ fill_char i = 48 →
  print_int n ty i st = write_str t st.
Proof.
  unfold int_text, print_int, write_formatted_with_type. intros Ht Hf. destruct (precision i) as [p|].
  - destruct (width i <=? p); [|done]. cbn [andb] in Ht. cbn [Z.eqb Pos.eqb orb]. destruct (counts_fit p (Some p)); [|done].
    by injection Ht as <-.
  - destruct (counts_fit (width i) None); [|done]. injection Ht as <-. by destruct Hf as [-> | ->].
Qed.
Lemma string_len_loop_limit f limit n st : 0 ≤ n ≤ limit → limit - n < Z.of_nat f → limit < 2 ^ 64 →
  ∀ byte, byte ≠ 0 → string_len_loop (S:=S) f (Some limit) byte n st = Returns (limit, st).
Proof.
  revert n. induction f as [|f IH]; intros n Hn Hf Hl byte Hb; [lia|]. cbn [string_len_loop].
  destruct (Z.ltb_spec n limit); cbn [negb].
  - rewrite (proj2 (Z.eqb_neq byte 0)) by done. rewrite bind_chk by lia. apply IH; lia.
  - assert (n = limit) as -> by lia. done.
Qed.
Lemma string_len_run i a st n : (0 < fuel)%nat → match precision i with Some p => 0 ≤ p < Z.of_nat fuel ∧ p < 2 ^ 64 | None => True end →
  (if read_byte mem a =? 0 then Some 0 else precision i) = Some n →
  string_len_loop (S:=S) fuel (precision i) (read_byte mem a) 0 st = Returns (n, st).
Proof.
  intros Hfuel Hp En. destruct (Z.eqb_spec (read_byte mem a) 0) as [E|E].
  - injection En as <-. destruct fuel as [|f]; [lia|]. cbn [string_len_loop]. rewrite E.
    destruct (precision i) as [p|]; [|done]. by destruct (negb (0 <? p)).
  - rewrite En in Hp |- *. apply string_len_loop_limit; [lia|lia|lia|done].
Qed.
Lemma print_type_text c i a args t st :
  (0 < fuel)%nat → match precision i with Some p => 0 ≤ p < Z.of_nat fuel ∧ p < 2 ^ 64 | None => True end →
  fill_char i = 32 ∨ fill_char i = 48 → conversion_text mem c i a = Some t →
  print_type mem fuel c i (a :: args) st = (write_str t;; mret args) st.
Proof.
  intros Hfuel Hp Hf Ht. unfold conversion_text in Ht. unfold print_type.
  assert (∀ n ty, int_text n ty i = Some t → (print_int n ty i;; mret args) st = (write_str t;; mret args) st) as Hint.
  { intros n ty E. apply bind_ext; [by apply print_int_text|done]. }
  destruct (c =? 99).
  { unfold print_c, next_arg, deref. rewrite (bind_step _ _ _ _ _ eq_refl). destruct (is_scalar _); [|done]. by injection Ht as <-. }
  destruct (c =? 115).
  { unfold print_s, next_arg, deref. rewrite (bind_step _ _ _ _ _ eq_refl).
    destruct (if read_byte mem a =? 0 then _ else _) as [n|] eqn:En; [|done].
    rewrite (bind_step _ _ _ _ _ (string_len_run i a st n Hfuel Hp En)).
    destruct (from_utf8 _) as [s|]; [|done].
    destruct (counts_fit (width i) (precision i)) eqn:Efit; [|done]. injection Ht as <-. rewrite (bind_step _ _ _ _ _ eq_refl).
    unfold write_formatted, write_formatted_with_type. rewrite Efit. by destruct Hf as [-> | ->]. }
  unfold print_d, print_u, print_o, print_x, print_X, next_arg, deref.
  repeat match type of Ht with (if ?b then _ else _) = _ => destruct b;
    [rewrite (bind_step _ _ _ _ _ eq_refl); by apply Hint|] end. done.
Qed.
Lemma conversion_is_specifier c i a t : conversion_text mem c i a = Some t → is_specifier c = true.
Proof.
  unfold conversion_text. intros Ht. apply bool_decide_eq_true_2.
  repeat match type of Ht with (if ?b then _ else _) = _ => destruct b eqn:?E;
    [rewrite ?orb_true_iff, ?Z.eqb_eq in E; rewrite ?elem_of_cons; naive_solver|clear E] end. done.
Qed.

(** ** The whole format string *)
Lemma step_percent s pre pending rest i args (k : vstate → M S ()) st :
  s = pre ++ pending ++ 37 :: rest → str_len s < 2 ^ 64 →
  (v ← step mem fuel s (str_len (pre ++ pending)) 37 (VState (RawString (str_len pre)) i args); k v) st =
  (for_each write_str (flush pending);; k (VState FormatStart FormatInfo_default args)) st.
Proof.
  intros -> Hlen. rewrite !str_len_app in *. pose proof (str_len_nonneg pre). pose proof (str_len_nonneg pending).
  pose proof (str_len_nonneg (37 :: rest)). unfold step, raw_step. cbn [state]. change (37 =? 37) with true. cbv iota.
  rewrite bind_assoc. rewrite bind_chk by lia.
  destruct pending as [|c pending].
  { cbn. rewrite (proj2 (Z.ltb_ge _ _)) by lia. done. }
  pose proof (str_len_pos c pending). rewrite (proj2 (Z.ltb_lt _ _)) by lia. rewrite <-str_len_app. cbn [flush for_each foldr].
  rewrite !bind_assoc. rewrite (bind_step _ _ _ _ _ (str_slice_app pre (c :: pending) (37 :: rest) st)).
  apply bind_ext; [done|]. by intros [].
Qed.
Lemma finish_conversion s flags ws pr c rest pos a args t st :
  piece_ok (Conversion flags ws pr c) → conversion_text mem c (info_of flags ws pr) a = Some t →
  args_fit fuel [Conversion flags ws pr c] →
  let l := flags ++ ws ++ match pr with Some ds => 46 :: ds | None => [] end ++ [c] in
  0 ≤ pos → pos + str_len l < 2 ^ 64 →
  finish s (l ++ rest) pos (VState FormatStart FormatInfo_default (a :: args)) st =
  (write_str t;; finish s rest (pos + str_len l) (VState (RawString (pos + str_len l)) FormatInfo_default args)) st.
Proof.
  intros Hok Ht [Hfit Hfuel] l Hpos Hlen. destruct (runs_conversion s flags ws pr c pos (a :: args) Hok) as (x & Hx & R).
  set (l0 := flags ++ ws ++ match pr with Some ds => 46 :: ds | None => [] end) in R.
  assert (l = l0 ++ [c]) as El by (unfold l, l0; by rewrite <-!app_assoc). rewrite El in *. clear El l.
  rewrite str_len_app, <-app_assoc in *. pose proof (conversion_is_specifier _ _ _ _ Ht) as Hc.
  assert (utf8_len c = 1) as E1.
  { clear - Hc. unfold is_specifier in Hc. apply bool_decide_eq_true in Hc.
    repeat (apply elem_of_cons in Hc as [-> |Hc]; [done|]). by apply elem_of_nil in Hc. }
  assert (str_len [c] = 1) as E2 by (cbn; lia). rewrite E2 in *. rewrite R. cbn [app]. rewrite finish_cons, step_specifier by done.
  pose proof (str_len_nonneg l0). rewrite E1. unfold finish_specifier. cbn [format_info va]. rewrite bind_assoc.
  erewrite bind_ext; [|apply (print_type_text _ _ a args t)|done].
  - rewrite bind_assoc. apply bind_ext; [done|]. intros [] st'. rewrite (bind_step _ _ _ _ _ eq_refl).
    rewrite bind_assoc. unfold chk. rewrite (proj2 (fits_spec 64 _)) by lia. by rewrite Z.add_assoc.
  - done.
  - cbn. apply Forall_cons in Hfit as [Hfit _]. destruct Hok as (_ & _ & _ & _ & Hpr). destruct pr as [ds|]; cbn in Hfit |- *; [|done].
    destruct Hpr as [Hds Hb]. pose proof (decimal_ge ds 0 ltac:(lia) Hds). lia.
  - unfold info_of. cbn. case_bool_decide; tauto.
  - done.
Qed.
Lemma finish_pieces ps s pre pending args texts st :
  Forall piece_ok ps → args_fit fuel ps → s = pre ++ pending ++ (ps ≫= spelling) → str_len s < 2 ^ 64 →
  format_texts mem ps pending args = Some texts →
  finish s (ps ≫= spelling) (str_len (pre ++ pending)) (VState (RawString (str_len pre)) FormatInfo_default args) st =
  for_each write_str texts st.
Proof.
  revert pre pending args texts st. induction ps as [|p ps IH]; intros pre pending args texts st.
  { intros _ _ -> Hlen [= <-]. cbn [mbind list_bind]. rewrite app_nil_r. unfold finish, print_end. cbn [step_loop].
    rewrite (bind_step _ _ _ _ _ eq_refl). cbn [state]. rewrite str_len_app. destruct pending as [|c pending].
    - by rewrite (proj2 (Z.ltb_ge _ _)) by (cbn; lia).
    - pose proof (str_len_pos c pending). rewrite (proj2 (Z.ltb_lt _ _)) by lia.
      rewrite (bind_step _ _ _ _ _ (str_slice_from_app pre (c :: pending) st)). cbn. unfold mbind, M_bind.
      by destruct (write_str _ st) as [[[] ?]| | |]. }
  intros [Hp Hps]%Forall_cons [[Hf Hfs]%Forall_cons Hfuel] Hs Hlen Ht. cbn [mbind list_bind] in *.
  destruct p as [text| |flags ws pr c]; cbn [spelling format_texts] in *.
  - rewrite (runs_literal s text _ _ _ _ Hp), <-str_len_app, <-app_assoc. apply IH; [done|by split| |done|done].
    by rewrite Hs, !app_assoc.
  - cbn [app] in *. rewrite finish_cons. rewrite (step_percent s pre pending (37 :: ps ≫= spelling)) by done.
    apply fmap_Some in Ht as (texts' & Ht & ->). rewrite for_each_app. apply bind_ext; [done|]. intros [] st'.
    rewrite finish_cons. unfold step. cbn [state]. rewrite (bind_step _ _ _ _ _ eq_refl). cbn [va].
    replace (str_len (pre ++ pending) + utf8_len 37) with (str_len (pre ++ pending ++ [37])) by (by rewrite app_assoc, (str_len_app (pre ++ pending))).
    replace (str_len (pre ++ pending ++ [37]) + utf8_len 37) with (str_len ((pre ++ pending ++ [37]) ++ [37])) by (by rewrite (str_len_app (_ ++ _ ++ _))).
    apply IH; [done|by split| |done|done]. by rewrite Hs, <-!app_assoc.
  - destruct args as [|a args]; [done|]. apply bind_Some in Ht as (t & Ht & Hrest).
    apply fmap_Some in Hrest as (texts' & Hrest & ->).
    set (l := flags ++ ws ++ match pr with Some ds => 46 :: ds | None => [] end ++ [c]) in *.
    cbn [app] in *. rewrite finish_cons. rewrite (step_percent s pre pending (l ++ ps ≫= spelling)) by done.
    cbn [compose]. rewrite for_each_app. apply bind_ext; [done|]. intros [] st'.
    assert (str_len s = str_len (pre ++ pending ++ [37]) + str_len l + str_len (ps ≫= spelling)) as El.
    { rewrite Hs, !str_len_app. cbn [str_len foldr]. fold (str_len (l ++ ps ≫= spelling)). rewrite str_len_app. lia. }
    pose proof (str_len_nonneg (ps ≫= spelling)). pose proof (str_len_nonneg (pre ++ pending ++ [37])).
    replace (str_len (pre ++ pending) + utf8_len 37) with (str_len (pre ++ pending ++ [37])) by (by rewrite app_assoc, (str_len_app (pre ++ pending))).
    unfold l. rewrite (finish_conversion s flags ws pr c _ _ a args t); [|done|done|by split; [by apply Forall_singleton|]|done|fold l; lia].
    cbn [for_each foldr]. apply bind_ext; [done|]. intros [] st2. fold l. rewrite <-str_len_app.
    specialize (IH ((pre ++ pending ++ [37]) ++ l) [] args texts' st2). rewrite app_nil_r in IH.
    apply IH; [done|by split| |done|done]. cbn [app]. by rewrite Hs, <-!app_assoc.
Qed.
End correctness.

(** ** The properties *)
Definition holds_c_str (mem : memory) (p : Z) (bytes : list Z) : Prop :=
  Forall (λ b, b ≠ 0) bytes ∧ ∀ i b, (bytes ++ [0]) !! i = Some b → read_byte mem (p + Z.of_nat i) = b.
Section properties.
Context {S : Type} `{Writer S}.
Implicit Types st : S.
Lemma c_str_run mem fuel p bytes st : holds_c_str mem p bytes → (length bytes < fuel)%nat →
  c_str (S:=S) mem fuel p st = Returns (bytes, st).
Proof.
  revert p fuel. induction bytes as [|b bytes IH]; intros p fuel [Hne Hm] Hf;
    (destruct fuel as [|fuel]; [cbn in Hf; lia|]); cbn [c_str]; pose proof (Hm O _ eq_refl) as H0; rewrite Z.add_0_r in H0.
  - by rewrite H0.
  - apply Forall_cons in Hne as [Hb Hne]. rewrite H0, (proj2 (Z.eqb_neq b 0)) by done.
    rewrite (bind_step _ _ _ _ _ (IH (p + 1) fuel ltac:(split; [done|]; intros i x Hi; rewrite <-(Hm (Datatypes.S i) x Hi); f_equal; lia) ltac:(cbn in Hf; lia))).
    done.
Qed.
Lemma vprintf_run (mem : memory) fuel p ps args texts st :
  let s := ps ≫= spelling in
  Forall piece_ok ps → forallb is_scalar s = true → holds_c_str mem p (str_bytes s) →
  (length (str_bytes s) < fuel)%nat → args_fit fuel ps → str_len s < 2 ^ 64 →
  format_texts mem ps [] args = Some texts →
  AcpiOsVprintf mem fuel p args st = for_each write_str texts st.
Proof.
  intros s Hps Hsc Hm Hf Hfit Hlen Ht. unfold AcpiOsVprintf. rewrite (bind_step _ _ _ _ _ (c_str_run mem fuel p _ st Hm Hf)).
  rewrite from_utf8_bytes by done. rewrite (bind_step _ _ _ _ _ eq_refl).
  exact (finish_pieces mem fuel ps s [] [] args texts st Hps Hfit eq_refl Hlen Ht).
Qed.
(** C24: [AcpiOsVprintf] implements the format language: for a format string
    that is a sequence of literal text, [%%] and conversions (flags [-] and [0],
    width, precision, one of the types c, s, d, i, u, o, x and X), with an
    argument for each conversion, it writes to the logger exactly the text of
    each piece, in order, whatever the logger does. A conversion has a text when
    its argument is of its type and its width and precision are within what it
    and the Rust library accept: the width of a number is at most its precision,
    and both have sixteen bits. *)
Theorem AcpiOsVprintf_correct (mem : memory) fuel p ps args texts st :
  let s := ps ≫= spelling in
  Forall piece_ok ps → forallb is_scalar s = true → holds_c_str mem p (str_bytes s) →
  (length (str_bytes s) < fuel)%nat → args_fit fuel ps → str_len s < 2 ^ 64 →
  format_texts mem ps [] args = Some texts →
  AcpiOsVprintf mem fuel p args st = for_each write_str texts st.
Proof. apply vprintf_run. Qed.
Lemma bind_out_of_fuel {A B} (m : M S A) (f : A → M S B) st : m st = OutOfFuel → (m ≫= f) st = OutOfFuel.
Proof. intros E. unfold mbind, M_bind. by rewrite E. Qed.
Lemma string_len_loop_hangs f byte n st : byte ≠ 0 → 0 ≤ n → n + Z.of_nat f < 2 ^ 64 →
  string_len_loop (S:=S) f None byte n st = OutOfFuel.
Proof.
  revert n. induction f as [|f IH]; intros n Hb Hn Hf; [done|]. cbn [string_len_loop].
  rewrite (proj2 (Z.eqb_neq byte 0)) by done. rewrite bind_chk by lia. apply IH; lia.
Qed.
(** [%s] does not terminate in practice: the loop that measures the argument
    never moves the pointer, so for a string that is not empty it makes [2 ^ 64]
    iterations, until the counter overflows. *)
Theorem string_conversion_hangs (mem : memory) fuel a args st :
  read_byte mem a ≠ 0 → Z.of_nat fuel < 2 ^ 64 → print_format mem fuel [37; 115] (a :: args) st = OutOfFuel.
Proof.
  intros Ha Hf.
  change (finish mem fuel [37; 115] [37; 115] (str_len [] + str_len []) (VState (RawString (str_len [])) FormatInfo_default (a :: args)) st = OutOfFuel).
  rewrite finish_cons, (step_percent mem fuel _ [] [] [115]) by done.
  rewrite (bind_step _ _ _ _ _ eq_refl), finish_cons, step_specifier by done.
  unfold finish_specifier. rewrite bind_assoc. apply bind_out_of_fuel. cbn [format_info va].
  unfold print_type. cbn [Z.eqb Pos.eqb]. unfold print_s, next_arg, deref. rewrite (bind_step _ _ _ _ _ eq_refl).
  apply bind_out_of_fuel, string_len_loop_hangs; [done|done|lia].
Qed.
End properties.

(** ** A logger that collects the pieces *)
#[local] Instance collector : Writer (list (list Z)) := λ text, modify (λ out, out ++ [text]).
(** "a%-4d%%%4.4s" *)
Definition demo_pieces : list piece :=
  [Literal [97]; Conversion [45] [52] None 100; Percent; Conversion [] [52] (Some [52]) 115].
(** The format string at 1000 and "APIC" at 2000. *)
Definition demo_mem : memory := λ x,
  if x <? 2000 then default 0 (str_bytes (demo_pieces ≫= spelling) !! Z.to_nat (x - 1000))
  else default 0 ([65; 80; 73; 67] !! Z.to_nat (x - 2000)).
Definition demo_args : list Z := [42; 2000].
Definition demo_texts : list (list Z) := [[97]; [52; 50; 32; 32]; [37]; [65; 80; 73; 67]].
Lemma demo_pieces_ok : Forall piece_ok demo_pieces.
Proof.
  unfold demo_pieces. repeat (apply Forall_cons; split; [cbn|]); [..|by apply Forall_nil].
  - by apply (bool_decide_unpack _).
  - split; [apply Forall_singleton; by left|]. split; [apply Forall_singleton; lia|done].
  - done.
  - split; [by apply Forall_nil|]. split; [apply Forall_singleton; lia|].
    split; [done|]. split; [done|]. split; [apply Forall_singleton; lia|done].
Qed.
Lemma demo_holds : holds_c_str demo_mem 1000 (str_bytes (demo_pieces ≫= spelling)).
Proof.
  split; [by apply (bool_decide_unpack _)|]. intros i b Hi.
  do 13 (destruct i as [|i]; [injection Hi as <-; reflexivity|]). done.
Qed.
Lemma demo_fit : args_fit 20 demo_pieces.
Proof. split; [|lia]. unfold demo_pieces. repeat (apply Forall_cons; split; [vm_compute; done|]). by apply Forall_nil. Qed.
Lemma AcpiOsVprintf_correct_witness : AcpiOsVprintf demo_mem 20 1000 demo_args [] = Returns ((), demo_texts).
Proof.
  rewrite (AcpiOsVprintf_correct demo_mem 20 1000 demo_pieces demo_args demo_texts);
    [reflexivity|exact demo_pieces_ok|reflexivity|exact demo_holds|vm_compute; lia|exact demo_fit|vm_compute; done|vm_compute; reflexivity].
Defined.
Lemma string_conversion_hangs_witness : print_format demo_mem 1000 [37; 115] [2000] [] = OutOfFuel.
Proof. apply string_conversion_hangs; [vm_compute; discriminate|done]. Defined.
