(* ===== verification/Acpi.v ===== *)
(** * ACPI (kernel/src/platform/acpi)

    The status codes shared with ACPICA (acpica_sys.rs), their translation into the
    kernel's errors and the iterator over the interrupt description table (mod.rs),
    and the services the kernel gives to ACPICA (acpica_os_layer.rs; printing is in
    Printf.v). ACPICA itself is C code outside the repository: its entry points are
    the class [Acpica]. *)
From S2P Require Import Prelude Paging Text Ports Terminal Logging Printf Heap.

(** ** Status codes *)
Module acpica_sys.
Inductive Code : Type := Environment | Programmer | AcpiTables | Aml | Control.
Definition Code_u8 (c : Code) : Z :=
  match c with Environment => 0 | Programmer => 1 | AcpiTables => 2 | Aml => 3 | Control => 4 end.
(** The bit field [Status]. *)
Definition exception (status : Z) : Z := get_bits status 11 0.
Definition code (status : Z) : Z := get_bits status 15 12.
(** [exception as u32 & 0xFFF | (code as u32 & 0xF << 12)], where the shift binds
    tighter than the mask. *)
Definition Status_new (c : Code) (exception : Z) : Z :=
  Z.lor (Z.land exception 0xFFF) (Z.land (Code_u8 c) (Z.shiftl 0xF 12)).
Definition OK : Z := 0.
Definition NO_MEMORY : Z := Status_new Environment 0x4.
Definition TIME : Z := Status_new Environment 0x11.
Definition BAD_PARAMETER : Z := Status_new Programmer 0x1.
Inductive Boolean : Type := False_ | True_.
Definition Boolean_from_bool (b : bool) : Boolean := if b then True_ else False_.
Definition bool_from_Boolean (b : Boolean) : bool := match b with False_ => false | True_ => true end.
End acpica_sys.
Inductive AcpiErrorCode : Type := Environment | Programmer | AcpiTable | Aml | Control | Unknown.
Record AcpiError : Type := { code : AcpiErrorCode; exception : Z }.
Definition AcpiErrorCode_from (val : Z) : AcpiErrorCode :=
  if val =? 0 then Environment else if val =? 1 then Programmer else if val =? 2 then AcpiTable
  else if val =? 3 then Aml else if val =? 4 then Control else Unknown.
Definition Result_from_status (status : Z) : result () AcpiError :=
  let c := AcpiErrorCode_from (acpica_sys.code status) in
  let e := acpica_sys.exception status in
  match c with
  | Environment => if e =? 0 then Ok () else Err {| code := c; exception := e |}
  | _ => Err {| code := c; exception := e |}
  end.

(** ** The interrupt description table *)
Module table.
Inductive MadtEntry : Type :=
  | LocalApic (acpi_processor_id apic_id flags : Z)
  | IoApic (io_apic_id io_apic_address global_system_interrupt_base : Z)
  | InterruptSourceOverride (bus_source irq_source global_system_interrupt flags : Z)
  | Nmi (acpi_processor_id flags lint : Z)
  | LocalApicAddressOverride (address : Z).
(** [size_of::<Madt>()], and the offsets of its fields. *)
Definition size_of_Madt : Z := 44.
Definition length_offset : Z := 4.
Definition bsp_local_apic_address_offset : Z := 36.
Definition SIGNATURE : list Z := [65; 80; 73; 67].
Definition LOCAL_APIC : Z := 0.
Definition IO_APIC : Z := 1.
Definition INTERRUPT_SOURCE_OVERRIDE : Z := 2.
Definition NMI : Z := 4.
Definition LOCAL_APIC_ADDRESS_OVERRIDE : Z := 5.
Record MadtEntryIterator : Type := { current_header : Z; end_address : Z }.
Section iterator.
Variable mem : memory.
Definition read16 (a : Z) : Z := read_le mem a 2.
Definition read32 (a : Z) : Z := read_le mem a 4.
(** The packed structures behind a header: the bytes follow one another. *)
Definition LocalApicEntry (h : Z) : MadtEntry := LocalApic (read_byte mem (h + 2)) (read_byte mem (h + 3)) (read32 (h + 4)).
Definition IoApicEntry (h : Z) : MadtEntry := IoApic (read_byte mem (h + 2)) (read32 (h + 4)) (read32 (h + 8)).
Definition InterruptSourceOverrideEntry (h : Z) : MadtEntry :=
  InterruptSourceOverride (read_byte mem (h + 2)) (read_byte mem (h + 3)) (read32 (h + 4)) (read16 (h + 8)).
Definition LocalApicNmiEntry (h : Z) : MadtEntry := Nmi (read_byte mem (h + 2)) (read16 (h + 3)) (read_byte mem (h + 5)).
Definition LocalApicAddressOverrideEntry (h : Z) : MadtEntry := LocalApicAddressOverride (read64 mem (h + 4)).
(** [None] for a type the kernel does not know. *)
Definition entry_at (h : Z) : option MadtEntry :=
  let ty := read_byte mem h in
  if ty =? LOCAL_APIC then Some (LocalApicEntry h)
  else if ty =? IO_APIC then Some (IoApicEntry h)
  else if ty =? INTERRUPT_SOURCE_OVERRIDE then Some (InterruptSourceOverrideEntry h)
  else if ty =? NMI then Some (LocalApicNmiEntry h)
  else if ty =? LOCAL_APIC_ADDRESS_OVERRIDE then Some (LocalApicAddressOverrideEntry h)
  else None.
(** [Madt::entry_iter]. *)
Definition entry_iter {S} (madt : Z) : M S MadtEntryIterator :=
  current ← chk 64 (madt + size_of_Madt);
  e ← chk 64 (madt + read32 (madt + length_offset));
  e ← chk 64 (e - 1);
  mret {| current_header := current; end_address := e |}.
(** [MadtEntryIterator::next]: the types it reports to the logger as unknown, in
    order, and the entry. *)
Fixpoint next (fuel : nat) : M MadtEntryIterator (list Z * option MadtEntry) :=
  match fuel with
  | O => out_of_fuel
  | Datatypes.S fuel =>
      it ← get;
      if end_address it <=? current_header it then mret ([], None)
      else
        let header := current_header it in
        let header_length := read_byte mem (header + 1) in
        bumped ← chk 64 (header + header_length);
        modify (λ it, {| current_header := bumped; end_address := end_address it |});;
        match entry_at header with
        | Some e => mret ([], Some e)
        | None =>
            '(unknown, e) ← next fuel;
            mret (read_byte mem header :: unknown, e)
        end
  end.
(** [for entry in madt.entry_iter()]: what the iterator reports, and the entries it
    gives, in order. *)
Inductive item : Type := Reported (entry_type : Z) | Given (e : MadtEntry).
Fixpoint collect (fuel : nat) : M MadtEntryIterator (list item) :=
  match fuel with
  | O => out_of_fuel
  | Datatypes.S fuel' =>
      '(unknown, e) ← next fuel;
      match e with
      | Some e => rest ← collect fuel'; mret ((Reported <$> unknown) ++ Given e :: rest)
      | None => mret (Reported <$> unknown)
      end
  end.
Definition items {S} (fuel : nat) (madt : Z) : M S (list item) :=
  it ← entry_iter madt;
  zoom (λ _, it) (λ _ s, s) (collect fuel).
Definition given (i : item) : option MadtEntry := match i with Given e => Some e | Reported _ => None end.
Definition entries {S} (fuel : nat) (madt : Z) : M S (list MadtEntry) :=
  l ← items fuel madt; mret (omap given l).
End iterator.
End table.

(** ** ACPICA *)
Class Acpica (S : Type) : Type := {
  subsystem_initialise : M S Z;
  table_manager_initialise : Z → acpica_sys.Boolean → M S Z;
  table_manager_get_table : list Z → Z → M S (Z * Z);
}.
(** What the kernel keeps for ACPICA: the address of the root table, the mutexes
    it has handed out, by address, and the heap they are on. *)
Record os (S : Type) : Type := { RSDP_ADDRESS : Z; mutexes : gmap Z bool; os_heap : heap S }.
Arguments RSDP_ADDRESS {S} _.
Arguments mutexes {S} _.
Arguments os_heap {S} _.
Section os_layer.
Context {S : Type} `{HeapMemory S}.
Definition set_mutexes (m : gmap Z bool) (s : os S) : os S :=
  {| RSDP_ADDRESS := RSDP_ADDRESS s; mutexes := m; os_heap := os_heap s |}.
Definition on_heap {A} (m : M (heap S) A) : M (os S) A :=
  zoom os_heap (λ h s, {| RSDP_ADDRESS := RSDP_ADDRESS s; mutexes := mutexes s; os_heap := h |}) m.
(** [init_subsystem] and the tables. *)
Definition init_subsystem `{Acpica (os S)} (acpi_ptr : option Z) : M (os S) (result () AcpiError) :=
  match acpi_ptr with
  | Some p => modify (λ s, {| RSDP_ADDRESS := p; mutexes := mutexes s; os_heap := os_heap s |})
  | None => mret ()
  end;;
  status ← subsystem_initialise;
  mret (Result_from_status status).
Definition init_manager `{Acpica (os S)} : M (os S) (result () AcpiError) :=
  status ← table_manager_initialise 16 (acpica_sys.Boolean_from_bool false);
  mret (Result_from_status status).
Definition get_table `{Acpica (os S)} (signature : list Z) : M (os S) (result Z AcpiError) :=
  '(status, table) ← table_manager_get_table signature 1;
  mret match Result_from_status status with Ok _ => Ok table | Err e => Err e end.

(** *** Environment and memory *)
Definition AcpiOsInitialize : M (os S) Z := mret acpica_sys.OK.
Definition AcpiOsTerminate : M (os S) Z := mret acpica_sys.OK.
Definition AcpiOsGetRootPointer : M (os S) Z := gets RSDP_ADDRESS.
(** The overrides give the status and the value written through the pointer. *)
Definition AcpiOsPredefinedOverride (predefined_object : Z) : M (os S) (Z * option Z) := mret (acpica_sys.OK, None).
Definition AcpiOsTableOverride (existing_table : Z) : M (os S) (Z * option Z) := mret (acpica_sys.OK, None).
Definition AcpiOsPhysicalTableOverride (existing_table new_length : Z) : M (os S) (Z * option Z) := mret (acpica_sys.OK, None).
Definition AcpiOsMapMemory (physical_address length : Z) : M (os S) Z := mret physical_address.
Definition AcpiOsUnmapMemory (physical_address length : Z) : M (os S) Z := mret acpica_sys.OK.
Definition AcpiOsGetPhysicalAddress (logical_address : Z) : M (os S) (Z * Z) := mret (acpica_sys.OK, logical_address).
(** [Layout::from_size_align]: the size rounded up to the alignment fits [isize]. *)
Definition layout_ok (size align : Z) : bool := size <=? 2 ^ 63 - align.
Definition AcpiOsAllocate (fuel : nat) (size : Z) : M (os S) Z :=
  rassert (layout_ok size 8);; on_heap (alloc fuel size 8).
Definition AcpiOsFree (fuel : nat) (ptr : Z) : M (os S) () := on_heap (dealloc fuel ptr).

(** *** Mutexes, semaphores and locks *)

(** [out_handle] says whether the pointer for the handle is not null; the result
    is the status and the handle written. *)
Definition AcpiOsCreateMutex (fuel : nat) (out_handle : bool) : M (os S) (Z * option Z) :=
  if negb out_handle then mret (acpica_sys.BAD_PARAMETER, None)
  else
    dummy_mutex ← on_heap (alloc fuel 1 1);
    if dummy_mutex =? 0 then mret (acpica_sys.NO_MEMORY, None)
    else
      modify (λ s, set_mutexes (<[dummy_mutex := false]> (mutexes s)) s);;
      mret (acpica_sys.OK, Some dummy_mutex).
Definition AcpiOsDeleteMutex (fuel : nat) (handle : option Z) : M (os S) () :=
  match handle with
  | None => mret ()
  | Some handle =>
      modify (λ s, set_mutexes (delete handle (mutexes s)) s);;
      on_heap (dealloc fuel handle)
  end.
Definition AcpiOsAcquireMutex (handle : option Z) (timeout : Z) : M (os S) Z :=
  match handle with
  | None => mret acpica_sys.BAD_PARAMETER
  | Some handle =>
      s ← get;
      dummy_mutex ← deref (mutexes s !! handle);
      if dummy_mutex : bool then if timeout =? 0xFFFF then panic else mret acpica_sys.TIME
      else modify (λ s, set_mutexes (<[handle := true]> (mutexes s)) s);; mret acpica_sys.OK
  end.
Definition AcpiOsReleaseMutex (handle : option Z) : M (os S) () :=
  match handle with
  | None => mret ()
  | Some handle =>
      s ← get;
      dummy_mutex ← deref (mutexes s !! handle);
      if dummy_mutex : bool then modify (λ s, set_mutexes (<[handle := false]> (mutexes s)) s) else panic
  end.
Definition AcpiOsCreateSemaphore (max_units initial_units : Z) (out_handle : bool) : M (os S) (Z * option Z) :=
  if max_units <? initial_units then mret (acpica_sys.BAD_PARAMETER, None)
  else if negb out_handle then mret (acpica_sys.BAD_PARAMETER, None)
  else mret (acpica_sys.OK, Some 0).
Definition AcpiOsDeleteSemaphore (handle : option Z) : M (os S) Z := mret acpica_sys.OK.
Definition AcpiOsWaitSemaphore (handle : option Z) (units timeout : Z) : M (os S) Z := mret acpica_sys.OK.
Definition AcpiOsSignalSemaphore (handle : option Z) (units : Z) : M (os S) Z := mret acpica_sys.OK.
Definition AcpiOsCreateLock (out_handle : bool) : M (os S) (Z * option Z) :=
  if negb out_handle then mret (acpica_sys.BAD_PARAMETER, None) else mret (acpica_sys.OK, Some 0).
Definition AcpiOsDeleteLock (handle : option Z) : M (os S) () := mret ().
Definition AcpiOsAcquireLock (handle : option Z) : M (os S) Z := mret 0.
Definition AcpiOsReleaseLock (handle : option Z) (flags : Z) : M (os S) () := mret ().
Definition AcpiOsGetThreadId : M (os S) Z := mret 1.
(** The services that are [unimplemented!()]: AcpiOsExecute to AcpiOsEnterSleep. *)
Definition unimplemented_service {A} : M (os S) A := panic.
End os_layer.

(** ** Status codes lose their class *)

(** What a status decodes to, and that the kernel's own codes all decode as
    environmental ones. *)
Lemma exception_Status_new c e : 0 ≤ e < 2 ^ 12 → acpica_sys.exception (acpica_sys.Status_new c e) = e.
Proof.
  intros He. unfold acpica_sys.exception. apply get_bits_eq; [lia|lia|]. intros k Hk.
  unfold acpica_sys.Status_new. rewrite Z.lor_spec, Z.land_spec. change 0xFFF with (Z.ones 12).
  rewrite testbit_ones, (proj2 (Z.ltb_lt k 12)), andb_true_r, Z.sub_0_r by lia.
  assert (Z.land (acpica_sys.Code_u8 c) (Z.shiftl 15 12) = 0) as -> by (by destruct c).
  by rewrite Z.bits_0, orb_false_r.
Qed.
(** [Status::new] drops the class it is given: every status the kernel makes
    decodes as an environmental exception with the number asked for, so a bad
    parameter is reported as AE_ERROR; only exception zero decodes as success. *)
Theorem status_new_loses_class (c : acpica_sys.Code) (e : Z) : 0 ≤ e < 2 ^ 12 →
  Result_from_status (acpica_sys.Status_new c e) =
    if e =? 0 then Ok () else Err {| code := Environment; exception := e |}.
Proof.
  intros He. unfold Result_from_status. rewrite exception_Status_new by done.
  assert (acpica_sys.code (acpica_sys.Status_new c e) = 0) as ->; [|done].
  unfold acpica_sys.code. apply get_bits_eq; [lia|done|]. intros k Hk. unfold acpica_sys.Status_new.
  rewrite Z.lor_spec, Z.land_spec. change 0xFFF with (Z.ones 12). rewrite testbit_ones, (proj2 (Z.ltb_ge k 12)) by lia.
  rewrite andb_false_r, Z.bits_0. assert (Z.land (acpica_sys.Code_u8 c) (Z.shiftl 15 12) = 0) as -> by (by destruct c).
  by rewrite Z.bits_0.
Qed.
Lemma status_new_loses_class_witness :
  Result_from_status acpica_sys.BAD_PARAMETER = Err {| code := Environment; exception := 1 |}.
Proof. apply (status_new_loses_class acpica_sys.Programmer 1). done. Defined.

(** ** The table, entry by entry *)

(** The records of a table: those the kernel knows, and others. *)
Inductive madt_record : Type := Known (e : table.MadtEntry) | Other (ty : Z) (body : list Z).
Definition encode_record (r : madt_record) : list Z :=
  match r with
  | Known (table.LocalApic p a f) => [0; 8; p; a] ++ le_bytes 4 f
  | Known (table.IoApic i a b) => [1; 12; i; 0] ++ le_bytes 4 a ++ le_bytes 4 b
  | Known (table.InterruptSourceOverride b i g f) => [2; 10; b; i] ++ le_bytes 4 g ++ le_bytes 2 f
  | Known (table.Nmi p f l) => [4; 6; p] ++ le_bytes 2 f ++ [l]
  | Known (table.LocalApicAddressOverride a) => [5; 12; 0; 0] ++ le_bytes 8 a
  | Other ty body => ty :: 2 + Z.of_nat (length body) :: body
  end.
Definition byte (b : Z) : Prop := 0 ≤ b < 256.
Definition record_ok (r : madt_record) : Prop :=
  match r with
  | Known (table.LocalApic p a f) => byte p ∧ byte a ∧ 0 ≤ f < 2 ^ 32
  | Known (table.IoApic i a b) => byte i ∧ 0 ≤ a < 2 ^ 32 ∧ 0 ≤ b < 2 ^ 32
  | Known (table.InterruptSourceOverride b i g f) => byte b ∧ byte i ∧ 0 ≤ g < 2 ^ 32 ∧ 0 ≤ f < 2 ^ 16
  | Known (table.Nmi p f l) => byte p ∧ 0 ≤ f < 2 ^ 16 ∧ byte l
  | Known (table.LocalApicAddressOverride a) => 0 ≤ a < 2 ^ 64
  | Other ty body => byte ty ∧ ty ∉ [0; 1; 2; 4; 5] ∧ Z.of_nat (length body) < 254
  end.
(** The bytes [l] are in memory at [p]. *)
Definition holds (mem : memory) (p : Z) (l : list Z) : Prop := ∀ i b, l !! i = Some b → read_byte mem (p + Z.of_nat i) = b.
Lemma holds_app mem p l1 l2 : holds mem p (l1 ++ l2) ↔ holds mem p l1 ∧ holds mem (p + Z.of_nat (length l1)) l2.
Proof.
  unfold holds. split.
  - intros Hl. split; intros i b Hi.
    + apply Hl. by apply lookup_app_l_Some.
    + rewrite <-(Hl (length l1 + i)%nat b); [f_equal; lia|]. by rewrite lookup_app_r, Nat.add_comm, Nat.add_sub by lia.
  - intros [H1 H2] i b [Hi|[Hlen Hi]]%lookup_app_Some; [by apply H1|]. rewrite <-(H2 _ b Hi). f_equal. lia.
Qed.
Lemma holds_cons mem p b l : holds mem p (b :: l) ↔ read_byte mem p = b ∧ holds mem (p + 1) l.
Proof.
  rewrite (holds_app mem p [b] l). f_equiv; [|done]. split.
  - intros Hb. rewrite <-(Hb O b eq_refl). f_equal. lia.
  - intros Hb [|i] x; [intros [= <-]; rewrite <-Hb; f_equal; lia|done].
Qed.
Lemma holds_le mem p n v : 0 ≤ v < 256 ^ Z.of_nat n → holds mem p (le_bytes n v) → read_le mem p n = v.
Proof.
  revert p v. induction n as [|n IH]; intros p v Hv; [cbn in Hv; intros; cbn; lia|]. cbn [le_bytes read_le].
  rewrite Nat2Z.inj_succ, Z.pow_succ_r in Hv by lia. rewrite holds_cons. intros [-> Hr].
  rewrite (IH (p + 1) (v / 256)); [pose proof (Z.div_mod v 256); lia| |done].
  split; [apply Z.div_pos; lia|apply Z.div_lt_upper_bound; lia].
Qed.
Definition known (r : madt_record) : option table.MadtEntry := match r with Known e => Some e | Other _ _ => None end.
Lemma record_length mem p r : holds mem p (encode_record r) →
  read_byte mem (p + 1) = Z.of_nat (length (encode_record r)) ∧ 2 ≤ Z.of_nat (length (encode_record r)).
Proof.
  intros Hr. split.
  - destruct r as [[]|]; cbn [encode_record app] in *; rewrite !holds_cons in Hr; destruct Hr as (_ & -> & _);
      cbn [length]; rewrite ?length_app, ?length_le_bytes; cbn [length]; lia.
  - destruct r as [[]|]; cbn [encode_record app length]; lia.
Qed.
Lemma entry_at_record mem p r : record_ok r → holds mem p (encode_record r) → table.entry_at mem p = known r.
Proof.
  intros Hok Hr. unfold table.entry_at.
  destruct r as [e|ty body]; cbn [known].
  - destruct e; cbn [encode_record record_ok app] in *; rewrite !holds_cons in Hr;
      rewrite (proj1 Hr); cbn [Z.eqb Pos.eqb table.LOCAL_APIC table.IO_APIC table.INTERRUPT_SOURCE_OVERRIDE table.NMI
        table.LOCAL_APIC_ADDRESS_OVERRIDE]; f_equal; destruct Hr as (_ & _ & Hr); revert Hr;
      unfold table.LocalApicEntry, table.IoApicEntry, table.InterruptSourceOverrideEntry, table.LocalApicNmiEntry,
        table.LocalApicAddressOverrideEntry, table.read32, table.read16;
      replace (p + 1 + 1 + 1 + 1) with (p + 4) by lia; replace (p + 1 + 1 + 1) with (p + 3) by lia;
      replace (p + 1 + 1) with (p + 2) by lia.
    + intros (-> & -> & Hf). rewrite (holds_le _ _ 4 flags); [done|apply Hok|done].
    + rewrite holds_app, length_le_bytes. replace (p + 4 + Z.of_nat 4) with (p + 8) by lia.
      intros (-> & _ & Ha & Hb). rewrite (holds_le _ _ 4 io_apic_address), (holds_le _ _ 4 global_system_interrupt_base); first [done|apply Hok].
    + rewrite holds_app, length_le_bytes. replace (p + 4 + Z.of_nat 4) with (p + 8) by lia.
      intros (-> & -> & Hg & Hf). rewrite (holds_le _ _ 4 global_system_interrupt), (holds_le _ _ 2 flags); first [done|apply Hok].
    + rewrite holds_app, length_le_bytes, holds_cons. replace (p + 3 + Z.of_nat 2) with (p + 5) by lia.
      intros (-> & Hf & -> & _). rewrite (holds_le _ _ 2 flags); first [done|apply Hok].
    + intros (_ & _ & Ha). unfold read64. rewrite (holds_le _ _ 8 address); first [done|apply Hok].
  - cbn [encode_record record_ok] in *. rewrite holds_cons in Hr. rewrite (proj1 Hr). destruct Hok as (_ & Hty & _).
    rewrite !not_elem_of_cons in Hty.
    unfold table.LOCAL_APIC, table.IO_APIC, table.INTERRUPT_SOURCE_OVERRIDE, table.NMI, table.LOCAL_APIC_ADDRESS_OVERRIDE.
    by rewrite !(proj2 (Z.eqb_neq _ _)) by tauto.
Qed.
(** What the iterator makes of a record. *)
Definition item_of (r : madt_record) : table.item :=
  match r with Known e => table.Given e | Other ty _ => table.Reported ty end.
Lemma given_items (rs : list madt_record) : omap table.given (item_of <$> rs) = omap known rs.
Proof. induction rs as [|[e|ty body] rs IH]; cbn [omap list_omap fmap list_fmap item_of table.given known]; by rewrite ?IH. Qed.
(** Reading the rest of the table: [rs] at the current header, up to the end. The
    next entry comes after the [others]. *)
Definition other (o : Z * list Z) : madt_record := Other (fst o) (snd o).
Lemma next_records mem rs p fuel :
  Forall record_ok rs → holds mem p (rs ≫= encode_record) → 0 ≤ p → p + Z.of_nat (length (rs ≫= encode_record)) < 2 ^ 64 →
  (length rs < fuel)%nat →
  ∀ e, e = p + Z.of_nat (length (rs ≫= encode_record)) - 1 →
  ∃ others o p' rs', table.next mem fuel (table.Build_MadtEntryIterator p e) =
      Returns ((fst <$> others, o), table.Build_MadtEntryIterator p' e) ∧
    match o with
    | Some x => rs = (other <$> others) ++ Known x :: rs' ∧ (length rs' < length rs)%nat ∧ Forall record_ok rs' ∧
        holds mem p' (rs' ≫= encode_record) ∧ 0 ≤ p' ∧ p' + Z.of_nat (length (rs' ≫= encode_record)) - 1 = e
    | None => rs = other <$> others
    end.
Proof.
  revert p fuel. induction rs as [|r rs IH]; intros p fuel Hok Hm Hp Hlen Hfuel e He; (destruct fuel as [|fuel]; [lia|]).
  { exists [], None, p, []. split; [|done]. cbn [table.next]. rewrite (bind_step _ _ _ _ _ eq_refl).
    cbn [table.end_address table.current_header]. cbn in He. by rewrite (proj2 (Z.leb_le _ _)) by lia. }
  apply Forall_cons in Hok as [Hr Hok]. cbn [mbind list_bind] in *. apply holds_app in Hm as [Hm Hm'].
  destruct (record_length mem p r Hm) as [Hl Hl2]. rewrite length_app in *.
  set (n := length (encode_record r)) in *.
  assert (e = (p + Z.of_nat n) + Z.of_nat (length (rs ≫= encode_record)) - 1) as Ee by lia.
  cbn [table.next]. rewrite (bind_step _ _ _ _ _ eq_refl). cbn [table.end_address table.current_header].
  rewrite (proj2 (Z.leb_gt _ _)) by lia. rewrite Hl. rewrite bind_chk by lia.
  rewrite (bind_step _ _ _ _ _ eq_refl). cbn [table.end_address].
  rewrite (entry_at_record mem p r Hr Hm). destruct r as [x|ty body]; cbn [known].
  - exists [], (Some x), (p + Z.of_nat n), rs. split; [done|]. cbn [fmap list_fmap app length]. split_and!; [done|lia|done|done|lia|lia].
  - destruct (IH (p + Z.of_nat n) fuel Hok Hm' ltac:(lia) ltac:(lia) ltac:(cbn in Hfuel; lia) e Ee)
      as (others & o & p' & rs' & E & Ho).
    exists ((ty, body) :: others), o, p', rs'. split.
    { rewrite (bind_step _ _ _ _ _ E). cbn [encode_record] in Hm. apply holds_cons in Hm as [-> _]. done. }
    destruct o; [|by rewrite Ho]. destruct Ho as (-> & ? & Ho). split_and!; try done; [cbn [length]; lia|apply Ho..].
Qed.
Lemma items_step (others : list (Z * list Z)) x (rs : list madt_record) : item_of <$> ((other <$> others) ++ Known x :: rs) =
  (table.Reported <$> (fst <$> others)) ++ table.Given x :: (item_of <$> rs).
Proof. by rewrite fmap_app, <-!list_fmap_compose. Qed.
Lemma collect_records mem fuel rs p :
  Forall record_ok rs → holds mem p (rs ≫= encode_record) → 0 ≤ p → p + Z.of_nat (length (rs ≫= encode_record)) < 2 ^ 64 →
  (length rs < fuel)%nat →
  ∃ it, table.collect mem fuel (table.Build_MadtEntryIterator p (p + Z.of_nat (length (rs ≫= encode_record)) - 1)) =
    Returns (item_of <$> rs, it).
Proof.
  revert rs p. induction fuel as [|fuel IH]; intros rs p Hok Hm Hp Hlen Hf; [lia|]. cbn [table.collect].
  destruct (next_records mem rs p (S fuel) Hok Hm Hp Hlen Hf _ eq_refl) as (others & o & p' & rs' & E & Ho).
  rewrite (bind_step _ _ _ _ _ E). cbn beta iota. destruct o as [x|].
  2:{ eexists. rewrite Ho, <-!list_fmap_compose. done. }
  destruct Ho as (Ers & Hl & Hok' & Hm' & Hp' & Ee).
  destruct (IH rs' p' Hok' Hm' Hp') as (it & E'); [lia|lia|]. rewrite Ee in E'.
  exists it. rewrite (bind_step _ _ _ _ _ E'). rewrite Ers, items_step. done.
Qed.
Lemma items_run {T} mem madt rs fuel (s : T) :
  Forall record_ok rs → holds mem (madt + table.size_of_Madt) (rs ≫= encode_record) → 0 ≤ madt →
  let n := table.size_of_Madt + Z.of_nat (length (rs ≫= encode_record)) in
  table.read32 mem (madt + table.length_offset) = n → madt + n < 2 ^ 64 → (length rs < fuel)%nat →
  table.items mem fuel madt s = Returns (item_of <$> rs, s).
Proof.
  intros Hok Hm Hmadt n Hn Hlen Hf. unfold table.items, table.entry_iter. rewrite Hn.
  assert (table.size_of_Madt = 44) as Es by done. rewrite bind_assoc, bind_chk by lia.
  rewrite bind_assoc, bind_chk by lia. rewrite bind_assoc, bind_chk by lia. rewrite (bind_step _ _ _ _ _ eq_refl).
  destruct (collect_records mem fuel rs (madt + table.size_of_Madt)) as (it & E); [done|done|lia|lia|done|].
  unfold zoom. unfold n. rewrite Z.add_assoc. by rewrite E.
Qed.
(** C29: Iterating over the interrupt description table gives exactly the entries
    with a type the kernel knows, decoded, in the order of the table, and ends at
    the end of the table: for a table of records laid out in memory after the
    header, whose length field covers them. The records of other types are reported
    to the logger with their type, each in its place. *)
Theorem madt_entries_correct {T} mem madt rs fuel (s : T) :
  Forall record_ok rs → holds mem (madt + table.size_of_Madt) (rs ≫= encode_record) → 0 ≤ madt →
  let n := table.size_of_Madt + Z.of_nat (length (rs ≫= encode_record)) in
  table.read32 mem (madt + table.length_offset) = n → madt + n < 2 ^ 64 → (length rs < fuel)%nat →
  table.entries mem fuel madt s = Returns (omap known rs, s) ∧
  table.items mem fuel madt s = Returns (item_of <$> rs, s).
Proof.
  intros Hok Hm Hmadt n Hn Hlen Hf. pose proof (items_run mem madt rs fuel s Hok Hm Hmadt Hn Hlen Hf) as E.
  split; [|done]. unfold table.entries. by rewrite (bind_step _ _ _ _ _ E), given_items.
Qed.

(** ** Mutexes *)
Section mutexes.
Context {S : Type} `{HeapMemory S}.
(** A mutex that is free can be taken and given back, and only then; a mutex that
    is taken is refused, with a panic for a caller that would wait forever. *)
Lemma mutex_protocol (s : os S) h timeout :
  let taken := set_mutexes (<[h := true]> (mutexes s)) s in
  mutexes s !! h = Some false →
  AcpiOsAcquireMutex (Some h) timeout s = Returns (acpica_sys.OK, taken) ∧
  AcpiOsReleaseMutex (Some h) s = Panics ∧
  (∀ t, AcpiOsAcquireMutex (Some h) t taken = if t =? 0xFFFF then Panics else Returns (acpica_sys.TIME, taken)) ∧
  AcpiOsReleaseMutex (Some h) taken = Returns ((), s).
Proof.
  intros taken Hs. unfold AcpiOsAcquireMutex, AcpiOsReleaseMutex, mbind, M_bind, get, deref. rewrite Hs.
  split; [done|]. split; [done|]. unfold taken. cbn [set_mutexes mutexes]. rewrite lookup_insert_eq. split.
  - intros t. by destruct (t =? 0xFFFF).
  - cbn. unfold modify. do 2 f_equal. unfold set_mutexes. cbn. rewrite insert_insert_eq, insert_id by done. by destruct s.
Qed.
End mutexes.

(** ** Printing to the kernel's logger *)
Section printing.
Context `{PortDevices}.
#[local] Instance kernel_logger_writer : Writer machine := KernelLogger_write_str.
(** [AcpiOsPrintf] as ACPICA calls it: the writer is the kernel's logger. *)
Definition AcpiOsPrintf_to_logger (mem : memory) (fuel : nat) (p : Z) (args : list Z) : M machine () :=
  AcpiOsPrintf mem fuel p args.
Lemma sent_app x y : sent (x ++ y) = sent x ++ sent y.
Proof. unfold sent, crlf. by rewrite bind_app, fmap_app. Qed.
Lemma wp_write_texts fn texts m :
  terminal_ok fn m → Forall (Forall (printable fn)) texts →
  wp (for_each write_str texts) (λ _ m', terminal_ok fn m' ∧
    ports m' = ports m ++ (if BOCHS_WRITER_ENABLED m then sent (str_bytes (concat texts)) else [])) m.
Proof.
  intros Ht Hp. revert m Ht. induction Hp as [|text texts Htext _ IH]; intros m Ht; cbn [for_each foldr concat].
  { rewrite wp_ret. split; [done|]. by destruct (BOCHS_WRITER_ENABLED m); rewrite app_nil_r. }
  rewrite wp_bind. unfold write_str, kernel_logger_writer at 1, KernelLogger_write_str. rewrite wp_bind. apply wp_arch_write.
  set (m1 := set_ports _ m).
  assert (wp (terminal_write text) (λ _ m2, terminal_ok fn m2 ∧ ports m2 = ports m1 ∧
    BOCHS_WRITER_ENABLED m2 = BOCHS_WRITER_ENABLED m) m1) as Hw.
  { unfold terminal_write, wp. cbn [TERMINAL set_ports m1]. destruct (TERMINAL m) as [t|] eqn:Et; [|done].
    destruct (wp_unit_returns _ _ _ (wp_write fn t _ (Ht t Et) Htext)) as (t' & E & Ht').
    unfold zoom. rewrite E. split; [by intros t1 [= <-]|done]. }
  eapply wp_mono; [exact Hw|]. intros [] m2 (Ht2 & Hp2 & He2). eapply wp_mono; [by apply IH|].
  intros [] m3 (Ht3 & Hp3). split; [done|]. rewrite Hp3, Hp2, He2. cbn [ports set_ports m1]. unfold str_bytes.
  destruct (BOCHS_WRITER_ENABLED m); rewrite <-app_assoc; [|done]. by rewrite bind_app, sent_app.
Qed.
(** Printing for ACPICA never fails on the kernel's logger: when the format and
    its arguments are well formed and the printed text can be shown, the call
    returns, the terminal stays in its normal state, and the debug port, if it is
    enabled, receives exactly the formatted text. *)
Theorem AcpiOsPrintf_logs (fn : psf.Font) (m : machine) mem fuel p ps args texts :
  let s := ps ≫= spelling in
  Forall piece_ok ps → forallb is_scalar s = true → holds_c_str mem p (str_bytes s) →
  (length (str_bytes s) < fuel)%nat → args_fit fuel ps → str_len s < 2 ^ 64 →
  format_texts mem ps [] args = Some texts →
  terminal_ok fn m → Forall (Forall (printable fn)) texts →
  ∃ m', AcpiOsPrintf_to_logger mem fuel p args m = Returns ((), m') ∧ terminal_ok fn m' ∧
    ports m' = ports m ++ (if BOCHS_WRITER_ENABLED m then sent (str_bytes (concat texts)) else []).
Proof.
  intros s Hps Hsc Hm Hf Hfit Hlen Ht Hterm Hp. unfold AcpiOsPrintf_to_logger, AcpiOsPrintf.
  rewrite (vprintf_run mem fuel p ps args texts m) by done. by apply wp_unit_returns, wp_write_texts.
Qed.
End printing.
Lemma AcpiOsPrintf_logs_witness :
  let H : PortDevices := λ _ _, 0 in
  ∃ m', AcpiOsPrintf_to_logger demo_mem 20 1000 demo_args demo_machine = Returns ((), m') ∧
    terminal_ok demo_font m' ∧ ports m' = [] ++ sent (str_bytes (concat demo_texts)).
Proof.
  intros H. apply (AcpiOsPrintf_logs demo_font demo_machine demo_mem 20 1000 demo_pieces demo_args demo_texts);
    [exact demo_pieces_ok|reflexivity|exact demo_holds|vm_compute; lia|exact demo_fit|vm_compute; done|vm_compute; reflexivity| |].
  - intros t [= <-]. split; [exact demo_terminal_ok|]. split; [by split|]. split; [by split|done].
  - unfold demo_texts. repeat (apply Forall_cons; split; [repeat (apply Forall_cons; split; [split; [done|first
      [by left|by right; left|by right; right; left|right; right; right; right; vm_compute; discriminate]]|]); by apply Forall_nil|]).
    by apply Forall_nil.
Defined.
(** A table with a local APIC, a record of an unknown type, an I/O APIC and an
    override, at 4096. *)
Definition demo_records : list madt_record :=
  [Known (table.LocalApic 0 0 1); Other 9 [0; 0]; Known (table.IoApic 2 0xFEC00000 0);
   Known (table.InterruptSourceOverride 0 0 2 0)].
Definition demo_madt : memory := λ x,
  default 0 ((replicate 4 0 ++ le_bytes 4 78 ++ replicate 36 0 ++ (demo_records ≫= encode_record)) !! Z.to_nat (x - 4096)).
Lemma demo_records_ok : Forall record_ok demo_records.
Proof. unfold demo_records. repeat (apply Forall_cons; split; [vm_compute; try (by split_and!)|]); [|by apply Forall_nil].
  split; [split; [discriminate|done]|]. split; [|done]. apply (bool_decide_unpack (9 ∉ [0; 1; 2; 4; 5])). done.
Qed.
Lemma demo_madt_holds : holds demo_madt (4096 + table.size_of_Madt) (demo_records ≫= encode_record).
Proof. intros i b Hi. do 34 (destruct i as [|i]; [injection Hi as <-; reflexivity|]). done. Qed.
Lemma madt_entries_correct_witness :
  table.entries demo_madt 5 4096 () =
    Returns ([table.LocalApic 0 0 1; table.IoApic 2 0xFEC00000 0; table.InterruptSourceOverride 0 0 2 0], ()) ∧
  table.items demo_madt 5 4096 () =
    Returns ([table.Given (table.LocalApic 0 0 1); table.Reported 9; table.Given (table.IoApic 2 0xFEC00000 0);
      table.Given (table.InterruptSourceOverride 0 0 2 0)], ()).
Proof.
  apply (madt_entries_correct demo_madt 4096 demo_records 5 ());
    [exact demo_records_ok|exact demo_madt_holds|done|vm_compute; reflexivity|vm_compute; done|vm_compute; lia].
Defined.
