(* ===== verification/Access.v ===== *)
(** * Checking the access to a range
    (kernel/src/arch/x86_64/page_allocation.rs, kernel/src/platform/acpi/acpica_os_layer.rs)

    [check_flags] of PageTables.v against its specification, every entry on the
    way to every byte of the range, and the two services ACPICA asks about
    memory with. *)
From S2P Require Import Prelude Paging PageAlloc PageTables Acpi.

(** ** The entries of an address *)

(** The entries that are read on the way to an address, whatever they hold. *)
Fixpoint path (m : memory) (table : Z) (idx : list Z) : list Z :=
  match idx with
  | [] => []
  | i :: rest => let e := read64 m (entry_addr table i) in e :: path m (address e) rest
  end.
Definition entry_allows (flags e : Z) : bool := PageTableEntry.present e && (Z.land e flags =? flags).
(** Every entry on the way to the address is present and has the flags. *)
Definition allowed (s : sys) (flags virtual_address : Z) : Prop :=
  Forall (λ e, entry_allows flags e = true) (path s.(ram) (address (page_table s.(alloc))) (indices virtual_address)).

(** [allowed] is about the page of an address. *)
Lemma allowed_page s flags va va' : va / PAGE_SIZE = va' / PAGE_SIZE → allowed s flags va ↔ allowed s flags va'.
Proof. intros E. unfold allowed. assert (indices va = indices va') as ->; [|done]. apply indices_eq_iff. by rewrite E. Qed.
(** The hardware finds an allowed address, and its entry has the flags. *)
Lemma path_walk m table idx flags : idx ≠ [] → Forall (λ e, entry_allows flags e = true) (path m table idx) →
  ∃ e, walk m table idx = Some e ∧ entry_allows flags e = true.
Proof.
  revert table. induction idx as [|i idx IH]; intros table Hne; [done|].
  intros [He Hrest]%Forall_cons. cbn [walk]. pose proof He as [-> _]%andb_true_iff.
  destruct idx; [by eexists|by apply IH].
Qed.
Lemma allowed_walk s flags va : allowed s flags va →
  ∃ e, walk_at s va = Some e ∧ Z.land e flags = flags.
Proof.
  intros H. apply path_walk in H as (e & E & [_ Hf%Z.eqb_eq]%andb_true_iff); [by exists e|].
  by rewrite indices_spec.
Qed.

(** ** The check *)

(** The check of one page, from the levels it goes through. *)
Lemma check_flags_loop_run levels s table va flags :
  check_flags_loop levels table va flags s = Returns (
    forallb (entry_allows flags) (path s.(ram) table (map (λ '(i, level_mask), level_index i level_mask va) levels)), s).
Proof.
  revert table. induction levels as [|[i level_mask] levels IH]; intros table; [done|].
  cbn [check_flags_loop map path forallb]. unfold mbind, M_bind, get.
  unfold entry_allows at 1. destruct (PageTableEntry.present _); cbn [negb orb andb]; [|done].
  destruct (_ =? flags); cbn [negb andb]; [apply IH|done].
Qed.
Definition allows (s : sys) (flags virtual_address : Z) : bool :=
  forallb (entry_allows flags) (path s.(ram) (address (page_table s.(alloc))) (indices virtual_address)).
Lemma allows_spec s flags va : allows s flags va = true ↔ allowed s flags va.
Proof.
  unfold allows, allowed. rewrite forallb_forall, Forall_forall. by setoid_rewrite list_elem_of_In.
Qed.
Lemma check_flags_pages_run l s start flags : Forall (λ i, 0 ≤ start + i * PAGE_SIZE < 2 ^ 64) l →
  check_flags_pages l start flags s = Returns (forallb (λ i, allows s flags (start + i * PAGE_SIZE)) l, s).
Proof.
  induction 1 as [|i l Hi Hl IH]; [done|].
  cbn [check_flags_pages forallb]. rewrite Z.shiftl_mul_pow2 by lia. change (2 ^ 12) with PAGE_SIZE.
  rewrite bind_chk by done. unfold mbind, M_bind, get. rewrite check_flags_loop_run.
  change (forallb _ _) with (allows s flags (start + i * PAGE_SIZE)) at 1. by destruct (allows s flags _).
Qed.
(** A byte of a range is on a page that is checked, and the other way round. *)
Lemma range_pages (P : Z → Prop) start size :
  0 ≤ start → 0 < size → (∀ va va', va / PAGE_SIZE = va' / PAGE_SIZE → P va ↔ P va') →
  Forall (λ i, P (start + i * PAGE_SIZE)) (seqZ 0 ((start + size - 1) / PAGE_SIZE - start / PAGE_SIZE + 1)) ↔
  ∀ va, start ≤ va < start + size → P va.
Proof.
  intros Hs Hz HP. rewrite Forall_forall. unfold PAGE_SIZE in *. split.
  - intros H va Hva. apply (HP _ (start + (va / 4096 - start / 4096) * 4096)); [Z.div_mod_to_equations; lia|].
    apply H, elem_of_seqZ. Z.div_mod_to_equations. lia.
  - intros H i [Hi0 Hi]%elem_of_seqZ.
    apply (HP _ (Z.min (start + i * 4096) (start + size - 1))); [|apply H; lia].
    destruct (Z.min_spec (start + i * 4096) (start + size - 1)) as [[_ ->]|[Hm ->]]; [done|].
    Z.div_mod_to_equations. lia.
Qed.

Lemma check_flags_run (s : sys) (start size flags : Z) :
  0 ≤ start < 2 ^ 64 → 0 ≤ size < 2 ^ 64 →
  if (0 <? size) && (start + size <=? 2 ^ 64) then
    ∃ b, check_flags start size flags s = Returns (b, s) ∧
      (b = true ↔ ∀ va, start ≤ va < start + size → allowed s (replace_addr_with flags 0) va)
  else check_flags start size flags s = Panics.
Proof.
  intros Hs Hz. unfold check_flags. cbv zeta.
  pose proof (num_pages_of_correct start size s Hs Hz) as Hn.
  destruct ((0 <? size) && (start + size <=? 2 ^ 64)) eqn:E; unfold mbind, M_bind; rewrite Hn; [|done].
  apply andb_true_iff in E as [E1%Z.ltb_lt E2%Z.leb_le].
  rewrite check_flags_pages_run.
  - eexists. split; [done|]. rewrite forallb_forall, <-range_pages, Forall_forall; [|lia|done|intros; by apply allowed_page].
    setoid_rewrite <-allows_spec. by setoid_rewrite list_elem_of_In.
  - apply Forall_forall. intros i [Hi0 Hi]%elem_of_seqZ. unfold PAGE_SIZE in *.
    change (2 ^ 64) with (4096 * 4503599627370496) in *. Z.div_mod_to_equations. lia.
Qed.

(** C20: [check_flags] never changes anything.  On an empty range or one that
    wraps around it panics.  On every other range it returns, and answers [true]
    exactly when on the way to every byte of the range every entry, at all four
    levels, is present and has all the flags asked for. *)
Theorem check_flags_correct (s : sys) (start size flags : Z) :
  0 ≤ start < 2 ^ 64 → 0 ≤ size < 2 ^ 64 →
  if (0 <? size) && (start + size <=? 2 ^ 64) then
    ∃ b, check_flags start size flags s = Returns (b, s) ∧
      (b = true ↔ ∀ va, start ≤ va < start + size → allowed s (replace_addr_with flags 0) va)
  else check_flags start size flags s = Panics.
Proof. apply check_flags_run. Qed.
(** The read-write page of [demo_mapped], and the byte after it. *)
Lemma check_flags_correct_witness :
  (∃ b, check_flags 0x5FFF 1 READ_WRITE demo_mapped = Returns (b, demo_mapped) ∧
    (b = true ↔ ∀ va, 0x5FFF ≤ va < 0x5FFF + 1 → allowed demo_mapped (replace_addr_with READ_WRITE 0) va)) ∧
  allows demo_mapped (replace_addr_with READ_WRITE 0) 0x5FFF = true ∧
  allows demo_mapped (replace_addr_with READ_WRITE 0) 0x6000 = false.
Proof.
  split; [apply (check_flags_correct demo_mapped 0x5FFF 1 READ_WRITE); lia|].
  split; vm_compute; reflexivity.
Defined.

(** ** Questions of ACPICA *)

Definition AcpiOsReadable (virtual_address_start len : Z) : M world acpica_sys.Boolean :=
  ok ← page_tables.check_flags virtual_address_start len READ; mret (acpica_sys.Boolean_from_bool ok).
Definition AcpiOsWritable (virtual_address_start len : Z) : M world acpica_sys.Boolean :=
  ok ← page_tables.check_flags virtual_address_start len READ_WRITE; mret (acpica_sys.Boolean_from_bool ok).

Lemma allowed_weaken s flags flags' va : Z.land flags flags' = flags' → allowed s flags va → allowed s flags' va.
Proof.
  intros E H. eapply Forall_impl; [exact H|]. intros e [Hp Hf%Z.eqb_eq]%andb_true_iff. apply andb_true_iff. split; [done|].
  apply Z.eqb_eq. by rewrite <-E, Z.land_assoc, Hf.
Qed.
(** A flag of an allowed address is a flag of the entry the hardware finds. *)
Lemma allowed_bit s flags va i : Z.testbit flags i = true → allowed s flags va →
  ∃ e, walk_at s va = Some e ∧ Z.testbit e i = true.
Proof.
  intros Hi (e & E & Hf)%allowed_walk. exists e. split; [done|]. rewrite <-Hf, Z.land_spec in Hi.
  by apply andb_true_iff in Hi as [].
Qed.
(** The answers to ACPICA about a range: what is writable is readable; every byte
    of a readable range is mapped, and every byte of a writable one is mapped
    writable.  [READ] has the no-execute bit, so the pages of a readable range are
    not executable: code is reported as not readable. *)
Theorem access_answers (w : world) pa (start len : Z) (s := Sys pa (wram w)) :
  PAGE_ALLOCATOR w = Some pa → 0 ≤ start → 0 < len < 2 ^ 64 → start + len ≤ 2 ^ 64 →
  ∃ r rw : bool, AcpiOsReadable start len w = Returns (acpica_sys.Boolean_from_bool r, w) ∧
    AcpiOsWritable start len w = Returns (acpica_sys.Boolean_from_bool rw, w) ∧ (rw = true → r = true) ∧
    (r = true → ∀ va, start ≤ va < start + len →
       ∃ e, walk_at s va = Some e ∧ PageTableEntry.no_execute e = true) ∧
    (rw = true → ∀ va, start ≤ va < start + len →
       ∃ e, walk_at s va = Some e ∧ PageTableEntry.writable e = true).
Proof.
  intros Hpa Hs Hl He.
  assert (((0 <? len) && (start + len <=? 2 ^ 64)) = true) as E.
  { apply andb_true_iff. split; [apply Z.ltb_lt|apply Z.leb_le]; lia. }
  assert (∀ flags, ∃ b, page_tables.check_flags start len flags w = Returns (b, w) ∧
    (b = true ↔ ∀ va, start ≤ va < start + len → allowed s (replace_addr_with flags 0) va)) as H.
  { intros flags. pose proof (check_flags_run s start len flags ltac:(lia) ltac:(lia)) as Hc. rewrite E in Hc.
    destruct Hc as (b & Hc & Hb). exists b. split; [|exact Hb].
    unfold page_tables.check_flags, with_allocator. rewrite Hpa. fold s. rewrite Hc. destruct w as [o m]. cbn in *. by subst. }
  destruct (H READ) as (r & Er & Hr), (H READ_WRITE) as (rw & Ew & Hw). exists r, rw.
  unfold AcpiOsReadable, AcpiOsWritable, mbind, M_bind. rewrite Er, Ew.
  split; [done|]. split; [done|]. split; [|split].
  - intros HW. apply Hr. intros va Hva. eapply allowed_weaken; [|by apply Hw]. done.
  - intros HR va Hva. eapply (allowed_bit _ _ _ 63); [|by apply Hr]. done.
  - intros HW va Hva. eapply (allowed_bit _ _ _ 1); [|by apply Hw]. done.
Qed.
