(* ===== verification/MadtInit.v ===== *)
(** * Starting the interrupt controllers

    LocalApic::new, enable_bsp_local_apic, IoApic::new and the registers of the I/O
    APIC (kernel/src/arch/x86_64/apic.rs), and apic::init_from_madt (interrupts.rs),
    which builds the state of Interrupts.v from the table of Acpi.v. The messages of
    this code are recorded in order. *)
From S2P Require Import Prelude Paging PageAlloc PageTables Ports Heap Acpi Interrupts.

(** What is handed to the logger: a fixed text, or what a message shows. *)
Inductive message : Type :=
  | Text (s : string)
  | MadtAt (madt bsp_local_apic_address flags : Z)
  | Entry (e : table.MadtEntry)
  | UnknownType (entry_type : Z)
  | MadtFound (madt : Z)
  | EnablingLocalApic (bsp_local_apic_address : Z)
  | RedirectionEntries (id num_redirection_entries : Z).
(** The page tables, the ports, the model-specific register IA32_APIC_BASE, the
    globals and devices of Interrupts.v, and what the logger was handed. *)
Record boot (H : Type) : Type := Boot {
  page_tables : PageAlloc.sys;
  boot_ports : list port_event;
  apic_base_msr : Z;
  interrupts : Interrupts.sys H;
  boot_log : list message;
}.
Arguments Boot {H} _ _ _ _ _.
Arguments page_tables {H} _.
Arguments boot_ports {H} _.
Arguments apic_base_msr {H} _.
Arguments interrupts {H} _.
Arguments boot_log {H} _.

Inductive IoApicRegister : Type := Id | NumRedirectionEntries | ArbitrationPriority.
(** Index, readable, writable. *)
Definition get_properties (r : IoApicRegister) : Z * bool * bool :=
  match r with
  | Id => (0, true, true)
  | NumRedirectionEntries => (1, true, false)
  | ArbitrationPriority => (2, true, false)
  end.
(** The bits of a redirection entry that no other part of the kernel uses. *)
Definition interrupt_pending (e : Z) : bool := Z.testbit e 12.
Definition level_triggered_interrupt_status (e : Z) : io.LevelTriggeredInterruptStatus :=
  if Z.testbit e 14 then io.InterruptReceived else io.EoiSent.
Definition set_level_triggered_interrupt_status (v : io.LevelTriggeredInterruptStatus) (e : Z) : Z :=
  set_bit e 14 match v with io.EoiSent => false | io.InterruptReceived => true end.
(** The address of the symbol LOCAL_APIC_BASE in the linker script. *)
Definition LOCAL_APIC_BASE : Z := 0xFFFFFFFF10002000.
(** The bytes sent to the legacy interrupt controllers: the four words of their
    initialisation, and then all lines are masked. *)
Definition pic_sequence : list (Z * Z) :=
  [(0x20, 0x11); (0xA0, 0x11); (0x21, 0x20); (0xA1, 0x28); (0x21, 0x04); (0xA1, 0x02);
   (0x21, 0x01); (0xA1, 0x01); (0xA1, 0xFF); (0x21, 0xFF)].

Section init.
Context {H : Type} `{Mmio H}.
Definition read_register (self : io.IoApic) (register : IoApicRegister) : M H Z :=
  let '(index, readable, _) := get_properties register in
  rassert readable;;
  mmio_write (io.base_address self) index;;
  io.read_window (io.base_address self).
Definition write_register (self : io.IoApic) (register : IoApicRegister) (value : Z) : M H () :=
  let '(index, _, writable) := get_properties register in
  rassert writable;;
  mmio_write (io.base_address self) index;;
  io.write_window (io.base_address self) value.

Definition on_tables {A} (m : M PageAlloc.sys A) : M (boot H) A :=
  zoom page_tables (λ p s, Boot p (boot_ports s) (apic_base_msr s) (interrupts s) (boot_log s)) m.
Definition on_interrupts {A} (m : M (Interrupts.sys H) A) : M (boot H) A :=
  zoom interrupts (λ i s, Boot (page_tables s) (boot_ports s) (apic_base_msr s) i (boot_log s)) m.
Definition out (p byte : Z) : M (boot H) () :=
  zoom boot_ports (λ t s, Boot (page_tables s) t (apic_base_msr s) (interrupts s) (boot_log s)) (port.write_byte p byte).
Definition debug (m : message) : M (boot H) () :=
  modify (λ s, Boot (page_tables s) (boot_ports s) (apic_base_msr s) (interrupts s) (boot_log s ++ [m])).
(** [expect] on the result of mapping a page. *)
Definition map_device (physical virtual : Z) : M (boot H) () :=
  r ← on_tables (map_page_translation physical virtual READ_WRITE);
  match r with Ok _ => mret () | Err _ => panic end.

(** [LocalApic::new] gives the address the registers are mapped at. *)
Definition LocalApic_new (base_address : Z) : M (boot H) Z :=
  map_device base_address LOCAL_APIC_BASE;; mret LOCAL_APIC_BASE.
Definition enable_bsp_local_apic (self : Z) : M (boot H) () :=
  for_each (λ '(p, byte), out p byte) pic_sequence;;
  modify (λ s, Boot (page_tables s) (boot_ports s) (Z.lor (apic_base_msr s) 0x800) (interrupts s) (boot_log s));;
  on_interrupts (on_devices (local.write_register self local.SpuriousInterruptVector 0x1FF)).
Definition IoApic_new (base_address id global_system_interrupt_base : Z) : M (boot H) io.IoApic :=
  mapped ← on_tables (is_address_identity_mapped base_address);
  (if mapped : bool then mret () else map_device base_address base_address);;
  let io_apic := {| io.base_address := base_address; io._id := id;
    io.global_system_interrupt_base := global_system_interrupt_base; io.num_redirection_entries := 0 |} in
  value ← on_interrupts (on_devices (read_register io_apic NumRedirectionEntries));
  let num_redirection_entries := trunc 16 value in
  rassert (num_redirection_entries <? 0x3F);;
  debug (RedirectionEntries id num_redirection_entries);;
  mret {| io.base_address := base_address; io._id := id;
    io.global_system_interrupt_base := global_system_interrupt_base; io.num_redirection_entries := num_redirection_entries |}.

(** ** [init_from_madt] *)
Fixpoint madt_loop (fuel : nat) (it : table.MadtEntryIterator) (io_apics : list io.IoApic)
    (overrides : list InterruptSourceOverride) : M (boot H) (list io.IoApic * list InterruptSourceOverride) :=
  match fuel with
  | O => out_of_fuel
  | S fuel' =>
      s ← get;
      '((unknown, entry), it) ← lift (table.next (ram (page_tables s)) fuel it);
      for_each (λ ty, debug (UnknownType ty)) unknown;;
      match entry with
      | None => mret (io_apics, overrides)
      | Some (table.IoApic io_apic_id io_apic_address global_system_interrupt_base) =>
          a ← IoApic_new io_apic_address io_apic_id global_system_interrupt_base;
          madt_loop fuel' it (io_apics ++ [a]) overrides
      | Some (table.InterruptSourceOverride bus_source irq_source global_system_interrupt flags) =>
          madt_loop fuel' it io_apics (overrides ++ [{| _bus_source := bus_source; irq_source := irq_source;
            global_system_interrupt := global_system_interrupt; flags := flags |}])
      | Some _ => madt_loop fuel' it io_apics overrides
      end
  end.
Definition set_local_apic (a : Z) (s : Interrupts.sys H) : Interrupts.sys H :=
  Build_sys H (ACTIVE_IO_INTERRUPT_SYSTEM s) (LEGACY_IRQS s) (STATE s) (Some a) (apic_interrupts s) (devices s).
Definition start_routing (st : State) (s : Interrupts.sys H) : Interrupts.sys H :=
  Build_sys H (Some Apic) (LEGACY_IRQS s) (Some st) (local_apic s) (apic_interrupts s) (devices s).
Definition init_from_madt (fuel : nat) (madt : Z) : M (boot H) () :=
  s ← get;
  let bsp_local_apic_address := table.read32 (ram (page_tables s)) (madt + table.bsp_local_apic_address_offset) in
  debug (MadtFound madt);;
  debug (EnablingLocalApic bsp_local_apic_address);;
  bsp_apic ← LocalApic_new bsp_local_apic_address;
  enable_bsp_local_apic bsp_apic;;
  debug (Text "Local APIC enabled");;
  on_interrupts (modify (set_local_apic bsp_apic));;
  s ← get;
  it ← table.entry_iter (ram (page_tables s)) madt;
  '(io_apics, interrupt_source_overrides) ← madt_loop fuel it [] [];
  on_interrupts (modify (start_routing {| io_apics := io_apics; interrupt_source_overrides := interrupt_source_overrides;
    interrupt_vector_map := [Z.shiftl 1 63; 0] |})).
End init.

(** ** What the table asks for *)
Section correctness.
Context {H : Type} `{IoApics H}.
(** The I/O APIC a record describes: the number of its entries is the low half of
    register one. *)
Definition io_apic_of (h : H) (e : table.MadtEntry) : option io.IoApic :=
  match e with
  | table.IoApic id a gsi => Some {| io.base_address := a; io._id := id; io.global_system_interrupt_base := gsi;
      io.num_redirection_entries := trunc 16 (io_reg a 1 h) |}
  | _ => None
  end.
Definition override_of (e : table.MadtEntry) : option InterruptSourceOverride :=
  match e with
  | table.InterruptSourceOverride b i g f =>
      Some {| _bus_source := b; irq_source := i; global_system_interrupt := g; flags := f |}
  | _ => None
  end.
(** The I/O APIC of a record can be started: it is there, it is identity mapped, and
    the number read from it passes the assertion. *)
Definition can_start (pt : PageAlloc.sys) (h : H) (e : table.MadtEntry) : Prop :=
  match e with
  | table.IoApic _ a _ => is_io_apic a ∧ 0 ≤ a < 2 ^ 32 ∧
      is_address_identity_mapped a pt = Returns (true, pt) ∧ trunc 16 (io_reg a 1 h) < 0x3F
  | _ => True
  end.
Definition same_registers (h h' : H) : Prop := ∀ b i, is_io_apic b → io_reg b i h' = io_reg b i h.
Definition with_devices (h : H) (log : list message) (s : boot H) : boot H :=
  Boot (page_tables s) (boot_ports s) (apic_base_msr s) (set_devices h (interrupts s)) (boot_log s ++ log).
(** What the logger is handed for a record of the table. *)
Definition record_messages (h : H) (r : madt_record) : list message :=
  match r with
  | Known (table.IoApic id a _) => [RedirectionEntries id (trunc 16 (io_reg a 1 h))]
  | Known _ => []
  | Other ty _ => [UnknownType ty]
  end.
Lemma IoApic_new_run s a id gsi h0 (Q : io.IoApic → boot H → Prop) :
  same_registers h0 (devices (interrupts s)) → can_start (page_tables s) h0 (table.IoApic id a gsi) →
  (∀ h, same_registers h0 h → Q {| io.base_address := a; io._id := id; io.global_system_interrupt_base := gsi;
      io.num_redirection_entries := trunc 16 (io_reg a 1 h0) |}
    (with_devices h [RedirectionEntries id (trunc 16 (io_reg a 1 h0))] s)) →
  wp (IoApic_new a id gsi) Q s.
Proof.
  intros Hs (Hio & Ha & Hid & Hn) HQ. unfold IoApic_new, on_tables. rewrite wp_bind, wp_zoom. unfold wp at 1. rewrite Hid.
  rewrite wp_bind, wp_ret, wp_bind. unfold on_interrupts, on_devices. rewrite !wp_zoom.
  unfold read_register. cbn [get_properties]. rewrite wp_bind, wp_rassert. split; [done|].
  unfold io.read_window. cbn [io.base_address interrupts]. rewrite wp_bind, wp_mmio_write, wp_bind, wp_chk. split; [lia|].
  rewrite wp_mmio_read, read_window_reg, selected_select, io_reg_select by done. cbn [fst snd].
  rewrite Hs by done. change (Z.land 1 255) with 1. rewrite wp_bind, wp_rassert, wp_bind. unfold debug. rewrite wp_modify, wp_ret.
  split; [by apply Z.ltb_lt|].
  apply HQ. intros b i Hb. rewrite io_reg_select by done. by apply Hs.
Qed.
Lemma wp_debug_all {A} (f : A → message) (l : list A) s (Q : () → boot H → Prop) :
  Q () (Boot (page_tables s) (boot_ports s) (apic_base_msr s) (interrupts s) (boot_log s ++ (f <$> l))) →
  wp (for_each (λ x, debug (f x)) l) Q s.
Proof.
  revert s. induction l as [|x l IH]; intros s HQ; cbn [for_each foldr fmap list_fmap] in *.
  { rewrite app_nil_r in HQ. by destruct s. }
  rewrite wp_bind. unfold debug at 1. rewrite wp_modify. apply IH. cbn. by rewrite <-app_assoc.
Qed.
Lemma other_messages h (others : list (Z * list Z)) : ((other <$> others) ≫= record_messages h) = UnknownType <$> (fst <$> others).
Proof. induction others as [|o others IH]; [done|]. cbn [fmap list_fmap mbind list_bind]. cbn. by f_equal. Qed.
Lemma other_known (others : list (Z * list Z)) : omap known (other <$> others) = [].
Proof. by induction others. Qed.
Lemma wp_madt_loop rs p fuel e apics ovs s h0 (Q : list io.IoApic * list InterruptSourceOverride → boot H → Prop) :
  Forall record_ok rs → holds (ram (page_tables s)) p (rs ≫= encode_record) → 0 ≤ p →
  e = p + Z.of_nat (length (rs ≫= encode_record)) - 1 → e < 2 ^ 64 - 1 → (length rs < fuel)%nat →
  Forall (can_start (page_tables s) h0) (omap known rs) → same_registers h0 (devices (interrupts s)) →
  (∀ h, same_registers h0 h →
    Q (apics ++ omap (io_apic_of h0) (omap known rs), ovs ++ omap override_of (omap known rs))
      (with_devices h (rs ≫= record_messages h0) s)) →
  wp (madt_loop fuel {| table.current_header := p; table.end_address := e |} apics ovs) Q s.
Proof.
  revert rs p apics ovs s. induction fuel as [|fuel IH]; intros rs p apics ovs s Hok Hm Hp He Hlen Hf Hcan Hs HQ; [lia|].
  destruct (next_records (ram (page_tables s)) rs p (Datatypes.S fuel) Hok Hm Hp ltac:(lia) Hf e He) as (others & o & p' & rs' & E & Ho).
  cbn [madt_loop]. rewrite wp_bind, wp_get, wp_bind, wp_lift.
  exists ((fst <$> others, o), table.Build_MadtEntryIterator p' e). split; [exact E|]. cbn beta iota.
  rewrite wp_bind. apply (wp_debug_all UnknownType). rewrite <-(other_messages h0). set (s1 := Boot _ _ _ _ _).
  assert (same_registers h0 (devices (interrupts s1))) as Hs1 by exact Hs. destruct o as [x|].
  2:{ subst rs. rewrite other_known in HQ. cbn [omap list_omap] in HQ. rewrite wp_ret.
      specialize (HQ (devices (interrupts s)) Hs). rewrite !app_nil_r in HQ. unfold s1. destruct s as [? ? ? [] ?]. exact HQ. }
  destruct Ho as (Ers & Hl & Hok' & Hm' & Hp' & Ee).
  assert (omap known rs = x :: omap known rs') as Hx by (by rewrite Ers, omap_app, other_known).
  assert ((rs ≫= record_messages h0) = ((other <$> others) ≫= record_messages h0) ++ record_messages h0 (Known x) ++
    (rs' ≫= record_messages h0)) as Hlog by (by rewrite Ers, bind_app).
  rewrite Hx, Hlog in HQ. rewrite Hx in Hcan. apply Forall_cons in Hcan as [Hstart Hcan].
  cbn [omap list_omap] in HQ.
  destruct x; cbn [io_apic_of override_of record_messages app] in HQ;
    try (eapply (IH rs' p' _ _ s1); [done|done|done|by rewrite Ee|done|lia|done|done|];
         intros h Hh; rewrite <-?app_assoc; unfold with_devices in *; cbn [s1 boot_log]; rewrite <-app_assoc; by apply HQ).
  rewrite wp_bind. apply (IoApic_new_run s1 _ _ _ h0); [done|done|]. intros h1 Hh1.
  eapply (IH rs' p' _ _ (with_devices h1 _ s1)); [done|done|done|by rewrite Ee|done|lia|done|done|].
  intros h Hh. rewrite <-app_assoc. specialize (HQ h Hh). unfold with_devices in *. cbn [s1 boot_log page_tables boot_ports apic_base_msr interrupts].
  rewrite <-!app_assoc. exact HQ.
Qed.
Lemma wp_out_all (l : list (Z * Z)) s (Q : () → boot H → Prop) :
  Q () (Boot (page_tables s) (boot_ports s ++ ((λ '(p, b), Out p b) <$> l)) (apic_base_msr s) (interrupts s) (boot_log s)) →
  wp (for_each (λ '(p, b), out p b) l) Q s.
Proof.
  revert s. induction l as [|[p b] l IH]; intros s HQ; cbn [for_each foldr fmap list_fmap] in *.
  { rewrite app_nil_r in HQ. by destruct s. }
  rewrite wp_bind. cbn beta iota. unfold out at 1, port.write_byte. rewrite wp_zoom, wp_modify. apply IH. cbn. by rewrite <-app_assoc.
Qed.
(** What [init_from_madt] hands to the logger. *)
Definition init_messages (madt address : Z) (h : H) (rs : list madt_record) : list message :=
  [MadtFound madt; EnablingLocalApic address; Text "Local APIC enabled"] ++ (rs ≫= record_messages h).
(** The state after [init_from_madt]. *)
Record madt_done (madt : Z) (rs : list madt_record) (pt' : PageAlloc.sys) (s s' : boot H) : Prop := {
  done_tables : page_tables s' = pt';
  done_ports : boot_ports s' = boot_ports s ++ ((λ '(p, b), Out p b) <$> pic_sequence);
  done_msr : Z.testbit (apic_base_msr s') 11 = true;
  done_local_apic : local_apic (interrupts s') = Some LOCAL_APIC_BASE;
  done_active : ACTIVE_IO_INTERRUPT_SYSTEM (interrupts s') = Some Apic;
  done_registers : same_registers (devices (interrupts s)) (devices (interrupts s'));
  done_state : STATE (interrupts s') = Some {| io_apics := omap (io_apic_of (devices (interrupts s))) (omap known rs);
    interrupt_source_overrides := omap override_of (omap known rs); interrupt_vector_map := [2 ^ 63; 0] |};
  done_lines : LEGACY_IRQS (interrupts s') = LEGACY_IRQS (interrupts s);
  done_idt : apic_interrupts (interrupts s') = apic_interrupts (interrupts s);
  done_log : boot_log s' = boot_log s ++
    init_messages madt (table.read32 (ram (page_tables s)) (madt + 36)) (devices (interrupts s)) rs;
}.
Ltac boot_fields := cbn [page_tables boot_ports apic_base_msr interrupts boot_log].
Lemma wp_init_from_madt (s : boot H) (pt' : PageAlloc.sys) madt rs fuel (Q : () → boot H → Prop) :
  let pt := page_tables s in
  map_page_translation (table.read32 (ram pt) (madt + 36)) LOCAL_APIC_BASE READ_WRITE pt = Returns (Ok (), pt') →
  Forall record_ok rs → holds (ram pt') (madt + table.size_of_Madt) (rs ≫= encode_record) → 0 ≤ madt →
  let n := table.size_of_Madt + Z.of_nat (length (rs ≫= encode_record)) in
  table.read32 (ram pt') (madt + table.length_offset) = n → madt + n < 2 ^ 64 → (length rs < fuel)%nat →
  let h := devices (interrupts s) in
  Forall (can_start pt' h) (omap known rs) →
  (∀ v, same_registers h (write_volatile (LOCAL_APIC_BASE + 0xF0) v h)) →
  (∀ s', madt_done madt rs pt' s s' → Q () s') → wp (init_from_madt fuel madt) Q s.
Proof.
  intros pt Hmap Hok Hm Hmadt n Hn Hlen Hf h Hcan Hkeep HQ.
  assert (table.size_of_Madt = 44) as Es by done. unfold init_from_madt, debug.
  rewrite wp_bind, wp_get, wp_bind, wp_modify, wp_bind, wp_modify, wp_bind. boot_fields.
  unfold LocalApic_new, map_device, on_tables. rewrite !wp_bind, wp_zoom. unfold wp at 1.
  change table.bsp_local_apic_address_offset with 36. boot_fields. fold pt. rewrite Hmap. rewrite wp_ret, wp_ret. boot_fields.
  rewrite wp_bind. unfold enable_bsp_local_apic. rewrite wp_bind. apply wp_out_all. rewrite wp_bind, wp_modify. boot_fields.
  unfold on_interrupts at 1, on_devices. rewrite !wp_zoom. unfold local.write_register. cbn [local.get_properties].
  rewrite wp_bind, wp_rassert. split; [done|]. rewrite wp_bind, wp_chk. split; [done|]. rewrite wp_mmio_write.
  rewrite wp_bind, wp_modify. boot_fields. unfold on_interrupts. rewrite wp_bind, wp_zoom, wp_modify, wp_bind, wp_get, wp_bind.
  unfold table.entry_iter. boot_fields. rewrite Hn. rewrite !wp_bind, wp_chk. split; [lia|].
  rewrite wp_bind, wp_chk. split; [lia|]. rewrite wp_bind, wp_chk. split; [lia|]. rewrite wp_ret.
  rewrite wp_bind. eapply (wp_madt_loop rs _ fuel _ [] [] _ h); [done|exact Hm|lia|unfold n; lia|lia|done|exact Hcan|apply Hkeep|].
  intros h' Hh'. rewrite wp_zoom, wp_modify. apply HQ. split; try done.
  2:{ cbn. by rewrite <-!app_assoc. }
  change (Z.testbit (Z.lor (apic_base_msr s) 0x800) 11 = true). by rewrite Z.lor_spec, orb_true_r.
Qed.
(** C28: [init_from_madt] builds the routing state the table describes: the I/O
    APICs and the overrides of the table in order, only vector 0 reserved, the
    local APIC at its fixed address; the legacy controllers are initialised and
    masked, and the local APIC is switched on. The number of entries of an I/O APIC
    is taken from the low half of its register one. The logger is handed, in order,
    where the table is, where the local APIC is, that it is enabled, and then, in the
    order of the table, the number of entries of each I/O APIC and the type of each
    record the kernel does not know. *)
Theorem init_from_madt_correct (s : boot H) (pt' : PageAlloc.sys) madt rs fuel :
  let pt := page_tables s in
  map_page_translation (table.read32 (ram pt) (madt + 36)) LOCAL_APIC_BASE READ_WRITE pt = Returns (Ok (), pt') →
  Forall record_ok rs → holds (ram pt') (madt + table.size_of_Madt) (rs ≫= encode_record) → 0 ≤ madt →
  let n := table.size_of_Madt + Z.of_nat (length (rs ≫= encode_record)) in
  table.read32 (ram pt') (madt + table.length_offset) = n → madt + n < 2 ^ 64 → (length rs < fuel)%nat →
  let h := devices (interrupts s) in
  Forall (can_start pt' h) (omap known rs) →
  (∀ v, same_registers h (write_volatile (LOCAL_APIC_BASE + 0xF0) v h)) →
  ∃ s', init_from_madt fuel madt s = Returns ((), s') ∧
    page_tables s' = pt' ∧ boot_ports s' = boot_ports s ++ ((λ '(p, b), Out p b) <$> pic_sequence) ∧
    Z.testbit (apic_base_msr s') 11 = true ∧
    local_apic (interrupts s') = Some LOCAL_APIC_BASE ∧ ACTIVE_IO_INTERRUPT_SYSTEM (interrupts s') = Some Apic ∧
    same_registers h (devices (interrupts s')) ∧
    STATE (interrupts s') = Some {| io_apics := omap (io_apic_of h) (omap known rs);
      interrupt_source_overrides := omap override_of (omap known rs); interrupt_vector_map := [2 ^ 63; 0] |} ∧
    boot_log s' = boot_log s ++ init_messages madt (table.read32 (ram pt) (madt + 36)) h rs.
Proof.
  intros pt Hmap Hok Hm Hmadt n Hn Hlen Hf h Hcan Hkeep. apply wp_unit_returns.
  eapply (wp_init_from_madt s pt' madt rs fuel); [exact Hmap|exact Hok|exact Hm|done|exact Hn|done|done|exact Hcan|exact Hkeep|].
  intros s' []. done.
Qed.
End correctness.

(** ** A machine to start *)

(** Four page tables' worth of memory: the I/O APIC is identity mapped by a huge
    page, and the table of Acpi.v is at 0x4000. *)
Definition demo_tables : PageAlloc.sys :=
  Sys {| memory_bitmap := [0xF8; 0x00]; total_pages := 16; free_pages := 11; page_table := 0x1000 |}
    (write64 (write64 (write64 (λ x, demo_madt (x - 0x3000)) 0x1000 0x2003) 0x2018 0x3003) (0x3000 + 8 * 502) 0xFEC00083).
Definition run_state {A} (m : M PageAlloc.sys A) (s : PageAlloc.sys) : PageAlloc.sys :=
  match m s with Returns (_, s') => s' | _ => s end.
Definition demo_mapped : PageAlloc.sys := run_state (map_page_translation 0 LOCAL_APIC_BASE READ_WRITE) demo_tables.
Lemma run_ok (m : M PageAlloc.sys (result () MapPageError)) s :
  match m s with Returns (Ok _, _) => true | _ => false end = true → m s = Returns (Ok (), run_state m s).
Proof. unfold run_state. by destruct (m s) as [[[[]|] s']| | |]. Qed.
Lemma identity_keeps levels cur a s r s' : identity_mapped_loop levels cur a s = Returns (r, s') → s' = s.
Proof.
  revert cur. induction levels as [|[i mask] levels IH]; intros cur; [done|]. cbn [identity_mapped_loop].
  unfold mbind, M_bind, get. destruct (negb _); [by intros [= _ <-]|]. destruct (_ || _); [by intros [= _ <-]|]. apply IH.
Qed.
Lemma identity_true a s :
  match is_address_identity_mapped a s with Returns (b, _) => b | _ => false end = true →
  is_address_identity_mapped a s = Returns (true, s).
Proof.
  destruct (is_address_identity_mapped a s) as [[b s']| | |] eqn:E; try done. intros ->.
  unfold is_address_identity_mapped, mbind, M_bind, get in E. by rewrite (identity_keeps _ _ _ _ _ _ E).
Qed.
Definition demo_boot : boot demo_devices := Boot demo_tables [] 0 Interrupts.demo_sys [].
Lemma demo_holds_records : holds (ram demo_mapped) (0x4000 + table.size_of_Madt) (demo_records ≫= encode_record).
Proof. intros i b Hi. do 34 (destruct i as [|i]; [injection Hi as <-; vm_compute; reflexivity|]). done. Qed.
Lemma demo_keeps (h : demo_devices) v : same_registers h (write_volatile (LOCAL_APIC_BASE + 0xF0) v h).
Proof.
  intros b i Hb. cbn in Hb. change (LOCAL_APIC_BASE + 0xF0) with 0xFFFFFFFF100020F0. cbn.
  change (0xFFFFFFFF100020F0 mod 4096 =? 0) with false. cbn. 
  assert ((b =? 0xFFFFFFFF100020F0 - 16) = false) as ->; [|done].
  apply Z.eqb_neq. intros ->. by vm_compute in Hb.
Qed.
Lemma init_from_madt_correct_witness :
  ∃ s', init_from_madt 5 0x4000 demo_boot = Returns ((), s') ∧
    page_tables s' = demo_mapped ∧ boot_ports s' = [] ++ ((λ '(p, b), Out p b) <$> pic_sequence) ∧
    Z.testbit (apic_base_msr s') 11 = true ∧
    local_apic (interrupts s') = Some LOCAL_APIC_BASE ∧ ACTIVE_IO_INTERRUPT_SYSTEM (interrupts s') = Some Apic ∧
    same_registers (devices (interrupts demo_boot)) (devices (interrupts s')) ∧
    STATE (interrupts s') = Some {| io_apics := omap (io_apic_of (devices (interrupts demo_boot))) (omap known demo_records);
      interrupt_source_overrides := omap override_of (omap known demo_records); interrupt_vector_map := [2 ^ 63; 0] |} ∧
    boot_log s' = [] ++ init_messages 0x4000 0 (devices (interrupts demo_boot)) demo_records.
Proof.
  apply (init_from_madt_correct demo_boot demo_mapped 0x4000 demo_records 5).
  - apply (run_ok (map_page_translation 0 LOCAL_APIC_BASE READ_WRITE)). vm_compute. reflexivity.
  - exact demo_records_ok.
  - exact demo_holds_records.
  - done.
  - vm_compute. reflexivity.
  - vm_compute. done.
  - vm_compute. lia.
  - cbn [omap list_omap known demo_records]. repeat (apply Forall_cons; split); [done| |done|by apply Forall_nil].
    split; [done|]. split; [done|]. split; [apply identity_true; vm_compute; reflexivity|vm_compute; reflexivity].
  - apply demo_keeps.
Defined.
