(* ===== verification/Clock.v ===== *)
(** * The clocks (kernel/src/arch/x86_64/clock and the timer register of apic.rs)

    The clock manager, the timer of the local APIC with its calibration, sleep and
    countdown, and the two clocks it can be calibrated with: the CMOS and the RTC.
    Interrupts arrive when the processor halts: the state has the vectors of those
    to come, in batches, one batch for each halt.  For each of them the processor
    looks its descriptor up in [apic_interrupts]; the code behind the two handler
    addresses the kernel installs there is [sleep_handler] and [sleep_handler_apic]. *)
From S2P Require Import Prelude Ports Interrupts.

(** ** The timer register (apic.rs, TimerLvt) *)
Module lvt.
Definition set_interrupt_vector (v e : Z) : Z := set_bits e 7 0 v.
Definition interrupt_vector (e : Z) : Z := get_bits e 7 0.
Definition interrupt_pending (e : Z) : bool := Z.testbit e 12.
Definition masked (e : Z) : bool := Z.testbit e 16.
Definition set_masked (b : bool) (e : Z) : Z := set_bit e 16 b.
Inductive TimerMode : Type := OneShot | Periodic | TscDeadline | Reserved.
Definition TimerMode_u8 (m : TimerMode) : Z := match m with OneShot => 0 | Periodic => 1 | TscDeadline => 2 | Reserved => 3 end.
Definition timer_mode (e : Z) : outcome TimerMode :=
  match get_bits e 18 17 with
  | 0 => Returns OneShot | 1 => Returns Periodic | 2 => Returns TscDeadline | 3 => Returns Reserved | _ => Panics
  end.
Definition set_timer_mode (m : TimerMode) (e : Z) : Z := set_bits e 18 17 (TimerMode_u8 m).
End lvt.

(** ** Clocks and the manager (clock/mod.rs) *)
Inductive Clock : Type := Pit | Cmos | Rtc | Apic | Hpet | Tsc.
Inductive InterruptType : Type := Sleep | ContextSwitch.
Record CalibrationTimers : Type := { cal_hpet : bool; cal_apic : bool; cal_pit : bool; cal_rtc : bool; cal_cmos : bool }.
Record Timers : Type := { timer_apic : bool; timer_hpet : bool; timer_pit : bool }.
Record Counters : Type := { counter_tsc : bool; counter_hpet : bool; counter_apic : bool; counter_pit : bool; counter_rtc : bool }.
(** The first clock of a list that is available. *)
Fixpoint first_available (l : list (bool * Clock)) : option Clock :=
  match l with [] => None | (available, c) :: l => if available : bool then Some c else first_available l end.
Definition CalibrationTimers_get_preferred_clock (c : CalibrationTimers) : option Clock :=
  first_available [(cal_hpet c, Hpet); (cal_apic c, Apic); (cal_pit c, Pit); (cal_rtc c, Rtc); (cal_cmos c, Cmos)].
Definition Timers_get_preferred_clock (t : Timers) : option Clock :=
  first_available [(timer_apic t, Apic); (timer_hpet t, Hpet); (timer_pit t, Pit)].
Definition Counters_get_preferred_clock (c : Counters) : option Clock :=
  first_available [(counter_tsc c, Tsc); (counter_hpet c, Hpet); (counter_apic c, Apic); (counter_pit c, Pit); (counter_rtc c, Rtc)].
Definition CALIBRATION_TIMERS : CalibrationTimers :=
  {| cal_hpet := false; cal_apic := false; cal_pit := false; cal_rtc := true; cal_cmos := true |}.
(** The function tables: which clock's functions they hold. *)
Inductive CalibrationTimer : Type := DummyCalibration | RtcCalibration | CmosCalibration.
Inductive Timer : Type := DummyTimer | ApicTimer.
Record Manager : Type := { calibration_timer : CalibrationTimer; timer : Timer }.
Definition Manager_new : Manager := {| calibration_timer := DummyCalibration; timer := DummyTimer |}.
Definition update_clock_functions (calibration_timers : CalibrationTimers) (timers : Timers) : M Manager () :=
  (match CalibrationTimers_get_preferred_clock calibration_timers with
   | None => modify (λ m, {| calibration_timer := DummyCalibration; timer := timer m |})
   | Some Rtc => modify (λ m, {| calibration_timer := RtcCalibration; timer := timer m |})
   | Some Cmos => modify (λ m, {| calibration_timer := CmosCalibration; timer := timer m |})
   | Some _ => panic
   end);;
  (match Timers_get_preferred_clock timers with
   | None => modify (λ m, {| calibration_timer := calibration_timer m; timer := DummyTimer |})
   | Some Apic => modify (λ m, {| calibration_timer := calibration_timer m; timer := ApicTimer |})
   | Some _ => panic
   end).

(** ** The state *)

Record info : Type := Info {
  interrupt_idt_index : option Z; timer_us_numerator : Z; timer_us_denominator : Z; interrupt_received : bool;
}.
Definition info_default : info := Info None 1 1 false.
Record clocks (H : Type) : Type := Clocks {
  irq : Interrupts.sys H;
  local_apic_info : info;
  INTERRUPT_RECEIVED : bool;
  clock_ports : list port_event;
  TIMERS : Timers;
  MANAGER : Manager;
  arrivals : list (list Z);
}.
Arguments Clocks {H} _ _ _ _ _ _ _.
Arguments irq {H} _.
Arguments local_apic_info {H} _.
Arguments INTERRUPT_RECEIVED {H} _.
Arguments clock_ports {H} _.
Arguments TIMERS {H} _.
Arguments MANAGER {H} _.
Arguments arrivals {H} _.
(** The addresses of the two handlers, which the linker chooses. *)
Class Handlers : Type := {
  sleep_handler_address : Z;
  sleep_handler_apic_address : Z;
  sleep_handler_fits : 0 ≤ sleep_handler_address < 2 ^ 64;
  sleep_handler_apic_fits : 0 ≤ sleep_handler_apic_address < 2 ^ 64;
  handlers_differ : sleep_handler_address ≠ sleep_handler_apic_address;
}.
Section clocks.
Context {H : Type} `{Mmio H} `{PortDevices} `{Handlers}.
Implicit Types s : clocks H.
Definition with_irq (i : Interrupts.sys H) s : clocks H :=
  Clocks i (local_apic_info s) (INTERRUPT_RECEIVED s) (clock_ports s) (TIMERS s) (MANAGER s) (arrivals s).
Definition with_info (i : info) s : clocks H :=
  Clocks (irq s) i (INTERRUPT_RECEIVED s) (clock_ports s) (TIMERS s) (MANAGER s) (arrivals s).
Definition with_received (b : bool) s : clocks H :=
  with_info (Info (interrupt_idt_index (local_apic_info s)) (timer_us_numerator (local_apic_info s))
    (timer_us_denominator (local_apic_info s)) b) s.
Definition with_INTERRUPT_RECEIVED (b : bool) s : clocks H :=
  Clocks (irq s) (local_apic_info s) b (clock_ports s) (TIMERS s) (MANAGER s) (arrivals s).
Definition with_ports (p : list port_event) s : clocks H :=
  Clocks (irq s) (local_apic_info s) (INTERRUPT_RECEIVED s) p (TIMERS s) (MANAGER s) (arrivals s).
Definition with_TIMERS (t : Timers) s : clocks H :=
  Clocks (irq s) (local_apic_info s) (INTERRUPT_RECEIVED s) (clock_ports s) t (MANAGER s) (arrivals s).
Definition with_MANAGER (m : Manager) s : clocks H :=
  Clocks (irq s) (local_apic_info s) (INTERRUPT_RECEIVED s) (clock_ports s) (TIMERS s) m (arrivals s).
Definition with_arrivals (l : list (list Z)) s : clocks H :=
  Clocks (irq s) (local_apic_info s) (INTERRUPT_RECEIVED s) (clock_ports s) (TIMERS s) (MANAGER s) l.
Definition on_irq {A} (m : M (Interrupts.sys H) A) : M (clocks H) A := zoom irq with_irq m.
Definition on_clock_ports {A} (m : M (list port_event) A) : M (clocks H) A := zoom clock_ports with_ports m.
(** The registers of the local APIC of this processor. *)
Definition read_local (r : local.LocalApicRegister) : M (clocks H) Z :=
  on_irq (a ← the_local_apic; on_devices (local.read_register a r)).
Definition write_local (r : local.LocalApicRegister) (v : Z) : M (clocks H) () :=
  on_irq (a ← the_local_apic; on_devices (local.write_register a r v)).

(** ** Interrupts *)
Definition sleep_handler : M (clocks H) () := modify (with_received true);; write_local local.Eoi 0.
Definition sleep_handler_apic : M (clocks H) () := modify (with_INTERRUPT_RECEIVED true);; write_local local.Eoi 0.
(** The address the processor goes to for an interrupt: that of the descriptor, if
    it is present.  The kernel has descriptors for the vectors from 128 on, in
    [apic_interrupts], and none from 32 to 127. *)
Definition gate (idts : list idt.Entry) (vector : Z) : option Z :=
  if 128 <=? vector then
    e ← idts !! Z.to_nat (vector - 128);
    if idt.present (idt.options e) then Some (idt.handler_of e) else None
  else None.
(** An interrupt: the code at the address runs.  When the descriptor is not present
    the processor raises the exception of a missing segment, whose handler panics. *)
Definition interrupt (vector : Z) : M (clocks H) () :=
  s ← get;
  match gate (apic_interrupts (irq s)) vector with
  | None => panic
  | Some address =>
      if address =? sleep_handler_address then sleep_handler
      else if address =? sleep_handler_apic_address then sleep_handler_apic
      else undefined
  end.
(** [asm!("sti; hlt; cli")]: the interrupts of the next batch arrive, one after the
    other since the gates disable interrupts; without one the processor does not
    wake up. *)
Definition hlt : M (clocks H) () :=
  s ← get;
  match arrivals s with
  | [] => out_of_fuel
  | vectors :: rest => modify (with_arrivals rest);; for_each interrupt vectors
  end.
(** [while !flag { hlt }] *)
Fixpoint wait_until (fuel : nat) (flag : clocks H → bool) : M (clocks H) () :=
  match fuel with
  | O => out_of_fuel
  | S fuel => s ← get; if flag s then mret () else hlt;; wait_until fuel flag
  end.

(** ** The CMOS (clock/cmos.rs) *)
Definition STATUS_A : Z := 0xA.
Definition STATUS_B : Z := 0xB.
Definition STATUS_C : Z := 0xC.
Definition Cmos_read_byte (disable_nmi : bool) (register : Z) : M (clocks H) Z :=
  let nmi_bit := Z.shiftl (Z.b2z disable_nmi) 7 in
  on_clock_ports (port.write_byte port.CMOS_NMI_AND_REGISTER (Z.lor register nmi_bit);; port.read_byte port.CMOS_DATA).
Definition Cmos_write_byte (disable_nmi : bool) (register byte : Z) : M (clocks H) () :=
  let nmi_bit := Z.shiftl (Z.b2z disable_nmi) 7 in
  on_clock_ports (port.write_byte port.CMOS_NMI_AND_REGISTER (Z.lor register nmi_bit);; port.write_byte port.CMOS_DATA byte).
(** The assembly loops: status A is read until its top bit has the value [b]. *)
Fixpoint poll_update (fuel : nat) (b : bool) : M (clocks H) () :=
  match fuel with
  | O => out_of_fuel
  | S fuel =>
      al ← on_clock_ports (port.write_byte 0x70 0xA;; port.read_byte 0x71);
      if Bool.eqb (negb (Z.land al 0x80 =? 0)) b then mret () else poll_update fuel b
  end.
Definition Cmos_calibration_sleep (fuel : nat) (start_timer : M (clocks H) ()) : M (clocks H) Z :=
  poll_update fuel true;; poll_update fuel false;;
  start_timer;;
  poll_update fuel true;; poll_update fuel false;;
  mret 1000000.

(** ** The RTC (clock/rtc.rs) *)
Definition RATE : Z := 12.
Definition FREQUENCY : Z := Z.shiftr 32768 (RATE - 1).
(** The mapping of the line is dropped at the end. *)
Definition Rtc_calibration_sleep (fuel : nat) (start_timer : M (clocks H) ()) : M (clocks H) Z :=
  on_irq (map_legacy_irq 8 sleep_handler_apic_address);;
  previous_a ← Cmos_read_byte true STATUS_A;
  previous_b ← Cmos_read_byte true STATUS_B;
  let new_a := Z.lor (Z.land previous_a 0xF0) RATE in
  let new_b_interrupt := Z.lor previous_b 0x40 in
  let new_b_no_interrupt := Z.land previous_b 0xBF in
  modify (with_INTERRUPT_RECEIVED false);;
  Cmos_write_byte true STATUS_A new_a;;
  Cmos_write_byte true STATUS_B new_b_interrupt;;
  Cmos_read_byte true STATUS_C;;
  wait_until fuel INTERRUPT_RECEIVED;;
  start_timer;;
  Cmos_read_byte true STATUS_C;;
  modify (with_INTERRUPT_RECEIVED false);;
  wait_until fuel INTERRUPT_RECEIVED;;
  Cmos_write_byte true STATUS_B new_b_no_interrupt;;
  Cmos_read_byte false STATUS_C;;
  modify (with_INTERRUPT_RECEIVED false);;
  on_irq (unmap_legacy_id 8);;
  mret (1000000 / FREQUENCY).
(** Before a clock is chosen, [dummy_clock] panics. *)
Definition dummy_calibration_sleep (start_timer : M (clocks H) ()) : M (clocks H) Z := panic.
Definition calibration_sleep (c : CalibrationTimer) (fuel : nat) (start_timer : M (clocks H) ()) : M (clocks H) Z :=
  match c with
  | DummyCalibration => dummy_calibration_sleep start_timer
  | RtcCalibration => Rtc_calibration_sleep fuel start_timer
  | CmosCalibration => Cmos_calibration_sleep fuel start_timer
  end.

(** ** The timer of the local APIC (clock/apic.rs) *)
Definition set_calibration (numerator denominator : Z) : M (clocks H) () :=
  modify (λ s, with_info (Info (interrupt_idt_index (local_apic_info s)) numerator denominator (interrupt_received (local_apic_info s))) s).
Definition calibrate (fuel : nat) : M (clocks H) () :=
  write_local local.DivideConfiguration 3;;
  s ← get;
  time_slept ← calibration_sleep (calibration_timer (MANAGER s)) fuel (write_local local.InitialCount 0xFFFFFFFF);
  end_ticks ← read_local local.CurrentCount;
  num_ticks ← chk 32 (0xFFFFFFFF - end_ticks);
  set_calibration num_ticks time_slept.
Definition update_lvt (f : Z → Z) : M (clocks H) () :=
  timer_lvt ← read_local local.LvtTimer; write_local local.LvtTimer (f timer_lvt).
Definition setup : M (clocks H) () :=
  entry ← on_irq try_find_and_reserve_entry;
  entry_index ← unwrap entry;
  modify (λ s, with_info (Info (Some entry_index) (timer_us_numerator (local_apic_info s)) (timer_us_denominator (local_apic_info s))
    (interrupt_received (local_apic_info s))) s);;
  timer_lvt ← read_local local.LvtTimer;
  vector ← chk 8 (128 + entry_index);
  write_local local.LvtTimer (lvt.set_timer_mode lvt.OneShot (lvt.set_masked true (lvt.set_interrupt_vector vector timer_lvt)));;
  write_local local.DivideConfiguration 3;;
  write_local local.InitialCount 0xFFFFFFFF;;
  modify (λ s, with_TIMERS {| timer_apic := true; timer_hpet := timer_hpet (TIMERS s); timer_pit := timer_pit (TIMERS s) |} s).
Definition set_interrupt_type (interrupt_type : InterruptType) : M (clocks H) () :=
  s ← get;
  entry_index ← unwrap (interrupt_idt_index (local_apic_info s));
  match interrupt_type with
  | ContextSwitch => panic
  | Sleep =>
      entry ← lift (idt.with_handler_and_generic_stack sleep_handler_address);
      rassert (entry_index <? Z.of_nat (length (apic_interrupts (irq s))));;
      on_irq (modify (set_apic_interrupts (<[Z.to_nat entry_index := entry]> (apic_interrupts (irq s)))))
  end.
Definition unmask_one_shot (e : Z) : Z := lvt.set_timer_mode lvt.OneShot (lvt.set_masked false e).
(** The ticks for a time; a quotient that needs more than 32 bits is cut. *)
Definition apic_ticks (time_ms : Z) : M (clocks H) Z :=
  time_us ← chk 64 (time_ms * 1000);
  s ← get;
  product ← chk 64 (timer_us_numerator (local_apic_info s) * time_us);
  rassert (negb (timer_us_denominator (local_apic_info s) =? 0));;
  mret (trunc 32 (product / timer_us_denominator (local_apic_info s))).
Definition start_countdown_ms (time_ms : Z) : M (clocks H) () :=
  time_apic_ticks ← apic_ticks time_ms;
  update_lvt unmask_one_shot;;
  modify (with_received false);;
  write_local local.InitialCount time_apic_ticks.
Definition sleep_ms (fuel : nat) (time_ms : Z) : M (clocks H) () :=
  time_apic_ticks ← apic_ticks time_ms;
  update_lvt unmask_one_shot;;
  modify (with_received false);;
  write_local local.InitialCount time_apic_ticks;;
  wait_until fuel (λ s, interrupt_received (local_apic_info s));;
  modify (with_received false).
Definition countdown_remaining_ms : M (clocks H) Z :=
  s ← get;
  time_apic_ticks ← read_local local.CurrentCount;
  product ← chk 64 (time_apic_ticks * timer_us_denominator (local_apic_info s));
  rassert (negb (timer_us_numerator (local_apic_info s) =? 0));;
  mret (trunc 32 (product / timer_us_numerator (local_apic_info s) / 1000)).
Definition countdown_ended : M (clocks H) bool := gets (λ s, interrupt_received (local_apic_info s)).
Definition stop_countdown : M (clocks H) () := update_lvt (lvt.set_masked true).
Definition acknowledge_countdown_interrupt : M (clocks H) () := write_local local.Eoi 0.
(** The tables of functions of a timer. *)
Record timer_functions : Type := {
  call_set_interrupt_type : InterruptType → M (clocks H) ();
  call_sleep_ms : nat → Z → M (clocks H) ();
  call_start_countdown_ms : Z → M (clocks H) ();
  call_countdown_remaining_ms : M (clocks H) Z;
  call_countdown_ended : M (clocks H) bool;
  call_stop_countdown : M (clocks H) ();
  call_acknowledge_countdown_interrupt : M (clocks H) ();
}.
Definition apic_TIMER : timer_functions :=
  {| call_set_interrupt_type := set_interrupt_type; call_sleep_ms := sleep_ms;
     call_start_countdown_ms := start_countdown_ms; call_countdown_remaining_ms := countdown_remaining_ms;
     call_countdown_ended := countdown_ended; call_stop_countdown := stop_countdown;
     call_acknowledge_countdown_interrupt := acknowledge_countdown_interrupt |}.
Definition dummy_TIMER : timer_functions :=
  {| call_set_interrupt_type _ := panic; call_sleep_ms _ _ := panic; call_start_countdown_ms _ := panic;
     call_countdown_remaining_ms := panic; call_countdown_ended := panic; call_stop_countdown := panic;
     call_acknowledge_countdown_interrupt := panic |}.
Definition functions_of (t : Timer) : timer_functions :=
  match t with DummyTimer => dummy_TIMER | ApicTimer => apic_TIMER end.
(** The timer part of [init_stage_2]. *)
Definition init_timer (fuel : nat) : M (clocks H) () :=
  let update := s ← get; zoom MANAGER with_MANAGER (update_clock_functions CALIBRATION_TIMERS (TIMERS s)) in
  update;; calibrate fuel;; setup;; update.
End clocks.

(** ** Facts *)
Section correctness.
Context {H : Type} `{Mmio H} `{PortDevices} `{Handlers}.
Implicit Types s : clocks H.
(** The local APIC is at [a]. *)
Definition local_apic_at (a : Z) s : Prop := local_apic (irq s) = Some a ∧ 0 ≤ a < 2 ^ 64 - 0x1000.
Definition clock_devices s : H := devices (irq s).
Definition with_clock_devices (h : H) s : clocks H := with_irq (set_devices h (irq s)) s.
Lemma wp_write_local a r offset readable v s (Q : () → clocks H → Prop) :
  local_apic_at a s → local.get_properties r = (offset, readable, true) → 0 ≤ offset < 0x1000 →
  Q () (with_clock_devices (write_volatile (a + offset) v (clock_devices s)) s) → wp (write_local r v) Q s.
Proof.
  intros [Ha Hb] Hr Ho HQ. unfold write_local, on_irq, the_local_apic. rewrite wp_zoom, wp_bind, wp_bind, wp_get, wp_unwrap.
  exists a. split; [done|]. unfold on_devices. rewrite wp_zoom. unfold local.write_register. rewrite Hr.
  rewrite wp_bind, wp_rassert. split; [done|]. rewrite wp_bind, wp_chk. split; [lia|]. by rewrite wp_mmio_write.
Qed.
Lemma wp_read_local a r offset writable s (Q : Z → clocks H → Prop) :
  local_apic_at a s → local.get_properties r = (offset, true, writable) → 0 ≤ offset < 0x1000 →
  Q (fst (read_volatile (a + offset) (clock_devices s))) (with_clock_devices (snd (read_volatile (a + offset) (clock_devices s))) s) →
  wp (read_local r) Q s.
Proof.
  intros [Ha Hb] Hr Ho HQ. unfold read_local, on_irq, the_local_apic. rewrite wp_zoom, wp_bind, wp_bind, wp_get, wp_unwrap.
  exists a. split; [done|]. unfold on_devices. rewrite wp_zoom. unfold local.read_register. rewrite Hr.
  rewrite wp_bind, wp_rassert. split; [done|]. rewrite wp_bind, wp_chk. split; [lia|]. by rewrite wp_mmio_read.
Qed.
(** *** Interrupts while the processor waits *)

(** The vectors whose descriptors have the code of one of the two handlers, and
    whether one of [vectors] runs [handler]. *)
Definition handled (idts : list idt.Entry) (vector : Z) : Prop :=
  gate idts vector = Some sleep_handler_address ∨ gate idts vector = Some sleep_handler_apic_address.
Definition hits (idts : list idt.Entry) (handler : Z) (vectors : list Z) : bool :=
  existsb (λ v, bool_decide (gate idts v = Some handler)) vectors.
(** Each handler signals its end to the local APIC. *)
Definition eois (a : Z) (n : nat) (h : H) : H := Nat.iter n (write_volatile (a + 0xB0) 0) h.
Definition after_batch (a : Z) (vectors : list Z) s : clocks H :=
  let idts := apic_interrupts (irq s) in
  with_clock_devices (eois a (length vectors) (clock_devices s))
    (with_INTERRUPT_RECEIVED (INTERRUPT_RECEIVED s || hits idts sleep_handler_apic_address vectors)
      (with_received (interrupt_received (local_apic_info s) || hits idts sleep_handler_address vectors) s)).
Lemma hits_app idts handler vs ws : hits idts handler (vs ++ ws) = hits idts handler vs || hits idts handler ws.
Proof. apply existsb_app. Qed.
Lemma hits_one idts handler v : hits idts handler [v] = bool_decide (gate idts v = Some handler).
Proof. apply orb_false_r. Qed.
Lemma hits_concat idts handler l : Forall (λ vs, hits idts handler vs = false) l → hits idts handler (concat l) = false.
Proof. induction 1 as [|vs l Hvs _ IH]; [done|]. cbn [concat]. by rewrite hits_app, Hvs, IH. Qed.
Lemma eois_add a n m h : eois a (n + m) h = eois a m (eois a n h).
Proof. unfold eois. rewrite Nat.add_comm. apply Nat.iter_add. Qed.
Lemma after_batch_app a vs ws s : after_batch a (vs ++ ws) s = after_batch a ws (after_batch a vs s).
Proof.
  destruct s as [[] [] ? ? ? ? ?]. unfold after_batch. rewrite length_app, eois_add, !hits_app, !orb_assoc. done.
Qed.
Lemma after_batch_nil a s : after_batch a [] s = s.
Proof. destruct s as [[] [] ? ? ? ? ?]. cbv [after_batch]. cbn. by rewrite !orb_false_r. Qed.
Lemma wp_interrupt a v s (Q : () → clocks H → Prop) : local_apic_at a s → handled (apic_interrupts (irq s)) v →
  Q () (after_batch a [v] s) → wp (interrupt v) Q s.
Proof.
  intros Ha Hv HQ. unfold interrupt. rewrite wp_bind, wp_get.
  unfold after_batch in HQ. rewrite !hits_one in HQ. pose proof handlers_differ as Hd. destruct Hv as [Hv|Hv]; rewrite Hv in *.
  - rewrite Z.eqb_refl. unfold sleep_handler. rewrite wp_bind, wp_modify.
    apply (wp_write_local a local.Eoi 0xB0 false); [done|done|lia|].
    rewrite (bool_decide_eq_true_2 (Some sleep_handler_address = Some sleep_handler_address)), bool_decide_eq_false_2, orb_true_r, orb_false_r in HQ
      by congruence.
    destruct s as [[] [] ? ? ? ? ?]. exact HQ.
  - rewrite (proj2 (Z.eqb_neq _ _)) by done. rewrite Z.eqb_refl. unfold sleep_handler_apic. rewrite wp_bind, wp_modify.
    apply (wp_write_local a local.Eoi 0xB0 false); [done|done|lia|].
    rewrite (bool_decide_eq_true_2 (Some sleep_handler_apic_address = Some sleep_handler_apic_address)), bool_decide_eq_false_2, orb_true_r, orb_false_r in HQ
      by congruence.
    destruct s as [[] [] ? ? ? ? ?]. exact HQ.
Qed.
Lemma wp_batch a vs s (Q : () → clocks H → Prop) : local_apic_at a s → Forall (handled (apic_interrupts (irq s))) vs →
  Q () (after_batch a vs s) → wp (for_each interrupt vs) Q s.
Proof.
  intros Ha Hvs. revert s Ha Hvs Q. induction vs as [|v vs IH]; intros s Ha Hvs Q HQ.
  { rewrite after_batch_nil in HQ. exact HQ. }
  apply Forall_cons in Hvs as [Hv Hvs]. cbn [for_each foldr]. rewrite wp_bind. apply (wp_interrupt a); [done|done|].
  apply IH; [done|done|]. by rewrite <-after_batch_app.
Qed.
(** The batches up to one in which [handler] runs, and not before. *)
Record wakes (idts : list idt.Entry) (handler : Z) (before : list (list Z)) (batch : list Z) : Prop := {
  wakes_handled : Forall (handled idts) (concat before ++ batch);
  wakes_before : Forall (λ vs, hits idts handler vs = false) before;
  wakes_batch : hits idts handler batch = true;
}.
(** A flag that is set by [handler], and only by it. *)
Definition flag_of (flag : clocks H → bool) (handler : Z) : Prop := ∀ a vs rest s,
  flag (after_batch a vs (with_arrivals rest s)) = flag s || hits (apic_interrupts (irq s)) handler vs.
Lemma flag_received : flag_of (λ s, interrupt_received (local_apic_info s)) sleep_handler_address.
Proof. by intros a vs rest []. Qed.
Lemma flag_INTERRUPT_RECEIVED : flag_of INTERRUPT_RECEIVED sleep_handler_apic_address.
Proof. by intros a vs rest []. Qed.
(** Waiting through batches in which the handler does not run. *)
Lemma wait_through a flag handler before rest n s : flag_of flag handler → local_apic_at a s →
  arrivals s = before ++ rest → Forall (handled (apic_interrupts (irq s))) (concat before) →
  Forall (λ vs, hits (apic_interrupts (irq s)) handler vs = false) before → flag s = false →
  let s' := with_arrivals rest (after_batch a (concat before) s) in
  flag s' = false ∧ wait_until (length before + n) flag s = wait_until n flag s'.
Proof.
  intros Hflag Ha. revert s Ha. induction before as [|vs before IH]; intros s Ha Harr Hh Hno Hf s'.
  { unfold s'. cbn [concat]. rewrite after_batch_nil. cbn in Harr. subst rest. by destruct s. }
  apply Forall_cons in Hno as [Hvs Hno]. cbn [concat] in Hh. apply Forall_app in Hh as [Hh Hh'].
  set (s1 := after_batch a vs (with_arrivals (before ++ rest) s)).
  destruct (IH s1) as [Hf' E]; [done|done|done|done| |].
  { unfold s1. by rewrite Hflag, Hf, Hvs. }
  assert (s' = with_arrivals rest (after_batch a (concat before) s1)) as ->.
  { unfold s', s1. cbn [concat]. rewrite after_batch_app. by destruct s. }
  split; [done|]. rewrite <-E. cbn [length Nat.add wait_until]. rewrite (bind_step _ _ _ _ _ eq_refl), Hf.
  apply bind_wp. unfold hlt. rewrite wp_bind, wp_get, Harr. cbn [app]. rewrite wp_bind, wp_modify.
  by apply (wp_batch a).
Qed.
(** The wait ends with the first batch in which the handler runs. *)
Lemma wp_wait a flag handler before batch rest fuel s (Q : () → clocks H → Prop) : flag_of flag handler →
  local_apic_at a s → arrivals s = before ++ batch :: rest → wakes (apic_interrupts (irq s)) handler before batch →
  flag s = false → (length before + 1 < fuel)%nat → Q () (with_arrivals rest (after_batch a (concat before ++ batch) s)) →
  wp (wait_until fuel flag) Q s.
Proof.
  intros Hflag Ha Harr [Hh Hno Hbatch] Hf Hfuel HQ. apply Forall_app in Hh as [Hh Hb].
  destruct (wait_through a flag handler before (batch :: rest) (fuel - length before) s) as [Hf' E]; [done..|].
  set (s' := with_arrivals (batch :: rest) _) in *. replace (length before + (fuel - length before))%nat with fuel in E by lia.
  eapply wp_eq; [exact E|].
  destruct (fuel - length before)%nat as [|[|n]] eqn:En; [lia|lia|]. cbn [wait_until].
  rewrite wp_bind, wp_get, Hf', wp_bind. unfold hlt. rewrite wp_bind, wp_get. change (arrivals s') with (batch :: rest).
  rewrite wp_bind, wp_modify. apply (wp_batch a); [done|done|]. rewrite wp_bind, wp_get, Hflag.
  rewrite Hf'. change (apic_interrupts (irq s')) with (apic_interrupts (irq s)). rewrite Hbatch. cbn [orb]. rewrite wp_ret.
  rewrite after_batch_app in HQ. unfold s'. by destruct s.
Qed.
(** It does not end when the handler never runs. *)
Lemma wait_forever a flag handler fuel s : flag_of flag handler → local_apic_at a s → flag s = false →
  Forall (handled (apic_interrupts (irq s))) (concat (arrivals s)) →
  Forall (λ vs, hits (apic_interrupts (irq s)) handler vs = false) (arrivals s) → wait_until fuel flag s = OutOfFuel.
Proof.
  intros Hflag Ha Hf. remember (arrivals s) as l eqn:E. symmetry in E. revert s l Ha Hf E.
  induction fuel as [|fuel IH]; intros s l Ha Hf E Hh Hno; [done|].
  cbn [wait_until]. rewrite (bind_step _ _ _ _ _ eq_refl), Hf. destruct l as [|vs l].
  { unfold hlt, mbind, M_bind, get. by rewrite E. }
  cbn [concat] in Hh. apply Forall_app in Hh as [Hh Hh']. apply Forall_cons in Hno as [Hvs Hno].
  apply bind_wp. unfold hlt. rewrite wp_bind, wp_get, E, wp_bind, wp_modify. apply (wp_batch a); [done|done|].
  apply (IH _ l); [done| |done|done|done]. by rewrite Hflag, Hf, Hvs.
Qed.
(** An interrupt whose descriptor is missing panics, whatever else arrives. *)
Lemma wait_panics a flag handler before vs v ws rest fuel s : flag_of flag handler → local_apic_at a s → flag s = false →
  arrivals s = before ++ (vs ++ v :: ws) :: rest → Forall (handled (apic_interrupts (irq s))) (concat before ++ vs) →
  Forall (λ vs, hits (apic_interrupts (irq s)) handler vs = false) before → gate (apic_interrupts (irq s)) v = None →
  (length before < fuel)%nat → wait_until fuel flag s = Panics.
Proof.
  intros Hflag Ha Hf Harr [Hh Hvs]%Forall_app Hno Hv Hfuel.
  destruct (wait_through a flag handler before ((vs ++ v :: ws) :: rest) (fuel - length before) s) as [Hf' E]; [done..|].
  set (s' := with_arrivals _ _) in *. replace (length before + (fuel - length before))%nat with fuel in E by lia. rewrite E.
  destruct (fuel - length before)%nat as [|n] eqn:En; [lia|]. cbn [wait_until]. rewrite (bind_step _ _ _ _ _ eq_refl), Hf'.
  apply bind_panics. unfold hlt. apply bind_wp. rewrite wp_get. change (arrivals s') with ((vs ++ v :: ws) :: rest).
  apply bind_wp. rewrite wp_modify, for_each_app. apply bind_wp. apply (wp_batch a); [done|done|]. cbn [for_each foldr].
  apply bind_panics. unfold interrupt. rewrite (bind_step _ _ _ _ _ eq_refl).
  change (apic_interrupts _) with (apic_interrupts (irq s)). by rewrite Hv.
Qed.
(** The ticks for a time fit. *)
Definition can_count (time_ms : Z) s : Prop :=
  let i := local_apic_info s in
  0 ≤ time_ms ∧ 0 ≤ timer_us_numerator i ∧ 0 < timer_us_denominator i ∧
  time_ms * 1000 < 2 ^ 64 ∧ timer_us_numerator i * (time_ms * 1000) < 2 ^ 64.
Definition ticks_of (time_ms : Z) s : Z :=
  trunc 32 (timer_us_numerator (local_apic_info s) * (time_ms * 1000) / timer_us_denominator (local_apic_info s)).
Lemma wp_apic_ticks time_ms s (Q : Z → clocks H → Prop) :
  can_count time_ms s → Q (ticks_of time_ms s) s → wp (apic_ticks time_ms) Q s.
Proof.
  intros (Ht & Hn & Hd & Hus & Hp) HQ. unfold apic_ticks. rewrite wp_bind, wp_chk. split; [lia|].
  rewrite wp_bind, wp_get, wp_bind, wp_chk. split; [nia|]. rewrite wp_bind, wp_rassert. split; [|done].
  by rewrite (proj2 (Z.eqb_neq _ _)) by lia.
Qed.
(** The devices after a countdown is started: the timer is unmasked, in one-shot
    mode, and gets the ticks. *)
Definition started (a ticks : Z) (h : H) : H :=
  let '(v, h) := read_volatile (a + 0x320) h in
  write_volatile (a + 0x380) ticks (write_volatile (a + 0x320) (unmask_one_shot v) h).
Definition counting (a ticks : Z) s : clocks H :=
  with_clock_devices (started a ticks (clock_devices s)) (with_received false s).
Lemma wp_start a ticks s (Q : () → clocks H → Prop) : local_apic_at a s → Q () (counting a ticks s) →
  wp (update_lvt unmask_one_shot;; modify (with_received false);; write_local local.InitialCount ticks) Q s.
Proof.
  intros Ha HQ. unfold update_lvt. rewrite !wp_bind. apply (wp_read_local a local.LvtTimer 0x320 true); [done|done|lia|].
  apply (wp_write_local a local.LvtTimer 0x320 true); [done|done|lia|]. rewrite wp_bind, wp_modify.
  apply (wp_write_local a local.InitialCount 0x380 true); [done|done|lia|].
  unfold counting, started in HQ. destruct (read_volatile (a + 0x320) (clock_devices s)) eqn:E. destruct s. exact HQ.
Qed.
Lemma start_run a ticks (k : M (clocks H) ()) s : local_apic_at a s →
  (update_lvt unmask_one_shot;; modify (with_received false);; write_local local.InitialCount ticks;; k) s = k (counting a ticks s).
Proof.
  intros Ha. pose proof (wp_start a ticks s (λ _ s', s' = counting a ticks s) Ha eq_refl) as ([] & s' & E & ->)%wp_returns.
  rewrite <-(bind_step _ (λ _, k) _ _ _ E), !bind_assoc. apply bind_ext; [done|]. intros [] st. by rewrite !bind_assoc.
Qed.
(** A sleep, up to its wait. *)
Lemma sleep_ms_run a time_ms fuel s : local_apic_at a s → can_count time_ms s →
  sleep_ms fuel time_ms s = (wait_until fuel (λ s, interrupt_received (local_apic_info s));; modify (with_received false))
    (counting a (ticks_of time_ms s) s).
Proof.
  intros Ha Hc. unfold sleep_ms. apply bind_wp. apply wp_apic_ticks; [done|]. by apply start_run.
Qed.
(** [set_interrupt_type] gives the vector of the timer the descriptor of [sleep_handler]. *)
Lemma gate_insert idts i handler v : 0 ≤ i < Z.of_nat (length idts) → 0 ≤ handler < 2 ^ 64 →
  gate (<[Z.to_nat i := handler_entry handler]> idts) v = if v =? 128 + i then Some handler else gate idts v.
Proof.
  intros Hi Hh. unfold gate. destruct (Z.leb_spec 128 v) as [Hv|Hv].
  - destruct (Z.eqb_spec v (128 + i)) as [->|Hne].
    + replace (128 + i - 128) with i by lia. rewrite list_lookup_insert_eq by lia. cbn [mbind option_bind].
      change (idt.present _) with true. cbn iota. unfold handler_entry. by rewrite handler_of_entry.
    + by rewrite list_lookup_insert_ne by lia.
  - by rewrite (proj2 (Z.eqb_neq _ _)) by lia.
Qed.
Lemma wp_set_interrupt_type i s (Q : () → clocks H → Prop) :
  interrupt_idt_index (local_apic_info s) = Some i → i < Z.of_nat (length (apic_interrupts (irq s))) →
  Q () (with_irq (set_apic_interrupts (<[Z.to_nat i := handler_entry sleep_handler_address]> (apic_interrupts (irq s))) (irq s)) s) →
  wp (set_interrupt_type Sleep) Q s.
Proof.
  intros Hi Hlt HQ. unfold set_interrupt_type. rewrite wp_bind, wp_get, wp_bind, wp_unwrap. exists i. split; [done|].
  rewrite wp_bind, wp_lift. exists (handler_entry sleep_handler_address). split; [done|].
  rewrite wp_bind, wp_rassert. split; [by apply Z.ltb_lt|]. unfold on_irq. by rewrite wp_zoom, wp_modify.
Qed.
(** C30: [sleep_ms] programs the timer, once, with the ticks for the requested
    time, and then waits for an interrupt whose descriptor has the code of
    [sleep_handler]. As long as all that arrive have descriptors of the two
    handlers the kernel installs:
    - With such an interrupt it returns: it ends with the first batch that has
      one, has run the handler of every interrupt up to then, each of which
      signals its end to the local APIC, and leaves later interrupts alone.
    - Without such an interrupt it does not return, with any fuel, even if there
      are others.
    - An interrupt before that whose descriptor is not present makes the kernel
      panic, whatever else comes in the same batch.
    - The descriptor is the one [set_interrupt_type] installs: it gives the
      vector of the timer the code of [sleep_handler], and keeps all others. *)
Theorem sleep_ms_correct (s : clocks H) a time_ms :
  local_apic_at a s → can_count time_ms s →
  let idts := apic_interrupts (irq s) in
  let sleeps vs := hits idts sleep_handler_address vs in
  (∀ before batch rest fuel, arrivals s = before ++ batch :: rest → wakes idts sleep_handler_address before batch →
    (length before + 1 < fuel)%nat →
    ∃ s', sleep_ms fuel time_ms s = Returns ((), s') ∧ arrivals s' = rest ∧
      interrupt_received (local_apic_info s') = false ∧
      clock_devices s' = eois a (length (concat before ++ batch)) (started a (ticks_of time_ms s) (clock_devices s)) ∧
      timer_us_numerator (local_apic_info s') = timer_us_numerator (local_apic_info s) ∧
      timer_us_denominator (local_apic_info s') = timer_us_denominator (local_apic_info s)) ∧
  (∀ fuel, Forall (handled idts) (concat (arrivals s)) → Forall (λ vs, sleeps vs = false) (arrivals s) →
    sleep_ms fuel time_ms s = OutOfFuel) ∧
  (∀ before vs v ws rest fuel, arrivals s = before ++ (vs ++ v :: ws) :: rest → Forall (handled idts) (concat before ++ vs) →
    Forall (λ vs, sleeps vs = false) before → gate idts v = None → (length before < fuel)%nat →
    sleep_ms fuel time_ms s = Panics) ∧
  (∀ i, interrupt_idt_index (local_apic_info s) = Some i → 0 ≤ i < Z.of_nat (length idts) →
    ∃ s', set_interrupt_type Sleep s = Returns ((), s') ∧
      ∀ v, gate (apic_interrupts (irq s')) v = if v =? 128 + i then Some sleep_handler_address else gate idts v).
Proof.
  intros Ha Hc idts sleeps. split; [|split; [|split]].
  - intros before batch rest fuel Harr Hw Hf. apply wp_unit_returns. eapply wp_eq; [by apply (sleep_ms_run a)|].
    rewrite wp_bind. eapply (wp_wait a _ _ before batch rest); [exact flag_received|done|done|done|done|done|].
    rewrite wp_modify. by destruct s.
  - intros fuel Hh Hno. rewrite (sleep_ms_run a) by done. unfold mbind, M_bind.
    by rewrite (wait_forever a _ _ _ _ flag_received).
  - intros before vs v ws rest fuel Harr Hh Hno Hv Hf. rewrite (sleep_ms_run a) by done. apply bind_panics.
    by apply (wait_panics a _ _ before vs v ws rest _ _ flag_received).
  - intros i Hi Hlt. apply wp_unit_returns. apply (wp_set_interrupt_type i); [done|apply Hlt|]. intros v.
    apply gate_insert; [done|apply sleep_handler_fits].
Qed.
(** What is read back of a countdown of [time_ms] at [count] ticks. *)
Lemma remaining_bounds n d time_ms count :
  0 ≤ time_ms → 0 < d ≤ n → n * (time_ms * 1000) < 2 ^ 64 → 0 ≤ count ≤ n * (time_ms * 1000) / d →
  let r := count * d / n / 1000 in
  0 ≤ r ≤ time_ms ∧ (count = n * (time_ms * 1000) / d → time_ms - 1 ≤ r) ∧ 0 ≤ count * d < 2 ^ 64.
Proof.
  intros Ht Hd Hp Hcount r. set (P := n * (time_ms * 1000)) in *. pose proof (Z.mul_div_le P d ltac:(lia)) as Hle.
  pose proof (Z.mul_succ_div_gt P d ltac:(lia)) as Hgt. set (q := P / d) in *.
  assert (count * d / n ≤ time_ms * 1000) as Hup by (apply Z.div_le_upper_bound; [lia|]; unfold P in *; nia).
  split; [|split; [|nia]].
  - split; [apply Z.div_pos; [apply Z.div_pos; [nia|lia]|lia]|]. apply Z.div_le_upper_bound; lia.
  - intros ->. assert (time_ms * 1000 - 1 ≤ q * d / n) as Hl by (apply Z.div_le_lower_bound; [lia|]; unfold P in *; nia).
    apply Z.div_le_lower_bound; lia.
Qed.
Lemma wp_countdown_remaining a count h s (Q : Z → clocks H → Prop) :
  let i := local_apic_info s in
  local_apic_at a s → read_volatile (a + 0x390) (clock_devices s) = (count, h) →
  0 ≤ count * timer_us_denominator i < 2 ^ 64 → timer_us_numerator i ≠ 0 →
  Q (trunc 32 (count * timer_us_denominator i / timer_us_numerator i / 1000)) (with_clock_devices h s) →
  wp countdown_remaining_ms Q s.
Proof.
  intros i Ha Hread Hfit Hn HQ. unfold countdown_remaining_ms. rewrite wp_bind, wp_get, wp_bind.
  apply (wp_read_local a local.CurrentCount 0x390 false); [done|done|lia|]. rewrite Hread. cbn [fst snd].
  rewrite wp_bind, wp_chk. split; [done|]. rewrite wp_bind, wp_rassert. split; [by rewrite (proj2 (Z.eqb_neq _ _))|].
  by rewrite wp_ret.
Qed.
(** C40: A countdown runs within its bounds. When the timer makes at least one
    tick per microsecond and the ticks for the time fit its register,
    [start_countdown_ms] writes to the local APIC exactly what [started] says:
    the timer unmasked, in one-shot mode, and the initial count [ticks], the
    rounded-down [numerator * time_ms * 1000 / denominator]. The countdown has
    not ended then, and it has once the handler of the timer has run. In
    between, whatever the devices have become: at a current count of at most
    [ticks], [countdown_remaining_ms] changes nothing else and never shows more
    than the requested time; at [ticks], less than one millisecond is lost. *)
Theorem countdown_bounds (s : clocks H) a time_ms :
  let i := local_apic_info s in
  let ticks := timer_us_numerator i * (time_ms * 1000) / timer_us_denominator i in
  can_count time_ms s → time_ms < 2 ^ 32 → timer_us_denominator i ≤ timer_us_numerator i → ticks < 2 ^ 32 → local_apic_at a s →
  ∃ s1, start_countdown_ms time_ms s = Returns ((), s1) ∧ clock_devices s1 = started a ticks (clock_devices s) ∧
    countdown_ended s1 = Returns (false, s1) ∧
    (∀ v, gate (apic_interrupts (irq s)) v = Some sleep_handler_address →
      ∃ s2, interrupt v s1 = Returns ((), s2) ∧ countdown_ended s2 = Returns (true, s2)) ∧
    (∀ h count h', read_volatile (a + 0x390) h = (count, h') → 0 ≤ count ≤ ticks →
      ∃ remaining, countdown_remaining_ms (with_clock_devices h s1) = Returns (remaining, with_clock_devices h' s1) ∧
        remaining = count * timer_us_denominator i / timer_us_numerator i / 1000 ∧ 0 ≤ remaining ≤ time_ms ∧
        (count = ticks → time_ms - 1 ≤ remaining)).
Proof.
  intros i ticks Hc Ht Hdn Hq Ha. pose proof Hc as (Ht0 & Hn0 & Hd0 & Hus & Hp). fold i in Hn0, Hd0, Hp.
  assert (ticks_of time_ms s = ticks) as Eticks.
  { unfold ticks_of, trunc. apply Z.mod_small. split; [apply Z.div_pos; [nia|done]|done]. }
  exists (counting a ticks s). split; [|split; [done|split; [done|split]]].
  - assert (wp (start_countdown_ms time_ms) (λ _ s', s' = counting a ticks s) s) as Hw.
    { unfold start_countdown_ms. rewrite wp_bind. apply wp_apic_ticks; [done|]. rewrite Eticks. by apply (wp_start a). }
    by apply wp_returns in Hw as ([] & s' & -> & ->).
  - intros v Hv. destruct (wp_unit_returns (interrupt v) (λ s2, countdown_ended s2 = Returns (true, s2)) (counting a ticks s))
      as (s2 & E & He); [|by exists s2].
    apply (wp_interrupt a); [done|by left|]. unfold countdown_ended, gets. do 2 f_equal.
    unfold after_batch. rewrite !hits_one. cbn. by rewrite bool_decide_eq_true_2.
  - intros h count h' Hread Hcount.
    destruct (remaining_bounds (timer_us_numerator i) (timer_us_denominator i) time_ms count) as (Hr & Hlow & Hfit); [lia|lia|done|done|].
    eexists. split; [|split; [reflexivity|by split]].
    assert (wp countdown_remaining_ms (λ x s', x = count * timer_us_denominator i / timer_us_numerator i / 1000 ∧
      s' = with_clock_devices h' (counting a ticks s)) (with_clock_devices h (counting a ticks s))) as Hw.
    { apply (wp_countdown_remaining a count h'); [done|by destruct s|done|fold i; cbn; fold i; lia|].
      split; [|by destruct s]. unfold trunc. apply Z.mod_small. cbn. fold i. lia. }
    by apply wp_returns in Hw as (x & s' & -> & -> & ->).
Qed.
End correctness.

(** ** A timer to run the theorems on *)
#[local] Instance plain_registers : Mmio (Z → Z) := {
  write_volatile a v h := λ x, if x =? a then v else h x;
  read_volatile a h := (h a, h);
}.
#[local] Instance no_devices : PortDevices := λ _ _, 0.
#[export] Program Instance demo_handlers : Handlers := {
  sleep_handler_address := 0xFFFFFFFF80001000;
  sleep_handler_apic_address := 0xFFFFFFFF80002000;
}.
Next Obligation. done. Qed.
Next Obligation. done. Qed.
Next Obligation. done. Qed.
(** The timer has vector 129; vector 130 is that of the RTC; others have no descriptor. *)
Definition demo_irq : Interrupts.sys (Z → Z) :=
  {| ACTIVE_IO_INTERRUPT_SYSTEM := Some Interrupts.Apic; LEGACY_IRQS := []; STATE := None; local_apic := Some 0xFEE00000;
     apic_interrupts := [idt.missing; handler_entry sleep_handler_address; handler_entry sleep_handler_apic_address; idt.missing];
     devices := λ a, if a =? 0xFEE00390 then 62500 else 0 |}.
(** 62500 ticks per millisecond: the RTC slept 62500 microseconds, and the timer
    made 3906250 ticks.  The processor is woken twice before the timer interrupts. *)
Definition demo_clocks : clocks (Z → Z) :=
  Clocks demo_irq (Info (Some 1) 3906250 62500 true) true []
    {| timer_apic := true; timer_hpet := false; timer_pit := false |} {| calibration_timer := RtcCalibration; timer := ApicTimer |}
    [[]; [130]; [130; 129]; [131]].
Lemma sleep_ms_correct_witness :
  ∃ s', sleep_ms 4 1 demo_clocks = Returns ((), s') ∧ arrivals s' = [[131]] ∧
    interrupt_received (local_apic_info s') = false ∧
    clock_devices s' = eois 0xFEE00000 3 (started 0xFEE00000 (ticks_of 1 demo_clocks) (clock_devices demo_clocks)) ∧
    timer_us_numerator (local_apic_info s') = 3906250 ∧ timer_us_denominator (local_apic_info s') = 62500.
Proof.
  pose proof (sleep_ms_correct demo_clocks 0xFEE00000 1) as Hs.
  destruct Hs as (Hs & _); [split; [done|lia]|vm_compute; split_and!; done|].
  apply (Hs [[]; [130]] [130; 129] [[131]] 4%nat); [done| |cbn; lia].
  split.
  - apply Forall_cons; split; [by right|]. apply Forall_cons; split; [by right|]. apply Forall_cons; split; [by left|done].
  - by repeat (apply Forall_cons; split).
  - done.
Defined.
Lemma countdown_bounds_witness :
  ∃ s1, start_countdown_ms 1 demo_clocks = Returns ((), s1) ∧
    clock_devices s1 = started 0xFEE00000 62500 (clock_devices demo_clocks) ∧ countdown_ended s1 = Returns (false, s1) ∧
    ∃ remaining, countdown_remaining_ms (with_clock_devices (devices demo_irq) s1) =
      Returns (remaining, with_clock_devices (devices demo_irq) s1) ∧ 0 ≤ remaining ≤ 1.
Proof.
  destruct (countdown_bounds demo_clocks 0xFEE00000 1) as (s1 & E & Hd & He & _ & Hr);
    [vm_compute; split_and!; done|done|vm_compute; discriminate|vm_compute; reflexivity|split; [done|lia]|].
  exists s1. split; [exact E|]. split; [exact Hd|]. split; [exact He|].
  destruct (Hr (devices demo_irq) 62500 (devices demo_irq)) as (r & Er & _ & Hb & _); [done|vm_compute; split; discriminate|].
  by exists r.
Defined.
