(* ===== verification/Handoff.v ===== *)
(** * From the bootloader to the kernel (kernel/src/arch/x86_64/limine,
    kernel_args.rs and physical_block_allocator.rs)

    [limine_entry] reads the answers of the bootloader, starts a first allocator,
    and hands the kernel its arguments. A slice is its address and its contents.
    What the messages of this stage write to the debug port is left out. *)
From S2P Require Import Prelude Paging PageAlloc Boot Ports Text Terminal Logging.

(** ** One page for each allocation (physical_block_allocator.rs) *)
Module physical_block_allocator.
Inductive AllocError : Type := AllocErr.
Definition allocate (size align : Z) : M world (result Z AllocError) :=
  rassert (align <=? PAGE_SIZE);;
  if PAGE_SIZE <? size then mret (Err AllocErr)
  else
    ptr ← page_allocation.find_and_reserve_page;
    mret match ptr with Ok ptr => Ok ptr | Err _ => Err AllocErr end.
Definition deallocate (ptr : Z) : M world () := page_allocation.free_page ptr.
(** An allocation that fails ends in a panic. *)
Definition allocate_or_panic (size align : Z) : M world Z :=
  ptr ← allocate size align; match ptr with Ok ptr => mret ptr | Err _ => panic end.
(** [PageVec::new_with_max_capacity]: the address and the capacity; nothing is
    allocated for no capacity. *)
Definition new_with_max_capacity (size align : Z) : M world (Z * Z) :=
  rassert (negb (size =? 0));;
  let capacity := PAGE_SIZE / size in
  if capacity =? 0 then mret (align, capacity)
  else ptr ← allocate_or_panic (capacity * size) align; mret (ptr, capacity).
End physical_block_allocator.

(** ** The arguments of the kernel (kernel_args.rs) *)
Module kernel_args.
Record Slice (A : Type) : Type := { ptr : Z; contents : list A }.
Arguments ptr {A} _.
Arguments contents {A} _.
Definition null {A} : Slice A := {| ptr := 0; contents := [] |}.
Record MutSlice : Type := { mut_ptr : Z; mut_len : Z }.
Record MemoryBitmap : Type := { slice : MutSlice; mapped_size : Z }.
Record ArchPointers : Type := { efi_ptr : Z; acpi_ptr : option Z; mp_ptr : Z; smbi_ptr : Z }.
Inductive PtrType : Type := Physical | Linear.
Record ColorBitmask : Type := { red_mask : Z; green_mask : Z; blue_mask : Z; reserved_mask : Z }.
Inductive ColorFormat : Type := Rgbr8 | Bgrr8 | Bitmask (m : ColorBitmask).
Record Framebuffer : Type := {
  fb_ptr : Z; ptr_type : PtrType; size : Z; width : Z; height : Z; scanline_length : Z; color_format : ColorFormat;
}.
#[global] Instance PtrType_eq_dec : EqDecision PtrType.
Proof. solve_decision. Defined.
#[global] Instance ColorBitmask_eq_dec : EqDecision ColorBitmask.
Proof. solve_decision. Defined.
#[global] Instance ColorFormat_eq_dec : EqDecision ColorFormat.
Proof. solve_decision. Defined.
(** The layouts of the structures that are put in a page. *)
Definition size_of_Framebuffer : Z := 48.
Definition size_of_Args : Z := 128.
Record Args : Type := {
  kernel_elf : Slice Z;
  page_table_address : Z;
  environment : Slice Z;
  memory_bitmap : MemoryBitmap;
  initrd : Slice Z;
  arch_ptrs : ArchPointers;
  framebuffers : Slice Framebuffer;
}.
End kernel_args.

(** ** The answers of the bootloader (limine/mod.rs) *)
Module limine.
Inductive FramebufferModel : Type := Rgb.
#[global] Instance FramebufferModel_eq_dec : EqDecision FramebufferModel.
Proof. solve_decision. Defined.
(** The byte of the enum: another value is undefined behaviour. *)
Definition FramebufferModel_read (byte : Z) : outcome FramebufferModel := if byte =? 1 then Returns Rgb else Undefined.
Record Framebuffer : Type := { ptr : Z; width : Z; height : Z; pitch : Z; bpp : Z; memory_model : Z }.
(** The request structures after the bootloader has filled in the responses. *)
Record requests : Type := {
  KERNEL_FILE : option (kernel_args.Slice Z);
  MEMORY_MAP : option (list MemoryMapEntry);
  FRAMEBUFFER : option (list Framebuffer);
  MODULE : option (list (kernel_args.Slice Z));
  EFI_SYSTEM_TABLE : option Z;
  RSDP : option (option Z);
}.
End limine.

(** ** [limine_entry] *)

(** The logging globals, the page allocator, the static for the kernel file, and
    the register cr3. *)
Record loader : Type := Loader {
  logs : machine; pages : world; KERNEL_ELF_FILE : option (kernel_args.Slice Z); cr3 : Z;
}.
Definition on_logs {A} (m : M machine A) : M loader A := zoom logs (λ l s, Loader l (pages s) (KERNEL_ELF_FILE s) (cr3 s)) m.
Definition on_pages {A} (m : M world A) : M loader A := zoom pages (λ p s, Loader (logs s) p (KERNEL_ELF_FILE s) (cr3 s)) m.

(** Is the framebuffer one of those that are passed on? *)
Definition supported (fb : limine.Framebuffer) : outcome bool :=
  if negb (limine.bpp fb =? 32) then Returns false
  else model ← limine.FramebufferModel_read (limine.memory_model fb); Returns (bool_decide (model = limine.Rgb)).
Definition checked32 (x : Z) : outcome Z := if fits 32 x then Returns x else Panics.
Definition to_kernel (fb : limine.Framebuffer) : outcome kernel_args.Framebuffer :=
  let bytes_per_pixel := trunc 32 (limine.bpp fb) / 8 in
  if bytes_per_pixel =? 0 then Panics
  else
    let scanline_length := trunc 32 (limine.pitch fb) / bytes_per_pixel in
    words ← checked32 (scanline_length * trunc 32 (limine.height fb));
    size ← checked32 (words * bytes_per_pixel);
    Returns {| kernel_args.fb_ptr := limine.ptr fb; kernel_args.ptr_type := kernel_args.Linear; kernel_args.size := size;
      kernel_args.width := trunc 32 (limine.width fb); kernel_args.height := trunc 32 (limine.height fb);
      kernel_args.scanline_length := scanline_length; kernel_args.color_format := kernel_args.Bgrr8 |}.
Fixpoint framebuffer_loop (capacity : Z) (fbs : list limine.Framebuffer) (framebuffers : list kernel_args.Framebuffer) :
    outcome (list kernel_args.Framebuffer) :=
  match fbs with
  | [] => Returns framebuffers
  | fb :: rest =>
      ok ← supported fb;
      if negb ok then framebuffer_loop capacity rest framebuffers
      else
        k ← to_kernel fb;
        let framebuffers := framebuffers ++ [k] in
        if Z.of_nat (len framebuffers) =? capacity then Returns framebuffers
        else framebuffer_loop capacity rest framebuffers
  end.
Definition collect_framebuffers (fbs : list limine.Framebuffer) : M world (kernel_args.Slice kernel_args.Framebuffer) :=
  '(ptr, capacity) ← physical_block_allocator.new_with_max_capacity kernel_args.size_of_Framebuffer 8;
  framebuffers ← lift (framebuffer_loop capacity fbs []);
  mret {| kernel_args.ptr := ptr; kernel_args.contents := framebuffers |}.

Section entry.
Context `{PortDevices}.
(** The end of [limine_entry]: the arguments, the page they are in, and what the
    bitmap they point to holds. *)
Definition write_arguments (r : limine.requests) (kernel_file initrd : kernel_args.Slice Z) (bitmap_ptr mappable : Z)
    (framebuffers : kernel_args.Slice kernel_args.Framebuffer) : M loader (kernel_args.Args * Z * list Z) :=
  page_table_address ← on_pages page_allocation.page_table_address;
  bitmap ← on_pages page_allocation.memory_bitmap;
  let args := {|
    kernel_args.kernel_elf := kernel_file;
    kernel_args.page_table_address := page_table_address;
    kernel_args.environment := kernel_args.null;
    kernel_args.memory_bitmap := {|
      kernel_args.slice := {| kernel_args.mut_ptr := bitmap_ptr; kernel_args.mut_len := Z.of_nat (len bitmap) |};
      kernel_args.mapped_size := mappable |};
    kernel_args.initrd := initrd;
    kernel_args.arch_ptrs := {| kernel_args.efi_ptr := default 0 (limine.EFI_SYSTEM_TABLE r);
      kernel_args.acpi_ptr := match limine.RSDP r with Some p => p | None => None end;
      kernel_args.mp_ptr := 0; kernel_args.smbi_ptr := 0 |};
    kernel_args.framebuffers := framebuffers |} in
  args_ptr ← on_pages (physical_block_allocator.allocate_or_panic kernel_args.size_of_Args 8);
  allocator ← on_pages page_allocation.deinit_and_remove;
  allocator ← unwrap allocator;
  mret (args, args_ptr, PageAlloc.memory_bitmap allocator).
Definition limine_entry (r : limine.requests) : M loader (kernel_args.Args * Z * list Z) :=
  on_logs (start_logging LimineDebugLogger);;
  kernel_file ← unwrap (limine.KERNEL_FILE r);
  modify (λ s, Loader (logs s) (pages s) (Some kernel_file) (cr3 s));;
  memory_map ← unwrap (limine.MEMORY_MAP r);
  mappable ← lift (mappable_bytes memory_map);
  '(bitmap_ptr, bitmap, num_pages) ← lift (build_bitmap memory_map);
  s ← get;
  on_pages (page_allocation.init (cr3 s) bitmap num_pages);;
  framebuffers ← (match limine.FRAMEBUFFER r with
                  | Some fbs => on_pages (collect_framebuffers fbs)
                  | None => mret kernel_args.null
                  end);
  modules ← unwrap (limine.MODULE r);
  initrd ← unwrap (head modules);
  write_arguments r kernel_file initrd bitmap_ptr mappable framebuffers.
End entry.

(** ** Reserving pages *)

(** Page [n], the lowest that was free, is in use. *)
Record reserved (pa pa' : PageAllocatorInternal) (n : Z) : Prop := {
  res_ok : alloc_ok pa';
  res_free : page_bit (PageAlloc.memory_bitmap pa) n = false;
  res_lowest : ∀ k, 0 ≤ k < n → page_bit (PageAlloc.memory_bitmap pa) k = true;
  res_bits : ∀ k, 0 ≤ k → page_bit (PageAlloc.memory_bitmap pa') k = (k =? n) || page_bit (PageAlloc.memory_bitmap pa) k;
  res_range : 0 < n < num_bits (PageAlloc.memory_bitmap pa);
  res_size : num_bits (PageAlloc.memory_bitmap pa') = num_bits (PageAlloc.memory_bitmap pa);
  res_count : count_free (PageAlloc.memory_bitmap pa') = count_free (PageAlloc.memory_bitmap pa) - 1;
  res_root : page_table pa' = page_table pa;
}.
Lemma wp_allocator {A} (m : M sys A) (Q : A → world → Prop) w pa : PAGE_ALLOCATOR w = Some pa →
  wp m (λ a s, Q a (World (Some s.(alloc)) s.(ram))) (Sys pa (wram w)) → wp (with_allocator m) Q w.
Proof. intros Hw. unfold wp, with_allocator. rewrite Hw. by destruct (m _) as [[]| | |]. Qed.
Lemma wp_allocate size align w pa (Q : Z → world → Prop) :
  size ≤ PAGE_SIZE → align ≤ PAGE_SIZE → PAGE_ALLOCATOR w = Some pa → alloc_ok pa →
  page_bit (PageAlloc.memory_bitmap pa) 0 = true → 1 ≤ count_free (PageAlloc.memory_bitmap pa) →
  (∀ n pa', reserved pa pa' n → Q (n * PAGE_SIZE) (World (Some pa') (fill (wram w) (n * PAGE_SIZE) PAGE_SIZE 0))) →
  wp (physical_block_allocator.allocate_or_panic size align) Q w.
Proof.
  intros Hs Ha Hw Hok H0 Hfree HQ. unfold physical_block_allocator.allocate_or_panic, physical_block_allocator.allocate.
  rewrite !wp_bind, wp_rassert. split; [by apply Z.leb_le|]. rewrite (proj2 (Z.ltb_ge _ _)) by done. rewrite wp_bind.
  apply (wp_allocator _ _ w pa Hw). eapply wp_mono; [by apply (wp_find_and_reserve_page (Sys pa (wram w)))|].
  intros r s' [Hok' Hr]. rewrite wp_ret. destruct r as [p|e].
  - destruct Hr as (n & -> & Hn & Hc & Hl & Hb & Hnb & Hf & _ & Hpt & Hram). rewrite wp_ret. rewrite Hram. apply HQ.
    cbn [alloc] in *. split; try done. rewrite <-(alloc_count _ Hok), <-(alloc_count _ Hok'). lia.
  - destruct Hr as [_ Hall]. cbn [alloc] in Hall. apply all_used_count in Hall; [lia|apply Hok].
Qed.

(** ** The framebuffers *)
Definition fb_ok (fb : limine.Framebuffer) : Prop :=
  limine.bpp fb = 32 → limine.memory_model fb = 1 ∧
    trunc 32 (limine.pitch fb) / 4 * trunc 32 (limine.height fb) * 4 < 2 ^ 32.
(** The framebuffer the kernel gets: the size is in bytes. *)
Definition kernel_fb (fb : limine.Framebuffer) : kernel_args.Framebuffer :=
  let scanline_length := trunc 32 (limine.pitch fb) / 4 in
  {| kernel_args.fb_ptr := limine.ptr fb; kernel_args.ptr_type := kernel_args.Linear;
     kernel_args.size := scanline_length * trunc 32 (limine.height fb) * 4;
     kernel_args.width := trunc 32 (limine.width fb); kernel_args.height := trunc 32 (limine.height fb);
     kernel_args.scanline_length := scanline_length; kernel_args.color_format := kernel_args.Bgrr8 |}.
Definition kernel_fbs (fbs : list limine.Framebuffer) : list kernel_args.Framebuffer :=
  kernel_fb <$> filter (λ fb, limine.bpp fb = 32) fbs.
Lemma to_kernel_run fb : limine.bpp fb = 32 → fb_ok fb → to_kernel fb = Returns (kernel_fb fb).
Proof.
  intros Hb Hok. destruct (Hok Hb) as [_ Hsize]. unfold to_kernel, checked32, kernel_fb. rewrite Hb.
  change (trunc 32 32 / 8) with 4. cbv zeta. change (4 =? 0) with false. cbv iota.
  pose proof (Z.mod_pos_bound (limine.pitch fb) (2 ^ 32) ltac:(lia)). pose proof (Z.mod_pos_bound (limine.height fb) (2 ^ 32) ltac:(lia)).
  fold (trunc 32 (limine.pitch fb)) (trunc 32 (limine.height fb)) in *.
  assert (0 ≤ trunc 32 (limine.pitch fb) / 4) by (apply Z.div_pos; lia).
  rewrite (proj2 (fits_spec 32 (_ * _))) by nia. cbn [mbind outcome_bind].
  by rewrite (proj2 (fits_spec 32 _)) by nia.
Qed.
Lemma framebuffer_loop_run capacity fbs acc : Forall fb_ok fbs → Z.of_nat (len acc) < capacity →
  framebuffer_loop capacity fbs acc = Returns (take (Z.to_nat capacity) (acc ++ kernel_fbs fbs)).
Proof.
  intros Hok. revert acc. induction Hok as [|fb fbs Hfb _ IH]; intros acc Hlen; cbn [framebuffer_loop].
  { unfold kernel_fbs. cbn. rewrite app_nil_r, take_ge; [done|lia]. }
  unfold supported, kernel_fbs. rewrite filter_cons. destruct (Z.eqb_spec (limine.bpp fb) 32) as [E|E]; cbn [negb].
  2:{ rewrite decide_False by done. by apply IH. }
  rewrite decide_True by done. destruct (Hfb E) as [Hm _]. unfold limine.FramebufferModel_read. rewrite Hm. cbn [mbind outcome_bind].
  change (1 =? 1) with true. cbn [negb bool_decide mbind outcome_bind]. rewrite bool_decide_true by done. cbn [negb].
  rewrite (to_kernel_run fb E Hfb). cbn [mbind outcome_bind fmap list_fmap]. change (list_fmap _ _ kernel_fb ?l) with (kernel_fb <$> l).
  fold (kernel_fbs fbs). rewrite (cons_middle _ acc (kernel_fbs fbs)), app_assoc, length_app. cbn [len].
  destruct (Z.eqb_spec (Z.of_nat (len acc + 1)) capacity) as [<-|Hne].
  - rewrite Nat2Z.id, take_app_le by (rewrite length_app; cbn; lia). by rewrite take_ge by (rewrite length_app; cbn; lia).
  - apply IH. rewrite length_app. cbn. lia.
Qed.

(** ** The handoff *)

(** What the bootloader has to answer: the kernel file, a memory map whose bitmap
    has two free pages and page zero in use, framebuffers whose size fits, and a
    module. *)
Record answers_ok (r : limine.requests) (bm : list Z) : Prop := {
  ans_bitmap : bitmap_ok bm ∧ num_bits bm < 2 ^ 32;
  ans_zero : page_bit bm 0 = true;
  ans_free : 2 ≤ count_free bm;
  ans_fbs : Forall fb_ok (default [] (limine.FRAMEBUFFER r));
}.
Section handoff.
Context `{PortDevices}.
Lemma wp_collect fbs w pa (Q : kernel_args.Slice kernel_args.Framebuffer → world → Prop) :
  Forall fb_ok fbs → PAGE_ALLOCATOR w = Some pa → alloc_ok pa →
  page_bit (PageAlloc.memory_bitmap pa) 0 = true → 1 ≤ count_free (PageAlloc.memory_bitmap pa) →
  (∀ n pa' m, reserved pa pa' n → Q {| kernel_args.ptr := n * PAGE_SIZE; kernel_args.contents := take 85 (kernel_fbs fbs) |}
    (World (Some pa') m)) →
  wp (collect_framebuffers fbs) Q w.
Proof.
  intros Hfbs Hw Hok H0 Hf HQ. unfold collect_framebuffers, physical_block_allocator.new_with_max_capacity.
  rewrite !wp_bind, wp_rassert. split; [done|]. change (PAGE_SIZE / kernel_args.size_of_Framebuffer) with 85.
  change (85 =? 0) with false. cbv iota. rewrite wp_bind.
  apply (wp_allocate _ _ w pa); [done..|]. intros n pa' Hres. rewrite wp_ret, wp_bind, wp_lift.
  exists (take 85 (kernel_fbs fbs)). split; [by apply (framebuffer_loop_run 85 fbs [])|]. rewrite wp_ret. by apply HQ.
Qed.
(** The allocator once the list of framebuffers [fbs] has its page. *)
Record listed (r : limine.requests) (bm : list Z) (root : Z) (fbs : kernel_args.Slice kernel_args.Framebuffer)
    (pa : PageAllocatorInternal) : Prop := {
  listed_ok : alloc_ok pa;
  listed_root : page_table pa = root;
  listed_size : num_bits (PageAlloc.memory_bitmap pa) = num_bits bm;
  listed_free : 1 ≤ count_free (PageAlloc.memory_bitmap pa);
  listed_fbs : kernel_args.contents fbs = take 85 (kernel_fbs (default [] (limine.FRAMEBUFFER r)));
  listed_bits : ∀ k, 0 ≤ k → page_bit (PageAlloc.memory_bitmap pa) k = page_bit bm k ||
    bool_decide (is_Some (limine.FRAMEBUFFER r)) && (k =? kernel_args.ptr fbs / PAGE_SIZE);
}.
(** What the kernel is handed. *)
Record handed_over (r : limine.requests) (s : loader) (kernel_file initrd : kernel_args.Slice Z) (loc mappable : Z)
    (bm : list Z) (args : kernel_args.Args) (args_page : Z) (bm' : list Z) (s' : loader) : Prop := {
  ho_kernel : kernel_args.kernel_elf args = kernel_file ∧ KERNEL_ELF_FILE s' = Some kernel_file;
  ho_initrd : kernel_args.initrd args = initrd;
  ho_root : kernel_args.page_table_address args = address (replace_addr_with ZERO (cr3 s));
  ho_bitmap : kernel_args.memory_bitmap args = {| kernel_args.slice := {| kernel_args.mut_ptr := loc;
      kernel_args.mut_len := Z.of_nat (len bm) |}; kernel_args.mapped_size := mappable |};
  ho_fbs : kernel_args.contents (kernel_args.framebuffers args) = take 85 (kernel_fbs (default [] (limine.FRAMEBUFFER r)));
  ho_logger : CURRENT_LOGGER (logs s') = Some LimineDebugLogger;
  ho_terminal : TERMINAL (logs s') = TERMINAL (logs s);
  ho_allocator : PAGE_ALLOCATOR (pages s') = None;
  ho_bytes : bitmap_ok bm' ∧ num_bits bm' = num_bits bm;
  ho_args_page : page_bit bm args_page = false;
  ho_bits : ∀ k, 0 ≤ k → page_bit bm' k = (k =? args_page) || (page_bit bm k ||
      bool_decide (is_Some (limine.FRAMEBUFFER r)) && (k =? kernel_args.ptr (kernel_args.framebuffers args) / PAGE_SIZE));
}.
Lemma wp_write_arguments r kernel_file initrd loc mappable fbs s0 l pa m bm
    (Q : kernel_args.Args * Z * list Z → loader → Prop) :
  listed r bm (replace_addr_with ZERO (cr3 s0)) fbs pa → page_bit bm 0 = true →
  CURRENT_LOGGER l = Some LimineDebugLogger → TERMINAL l = TERMINAL (logs s0) →
  (∀ args args_page bm' s', handed_over r s0 kernel_file initrd loc mappable bm args args_page bm' s' →
    Q (args, args_page * PAGE_SIZE, bm') s') →
  wp (write_arguments r kernel_file initrd loc mappable fbs) Q (Loader l (World (Some pa) m) (Some kernel_file) (cr3 s0)).
Proof.
  intros [Hok Hroot Hsize Hfree Hfbs Hbits] H0 Hlog Hterm HQ. unfold write_arguments, on_pages.
  rewrite wp_bind, wp_zoom. apply (wp_allocator _ _ (World (Some pa) m) pa); [done|]. rewrite wp_gets.
  rewrite wp_bind, wp_zoom. apply (wp_allocator _ _ (World (Some pa) m) pa); [done|]. rewrite wp_gets.
  rewrite wp_bind, wp_zoom. apply (wp_allocate _ _ (World (Some pa) m) pa); [done..| |done|].
  { by rewrite Hbits, H0 by done. }
  intros p pa' [Hok' Hpf Hpl Hpb Hpr Hps Hpc Hproot]. cbn [alloc wram pages].
  rewrite wp_bind, wp_zoom. unfold page_allocation.deinit_and_remove. rewrite wp_bind, wp_get, wp_bind, wp_modify, wp_ret.
  rewrite wp_bind, wp_unwrap. exists pa'. split; [done|]. rewrite wp_ret. apply HQ. cbn [alloc].
  split; cbn; try done; try by rewrite ?Hroot.
  - do 2 f_equal. unfold num_bits in Hsize. lia.
  - split; [apply Hok'|congruence].
  - rewrite Hbits in Hpf by lia. by apply orb_false_iff in Hpf as [? _].
  - intros k Hk. by rewrite Hpb, Hbits by done.
Qed.

Lemma limine_entry_run (r : limine.requests) (s : loader) kernel_file mm loc bm n initrd modules :
  limine.KERNEL_FILE r = Some kernel_file → limine.MEMORY_MAP r = Some mm → limine.MODULE r = Some (initrd :: modules) →
  build_bitmap mm = Returns (loc, bm, n) → 0 ≤ n → answers_ok r bm → PAGE_ALLOCATOR (pages s) = None →
  ∃ s' args args_page bm' mappable, mappable_bytes mm = Returns mappable ∧
    limine_entry r s = Returns ((args, args_page * PAGE_SIZE, bm'), s') ∧
    handed_over r s kernel_file initrd loc mappable bm args args_page bm' s'.
Proof.
  intros Hkf Hmm Hmod Hbm Hn [[Hbok Hsmall] H0 Hfree Hfbs] Hnone.
  assert (∃ mappable, mappable_bytes mm = Returns mappable) as (mappable & Emap).
  { unfold build_bitmap in Hbm. destruct (mappable_bytes mm); [by eexists|done..]. }
  cut (wp (limine_entry r) (λ '(args, ptr, bm') s', ∃ args_page, ptr = args_page * PAGE_SIZE ∧
    handed_over r s kernel_file initrd loc mappable bm args args_page bm' s') s).
  { intros ([[args ptr] bm'] & s' & E & page & -> & Hp)%wp_returns. by exists s', args, page, bm', mappable. }
  unfold limine_entry, on_logs. rewrite wp_bind, wp_zoom. apply wp_start_logging. intros m' Hlog _ Hterm _ _.
  rewrite Hkf, Hmm, Hmod. rewrite wp_bind, wp_unwrap. eexists. split; [done|]. rewrite wp_bind, wp_modify, wp_bind, wp_unwrap.
  eexists. split; [done|]. rewrite wp_bind, wp_lift. eexists. split; [done|]. rewrite wp_bind, wp_lift. eexists. split; [done|].
  rewrite wp_bind, wp_get, wp_bind. unfold on_pages at 1. rewrite wp_zoom. unfold page_allocation.init. rewrite wp_bind, wp_get.
  cbn [pages]. rewrite Hnone, wp_bind. unfold wp at 1. rewrite new_run by done. rewrite wp_modify. cbn [pages logs KERNEL_ELF_FILE cr3 wram].
  set (pa := new_alloc (cr3 s) n bm).
  assert (alloc_ok pa) as Hpa by (by split).
  assert (∀ fbs pa' m, listed r bm (replace_addr_with ZERO (cr3 s)) fbs pa' →
    wp (modules ← unwrap (Some (initrd :: modules)); initrd ← unwrap (head modules);
        write_arguments r kernel_file initrd loc mappable fbs)
      (λ '(args, ptr, bm') s', ∃ args_page, ptr = args_page * PAGE_SIZE ∧
        handed_over r s kernel_file initrd loc mappable bm args args_page bm' s')
      (Loader m' (World (Some pa') m) (Some kernel_file) (cr3 s))) as Hrest.
  { intros fbs pa' m Hl. rewrite wp_bind, wp_unwrap. eexists. split; [done|]. rewrite wp_bind, wp_unwrap. eexists. split; [done|].
    apply (wp_write_arguments _ _ _ _ _ _ s _ _ _ bm); [done..|]. intros. by eexists. }
  rewrite wp_bind. destruct (limine.FRAMEBUFFER r) as [fbs|] eqn:Efb.
  - unfold on_pages. rewrite wp_zoom. apply (wp_collect fbs _ pa); [by rewrite ?Efb in Hfbs|done|done|done|change (1 ≤ count_free bm); lia|].
    intros p pa' m [Hok Hf Hl Hb Hr Hs Hc Hroot]. cbn [pa new_alloc PageAlloc.memory_bitmap page_table] in *.
    apply Hrest. split; rewrite ?Efb; try done; [lia|]. cbn [default from_option id kernel_args.ptr].
    intros k Hk. rewrite Hb, bool_decide_true, Z.div_mul, orb_comm by (done || by eexists). done.
  - rewrite wp_ret. apply Hrest. split; rewrite ?Efb; try done; [change (1 ≤ count_free bm); lia|].
    intros k Hk. by rewrite bool_decide_false, orb_false_r by (by intros []).
Qed.
(** C31: The bootloader's part hands the kernel what the kernel needs: the kernel
    file and the first module, the translation root of the bootloader, the bitmap
    with the end of memory, and the first 85 framebuffers of 32 bits per pixel.
    The bitmap marks two more pages as used, those that hold the list of
    framebuffers and the arguments, and the allocator is given up. *)
Theorem limine_entry_correct (r : limine.requests) (s : loader) kernel_file mm loc bm n initrd modules :
  limine.KERNEL_FILE r = Some kernel_file → limine.MEMORY_MAP r = Some mm → limine.MODULE r = Some (initrd :: modules) →
  build_bitmap mm = Returns (loc, bm, n) → 0 ≤ n → answers_ok r bm → PAGE_ALLOCATOR (pages s) = None →
  ∃ s' args args_page bm' mappable, mappable_bytes mm = Returns mappable ∧
    limine_entry r s = Returns ((args, args_page * PAGE_SIZE, bm'), s') ∧
    handed_over r s kernel_file initrd loc mappable bm args args_page bm' s'.
Proof. apply limine_entry_run. Qed.
End handoff.

(** A bootloader with 128 MiB of memory and two framebuffers, one of which has 24
    bits per pixel. *)
Definition demo_screen (bpp : Z) : limine.Framebuffer :=
  {| limine.ptr := 0xFFFF8000FD000000; limine.width := 640; limine.height := 2; limine.pitch := 2560; limine.bpp := bpp;
     limine.memory_model := 1 |}.
Definition demo_file (contents : list Z) : kernel_args.Slice Z :=
  {| kernel_args.ptr := 0xFFFF800001000000; kernel_args.contents := contents |}.
Definition demo_requests : limine.requests :=
  {| limine.KERNEL_FILE := Some (demo_file [127]); limine.MEMORY_MAP := Some (demo_map 4096);
     limine.FRAMEBUFFER := Some [demo_screen 24; demo_screen 32]; limine.MODULE := Some [demo_file [1; 2]];
     limine.EFI_SYSTEM_TABLE := None; limine.RSDP := Some None |}.
Definition demo_loader : loader :=
  Loader {| ports := []; BOCHS_WRITER_ENABLED := false; LOG_WRAPPER_INITIALISED := false; CURRENT_LOGGER := None; TERMINAL := None |}
    (World None (λ _, 0)) None 0x3000.
Definition demo_bitmap : list Z := match build_bitmap (demo_map 4096) with Returns (_, bm, _) => bm | _ => [] end.
Lemma demo_answers_ok : answers_ok demo_requests demo_bitmap.
Proof.
  split; [split; [split; [by apply (bool_decide_unpack _); vm_compute|vm_compute; discriminate]|done]|done|vm_compute; discriminate|].
  repeat constructor; done.
Qed.
Lemma limine_entry_correct_witness :
  let H : PortDevices := λ _ _, 0 in
  ∃ s' args args_page bm' mappable, mappable_bytes (demo_map 4096) = Returns mappable ∧
    limine_entry demo_requests demo_loader = Returns ((args, args_page * PAGE_SIZE, bm'), s') ∧
    handed_over demo_requests demo_loader (demo_file [127]) (demo_file [1; 2]) 4096 mappable demo_bitmap args args_page bm' s'.
Proof.
  intros H. apply (limine_entry_correct demo_requests demo_loader (demo_file [127]) (demo_map 4096) 4096 demo_bitmap 32768 (demo_file [1; 2]) []);
    [done|done|done|by vm_compute|done|exact demo_answers_ok|done].
Defined.
