(* ===== verification/Main.v ===== *)
(** * The start of the kernel (kernel/src/main.rs, kernel/src/core_graphics.rs)

    [kernel_main] up to the terminal: it starts the logger and the page allocator
    with the arguments of Handoff.v, looks for the font in the archive of Cpio.v,
    and puts the terminal of Terminal.v behind the logger of Logging.v. *)
From S2P Require Import Prelude Paging PageAlloc Ports Text Terminal Logging Cpio Handoff.
From Stdlib Require Import Ascii.

(** The logging globals with the terminal, the page allocator, and the global
    framebuffer while there is no terminal; a terminal carries it in its own
    record. *)
Record kernel : Type := Kernel { log_state : machine; page_state : world; screen : option Terminal.Framebuffer }.
Definition on_log_state {A} (m : M machine A) : M kernel A := zoom log_state (λ l k, Kernel l (page_state k) (screen k)) m.
Definition on_page_state {A} (m : M world A) : M kernel A := zoom page_state (λ p k, Kernel (log_state k) p (screen k)) m.

(** ** Messages *)
Definition chars (s : String.string) : list Z := (λ a, Z.of_N (N_of_ascii a)) <$> String.list_ascii_of_string s.
Definition number (n : Z) : list Z := format_arg (IntArg n) Display None.
Definition record_of (level text : list Z) : log_record := {| level := level; target := chars "kernel"; args := text |}.
Definition FONT_PATH : list Z := chars "etc/kernel/standard_font.psf".
(** [{:?}] on the colour format. *)
Definition ColorFormat_debug (c : kernel_args.ColorFormat) : list Z :=
  match c with
  | kernel_args.Rgbr8 => chars "Rgbr8"
  | kernel_args.Bgrr8 => chars "Bgrr8"
  | kernel_args.Bitmask m =>
      chars "Bitmask(ColorBitmask { red_mask: " ++ number (kernel_args.red_mask m) ++
      chars ", green_mask: " ++ number (kernel_args.green_mask m) ++ chars ", blue_mask: " ++ number (kernel_args.blue_mask m) ++
      chars ", reserved_mask: " ++ number (kernel_args.reserved_mask m) ++ chars " })"
  end.
Definition font_error_text (e : psf.FontError) : list Z :=
  match e with psf.InvalidMagicError => chars "invalid magic" | psf.InvalidBytesPerGlyph => chars "invalid bytes per glyph" end.

(** ** The framebuffer and the font *)

(** [Framebuffer::clear] on a fresh framebuffer. *)
Definition cleared (fb : Terminal.Framebuffer) : Terminal.Framebuffer :=
  {| buffer := replicate (length (buffer fb)) 0; fb_width := fb_width fb; fb_height := fb_height fb; scanline_length := scanline_length fb |}.
(** [from_raw_parts_mut(ptr, size)]: [vram a] is what may be used from address
    [a] on, in 32-bit words; a slice that is longer is undefined behaviour. *)
Definition framebuffer_of (vram : Z → list Z) (fb : kernel_args.Framebuffer) : outcome Terminal.Framebuffer :=
  let words := vram (kernel_args.fb_ptr fb) in
  if Z.of_nat (length words) <? kernel_args.size fb then Undefined
  else Returns {| buffer := take (Z.to_nat (kernel_args.size fb)) words; fb_width := kernel_args.width fb;
    fb_height := kernel_args.height fb; scanline_length := kernel_args.scanline_length fb |}.
Definition load_font (initrd : list Z) : outcome (result psf.Font (list Z)) :=
  file ← find_file initrd FONT_PATH;
  match file with
  | None => Returns (Err (chars "file not found"))
  | Some font_file =>
      font ← psf.Font_new font_file;
      Returns match font with Ok font => Ok font | Err e => Err (font_error_text e) end
  end.

Section kernel_main.
Context `{PortDevices}.
Definition debug (text : list Z) : M kernel () := on_log_state (LogWrapper_log (record_of (chars "DEBUG") text)).
Definition warn (text : list Z) : M kernel () := on_log_state (LogWrapper_log (record_of (chars "WARN") text)).
Definition report_framebuffers (n : Z) : M kernel () :=
  if n =? 1 then debug (chars "1 framebuffer found, initialising...")
  else warn (number n ++ chars " framebuffers found, but 9x currently only supports using a single framebuffer").
(** Creating the terminal; [front_ok] and [back_ok] say whether the heap has room
    for its buffers. *)
Definition start_terminal (font : psf.Font) (front_ok back_ok : bool) : M kernel () :=
  k ← get;
  terminal ← lift (Terminal_new (screen k) font front_ok back_ok);
  match terminal with
  | Err _ => panic
  | Ok t => on_log_state (modify (set_terminal (Some t)))
  end.
(** The block ['fb_log]; leaving it early is a plain return. *)
Definition framebuffer_logging (vram : Z → list Z) (front_ok back_ok : bool) (framebuffers : list kernel_args.Framebuffer)
    (initrd : list Z) : M kernel () :=
  match framebuffers with
  | [] => debug (chars "No framebuffer found")
  | fb :: _ =>
      report_framebuffers (Z.of_nat (length framebuffers));;
      rassert (0xF000000000000000 <? kernel_args.fb_ptr fb);;
      if negb (bool_decide (kernel_args.ptr_type fb = kernel_args.Linear)) then
        warn (chars "Physical location framebuffers currently unsupported")
      else if negb (bool_decide (kernel_args.color_format fb = kernel_args.Bgrr8)) then
        warn (chars "Unsupported framebuffer format: " ++ ColorFormat_debug (kernel_args.color_format fb) ++
          chars ", ignoring provided framebuffer")
      else
        new_framebuffer ← lift (framebuffer_of vram fb);
        modify (λ k, Kernel (log_state k) (page_state k) (Some (cleared new_framebuffer)));;
        font_result ← lift (load_font initrd);
        match font_result with
        | Err err_msg => warn (chars "Terminal initialisation failed - font load error: " ++ [34] ++ err_msg ++ [34])
        | Ok font => start_terminal font front_ok back_ok;; debug (chars "Framebuffer terminal initialised")
        end
  end.
(** [kernel_main] before the first architecture stage; [bitmap] is what the slice
    of the arguments points to. *)
Definition kernel_main_early (args : kernel_args.Args) (bitmap : list Z) : M kernel () :=
  on_log_state (start_logging KernelLogger);;
  debug (chars "Early logging initialised");;
  on_page_state (page_allocation.init (kernel_args.page_table_address args) bitmap
    (kernel_args.mapped_size (kernel_args.memory_bitmap args)));;
  debug (chars "Page allocator initialised").
(** The check of the archive and the block, after the heap is there. *)
Definition kernel_main_screen (vram : Z → list Z) (front_ok back_ok : bool) (args : kernel_args.Args) : M kernel () :=
  rassert (0xF000000000000000 <? kernel_args.ptr (kernel_args.initrd args));;
  framebuffer_logging vram front_ok back_ok (kernel_args.contents (kernel_args.framebuffers args))
    (kernel_args.contents (kernel_args.initrd args)).
End kernel_main.

(** ** Messages never fail *)
Definition ascii_font (fn : psf.Font) : Prop := ∀ c, 32 ≤ c < 127 → drawable fn c.
Definition plain (l : list Z) : bool := forallb (λ c, (c =? 10) || (32 <=? c) && (c <? 127)) l.
Lemma plain_printable fn l : ascii_font fn → plain l = true → Forall (printable fn) l.
Proof.
  intros Hfn Hl. apply Forall_forall. intros c Hc. unfold plain in Hl. rewrite forallb_forall in Hl.
  specialize (Hl c ltac:(by apply list_elem_of_In)). apply orb_true_iff in Hl as [E%Z.eqb_eq|E].
  - split; [lia|by left].
  - apply andb_true_iff in E as [E1%Z.leb_le E2%Z.ltb_lt]. split; [lia|]. do 3 right. by apply Hfn.
Qed.
Section messages.
Context `{PortDevices}.
Variable fn : psf.Font.
Lemma wp_message r k (Q : () → kernel → Prop) :
  terminal_ok fn (log_state k) → (is_Some (TERMINAL (log_state k)) → printable_record fn r) →
  (∀ m', logged fn r (log_state k) m' → Q () (Kernel m' (page_state k) (screen k))) →
  wp (on_log_state (LogWrapper_log r)) Q k.
Proof.
  intros Ht Hp HQ. unfold on_log_state. rewrite wp_zoom. eapply wp_mono; [by apply (wp_log fn)|]. intros []. apply HQ.
Qed.
(** Before there is a terminal. *)
Lemma wp_early_message r k (Q : () → kernel → Prop) :
  TERMINAL (log_state k) = None →
  (∀ m', TERMINAL m' = None → CURRENT_LOGGER m' = CURRENT_LOGGER (log_state k) →
    BOCHS_WRITER_ENABLED m' = BOCHS_WRITER_ENABLED (log_state k) → Q () (Kernel m' (page_state k) (screen k))) →
  wp (on_log_state (LogWrapper_log r)) Q k.
Proof.
  intros Hnone HQ. apply wp_message.
  - intros t Ht. congruence.
  - rewrite Hnone. by intros [].
  - intros m' [_ [H1 H2] _ H3]. apply HQ; [|done|done]. rewrite Hnone in H3.
    by destruct (CURRENT_LOGGER (log_state k)) as [[]|].
Qed.

(** ** The terminal *)
Lemma wp_report n k (Q : () → kernel → Prop) :
  TERMINAL (log_state k) = None →
  (∀ m', TERMINAL m' = None → CURRENT_LOGGER m' = CURRENT_LOGGER (log_state k) →
    BOCHS_WRITER_ENABLED m' = BOCHS_WRITER_ENABLED (log_state k) → Q () (Kernel m' (page_state k) (screen k))) →
  wp (report_framebuffers n) Q k.
Proof. intros Hnone HQ. unfold report_framebuffers. destruct (n =? 1); by apply wp_early_message. Qed.
Lemma wp_start_terminal fb k (Q : () → kernel → Prop) :
  screen k = Some fb → screen_ok fn fb → buffer fb = replicate (length (buffer fb)) 0 →
  (∀ t, writable fn t → width t = fb_width fb / 8 → height t = fb_height fb / psf.height (psf.header fn) →
    Q () (Kernel (set_terminal (Some t) (log_state k)) (page_state k) (screen k))) →
  wp (start_terminal fn true true) Q k.
Proof.
  intros Hfb Hok Hblack HQ. destruct (Terminal_new_writable fn fb Hok Hblack) as (t & Enew & Ht & Hw & Hh).
  unfold start_terminal. rewrite wp_bind, wp_get, wp_bind, wp_lift, Hfb. eexists. split; [exact Enew|].
  unfold on_log_state. rewrite wp_zoom, wp_modify. by apply HQ.
Qed.
End messages.

(** Without a terminal the font does not matter. *)
Definition any_font : psf.Font := {| psf.header := psf.Build_Header 0 0 0 0 0 0 0 0; psf.font_data := [] |}.
Section correctness.
Context `{PortDevices}.
(** What the kernel needs for a terminal: a first framebuffer that is linear, of the
    format it supports and with as many words behind it as its size says, and a
    font in the archive that has glyphs for ASCII and fits the screen. *)
Record can_show (vram : Z → list Z) (initrd : list Z) (fb : kernel_args.Framebuffer) (fn : psf.Font) : Prop := {
  show_ptr : 0xF000000000000000 < kernel_args.fb_ptr fb;
  show_linear : kernel_args.ptr_type fb = kernel_args.Linear;
  show_format : kernel_args.color_format fb = kernel_args.Bgrr8;
  show_size : 0 ≤ kernel_args.size fb ≤ Z.of_nat (length (vram (kernel_args.fb_ptr fb)));
  show_font : ∃ file, find_file initrd FONT_PATH = Returns (Some file) ∧ psf.Font_new file = Returns (Ok fn);
  show_ascii : ascii_font fn;
  show_screen : ∀ words, Z.of_nat (length words) = kernel_args.size fb → screen_ok fn {| buffer := words;
    fb_width := kernel_args.width fb; fb_height := kernel_args.height fb; scanline_length := kernel_args.scanline_length fb |};
}.
Lemma wp_framebuffer_logging k vram fb rest initrd fn (Q : () → kernel → Prop) :
  TERMINAL (log_state k) = None → CURRENT_LOGGER (log_state k) = Some KernelLogger → can_show vram initrd fb fn →
  (∀ k' t, TERMINAL (log_state k') = Some t → writable fn t → CURRENT_LOGGER (log_state k') = Some KernelLogger →
    page_state k' = page_state k → Q () k') →
  wp (framebuffer_logging vram true true (fb :: rest) initrd) Q k.
Proof.
  intros Hnone Hlog [Hptr Hlin Hfmt Hsize (file & Hfile & Hfont) Hascii Hscreen] HQ.
  unfold framebuffer_logging. rewrite wp_bind. apply (wp_report fn); [done|]. intros m1 Hn1 Hl1 _.
  rewrite wp_bind, wp_rassert. split; [by apply Z.ltb_lt|]. rewrite !bool_decide_true by done. cbn [negb].
  rewrite wp_bind, wp_lift. unfold framebuffer_of. rewrite (proj2 (Z.ltb_ge _ _)) by lia. eexists. split; [done|].
  set (words := take _ _).
  assert (Z.of_nat (length words) = kernel_args.size fb) as Hwords by (unfold words; rewrite length_take; lia).
  rewrite wp_bind, wp_modify, wp_bind, wp_lift. unfold load_font. rewrite Hfile. cbn [mbind outcome_bind]. rewrite Hfont.
  eexists. split; [done|]. cbn iota. rewrite wp_bind. eapply wp_start_terminal; [done| |by cbn; rewrite length_replicate|].
  { apply Hscreen. by rewrite length_replicate. }
  intros t Ht _ _. apply (wp_message fn).
  - intros t' [= <-]. exact Ht.
  - intros _. by apply plain_printable.
  - intros m2 [Ht2 [Hl2 _] _ Hs2]. cbn [log_state] in *. cbn in Hl2, Hs2. rewrite Hl1, Hlog in Hl2, Hs2.
    destruct Hs2 as (t2 & _ & Et2). by apply (HQ _ t2); [|apply Ht2|..].
Qed.
(** The kernel's terminal comes up: when it can be shown, the block returns with
    a terminal of that font in its normal state behind the kernel's logger, and the
    page allocator is untouched, however many framebuffers follow the first. *)
Theorem framebuffer_logging_correct (k : kernel) (vram : Z → list Z) fb rest initrd fn :
  TERMINAL (log_state k) = None → CURRENT_LOGGER (log_state k) = Some KernelLogger → can_show vram initrd fb fn →
  ∃ k' t, framebuffer_logging vram true true (fb :: rest) initrd k = Returns ((), k') ∧
    TERMINAL (log_state k') = Some t ∧ writable fn t ∧ CURRENT_LOGGER (log_state k') = Some KernelLogger ∧
    page_state k' = page_state k.
Proof.
  intros Hnone Hlog Hshow.
  cut (wp (framebuffer_logging vram true true (fb :: rest) initrd) (λ _ k', ∃ t, TERMINAL (log_state k') = Some t ∧
    writable fn t ∧ CURRENT_LOGGER (log_state k') = Some KernelLogger ∧ page_state k' = page_state k) k).
  { intros ([] & k' & E & t & Hk)%wp_returns. by exists k', t. }
  apply (wp_framebuffer_logging _ _ _ _ _ fn); [done..|]. intros k' t H1 H2 H3 H4. by exists t.
Qed.

(** A supported framebuffer with fewer words behind it than its size in bytes. *)
Lemma short_framebuffer (k : kernel) (vram : Z → list Z) fb rest initrd front_ok back_ok :
  TERMINAL (log_state k) = None → 0xF000000000000000 < kernel_args.fb_ptr fb →
  kernel_args.ptr_type fb = kernel_args.Linear → kernel_args.color_format fb = kernel_args.Bgrr8 →
  Z.of_nat (length (vram (kernel_args.fb_ptr fb))) < kernel_args.size fb →
  framebuffer_logging vram front_ok back_ok (fb :: rest) initrd k = Undefined.
Proof.
  intros Hnone Hptr Hlin Hfmt Hlen. unfold framebuffer_logging. apply bind_wp. apply (wp_report any_font); [done|]. intros m1 _ _ _.
  apply bind_wp. rewrite wp_rassert. split; [by apply Z.ltb_lt|]. rewrite !bool_decide_true by done. cbn [negb].
  unfold framebuffer_of. by rewrite (proj2 (Z.ltb_lt _ _)).
Qed.
(** The size of a framebuffer is a number of bytes where it is handed over and
    a number of 32-bit words where it is used: for every framebuffer that comes
    from the bootloader's part, if the memory behind it is just the framebuffer,
    its lines times its height in words, the kernel makes a slice that is four
    times too long, which is undefined behaviour. *)
Theorem framebuffer_size_in_bytes (k : kernel) (vram : Z → list Z) (lfb : limine.Framebuffer) rest initrd front_ok back_ok :
  let fb := kernel_fb lfb in
  TERMINAL (log_state k) = None → 0xF000000000000000 < limine.ptr lfb →
  0 < kernel_args.scanline_length fb * kernel_args.height fb →
  Z.of_nat (length (vram (limine.ptr lfb))) = kernel_args.scanline_length fb * kernel_args.height fb →
  framebuffer_logging vram front_ok back_ok (fb :: rest) initrd k = Undefined.
Proof.
  intros fb Hnone Hptr Hpos Hlen. subst fb. apply short_framebuffer; [done|done|done|done|].
  change (kernel_args.fb_ptr (kernel_fb lfb)) with (limine.ptr lfb). rewrite Hlen.
  cbn [kernel_fb kernel_args.scanline_length kernel_args.height kernel_args.size] in Hpos |- *. lia.
Qed.

Lemma wp_kernel_main_early args bm k (Q : () → kernel → Prop) :
  TERMINAL (log_state k) = None → PAGE_ALLOCATOR (page_state k) = None → num_bits bm < 2 ^ 32 →
  (∀ m, CURRENT_LOGGER m = Some KernelLogger → TERMINAL m = None →
    Q () (Kernel m (World (Some (new_alloc (kernel_args.page_table_address args)
      (kernel_args.mapped_size (kernel_args.memory_bitmap args)) bm)) (wram (page_state k))) (screen k))) →
  wp (kernel_main_early args bm) Q k.
Proof.
  intros Hterm Hnone Hsmall HQ. unfold kernel_main_early, on_log_state at 1. rewrite wp_bind, wp_zoom.
  apply wp_start_logging. intros m1 Hl1 _ Ht1 _ _.
  rewrite wp_bind. apply (wp_early_message any_font); [by rewrite <-Hterm|]. intros m2 Ht2 Hl2 _.
  rewrite wp_bind. unfold on_page_state. rewrite wp_zoom. unfold page_allocation.init. rewrite wp_bind, wp_get.
  cbn [page_state]. rewrite Hnone, wp_bind. unfold wp at 1. rewrite new_run by lia. rewrite wp_modify.
  apply (wp_early_message any_font); [done|]. intros m3 Ht3 Hl3 _. cbn in Hl2, Hl3. apply HQ; [congruence|done].
Qed.
(** C33: From the bootloader to the kernel's page allocator: the kernel starts with
    the bitmap and the translation root it is handed, and its allocator is in a
    consistent state that counts exactly the free pages of the bitmap. The number
    of pages, though, is the end of memory in BYTES: a page beyond the bitmap
    whose number is below it counts as managed, and freeing it panics. *)
Theorem boot_allocator_correct (r : limine.requests) (s s' : loader) kernel_file initrd loc mappable bm args page bm' :
  handed_over r s kernel_file initrd loc mappable bm args page bm' s' →
  num_bits bm < 2 ^ 32 → 0 ≤ mappable → TERMINAL (logs s') = None →
  ∃ k' pa, kernel_main_early args bm' (Kernel (logs s') (pages s') None) = Returns ((), k') ∧
    PAGE_ALLOCATOR (page_state k') = Some pa ∧ wram (page_state k') = wram (pages s') ∧
    CURRENT_LOGGER (log_state k') = Some KernelLogger ∧ TERMINAL (log_state k') = None ∧
    alloc_ok pa ∧ memory_bitmap pa = bm' ∧ free_pages pa = count_free bm' ∧
    Z.land (page_table pa) ADDR_MASK = Z.land (address (replace_addr_with ZERO (cr3 s))) ADDR_MASK ∧
    total_pages pa = mappable ∧
    ∀ n m, num_bits bm ≤ n < mappable → free_page (n * PAGE_SIZE) (Sys pa m) = Panics.
Proof.
  intros [_ _ Hroot Hbitmap _ _ _ Hnone [Hok Hsize] _ _] Hsmall Hmap Hterm.
  assert (wp (kernel_main_early args bm') (λ _ k', PAGE_ALLOCATOR (page_state k') =
    Some (new_alloc (kernel_args.page_table_address args) mappable bm') ∧
    wram (page_state k') = wram (pages s') ∧ CURRENT_LOGGER (log_state k') = Some KernelLogger ∧
    TERMINAL (log_state k') = None) (Kernel (logs s') (pages s') None)) as ([] & k' & E & H1 & H2 & H3 & H4)%wp_returns.
  { apply wp_kernel_main_early; [done|done|congruence|]. intros m Hl Ht. by rewrite Hbitmap. }
  exists k'. eexists. split; [exact E|]. split; [exact H1|]. split_and!; try done.
  - cbn [new_alloc page_table]. by rewrite new_page_table, Hroot.
  - intros n m Hn. apply free_beyond_bitmap; [|cbn; lia].
    change (0 ≤ num_bits bm' ≤ n). rewrite Hsize. unfold num_bits. split; [lia|apply Hn].
Qed.
End correctness.

(** ** A machine that boots *)
Definition demo_font_file : list Z :=
  [0x72; 0xB5; 0x4A; 0x86; 0; 0; 0; 0; 32; 0; 0; 0; 0; 0; 0; 0; 64; 0; 0; 0; 16; 0; 0; 0; 1; 0; 0; 0; 8; 0; 0; 0] ++ replicate 1040 0.
Definition demo_initrd : list Z := archive_of [{| meta := replicate 53 48; name := FONT_PATH; data := demo_font_file |}].
Definition demo_kernel : kernel :=
  Kernel {| ports := []; BOCHS_WRITER_ENABLED := true; LOG_WRAPPER_INITIALISED := true; CURRENT_LOGGER := Some KernelLogger;
    TERMINAL := None |} (World None (λ _, 0)) None.
Lemma demo_ascii : ascii_font demo_font.
Proof.
  intros c Hc. right.
  assert (forallb (λ c, 1 <=? Z.of_nat (length (psf.get_character demo_font c))) (seqZ 32 95) = true) as E by (vm_compute; done).
  rewrite forallb_forall in E. apply Z.leb_le, (E c), list_elem_of_In, elem_of_seqZ. lia.
Qed.
Lemma demo_can_show : can_show (λ _, replicate 5120 0) demo_initrd (kernel_fb (demo_screen 32)) demo_font.
Proof.
  split; [done..| | |exact demo_ascii|].
  - by vm_compute.
  - exists demo_font_file. split; by vm_compute.
  - intros words Hw. split; cbn -[Z.mul Z.div]; cbn in Hw; try rewrite Hw; done.
Qed.
Lemma framebuffer_logging_correct_witness :
  let H : PortDevices := λ _ _, 0 in
  ∃ k' t, framebuffer_logging (λ _, replicate 5120 0) true true [kernel_fb (demo_screen 32)] demo_initrd demo_kernel = Returns ((), k') ∧
    TERMINAL (log_state k') = Some t ∧ writable demo_font t ∧ CURRENT_LOGGER (log_state k') = Some KernelLogger ∧
    page_state k' = page_state demo_kernel.
Proof.
  intros H. apply (framebuffer_logging_correct demo_kernel (λ _, replicate 5120 0) (kernel_fb (demo_screen 32)) []
    demo_initrd demo_font); [done|done|exact demo_can_show].
Defined.
Lemma framebuffer_size_in_bytes_witness :
  let H : PortDevices := λ _ _, 0 in
  framebuffer_logging (λ _, replicate 1280 0) true true [kernel_fb (demo_screen 32)] demo_initrd demo_kernel = Undefined.
Proof. intros H. apply (framebuffer_size_in_bytes demo_kernel (λ _, replicate 1280 0) (demo_screen 32) []); by vm_compute. Defined.
Lemma boot_allocator_correct_witness :
  let H : PortDevices := λ _ _, 0 in
  ∃ s' args bm' k' pa, kernel_main_early args bm' (Kernel (logs s') (pages s') None) = Returns ((), k') ∧
    PAGE_ALLOCATOR (page_state k') = Some pa ∧ total_pages pa = 0x8000000 ∧ free_page (32768 * PAGE_SIZE) (Sys pa (λ _, 0)) = Panics.
Proof.
  intros H.
  destruct (limine_entry_run demo_requests demo_loader (demo_file [127]) (Boot.demo_map 4096) 4096 demo_bitmap 32768 (demo_file [1; 2]) [])
    as (s' & args & page & bm' & mappable & Emap & E & Hho); [done|done|done|by vm_compute|done|exact demo_answers_ok|done|].
  assert (mappable = 0x8000000) as -> by (vm_compute in Emap; congruence).
  assert (TERMINAL (logs s') = None) as Hterm by (by rewrite (ho_terminal _ _ _ _ _ _ _ _ _ _ _ Hho)).
  destruct (boot_allocator_correct demo_requests demo_loader s' (demo_file [127]) (demo_file [1; 2]) 4096 0x8000000 demo_bitmap
    args page bm' Hho) as (k' & pa & Hk); [by vm_compute|done|done|].
  exists s', args, bm', k', pa. destruct Hk as (Hrun & Hpa & _ & _ & _ & _ & _ & _ & _ & Htot & Hfree).
  split; [exact Hrun|]. split; [exact Hpa|]. split; [exact Htot|]. apply Hfree. split; [by vm_compute|done].
Defined.
