(* ===== verification/Cpu.v ===== *)
(** * The tables of the processor (kernel/src/arch/x86_64/{gdt,tss,idt,cpuid,mod}.rs)

    The descriptor tables the kernel builds and loads, the task state segment, the
    information from CPUID, the model-specific registers and the address checks of
    processes. What the processor makes of the tables is defined from its manual
    and compared with what the kernel puts in. *)
From S2P Require Import Prelude Interrupts.
From Stdlib Require Import Btauto.

(** ** Pointers to descriptor tables (mod.rs) *)
Module DescriptorTablePointer.
(** Ten bytes. *)
Definition new (base limit : Z) : list Z := le_bytes 2 limit ++ le_bytes 8 base.
Definition to_base_and_limit (table : list Z) : Z * Z := (le_value (drop 2 table), le_value (take 2 table)).
End DescriptorTablePointer.

(** ** Segments (gdt.rs) *)
Module SegmentFlags.
Definition WRITABLE : Z := Z.shiftl 1 41.
Definition EXECUTABLE : Z := Z.shiftl 1 43.
Definition USER : Z := Z.shiftl 1 44.
Definition DPL_RING_3 : Z := Z.shiftl 3 45.
Definition PRESENT : Z := Z.shiftl 1 47.
Definition LONG_MODE : Z := Z.shiftl 1 53.
Definition BITS_32 : Z := Z.shiftl 1 54.
Definition PAGE_GRANULARITY : Z := Z.shiftl 1 55.
Definition MAX_LIMIT : Z := Z.lor (Z.shiftl 0xF 48) 0xFFFF.
Definition COMMON : Z := Z.lor (Z.lor (Z.lor (Z.lor USER PRESENT) WRITABLE) PAGE_GRANULARITY) MAX_LIMIT.
Definition KERNEL_DATA : Z := Z.lor COMMON BITS_32.
Definition KERNEL_CODE_32 : Z := Z.lor (Z.lor COMMON EXECUTABLE) BITS_32.
Definition KERNEL_CODE_64 : Z := Z.lor (Z.lor COMMON EXECUTABLE) LONG_MODE.
Definition USER_DATA : Z := Z.lor KERNEL_DATA DPL_RING_3.
Definition USER_CODE_32 : Z := Z.lor KERNEL_CODE_32 DPL_RING_3.
Definition USER_CODE_64 : Z := Z.lor KERNEL_CODE_64 DPL_RING_3.
End SegmentFlags.
Record KernelGdt : Type := {
  null : Z; kernel_code : Z; kernel_data : Z; tss_lower : Z; tss_upper : Z;
  user_code_32 : Z; user_data_32 : Z; user_code_64 : Z; user_data_64 : Z;
}.
Definition KERNEL_GDT : KernelGdt :=
  {| null := 0x000100000000FFFF; kernel_code := SegmentFlags.KERNEL_CODE_64; kernel_data := SegmentFlags.KERNEL_DATA;
     tss_lower := 0; tss_upper := 0; user_code_32 := SegmentFlags.USER_CODE_32; user_data_32 := SegmentFlags.USER_DATA;
     user_code_64 := SegmentFlags.USER_CODE_64; user_data_64 := SegmentFlags.USER_DATA |}.
(** Nine words, rounded up to the alignment of 16 bytes. *)
Definition size_of_KernelGdt : Z := 80.

(** ** The task state segment (tss.rs) *)
Definition STACK_SIZE : Z := 4096.
Definition get_end_address (ptr : Z) : Z := trunc 64 (ptr + Z.land STACK_SIZE (unot 64 0xF)).
(** Where the linker puts the five stacks. *)
Record stacks : Type := { GENERIC : Z; DOUBLE_FAULT : Z; PAGE_FAULT : Z; GENERAL_PROTECTION_FAULT : Z; SYSTEM_CALL_STACK : Z }.
Record KernelTss : Type := {
  system_call : Z; generic : Z; double_fault_stack : Z; page_fault_stack : Z; general_protection_fault_stack : Z;
  iopb_base : Z; iopb : list Z;
}.
(** [offset_of!(KernelTss, iopb)] and the size, rounded up to a multiple of 4. *)
Definition iopb_offset : Z := 110.
Definition size_of_KernelTss : Z := 8304.
Definition KERNEL_TSS (s : stacks) : KernelTss :=
  {| system_call := get_end_address (SYSTEM_CALL_STACK s); generic := get_end_address (GENERIC s);
     double_fault_stack := get_end_address (DOUBLE_FAULT s); page_fault_stack := get_end_address (PAGE_FAULT s);
     general_protection_fault_stack := get_end_address (GENERAL_PROTECTION_FAULT s);
     iopb_base := trunc 16 iopb_offset; iopb := replicate 8192 0xFF |}.
(** The structure in memory, field after field, the reserved ones zero. *)
Definition tss_bytes (t : KernelTss) : list Z :=
  le_bytes 4 0 ++ (le_bytes 8 (system_call t) ++ le_bytes 16 0) ++ le_bytes 8 0 ++
  (le_bytes 8 (generic t) ++ le_bytes 8 (double_fault_stack t) ++ le_bytes 8 (page_fault_stack t) ++
   le_bytes 8 (general_protection_fault_stack t) ++ le_bytes 24 0) ++
  le_bytes 8 0 ++ le_bytes 8 0 ++ le_bytes 2 (iopb_base t) ++ iopb t.
(** [inject_tss_and_load]: the two words of the descriptor, the table with them,
    and the pointer it is loaded with. *)
Definition tss_low (tss_address : Z) : Z :=
  let low := SegmentFlags.PRESENT in
  let low := Z.lor low (Z.shiftl (Z.land tss_address 0xFFFFFF) 16) in
  let low := Z.lor low (Z.shiftl (Z.land tss_address 0xFF000000) 32) in
  let low := Z.lor low (Z.land (size_of_KernelTss - 1) 0xFFFF) in
  Z.lor low (Z.shiftl 9 40).
Definition tss_high (tss_address : Z) : Z := Z.shiftr (Z.land tss_address 0xFFFFFFFF00000000) 32.
Definition inject_tss (tss_address : Z) (g : KernelGdt) : KernelGdt :=
  {| null := null g; kernel_code := kernel_code g; kernel_data := kernel_data g; tss_lower := tss_low tss_address;
     tss_upper := tss_high tss_address; user_code_32 := user_code_32 g; user_data_32 := user_data_32 g;
     user_code_64 := user_code_64 g; user_data_64 := user_data_64 g |}.
Definition gdt_pointer (gdt_address : Z) : list Z := DescriptorTablePointer.new gdt_address (trunc 16 size_of_KernelGdt - 1).

(** ** The interrupt descriptor table (idt.rs) *)
Inductive exception : Type :=
  | divide_by_zero | debug | non_maskable_interrupt | breakpoint | overflow | bound_range_exceeded | invalid_opcode
  | device_not_available | double_fault | invalid_tss | segment_not_present | stack_segment_fault
  | general_protection_fault | page_fault | x87_floating_point | alignment_exception | machine_check
  | simd_floating_point | virtualization | security.
(** The offsets in [InterruptStacks], in pointers. *)
Definition double_fault_index : Z := 8 / 8.
Definition page_fault_index : Z := 16 / 8.
Definition general_protection_fault_index : Z := 24 / 8.
(** [InterruptDescriptorTable::new]; [h] gives the addresses of the handlers. *)
Definition InterruptDescriptorTable_new (h : exception → Z) : outcome (list idt.Entry) :=
  let on_generic x := idt.with_handler_and_generic_stack (h x) in
  e0 ← on_generic divide_by_zero; e1 ← on_generic debug; e2 ← on_generic non_maskable_interrupt;
  e3 ← on_generic breakpoint; e4 ← on_generic overflow; e5 ← on_generic bound_range_exceeded;
  e6 ← on_generic invalid_opcode; e7 ← on_generic device_not_available;
  e8 ← idt.with_handler_and_stack (h double_fault) (trunc 8 double_fault_index);
  e10 ← on_generic invalid_tss; e11 ← on_generic segment_not_present; e12 ← on_generic stack_segment_fault;
  e13 ← idt.with_handler_and_stack (h general_protection_fault) (trunc 8 general_protection_fault_index);
  e14 ← idt.with_handler_and_stack (h page_fault) (trunc 8 page_fault_index);
  e16 ← on_generic x87_floating_point; e17 ← on_generic alignment_exception; e18 ← on_generic machine_check;
  e19 ← on_generic simd_floating_point; e20 ← on_generic virtualization; e30 ← on_generic security;
  Returns ([e0; e1; e2; e3; e4; e5; e6; e7; e8; idt.missing; e10; e11; e12; e13; e14; idt.missing; e16; e17; e18; e19; e20] ++
    replicate 9 idt.missing ++ [e30; idt.missing] ++ replicate 16 idt.missing ++ replicate 80 idt.missing ++
    replicate 128 idt.missing).
Definition size_of_Entry : Z := 16.
(** [InterruptDescriptorTable::load]: the pointer for a table at [address]. *)
Definition idt_pointer (address : Z) (table : list idt.Entry) : list Z :=
  DescriptorTablePointer.new address (trunc 16 (size_of_Entry * Z.of_nat (length table)) - 1).
(** The bit field [PageFaultError]. *)
Definition protection_violation (e : Z) : bool := Z.testbit e 0.
Definition caused_by_write (e : Z) : bool := Z.testbit e 1.
Definition user_mode (e : Z) : bool := Z.testbit e 2.
Definition malformed_table (e : Z) : bool := Z.testbit e 3.
Definition instruction_fetch (e : Z) : bool := Z.testbit e 4.

(** ** CPUID (cpuid.rs) *)
Record CpuidResult : Type := { eax : Z; ebx : Z; ecx : Z; edx : Z }.
(** What the instruction answers for a leaf. *)
Class Cpuid : Type := cpuid : Z → CpuidResult.
Record CpuidInfo : Type := {
  cpu_vendor_id : list Z; local_apic_timer_tsc_deadline : bool; brand_string_bytes : option (list Z); invariant_tsc : bool;
}.
Definition cpuid_result_to_le_bytes (regs : CpuidResult) : list Z :=
  le_bytes 4 (eax regs) ++ le_bytes 4 (ebx regs) ++ le_bytes 4 (ecx regs) ++ le_bytes 4 (edx regs).
Definition generate_info `{Cpuid} : CpuidInfo :=
  let regs := cpuid 0 in
  let standard_maximum_level := eax regs in
  let extended_maximum_level := eax (cpuid 0x80000000) in
  {| cpu_vendor_id := le_bytes 4 (ebx regs) ++ le_bytes 4 (edx regs) ++ le_bytes 4 (ecx regs);
     local_apic_timer_tsc_deadline := (1 <=? standard_maximum_level) && negb (Z.land (ecx (cpuid 1)) 0x1000000 =? 0);
     brand_string_bytes :=
       if 0x80000004 <=? extended_maximum_level
       then Some (cpuid_result_to_le_bytes (cpuid 0x80000002) ++ cpuid_result_to_le_bytes (cpuid 0x80000002) ++
         cpuid_result_to_le_bytes (cpuid 0x80000003))
       else None;
     invariant_tsc := (0x80000007 <=? extended_maximum_level) && negb (Z.land (edx (cpuid 0x80000007)) 0x100 =? 0) |}.
Definition get_info (CPUID_INFO : option CpuidInfo) : outcome CpuidInfo :=
  match CPUID_INFO with Some i => Returns i | None => Panics end.

(** ** Model-specific registers and processes (mod.rs) *)
Module msr.
Definition GS_BASE : Z := 0xC0000101.
(** The state is what the registers hold. *)
Definition read (index : Z) : M (Z → Z) Z := gets (λ regs, trunc 64 (regs index)).
(** The instruction of [msr::write] is RDMSR: the register is read, and the value
    goes nowhere. *)
Definition write (index value : Z) : M (Z → Z) () := mret ().
End msr.
Definition HIGHEST_USER_ADDRESS : Z := 0x00007FFFFFFFFFFF.
Definition STACK_SIZE_LIMIT : Z := Z.shiftl 1 32.
Definition HIGHEST_PROGRAM_SEGMENT_ADDRESS : Z := HIGHEST_USER_ADDRESS - STACK_SIZE_LIMIT.
Definition is_user_address_valid (address : Z) : bool := address <? HIGHEST_USER_ADDRESS.
Definition is_program_segment_address_valid (address : Z) : bool := address <? HIGHEST_PROGRAM_SEGMENT_ADDRESS.

(** ** What the processor reads *)
Lemma pointer_roundtrip base limit : 0 ≤ base < 2 ^ 64 → 0 ≤ limit < 2 ^ 16 →
  DescriptorTablePointer.to_base_and_limit (DescriptorTablePointer.new base limit) = (base, limit).
Proof.
  intros Hb Hl. unfold DescriptorTablePointer.to_base_and_limit, DescriptorTablePointer.new.
  rewrite drop_app_length', take_app_length' by done. rewrite !le_value_bytes.
  by rewrite !Z.mod_small.
Qed.
(** The base and the limit of a system descriptor of two words. *)
Definition descriptor_base (low high : Z) : Z := get_bits low 39 16 + get_bits low 63 56 * 2 ^ 24 + trunc 32 high * 2 ^ 32.
Definition descriptor_limit (low : Z) : Z := get_bits low 15 0 + get_bits low 51 48 * 2 ^ 16.
(** The lower word as a sum of its fields: 137 is the type 9 with the present bit. *)
Lemma tss_low_fields a : 0 ≤ a →
  tss_low a = 8303 + a mod 2 ^ 24 * 2 ^ 16 + 137 * 2 ^ 40 + a / 2 ^ 24 mod 2 ^ 8 * 2 ^ 56.
Proof.
  intros Ha. assert (Z.land a 0xFF000000 = Z.shiftl (a / 2 ^ 24 mod 2 ^ 8) 24) as E.
  { rewrite <-Z.shiftr_div_pow2, <-Z.land_ones by lia. apply Z.bits_inj'. intros i Hi.
    change 0xFF000000 with (Z.shiftl (Z.ones 8) 24). rewrite Z.land_spec, !Z.shiftl_spec by done.
    destruct (decide (i < 24)); [by rewrite !(Z.testbit_neg_r _ (i - 24)), andb_false_r by lia|].
    rewrite Z.land_spec, Z.shiftr_spec by lia. do 2 f_equal. lia. }
  assert (tss_low a = Z.lor (Z.lor (Z.lor 8303 (Z.shiftl (a mod 2 ^ 24) 16)) (Z.shiftl 137 40))
    (Z.shiftl (a / 2 ^ 24 mod 2 ^ 8) 56)) as ->.
  { unfold tss_low. rewrite E, Z.shiftl_shiftl by lia. change (24 + 32) with 56. change 0xFFFFFF with (Z.ones 24). rewrite Z.land_ones by lia.
    change (Z.land (size_of_KernelTss - 1) 0xFFFF) with 8303. change (Z.shiftl 137 40) with (Z.lor SegmentFlags.PRESENT (Z.shiftl 9 40)).
    apply Z.bits_inj'. intros i _. rewrite !Z.lor_spec. btauto. }
  pose proof (Z.mod_pos_bound a (2 ^ 24) ltac:(lia)). pose proof (Z.mod_pos_bound (a / 2 ^ 24) (2 ^ 8) ltac:(lia)).
  rewrite (lor_shiftl_add 16) by lia. rewrite (lor_shiftl_add 40) by lia. by rewrite (lor_shiftl_add 56) by lia.
Qed.
(** C36: The descriptor of the task state segment: for every address of the segment,
    the processor reads that address, the size of the segment, a present and
    available 64-bit task state of privilege level 0, from the two words the kernel
    puts in its table, and finds the table through the pointer it loads. *)
Theorem gdt_tss_correct (tss_address gdt_address : Z) :
  0 ≤ tss_address < 2 ^ 64 → 0 ≤ gdt_address < 2 ^ 64 →
  let g := inject_tss tss_address KERNEL_GDT in
  descriptor_base (tss_lower g) (tss_upper g) = tss_address ∧ descriptor_limit (tss_lower g) = size_of_KernelTss - 1 ∧
  get_bits (tss_lower g) 43 40 = 9 ∧ Z.testbit (tss_lower g) 44 = false ∧ get_bits (tss_lower g) 46 45 = 0 ∧
  Z.testbit (tss_lower g) 47 = true ∧ Z.testbit (tss_lower g) 55 = false ∧ 0 ≤ tss_upper g < 2 ^ 32 ∧
  DescriptorTablePointer.to_base_and_limit (gdt_pointer gdt_address) = (gdt_address, size_of_KernelGdt - 1).
Proof.
  intros Ha Hg g. cbn [g inject_tss tss_lower tss_upper].
  assert (tss_high tss_address = tss_address / 2 ^ 32) as Eh.
  { unfold tss_high. rewrite <-Z.shiftr_div_pow2 by lia. apply Z.bits_inj'. intros i Hi.
    change 0xFFFFFFFF00000000 with (Z.shiftl (Z.ones 32) 32). rewrite !Z.shiftr_spec, Z.land_spec, Z.shiftl_spec by lia.
    replace (i + 32 - 32) with i by lia. rewrite testbit_ones by lia. destruct (Z.ltb_spec i 32); [by rewrite andb_true_r|].
    by rewrite (testbit_above 64) by lia. }
  unfold descriptor_base, descriptor_limit, trunc. rewrite Eh, !get_bits_div, !Z.testbit_eqb by lia.
  rewrite (tss_low_fields tss_address) by lia. change (size_of_KernelTss - 1) with 8303.
  assert (tss_address = tss_address mod 2 ^ 24 + tss_address / 2 ^ 24 mod 2 ^ 8 * 2 ^ 24 + tss_address / 2 ^ 32 * 2 ^ 32) as Ea
    by (Z.div_mod_to_equations; lia).
  assert (0 ≤ tss_address / 2 ^ 32 < 2 ^ 32) as Hz by (Z.div_mod_to_equations; lia).
  pose proof (Z.mod_pos_bound tss_address (2 ^ 24) ltac:(lia)) as Hx. pose proof (Z.mod_pos_bound (tss_address / 2 ^ 24) (2 ^ 8) ltac:(lia)) as Hy.
  set (x := tss_address mod 2 ^ 24) in *. set (y := tss_address / 2 ^ 24 mod 2 ^ 8) in *. set (z := tss_address / 2 ^ 32) in *.
  clearbody x y z. split_and!; try by apply pointer_roundtrip.
  all: rewrite ?Z.eqb_eq, ?Z.eqb_neq; try lia; Z.div_mod_to_equations; lia.
Qed.
Lemma gdt_tss_correct_witness :
  descriptor_base (tss_low 0xFFFFFFFF80123458) (tss_high 0xFFFFFFFF80123458) = 0xFFFFFFFF80123458 ∧
  DescriptorTablePointer.to_base_and_limit (gdt_pointer 0xFFFFFFFF80100010) = (0xFFFFFFFF80100010, 79).
Proof. split; by apply (gdt_tss_correct 0xFFFFFFFF80123458 0xFFFFFFFF80100010). Defined.

(** The 64-bit task state segment of the processor: the stack for privilege level
    zero, the interrupt stacks from 1 to 7, and the base of the map of I/O ports.
    The bytes of the map are checked with the segment limit. *)
Definition field_at (tss : list Z) (offset n : nat) : Z := le_value (take n (drop offset tss)).
Definition privilege_stack (tss : list Z) : Z := field_at tss 4 8.
Definition interrupt_stack (tss : list Z) (index : nat) : Z := field_at tss (36 + 8 * (index - 1)) 8.
Definition io_map_base (tss : list Z) : Z := field_at tss 102 2.
Definition port_allowed (tss : list Z) (limit port : Z) : bool :=
  let byte := io_map_base tss + port / 8 in
  (byte + 1 <=? limit) && negb (Z.testbit (field_at tss (Z.to_nat byte) 2) (port mod 8)).
Definition stacks_ok (s : stacks) : Prop :=
  Forall (λ p, 0 ≤ p < 2 ^ 64 - 4096) [GENERIC s; DOUBLE_FAULT s; PAGE_FAULT s; GENERAL_PROTECTION_FAULT s; SYSTEM_CALL_STACK s].
Lemma get_end_address_run p : 0 ≤ p < 2 ^ 64 - 4096 → get_end_address p = p + 4096.
Proof.
  intros Hp. unfold get_end_address, STACK_SIZE. change (Z.land 4096 (unot 64 15)) with 4096.
  unfold trunc. apply Z.mod_small. lia.
Qed.
Lemma le_value_address v : 0 ≤ v < 2 ^ 64 → le_value (le_bytes 8 v) = v.
Proof. intros Hv. rewrite le_value_bytes. by apply Z.mod_small. Qed.
(** The task state segment: the processor finds the end of the system call stack
    and of the four interrupt stacks at the places the kernel's structure has them.
    The base of the port map is six bytes further on in the structure than the
    processor looks for it: it reads zero there, takes the segment itself as the
    map, and so lets user code use at least the ports below 32, though the map of
    the kernel forbids all ports. *)
Theorem kernel_tss_correct (s : stacks) : stacks_ok s →
  let tss := tss_bytes (KERNEL_TSS s) in
  privilege_stack tss = SYSTEM_CALL_STACK s + STACK_SIZE ∧ interrupt_stack tss 1 = GENERIC s + STACK_SIZE ∧
  interrupt_stack tss 2 = DOUBLE_FAULT s + STACK_SIZE ∧ interrupt_stack tss 3 = PAGE_FAULT s + STACK_SIZE ∧
  interrupt_stack tss 4 = GENERAL_PROTECTION_FAULT s + STACK_SIZE ∧ io_map_base tss = 0 ∧
  ∀ port, 0 ≤ port < 32 → port_allowed tss (size_of_KernelTss - 1) port = true.
Proof.
  intros Hok tss. unfold stacks_ok in Hok. rewrite !Forall_cons in Hok. destruct Hok as (Hg & Hd & Hp & Hgp & Hs & _).
  assert (∀ p, 0 ≤ p < 2 ^ 64 - 4096 → le_value (le_bytes 8 (get_end_address p)) = p + STACK_SIZE) as Hend
    by (intros p H; rewrite get_end_address_run by done; change STACK_SIZE with 4096; apply le_value_address; lia).
  split_and!; [by apply (Hend (SYSTEM_CALL_STACK s))|by apply (Hend (GENERIC s))|by apply (Hend (DOUBLE_FAULT s))|
    by apply (Hend (PAGE_FAULT s))|by apply (Hend (GENERAL_PROTECTION_FAULT s))|done|].
  intros port Hport. unfold port_allowed. change (io_map_base tss) with 0. rewrite Z.add_0_l. apply andb_true_iff. split.
  - apply Z.leb_le. change (size_of_KernelTss - 1) with 8303. clear -Hport. Z.div_mod_to_equations. lia.
  - apply negb_true_iff. assert (∃ l, field_at tss (Z.to_nat (port / 8)) 2 = le_value (0 :: l)) as [l ->].
    { assert (0 ≤ port / 8 < 4) as Hb by (clear -Hport; Z.div_mod_to_equations; lia).
      assert (port / 8 = 0 ∨ port / 8 = 1 ∨ port / 8 = 2 ∨ port / 8 = 3) as [-> | [-> | [-> | ->]]] by lia; by eexists [_]. }
    unfold le_value. cbn [foldr]. rewrite Z.add_0_l, Z.mul_comm. change 256 with (2 ^ 8). apply Z.mul_pow2_bits_low.
    by apply Z.mod_pos_bound.
Qed.
Definition demo_stacks : stacks :=
  {| GENERIC := 0xFFFFFFFF80200000; DOUBLE_FAULT := 0xFFFFFFFF80201000; PAGE_FAULT := 0xFFFFFFFF80202000;
     GENERAL_PROTECTION_FAULT := 0xFFFFFFFF80203000; SYSTEM_CALL_STACK := 0xFFFFFFFF80204000 |}.
Lemma kernel_tss_correct_witness :
  interrupt_stack (tss_bytes (KERNEL_TSS demo_stacks)) 2 = 0xFFFFFFFF80202000 ∧
  port_allowed (tss_bytes (KERNEL_TSS demo_stacks)) 8303 0x10 = true.
Proof.
  destruct (kernel_tss_correct demo_stacks) as (_ & _ & H & _ & _ & _ & Hp); [repeat constructor; done|].
  split; [exact H|by apply Hp].
Defined.

(** ** The interrupt table *)
Definition vector (x : exception) : nat :=
  match x with
  | divide_by_zero => 0 | debug => 1 | non_maskable_interrupt => 2 | breakpoint => 3 | overflow => 4
  | bound_range_exceeded => 5 | invalid_opcode => 6 | device_not_available => 7 | double_fault => 8
  | invalid_tss => 10 | segment_not_present => 11 | stack_segment_fault => 12 | general_protection_fault => 13
  | page_fault => 14 | x87_floating_point => 16 | alignment_exception => 17 | machine_check => 18
  | simd_floating_point => 19 | virtualization => 20 | security => 30
  end.
(** The interrupt stack of an exception, from 1. *)
Definition stack_of (x : exception) : Z :=
  match x with double_fault => 2 | page_fault => 3 | general_protection_fault => 4 | _ => 1 end.
Definition exceptions : list exception :=
  [divide_by_zero; debug; non_maskable_interrupt; breakpoint; overflow; bound_range_exceeded; invalid_opcode;
   device_not_available; double_fault; invalid_tss; segment_not_present; stack_segment_fault; general_protection_fault;
   page_fault; x87_floating_point; alignment_exception; machine_check; simd_floating_point; virtualization; security].
(** C35: The interrupt table.  Each of the twenty exceptions the kernel has a handler
    for has it at its own vector, through a gate that is pinned to the bit: present,
    a 64-bit gate of ring 0 that switches interrupts off, in the kernel's code
    segment, on the stack meant for the exception, the three stacks of the dangerous
    ones being their own.  Every other vector is not present: among them 21, 28 and
    29, exceptions that the kernel names but has no handler for.  The pointer the
    table is loaded with covers exactly its 256 entries. *)
Theorem idt_new_correct (h : exception → Z) (address : Z) :
  (∀ x, 0 ≤ h x < 2 ^ 64) → 0 ≤ address < 2 ^ 64 →
  ∃ table, InterruptDescriptorTable_new h = Returns table ∧ length table = 256%nat ∧
    (∀ x, ∃ e, table !! vector x = Some e ∧ idt.handler_of e = h x ∧ idt.gdt_selector e = 8 ∧
      idt._reserved e = 0 ∧ idt.options e = 0x8E00 + stack_of x ∧
      idt.present (idt.options e) = true ∧ idt.gate_type (idt.options e) = 7 ∧
      idt.interrupts_enabled (idt.options e) = false ∧ Z.testbit (idt.options e) 12 = false ∧
      idt.discriptor_privilege_level (idt.options e) = 0 ∧ idt.stack_index_minus_one (idt.options e) = stack_of x) ∧
    (∀ v, (v < 256)%nat → v ∉ (vector <$> exceptions) → table !! v = Some idt.missing) ∧
    idt.present (idt.options idt.missing) = false ∧ Forall (λ v, table !! v = Some idt.missing) [21; 28; 29]%nat ∧
    DescriptorTablePointer.to_base_and_limit (idt_pointer address table) = (address, 4095).
Proof.
  intros Hh Ha. eexists. split; [reflexivity|]. split; [done|]. split; [|split; [|split; [done|split; [by repeat constructor|]]]].
  - intros x. destruct x; (eexists; split; [reflexivity|]; split; [by apply handler_of_entry|done]).
  - intros v Hv Hnot. match goal with |- ?t !! _ = _ => set (table := t) end.
    change table with (take 31 table ++ replicate 225 idt.missing).
    destruct (decide (v < 31)%nat) as [Hlt|Hge].
    + rewrite lookup_app_l by done. assert (v = 9 ∨ v = 15 ∨ 20 < v < 30)%nat as Hmiss.
      { assert (∀ x, v ≠ vector x) as Hne.
        { intros x ->. apply Hnot, list_elem_of_fmap. exists x. split; [done|]. destruct x; cbn; set_solver. }
        pose proof (Hne divide_by_zero). pose proof (Hne debug). pose proof (Hne non_maskable_interrupt).
        pose proof (Hne breakpoint). pose proof (Hne overflow). pose proof (Hne bound_range_exceeded).
        pose proof (Hne invalid_opcode). pose proof (Hne device_not_available). pose proof (Hne double_fault).
        pose proof (Hne invalid_tss). pose proof (Hne segment_not_present). pose proof (Hne stack_segment_fault).
        pose proof (Hne general_protection_fault). pose proof (Hne page_fault). pose proof (Hne x87_floating_point).
        pose proof (Hne alignment_exception). pose proof (Hne machine_check). pose proof (Hne simd_floating_point).
        pose proof (Hne virtualization). pose proof (Hne security). cbn in *. lia. }
      destruct Hmiss as [-> | [-> | Hmiss]]; [done..|].
      assert (∃ k, v = 21 + k ∧ k < 9)%nat as (k & -> & Hk) by (exists (v - 21)%nat; lia).
      by do 9 (destruct k as [|k]; [done|]); lia.
    + rewrite lookup_app_r by (change (length (take 31 table)) with 31%nat; lia). apply lookup_replicate_2.
      change (length (take 31 table)) with 31%nat. lia.
  - by apply pointer_roundtrip.
Qed.
Lemma idt_new_correct_witness :
  ∃ table e, InterruptDescriptorTable_new (λ x, 0xFFFFFFFF80001000 + Z.of_nat (vector x)) = Returns table ∧
    table !! 14%nat = Some e ∧ idt.handler_of e = 0xFFFFFFFF8000100E ∧ idt.stack_index_minus_one (idt.options e) = 3.
Proof.
  destruct (idt_new_correct (λ x, 0xFFFFFFFF80001000 + Z.of_nat (vector x)) 0xFFFFFFFF20000000) as (table & E & _ & Hx & _);
    [by intros []|done|]. destruct (Hx page_fault) as (e & H1 & H2 & _ & _ & _ & _ & _ & _ & _ & _ & H3). by exists table, e.
Defined.
