(* ===== verification/Tls.v ===== *)
(** * Thread-local storage and the first stage (kernel/src/arch/x86_64/tls.rs and
    [init_stage_1] of mod.rs)

    [init_stage_1] loads the descriptor tables of Cpu.v, maps the pages of the
    thread-local storage with the page allocator of PageTables.v, and fills it in.
    Where the compiler and the linker put things is the class [Layout]. *)
From S2P Require Import Prelude Paging PageAlloc PageTables Heap HeapPages Ports Text Terminal Logging Handoff Main Interrupts Clock Cpu.

(** ** The storage *)
Inductive YieldReason : Type := Timeout | YieldSystemCall | SystemCallRequest | ExitRequest | Exception.
Definition YieldReason_u64 (r : YieldReason) : Z :=
  match r with Timeout => 0 | YieldSystemCall => 1 | SystemCallRequest => 2 | ExitRequest => 3 | Exception => 4 end.
Inductive ExceptionType : Type :=
  | DivideByZero | Debug | NonMaskableInterrupt | Breakpoint | Overflow | BoundRangeExceeded | InvalidOpcode
  | DeviceNotAvailable | DoubleFault | InvalidTss | SegmentNotPresent | StackSegmentFault | GeneralProtectionFault
  | PageFault | X87FloatingPoint | AlignmentCheck | MachineCheck | SimdFloatingPoint | Virtualization
  | ControlProtection | HypervisorInjection | VmmCommunication | Security.
Definition ExceptionType_u64 (x : ExceptionType) : Z :=
  match x with
  | DivideByZero => 0 | Debug => 1 | NonMaskableInterrupt => 2 | Breakpoint => 3 | Overflow => 4
  | BoundRangeExceeded => 5 | InvalidOpcode => 6 | DeviceNotAvailable => 7 | DoubleFault => 8 | InvalidTss => 10
  | SegmentNotPresent => 11 | StackSegmentFault => 12 | GeneralProtectionFault => 13 | PageFault => 14
  | X87FloatingPoint => 16 | AlignmentCheck => 17 | MachineCheck => 18 | SimdFloatingPoint => 19
  | Virtualization => 20 | ControlProtection => 21 | HypervisorInjection => 28 | VmmCommunication => 29 | Security => 30
  end.
(** [exception_type] is [None] while it is uninitialised. *)
Record YieldInfo : Type := {
  reason : YieldReason; exception_type : option ExceptionType; exception_error_code : Z; page_fault_address : Z;
}.
Definition YieldInfo_default : YieldInfo :=
  {| reason := Timeout; exception_type := None; exception_error_code := 0; page_fault_address := 0 |}.
(** [LocalApicInfo] is the optional local APIC with the fields of [Clock.info]. *)
Record ThreadLocalStorage : Type := {
  self_pointer : Z; apic : option Z; local_apic : info; table : list idt.Entry; yield_info : YieldInfo;
}.

(** ** The processor at boot *)
Definition TLS : Z := 0xFFFFFFFF20000000.
Definition TLS_END : Z := 0xFFFFFFFF2FFFFFFF.
Class Layout : Type := {
  size_of_ThreadLocalStorage : Z;
  idt_offset : Z;
  gdt_address : Z;
  tss_address : Z;
  handlers : exception → Z;
}.
(** The globals of the kernel, the static [TLS], the model-specific registers, the
    two pointers the processor was loaded with, and the static tables. *)
Record core : Type := Core {
  kern : kernel; storage : option ThreadLocalStorage; registers : Z → Z; loaded_gdt : option (list Z); loaded_idt : option (list Z);
  gdt : KernelGdt; cpu_info : option CpuidInfo;
}.
Definition on_kernel {A} (m : M kernel A) : M core A :=
  zoom kern (λ k c, Core k (storage c) (registers c) (loaded_gdt c) (loaded_idt c) (gdt c) (cpu_info c)) m.
Definition on_registers {A} (m : M (Z → Z) A) : M core A :=
  zoom registers (λ r c, Core (kern c) (storage c) r (loaded_gdt c) (loaded_idt c) (gdt c) (cpu_info c)) m.
Definition set_storage (t : ThreadLocalStorage) : M core () :=
  modify (λ c, Core (kern c) (Some t) (registers c) (loaded_gdt c) (loaded_idt c) (gdt c) (cpu_info c)).

Section first_stage.
Context `{PortDevices} `{Layout} `{Cpuid}.
Definition tls_debug (text : list Z) : M kernel () :=
  on_log_state (LogWrapper_log {| Logging.level := chars "DEBUG"; Logging.target := chars "kernel::arch::x86_64::tls"; Logging.args := text |}).
(** [(start..end).step_by(4096)] *)
Definition step_by_page (first last : Z) : list Z := (λ i, first + 4096 * i) <$> seqZ 0 ((last - first + 4095) / 4096).
Definition map_tls_page (address : Z) : M kernel () :=
  r ← on_page_state (page_tables.map_page address READ_WRITE);
  match r with
  | Err _ => panic
  | Ok _ => tls_debug (chars "Allocated TLS page at 0x" ++ format_arg (IntArg address) LowerHex None)
  end.
(** [tls::init]; the new value is one assignment to the mapped pages. *)
Definition tls_init : M core () :=
  let start_address := Z.land TLS (unot 64 0xFFF) in
  end_address ← chk 64 (start_address + size_of_ThreadLocalStorage);
  on_kernel (for_each map_tls_page (step_by_page start_address end_address));;
  idt ← lift (InterruptDescriptorTable_new handlers);
  set_storage {| self_pointer := TLS; apic := None; local_apic := info_default; table := idt; yield_info := YieldInfo_default |};;
  on_registers (msr.write msr.GS_BASE TLS).
Definition inject_tss_and_load : M core () :=
  modify (λ c, Core (kern c) (storage c) (registers c) (Some (gdt_pointer gdt_address)) (loaded_idt c)
    (inject_tss tss_address (gdt c)) (cpu_info c)).
(** [idt.load()] on the static: the table is read through it. *)
Definition load_idt : M core () :=
  c ← get; t ← deref (storage c);
  modify (λ c, Core (kern c) (storage c) (registers c) (loaded_gdt c) (Some (idt_pointer (TLS + idt_offset) (table t))) (gdt c) (cpu_info c)).
Definition init_stage_1 : M core () :=
  inject_tss_and_load;;
  tls_init;;
  load_idt;;
  modify (λ c, Core (kern c) (storage c) (registers c) (loaded_gdt c) (loaded_idt c) (gdt c) (Some generate_info)).
End first_stage.

(** ** The pages of the storage *)

(** The pages below [TLS + 4096 * k] are mapped in the address space of the
    allocator [pa], all other pages as in [s0]. *)
Definition pages_mapped (s0 s : PageAlloc.sys) (k : Z) : Prop :=
  (∀ a, TLS ≤ a < TLS + 4096 * k → ∃ e, walk_at s a = Some e ∧ PageTableEntry.writable e = true) ∧
  ∀ a, (∀ j, 0 ≤ j < k → a / PAGE_SIZE mod 2 ^ 36 ≠ (TLS + 4096 * j) / PAGE_SIZE mod 2 ^ 36) → walk_at s a = walk_at s0 a.
Lemma pages_differ j a : 0 ≤ j → TLS ≤ a < TLS + 4096 * j → j < 2 ^ 16 →
  a / PAGE_SIZE mod 2 ^ 36 ≠ (TLS + 4096 * j) / PAGE_SIZE mod 2 ^ 36.
Proof. unfold TLS, PAGE_SIZE. intros Hj Ha Hk. Z.div_mod_to_equations. lia. Qed.
Lemma pages_mapped_step s0 s s1 n k : 0 ≤ k < 2 ^ 16 → pages_mapped s0 s k →
  walk_at s1 (TLS + 4096 * k) = Some (replace_addr_with READ_WRITE (n * PAGE_SIZE)) →
  (∀ a, a / PAGE_SIZE mod 2 ^ 36 ≠ (TLS + 4096 * k) / PAGE_SIZE mod 2 ^ 36 → walk_at s1 a = walk_at s a) →
  pages_mapped s0 s1 (k + 1).
Proof.
  intros Hk [Hin Hout] Hnew Hother. split.
  - intros a Ha. destruct (decide (a < TLS + 4096 * k)) as [Hlt|Hge].
    + rewrite Hother by (apply pages_differ; lia). apply Hin. lia.
    + rewrite (walk_page s1 a (TLS + 4096 * k)), Hnew.
      * eexists. split; [done|]. unfold PageTableEntry.writable, replace_addr_with. rewrite Z.lor_spec, !Z.land_spec.
        apply orb_true_iff. by right.
      * unfold page_of, TLS, PAGE_SIZE in *. Z.div_mod_to_equations. lia.
  - intros a Ha. rewrite Hother by (apply Ha; lia). apply Hout. intros j Hj. apply Ha. lia.
Qed.
Section correctness.
Context `{PortDevices}.
(** The kernel after [k] pages. *)
Record tls_progress (k0 : kernel) (s0 : PageAlloc.sys) (k : Z) (c : kernel) : Prop := {
  prog_alloc : ∃ pa tables, PAGE_ALLOCATOR (page_state c) = Some pa ∧
    let s := Sys pa (wram (page_state c)) in
    kernel_ok s tables ∧ free_pages (PageAlloc.alloc s0) - 4 * k ≤ free_pages pa ∧
    total_pages pa = total_pages (PageAlloc.alloc s0) ∧ pages_mapped s0 s k;
  prog_screen : screen c = screen k0 ∧ TERMINAL (log_state c) = None ∧ CURRENT_LOGGER (log_state c) = CURRENT_LOGGER (log_state k0);
}.
Lemma wp_map_tls_page k0 s0 n k c : 0 ≤ k < n → n ≤ 2 ^ 16 → 4 * n ≤ free_pages (PageAlloc.alloc s0) →
  walk_at s0 (TLS + 4096 * k) = None → tls_progress k0 s0 k c →
  wp (map_tls_page (TLS + 4096 * k)) (λ _, tls_progress k0 s0 (k + 1)) c.
Proof.
  intros Hk Hn Hfree0 Hnone [(pa & tables & Hpa & Hok & Hfree & Htot & Hmapped) (Hscr & Hterm & Hlog)].
  unfold map_tls_page, on_page_state. rewrite wp_bind, wp_zoom. apply (wp_allocator _ _ _ pa Hpa).
  eapply wp_mono; [apply (wp_map_page _ tables (TLS + 4096 * k)); [done|cbn in *; lia]|].
  intros r [pa' m'] (t' & [Hok' [_ _ Htot' _] Hcost _ _ Hr]). cbn [PageAlloc.alloc ram] in *.
  assert (walk_at (Sys pa (wram (page_state c))) (TLS + 4096 * k) = None) as Hold.
  { destruct Hmapped as [_ Hout]. rewrite Hout; [done|]. intros j Hj. apply not_eq_sym, pages_differ; lia. }
  destruct r as [[]|[]]; [|done|rewrite Hold in Hr; by destruct Hr as [[? ?] _]].
  destruct Hr as (_ & f & _ & _ & _ & _ & Hnew & _ & Hother). unfold tls_debug.
  apply (wp_early_message any_font); [done|]. intros m2 Ht Hl _. cbn in Hl; split; [|cbn; split_and!; congruence].
  exists pa', t'. split; [done|]. split; [done|]. split; [lia|]. split; [congruence|]. by apply (pages_mapped_step s0 (Sys pa (wram (page_state c))) _ f); [lia|..].
Qed.
Lemma wp_map_tls k0 pa0 tables n (Q : () → kernel → Prop) : 0 ≤ n ≤ 2 ^ 16 →
  PAGE_ALLOCATOR (page_state k0) = Some pa0 → TERMINAL (log_state k0) = None →
  let s0 := Sys pa0 (wram (page_state k0)) in
  kernel_ok s0 tables → 4 * n ≤ free_pages pa0 → (∀ a, TLS ≤ a < TLS + 4096 * n → walk_at s0 a = None) →
  (∀ c, tls_progress k0 s0 n c → Q () c) →
  wp (for_each map_tls_page ((λ i, TLS + 4096 * i) <$> seqZ 0 n)) Q k0.
Proof.
  intros Hn Hpa Hterm s0 Hok Hfree Hnone HQ.
  apply (wp_for_each map_tls_page (λ k, tls_progress k0 s0 (Z.of_nat k))).
  - split; [|done]. exists pa0, tables. split; [done|]. split; [done|]. split; [cbn; lia|]. split; [done|]. split; [|done].
    intros a Ha. exfalso. lia.
  - intros k a c Hl Hp. apply list_lookup_fmap_Some in Hl as (i & -> & [-> Hi]%lookup_seqZ).
    rewrite Z.add_0_l, Nat2Z.inj_succ. apply (wp_map_tls_page k0 s0 n); [lia|lia|done| |done]. apply Hnone. unfold TLS. lia.
  - rewrite length_fmap, length_seqZ, Z2Nat.id by lia. apply HQ.
Qed.
(** What a processor needs to start: a consistent address space in which the pages
    of the thread-local storage are free, and four free pages for each of them. *)
Definition tls_pages `{Layout} : Z := (size_of_ThreadLocalStorage + 4095) / 4096.
Record startable `{Layout} (c : core) (pa : PageAllocatorInternal) (tables : gmap (list Z) Z) : Prop := {
  start_size : 0 < size_of_ThreadLocalStorage ≤ TLS_END - TLS + 1;
  start_alloc : PAGE_ALLOCATOR (page_state (kern c)) = Some pa;
  start_terminal_none : TERMINAL (log_state (kern c)) = None;
  start_tables : kernel_ok (Sys pa (wram (page_state (kern c)))) tables;
  start_free : 4 * tls_pages ≤ free_pages pa;
  start_unmapped : ∀ a, TLS ≤ a < TLS + 4096 * tls_pages → walk_at (Sys pa (wram (page_state (kern c)))) a = None;
}.
(** The address space [s] of the processor in the state [c]. *)
Definition runs_in (c : core) (s : PageAlloc.sys) : Prop :=
  PAGE_ALLOCATOR (page_state (kern c)) = Some (PageAlloc.alloc s) ∧ wram (page_state (kern c)) = ram s.
(** After the first stage: all of the storage is mapped writable, no other page has
    moved, the storage holds its own address, no local APIC and 256 descriptors, and
    the tables are loaded. *)
Record stage_1_done `{Layout} `{Cpuid} (c : core) (s : PageAlloc.sys) (c' : core) (s' : PageAlloc.sys) : Prop := {
  done_space : runs_in c' s' ∧ ∃ tables, kernel_ok s' tables;
  done_mapped : ∀ a, TLS ≤ a < TLS + size_of_ThreadLocalStorage → ∃ e, walk_at s' a = Some e ∧ PageTableEntry.writable e = true;
  done_others : ∀ a, (∀ b, TLS ≤ b < TLS + size_of_ThreadLocalStorage → a / PAGE_SIZE mod 2 ^ 36 ≠ b / PAGE_SIZE mod 2 ^ 36) →
    walk_at s' a = walk_at s a;
  done_cost : free_pages (PageAlloc.alloc s) - 4 * tls_pages ≤ free_pages (PageAlloc.alloc s') ∧
    total_pages (PageAlloc.alloc s') = total_pages (PageAlloc.alloc s);
  done_storage : ∃ t, storage c' = Some t ∧ self_pointer t = TLS ∧ apic t = None ∧ length (table t) = 256%nat ∧
    yield_info t = YieldInfo_default ∧ loaded_idt c' = Some (idt_pointer (TLS + idt_offset) (table t));
  done_gdt : gdt c' = inject_tss tss_address (gdt c) ∧ loaded_gdt c' = Some (gdt_pointer gdt_address);
  done_cpu : cpu_info c' = Some generate_info;
  done_kernel : screen (kern c') = screen (kern c) ∧ TERMINAL (log_state (kern c')) = None ∧
    CURRENT_LOGGER (log_state (kern c')) = CURRENT_LOGGER (log_state (kern c));
}.
Lemma wp_init_stage_1 `{Layout} `{Cpuid} (c : core) pa tables (Q : () → core → Prop) :
  startable c pa tables →
  (∀ c' s', stage_1_done c (Sys pa (wram (page_state (kern c)))) c' s' → registers c' = registers c → Q () c') →
  wp init_stage_1 Q c.
Proof.
  intros [Hsize Hpa Hterm Hok Hfree Hnone] HQ. set (n := tls_pages) in *. set (s := Sys pa _) in *.
  assert (0 ≤ n ≤ 2 ^ 16 ∧ size_of_ThreadLocalStorage ≤ 4096 * n ∧ 4096 * (n - 1) < size_of_ThreadLocalStorage) as (Hn & Hcover & Htight).
  { unfold n, tls_pages, TLS_END, TLS in *. Z.div_mod_to_equations. lia. }
  unfold init_stage_1, inject_tss_and_load. rewrite wp_bind, wp_modify, wp_bind. unfold tls_init.
  change (Z.land TLS (unot 64 0xFFF)) with TLS. rewrite wp_bind, wp_chk.
  split; [unfold TLS_END, TLS in *; lia|]. rewrite wp_bind. unfold on_kernel. rewrite wp_zoom. cbn [kern].
  unfold step_by_page. replace ((TLS + size_of_ThreadLocalStorage - TLS + 4095) / 4096) with n by (unfold n, tls_pages; f_equal; lia).
  apply (wp_map_tls (kern c) pa tables n); try done. intros k [(pa' & t' & Hpa' & Hok' & Hfree' & Htot & Hin & Hout) Hlog].
  rewrite wp_bind, wp_lift. eexists. split; [reflexivity|].
  unfold set_storage. rewrite wp_bind, wp_modify. unfold on_registers. rewrite wp_zoom. unfold msr.write. rewrite wp_ret.
  unfold load_idt. rewrite !wp_bind, wp_get, wp_bind, wp_deref. eexists. split; [done|]. rewrite wp_modify, wp_modify.
  apply (HQ _ (Sys pa' (wram (page_state k)))); [|done]. split; try done.
  - split; [done|by exists t'].
  - intros a Ha. apply Hin. lia.
  - intros a Ha. apply Hout. intros j Hj. apply Ha. lia.
  - eexists. split; [done|]. by split_and!.
Qed.
(** C32: The first stage of a processor returns when it can start, and does what it is
    for: the storage is mapped and filled in, the tables are loaded. The register
    for the base of GS, though, is as it was. *)
Theorem init_stage_1_correct `{Layout} `{Cpuid} (c : core) pa tables : startable c pa tables →
  ∃ c' s', init_stage_1 c = Returns ((), c') ∧ stage_1_done c (Sys pa (wram (page_state (kern c)))) c' s' ∧
    registers c' msr.GS_BASE = registers c msr.GS_BASE.
Proof.
  intros Hc. assert (wp init_stage_1 (λ _ c', ∃ s', stage_1_done c (Sys pa (wram (page_state (kern c)))) c' s' ∧
    registers c' = registers c) c) as ([] & c' & E & s' & Hd & Hr)%wp_returns.
  { apply (wp_init_stage_1 c pa tables); [done|]. intros c' s' Hd Hr. by exists s'. }
  exists c', s'. by rewrite Hr.
Qed.
End correctness.

(** ** A processor to start *)
Definition demo_layout : Layout :=
  {| size_of_ThreadLocalStorage := 4224; idt_offset := 16; gdt_address := 0xFFFFFFFF80100010;
     tss_address := 0xFFFFFFFF80123458; handlers x := 0xFFFFFFFF80001000 + Z.of_nat (vector x) |}.
Definition demo_core : core :=
  Core (Kernel (log_state demo_kernel) (World (Some (PageAlloc.alloc PageTables.demo_sys)) (ram PageTables.demo_sys)) None) None (λ _, 7) None None
    KERNEL_GDT None.
Lemma init_stage_1_correct_witness :
  let H : PortDevices := λ _ _, 0 in let H0 := demo_layout in let H1 : Cpuid := λ _, {| eax := 0; ebx := 0; ecx := 0; edx := 0 |} in
  ∃ c' s', init_stage_1 demo_core = Returns ((), c') ∧ stage_1_done demo_core PageTables.demo_sys c' s' ∧
    registers c' msr.GS_BASE = 7.
Proof.
  intros H H0 H1. apply (init_stage_1_correct demo_core (PageAlloc.alloc PageTables.demo_sys) demo_tables).
  split; [done|done|done|exact PageTables.demo_sys_ok|vm_compute; discriminate|intros a _; apply (demo_walk a)].
Defined.
