(* ===== verification/Debugging.v ===== *)
(** * Panics and exceptions (kernel/src/debugging.rs and the exception messages of
    kernel/src/arch/x86_64/idt.rs)

    The panic handler logs the message, prints the return addresses of the call
    stack, and stops the processor; it counts how often it was entered. The call
    stack is the parameter [stack], the words of the memory that is mapped. *)
From S2P Require Import Prelude Ports Text Terminal Logging Handoff Main.

(** ** The frames of the stack *)
Record StackFrameIterator : Type := { frame_address : Z; last_frame_address : Z }.
Definition StackFrameIterator_new (start_frame_address : Z) : StackFrameIterator :=
  {| frame_address := start_frame_address; last_frame_address := 0 |}.
Definition StackFrameIterator_next (stack : Z → option Z) (self : StackFrameIterator) :
    outcome (option Z * StackFrameIterator) :=
  let frame := frame_address self in
  if frame =? last_frame_address self then Returns (None, self)
  else if (frame =? 0) || negb (frame mod 8 =? 0) then Returns (None, self)
  else if negb (fits 64 (frame + 8)) then Panics
  else
    match stack frame, stack (frame + 8) with
    | Some next, Some instruction_pointer =>
        Returns (if instruction_pointer =? 0 then None else Some instruction_pointer,
          {| frame_address := next; last_frame_address := frame |})
    | _, _ => Undefined
    end.

(** ** The handler *)

(** The logging globals and the two atomics; a store is sequentially consistent,
    and there is one processor. *)
Record debugging : Type := Debugging { dbg_logs : machine; PANIC_DEPTH : Z; DISABLE_TRACE_LOGGING : bool }.
Definition on_dbg_logs {A} (m : M machine A) : M debugging A :=
  zoom dbg_logs (λ l d, Debugging l (PANIC_DEPTH d) (DISABLE_TRACE_LOGGING d)) m.
(** How the processor ends: at [hlt] in a loop, or in an empty loop. *)
Inductive stopped : Type := Halted | Spinning.
Definition hex (n : Z) : list Z := chars "0x" ++ format_arg (IntArg n) LowerHex None.
Definition error_record (text : list Z) : log_record :=
  {| level := chars "ERROR"; target := chars "kernel::debugging"; args := text |}.
Definition frame_line (instruction_address : Z) : list Z := chars "  [" ++ hex instruction_address ++ chars "]".

Section handler.
Context `{PortDevices}.
Variable stack : Z → option Z.
Definition error (text : list Z) : M debugging () := on_dbg_logs (LogWrapper_log (error_record text)).
Fixpoint trace_loop (fuel : nat) (it : StackFrameIterator) : M debugging () :=
  match fuel with
  | O => out_of_fuel
  | S fuel =>
      '(item, it) ← lift (StackFrameIterator_next stack it);
      match item with
      | None => mret ()
      | Some instruction_address => error (frame_line instruction_address);; trace_loop fuel it
      end
  end.
(** [rbp] is the register when the trace starts. *)
Definition print_stack_trace (fuel : nat) (rbp : Z) : M debugging () := trace_loop fuel (StackFrameIterator_new rbp).
(** [PANIC_DEPTH.fetch_add(1)] *)
Definition enter_panic : M debugging Z :=
  d ← get; modify (λ d, Debugging (dbg_logs d) (trunc 64 (PANIC_DEPTH d + 1)) (DISABLE_TRACE_LOGGING d));; mret (PANIC_DEPTH d).
Definition disable_trace : M debugging () := modify (λ d, Debugging (dbg_logs d) (PANIC_DEPTH d) true).
(** [panic]; [info] is the message as it is displayed. *)
Definition panic_handler (fuel : nat) (rbp : Z) (info : list Z) : M debugging stopped :=
  error info;;
  depth ← enter_panic;
  if depth =? 2 then mret Halted
  else if 2 <? depth then mret Spinning
  else
    (if depth =? 1 then disable_trace else mret ());;
    disabled ← gets DISABLE_TRACE_LOGGING;
    (if negb disabled then print_stack_trace fuel rbp else mret ());;
    mret Halted.

(** ** The messages of the exceptions (idt.rs) *)

(** [location] is where the [panic!] is, as the message shows it. *)
Definition panicked (location message : list Z) : list Z := chars "panicked at " ++ location ++ [58; 10] ++ message.
Definition exception_message_text (msg : list Z) (rip : Z) : list Z :=
  msg ++ [58; 10] ++ chars "- Caused by instruction at " ++ hex rip ++ [10].
Definition exception_message_with_err_code_text (msg : list Z) (error_code rip : Z) : list Z :=
  msg ++ [58; 10] ++ chars "- With error code 0x" ++ format_arg (IntArg error_code) UpperHex None ++ [10] ++
  chars "- Caused by instruction at " ++ hex rip ++ [10].
Definition page_fault_exception_message_text (msg : list Z) (error_code access_address rip : Z) : list Z :=
  msg ++ [58; 10] ++ chars "- With error code 0x" ++ format_arg (IntArg error_code) UpperHex None ++ [10] ++
  chars "- Caused by access to address " ++ hex access_address ++ chars " by instruction at " ++ hex rip ++ [10].
Definition exception_message (fuel : nat) (rbp : Z) (location msg : list Z) (rip : Z) : M debugging stopped :=
  panic_handler fuel rbp (panicked location (exception_message_text msg rip)).
Definition exception_message_with_err_code (fuel : nat) (rbp : Z) (location msg : list Z) (error_code rip : Z) : M debugging stopped :=
  panic_handler fuel rbp (panicked location (exception_message_with_err_code_text msg error_code rip)).
Definition page_fault_exception_message (fuel : nat) (rbp : Z) (location msg : list Z) (error_code access_address rip : Z) :
    M debugging stopped :=
  panic_handler fuel rbp (panicked location (page_fault_exception_message_text msg error_code access_address rip)).
Definition breakpoint : M debugging () :=
  on_dbg_logs (LogWrapper_log {| level := chars "INFO"; target := chars "kernel::arch::x86_64::idt::exception_handlers";
    args := chars "Exception - Breakpoint" |}).
End handler.

(** ** Lines that can be shown *)
Lemma plain_app x y : plain (x ++ y) = plain x && plain y.
Proof. apply forallb_app. Qed.
Lemma digits_loop_range fuel base n acc : 0 < base → 0 ≤ n → Forall (λ d, 0 ≤ d < base) acc →
  Forall (λ d, 0 ≤ d < base) (digits_loop fuel base n acc).
Proof.
  intros Hb. revert n acc. induction fuel as [|fuel IH]; intros n acc Hn Hacc; cbn [digits_loop]; [done|].
  destruct (Z.ltb_spec n base); [constructor; [lia|done]|].
  apply IH; [by apply Z.div_pos|]. constructor; [by apply Z.mod_pos_bound|done].
Qed.
Lemma plain_number ty n : 0 ≤ n → plain (format_arg (IntArg n) ty None) = true.
Proof.
  intros Hn. unfold format_arg, format_number. rewrite (proj2 (Z.ltb_ge n 0)) by done. cbn [app].
  unfold plain. rewrite forallb_forall. intros c (d & -> & Hd)%list_elem_of_In%list_elem_of_fmap.
  assert (Forall (λ d, 0 ≤ d < fmt_base ty) (digits (fmt_base ty) (Z.abs n))) as Hr
    by (apply digits_loop_range; [by destruct ty|lia|constructor]).
  rewrite Forall_forall in Hr. specialize (Hr d Hd). assert (fmt_base ty ≤ 16) by (by destruct ty).
  unfold digit_char. apply orb_true_iff. right.
  destruct (Z.ltb_spec d 10), ty; apply andb_true_iff; split; try apply Z.leb_le; try apply Z.ltb_lt; lia.
Qed.
Lemma plain_hex n : 0 ≤ n → plain (hex n) = true.
Proof. intros Hn. unfold hex. by rewrite plain_app, plain_number. Qed.
Lemma plain_frame_line n : 0 ≤ n → plain (frame_line n) = true.
Proof. intros Hn. unfold frame_line. by rewrite !plain_app, plain_hex. Qed.

(** ** A report of several records *)
Section reports.
Context `{PortDevices}.
Variable fn : psf.Font.
Hypothesis Hfn : ascii_font fn.
(** What goes to the debug port for the texts. *)
Definition port_lines (m : machine) (texts : list (list Z)) : list port_event :=
  match CURRENT_LOGGER m with
  | Some _ => if BOCHS_WRITER_ENABLED m then texts ≫= λ text, sent (str_bytes (log_line (error_record text))) else []
  | None => []
  end.
Record reported (m m' : machine) (texts : list (list Z)) : Prop := {
  rep_terminal : terminal_ok fn m';
  rep_kept : CURRENT_LOGGER m' = CURRENT_LOGGER m ∧ BOCHS_WRITER_ENABLED m' = BOCHS_WRITER_ENABLED m;
  rep_ports : ports m' = ports m ++ port_lines m texts;
}.
Lemma reported_nil m : terminal_ok fn m → reported m m [].
Proof.
  intros Ht. split; [done|done|]. unfold port_lines.
  destruct (CURRENT_LOGGER m), (BOCHS_WRITER_ENABLED m); by rewrite ?app_nil_r.
Qed.
Lemma reported_trans m1 m2 m3 x y : reported m1 m2 x → reported m2 m3 y → reported m1 m3 (x ++ y).
Proof.
  intros [_ [Hl Hb] Hp] [Ht [Hl' Hb'] Hp']. split; [done|by rewrite Hl', Hb', Hl, Hb|].
  rewrite Hp', Hp, <-app_assoc. f_equal. unfold port_lines. rewrite Hl, Hb.
  destruct (CURRENT_LOGGER m1), (BOCHS_WRITER_ENABLED m1); try done. by rewrite bind_app.
Qed.
Lemma wp_error text d (Q : () → debugging → Prop) : terminal_ok fn (dbg_logs d) → plain text = true →
  (∀ m', reported (dbg_logs d) m' [text] → Q () (Debugging m' (PANIC_DEPTH d) (DISABLE_TRACE_LOGGING d))) →
  wp (error text) Q d.
Proof.
  intros Ht Hp HQ. unfold error, on_dbg_logs. rewrite wp_zoom. eapply wp_mono; [apply (wp_log fn); [done|]|].
  - intros _. apply plain_printable; [done|]. unfold log_line. cbn [level target args error_record].
    by rewrite !plain_app, Hp.
  - intros [] m' [H1 H2 H3 _]. apply HQ. split; [done|done|]. rewrite H3. f_equal. unfold port_lines.
    destruct (CURRENT_LOGGER (dbg_logs d)), (BOCHS_WRITER_ENABLED (dbg_logs d)); try done. cbn [mbind list_bind]. by rewrite app_nil_r.
Qed.

(** ** The trace *)

(** The frames that start at [f], each the address and the return address: a saved
    frame pointer of zero is the end. *)
Fixpoint call_stack (stack : Z → option Z) (last f : Z) (frames : list (Z * Z)) : Prop :=
  match frames with
  | [] => f = 0
  | (a, r) :: rest => f = a ∧ a ≠ last ∧ 0 < a < 2 ^ 64 - 8 ∧ a mod 8 = 0 ∧ 0 < r ∧ stack (a + 8) = Some r ∧
      ∃ f', stack a = Some f' ∧ call_stack stack a f' rest
  end.
Lemma next_frame stack last a r f' : a ≠ last → 0 < a < 2 ^ 64 - 8 → a mod 8 = 0 → 0 < r →
  stack (a + 8) = Some r → stack a = Some f' →
  StackFrameIterator_next stack {| frame_address := a; last_frame_address := last |} =
    Returns (Some r, {| frame_address := f'; last_frame_address := a |}).
Proof.
  intros Hl Ha Ha8 Hr Hs Hs'. unfold StackFrameIterator_next. cbn [frame_address last_frame_address].
  rewrite (proj2 (Z.eqb_neq a last)) by done. rewrite (proj2 (Z.eqb_neq a 0)) by lia. rewrite Ha8.
  change (negb (0 =? 0)) with false. rewrite (proj2 (fits_spec 64 _)) by lia. rewrite Hs, Hs'. cbn [orb negb].
  by rewrite (proj2 (Z.eqb_neq r 0)) by lia.
Qed.
Lemma next_end stack last : StackFrameIterator_next stack {| frame_address := 0; last_frame_address := last |} =
  Returns (None, {| frame_address := 0; last_frame_address := last |}).
Proof. unfold StackFrameIterator_next. cbn [frame_address last_frame_address]. by destruct (0 =? last). Qed.
Lemma wp_trace stack frames fuel last f d (Q : () → debugging → Prop) :
  call_stack stack last f frames → (length frames < fuel)%nat → terminal_ok fn (dbg_logs d) →
  (∀ m', reported (dbg_logs d) m' (frame_line <$> frames.*2) → Q () (Debugging m' (PANIC_DEPTH d) (DISABLE_TRACE_LOGGING d))) →
  wp (trace_loop stack fuel {| frame_address := f; last_frame_address := last |}) Q d.
Proof.
  revert fuel last f d. induction frames as [|[a r] frames IH]; intros fuel last f d Hc Hf Ht HQ;
    (destruct fuel as [|fuel]; [cbn in Hf; lia|]); cbn [trace_loop]; rewrite wp_bind, wp_lift.
  - cbn [call_stack] in Hc. subst f. eexists. split; [apply next_end|]. rewrite wp_ret. destruct d. apply HQ. by apply reported_nil.
  - destruct Hc as (-> & Hl & Ha & Ha8 & Hr & Hs & f' & Hs' & Hc).
    eexists. split; [by apply (next_frame stack last a r f')|]. rewrite wp_bind. apply wp_error; [done|apply plain_frame_line; lia|].
    intros m1 Hm1. apply (IH fuel a f'); [done|cbn in Hf; lia|apply Hm1|]. cbn [dbg_logs PANIC_DEPTH DISABLE_TRACE_LOGGING].
    intros m2 Hm2. apply HQ. by apply (reported_trans _ m1 _ [frame_line r]).
Qed.
(** Does the panic of this depth print a trace? *)
Definition traces (d : debugging) : bool := (PANIC_DEPTH d =? 0) && negb (DISABLE_TRACE_LOGGING d).
(** C34: A panic always stops the processor, whatever was printed before: the message
    is logged, then, in the first panic and unless traces are switched off, the
    return address of every frame of the call stack, the innermost first; a second
    panic switches traces off, a fourth one spins instead of halting. *)
Theorem panic_correct (stack : Z → option Z) (d : debugging) rbp info frames fuel :
  terminal_ok fn (dbg_logs d) → plain info = true → 0 ≤ PANIC_DEPTH d < 2 ^ 64 - 1 →
  call_stack stack 0 rbp frames → (length frames < fuel)%nat →
  ∃ d', panic_handler stack fuel rbp info d = Returns (if 2 <? PANIC_DEPTH d then Spinning else Halted, d') ∧
    reported (dbg_logs d) (dbg_logs d') (info :: if traces d then frame_line <$> frames.*2 else []) ∧
    PANIC_DEPTH d' = PANIC_DEPTH d + 1 ∧ DISABLE_TRACE_LOGGING d' = DISABLE_TRACE_LOGGING d || (PANIC_DEPTH d =? 1).
Proof.
  intros Ht Hinfo Hd Hc Hf. set (Post := λ r d', r = (if 2 <? PANIC_DEPTH d then Spinning else Halted) ∧
    reported (dbg_logs d) (dbg_logs d') (info :: if traces d then frame_line <$> frames.*2 else []) ∧
    PANIC_DEPTH d' = PANIC_DEPTH d + 1 ∧ DISABLE_TRACE_LOGGING d' = DISABLE_TRACE_LOGGING d || (PANIC_DEPTH d =? 1)).
  cut (wp (panic_handler stack fuel rbp info) Post d).
  { intros (r & d' & E & -> & Hrest)%wp_returns. by exists d'. }
  unfold panic_handler. rewrite wp_bind. apply wp_error; [done..|]. intros m1 Hm1.
  unfold enter_panic. rewrite !wp_bind, wp_get, wp_bind, wp_modify, wp_ret. cbn [dbg_logs PANIC_DEPTH DISABLE_TRACE_LOGGING].
  unfold trunc. rewrite Z.mod_small by lia. unfold Post, traces.
  destruct (Z.eqb_spec (PANIC_DEPTH d) 2) as [E|E].
  { rewrite wp_ret, E. split_and!; try done. cbn. by rewrite orb_false_r. }
  destruct (Z.ltb_spec 2 (PANIC_DEPTH d)).
  { rewrite wp_ret, !(proj2 (Z.eqb_neq (PANIC_DEPTH d) _)) by lia. split_and!; try done. cbn. by rewrite orb_false_r. }
  rewrite wp_bind. unfold disable_trace. destruct (Z.eqb_spec (PANIC_DEPTH d) 1) as [E1|E1].
  { rewrite wp_modify, wp_bind, wp_gets. cbn [negb DISABLE_TRACE_LOGGING dbg_logs PANIC_DEPTH]. rewrite wp_bind, !wp_ret, E1.
    split_and!; try done. cbn. by rewrite orb_true_r. }
  rewrite wp_ret, wp_bind, wp_gets. assert (PANIC_DEPTH d = 0) as E0 by lia. rewrite E0. cbn [DISABLE_TRACE_LOGGING dbg_logs].
  rewrite orb_false_r. change (0 =? 0) with true. cbn [andb]. destruct (DISABLE_TRACE_LOGGING d); cbn [negb]; rewrite wp_bind; [by rewrite !wp_ret|].
  apply (wp_trace stack frames); [done..|apply Hm1|]. cbn [dbg_logs PANIC_DEPTH DISABLE_TRACE_LOGGING].
  intros m2 Hm2. rewrite wp_ret. split_and!; try done. cbn [dbg_logs]. by apply (reported_trans _ m1 _ [info]).
Qed.
(** A loop of two saved frame pointers is not noticed: the trace never ends. *)
Lemma trace_of_a_loop stack a b ra rb fuel d :
  terminal_ok fn (dbg_logs d) → a ≠ b → 0 < a < 2 ^ 64 - 8 → 0 < b < 2 ^ 64 - 8 → a mod 8 = 0 → b mod 8 = 0 →
  0 < ra → 0 < rb → stack (a + 8) = Some ra → stack (b + 8) = Some rb → stack a = Some b → stack b = Some a →
  print_stack_trace stack fuel a d = OutOfFuel.
Proof.
  intros Ht Hab Ha Hb Ha8 Hb8 Hra Hrb Sa Sb Na Nb. unfold print_stack_trace, StackFrameIterator_new.
  assert (∀ fuel x y rx ry last d, terminal_ok fn (dbg_logs d) → x ≠ y → x ≠ last → 0 < x < 2 ^ 64 - 8 → 0 < y < 2 ^ 64 - 8 →
    x mod 8 = 0 → y mod 8 = 0 → 0 < rx → 0 < ry → stack (x + 8) = Some rx → stack (y + 8) = Some ry →
    stack x = Some y → stack y = Some x → trace_loop stack fuel {| frame_address := x; last_frame_address := last |} d = OutOfFuel) as Hloop.
  { clear - Hfn. intros fuel. induction fuel as [|fuel IH]; intros x y rx ry last d Ht Hxy Hl Hx Hy Hx8 Hy8 Hrx Hry Sx Sy Nx Ny; [done|].
    cbn [trace_loop]. assert (wp (error (frame_line rx)) (λ _ d', terminal_ok fn (dbg_logs d')) d) as (u & d' & E & Ht')%wp_returns.
    { apply wp_error; [done|apply plain_frame_line; lia|]. intros m' Hm'. apply Hm'. }
    erewrite bind_step; [|unfold lift; by rewrite (next_frame stack last x rx y)]. cbv beta iota. rewrite (bind_step _ _ _ _ _ E).
    by apply (IH y x ry rx). }
  apply (Hloop fuel a b ra rb 0); try done; lia.
Qed.
End reports.

(** A stack of two frames, and the first panic of a kernel with a terminal. *)
Definition demo_stack (a : Z) : option Z :=
  if a =? 0x1000 then Some 0x1020 else if a =? 0x1008 then Some 0x80001234
  else if a =? 0x1020 then Some 0 else if a =? 0x1028 then Some 0x80005678 else None.
Lemma panic_correct_witness :
  let H : PortDevices := λ _ _, 0 in
  ∃ d', panic_handler demo_stack 3 0x1000 (chars "assertion failed") (Debugging demo_machine 0 false) = Returns (Halted, d') ∧
    reported demo_font demo_machine (dbg_logs d')
      [chars "assertion failed"; frame_line 0x80001234; frame_line 0x80005678] ∧
    PANIC_DEPTH d' = 1 ∧ DISABLE_TRACE_LOGGING d' = false.
Proof.
  intros H. apply (panic_correct demo_font demo_ascii demo_stack (Debugging demo_machine 0 false) 0x1000 (chars "assertion failed")
    [(0x1000, 0x80001234); (0x1020, 0x80005678)] 3); [|done|done| |cbn; lia].
  - intros t [= <-]. split; [exact demo_terminal_ok|]. split; [by split|]. split; [by split|done].
  - split_and!; try done. exists 0x1020. split; [done|]. split_and!; try done. by exists 0.
Defined.
