(* ===== verification/Kernel.v ===== *)
(** * The start of the kernel, from end to end (kernel/src/main.rs)

    [kernel_main] up to its second architecture stage, over one state: the logger
    and the page allocator of Main.v, the first stage of Tls.v, the heap of Heap.v
    on the page tables of PageTables.v, and the terminal. The theorem joins the
    theorems of these components, up to a terminal or to the slice of the
    framebuffer that is longer than its memory. *)
From S2P Require Import Prelude Paging PageAlloc PageTables Heap HeapPages Ports Text Terminal Logging Cpio Handoff Main Interrupts Clock Cpu Tls.

(** ** The state and the steps *)

(** The processor with its globals, and the head of the list of heap blocks. *)
Record whole : Type := Whole { processor : core; heap_head : option Z }.
Definition on_processor {A} (m : M core A) : M whole A := zoom processor (λ c w, Whole c (heap_head w)) m.
Definition set_space (s : PageAlloc.sys) (c : core) : core :=
  Core (Kernel (log_state (kern c)) (World (Some (PageAlloc.alloc s)) (ram s)) (screen (kern c)))
    (storage c) (registers c) (loaded_gdt c) (loaded_idt c) (gdt c) (cpu_info c).
(** The heap calls the functions of the page allocator, which unwrap it. *)
Definition on_kernel_heap {A} (m : M (heap PageAlloc.sys) A) : M whole A := λ w,
  match PAGE_ALLOCATOR (page_state (kern (processor w))) with
  | None => Panics
  | Some pa =>
      match m {| list_head := heap_head w; heap_memory := Sys pa (wram (page_state (kern (processor w)))) |} with
      | Returns (a, h) => Returns (a, Whole (set_space (heap_memory h) (processor w)) (list_head h))
      | Panics => Panics
      | Undefined => Undefined
      | OutOfFuel => OutOfFuel
      end
  end.
Definition init_kernel_heap : M whole () :=
  heap_size ← chk 64 (HEAP_END - HEAP_BASE);
  heap_size ← chk 64 (heap_size + 1);
  on_kernel_heap (init_heap HEAP_BASE heap_size).
Section kernel_main.
Context `{PortDevices} `{Layout} `{Cpuid}.
(** [kernel_main] before [init_stage_2]. *)
Definition kernel_main_to_stage_2 (vram : Z → list Z) (front_ok back_ok : bool) (args : kernel_args.Args) (bitmap : list Z) :
    M whole () :=
  on_processor (on_kernel (kernel_main_early args bitmap));;
  on_processor init_stage_1;;
  on_processor (on_kernel (Main.debug (chars "Architecture stage 1 initialised")));;
  init_kernel_heap;;
  on_processor (on_kernel (kernel_main_screen vram front_ok back_ok args)).
End kernel_main.

(** ** The heap on the address space after the first stage *)
Definition heap_range (a : Z) : Prop := HEAP_BASE ≤ a < HEAP_END + 1.
Lemma heap_not_tls a b : heap_range a → TLS ≤ b < TLS + (TLS_END - TLS + 1) → a / PAGE_SIZE mod 2 ^ 36 ≠ b / PAGE_SIZE mod 2 ^ 36.
Proof. unfold heap_range, HEAP_BASE, HEAP_END, TLS, TLS_END, PAGE_SIZE. intros Ha Hb. Z.div_mod_to_equations. lia. Qed.
Lemma empty_range_ok (s : PageAlloc.sys) tables : kernel_ok s tables → (∀ a, heap_range a → walk_at s a = None) →
  total_pages (PageAlloc.alloc s) * PAGE_SIZE ≤ HEAP_BASE → kernel_heap_ok (lo:=HEAP_BASE) (hi:=HEAP_END + 1) s.
Proof.
  intros Hk Hnone Htot. exists tables. split; [done|]. split; [|done]. split.
  - intros a e Ha. by rewrite (Hnone a Ha).
  - intros a b e f Ha. by rewrite (Hnone a Ha).
Qed.
Abbreviation kernel_heap s := (heap_ok (lo:=HEAP_BASE) (hi:=HEAP_END + 1) s HEAP_BASE).
Lemma wp_init_kernel_heap (w : whole) (s : PageAlloc.sys) tables (Q : () → whole → Prop) :
  heap_head w = None → runs_in (processor w) s → kernel_ok s tables → (∀ a, heap_range a → walk_at s a = None) →
  total_pages (PageAlloc.alloc s) * PAGE_SIZE ≤ HEAP_BASE → 4 ≤ free_pages (PageAlloc.alloc s) →
  (∀ s', kernel_heap s' [(HEAP_END + 1 - HEAP_BASE - 8, false)] →
    (∀ a, a / PAGE_SIZE mod 2 ^ 36 ≠ HEAP_BASE / PAGE_SIZE mod 2 ^ 36 → walk_at s' a = walk_at s a) →
    Q () (Whole (set_space s' (processor w)) (Some HEAP_BASE))) →
  wp init_kernel_heap Q w.
Proof.
  intros Hhead [Hpa Hram] Hk Hnone Htot Hfree HQ. unfold init_kernel_heap. rewrite wp_bind, wp_chk. split; [done|].
  rewrite wp_bind, wp_chk. split; [done|]. unfold wp, on_kernel_heap. rewrite Hhead, Hpa, Hram.
  replace (Sys (PageAlloc.alloc s) (ram s)) with s by (by destruct s).
  assert (heap_range HEAP_BASE) as Hbase by done.
  assert (wp (init_heap HEAP_BASE (HEAP_END - HEAP_BASE + 1)) (λ _ h, list_head h = Some HEAP_BASE ∧
    kernel_heap (heap_memory h) [(HEAP_END + 1 - HEAP_BASE - 8, false)] ∧
    ∀ a, a / PAGE_SIZE mod 2 ^ 36 ≠ HEAP_BASE / PAGE_SIZE mod 2 ^ 36 → walk_at (heap_memory h) a = walk_at s a)
    {| list_head := None; heap_memory := s |}) as Hw.
  { eapply wp_mono; [apply wp_and|].
    - apply (wp_init_heap (lo:=HEAP_BASE) (hi:=HEAP_END + 1) {| list_head := None; heap_memory := s |} HEAP_BASE (HEAP_END - HEAP_BASE + 1)
        (λ _ h, list_head h = Some HEAP_BASE ∧ kernel_heap (heap_memory h) [(HEAP_END + 1 - HEAP_BASE - 8, false)]));
        [by apply (empty_range_ok s tables)|done|done| |exact Hfree|by intros s'].
      change (virtual_word s HEAP_BASE = None). unfold virtual_word. by rewrite Hnone.
    - apply (walk_of_first_page s tables HEAP_BASE (HEAP_END - HEAP_BASE + 1) Hk Hfree); [by apply Hnone|done|done].
    - intros [] h [[H1 H2] [_ H3]]. split; [done|]. split; [done|exact H3]. }
  apply wp_returns in Hw as ([] & [head s'] & -> & Eh & Hh & Ho). cbn [list_head heap_memory] in *. subst head. by apply HQ.
Qed.

(** ** From the arguments to the terminal *)
Section correctness.
Context `{PortDevices} `{Layout} `{Cpuid}.
(** What the kernel needs to start: it is handed an allocator's bitmap and page
    tables in which its own ranges are free, enough pages, and an archive in the
    upper half. *)
Record bootable (args : kernel_args.Args) (bm : list Z) (w : whole) (tables : gmap (list Z) Z) : Prop := {
  boot_fresh : TERMINAL (log_state (kern (processor w))) = None ∧ PAGE_ALLOCATOR (page_state (kern (processor w))) = None ∧
    heap_head w = None;
  boot_small : num_bits bm < 2 ^ 32;
  boot_size : 0 < size_of_ThreadLocalStorage ≤ TLS_END - TLS + 1;
  boot_free : 4 * tls_pages + 4 ≤ count_free bm;
  boot_end : kernel_args.mapped_size (kernel_args.memory_bitmap args) * PAGE_SIZE ≤ HEAP_BASE;
  boot_tables : kernel_ok (Sys (new_alloc (kernel_args.page_table_address args)
    (kernel_args.mapped_size (kernel_args.memory_bitmap args)) bm) (wram (page_state (kern (processor w))))) tables;
  boot_ranges : ∀ a, TLS ≤ a < TLS + 4096 * tls_pages ∨ heap_range a →
    walk_at (Sys (new_alloc (kernel_args.page_table_address args)
      (kernel_args.mapped_size (kernel_args.memory_bitmap args)) bm) (wram (page_state (kern (processor w))))) a = None;
  boot_initrd : 0xF000000000000000 < kernel_args.ptr (kernel_args.initrd args);
}.
(** The first framebuffer is a screen the kernel can show text on; by [show_size] the memory at
    its address has at least as many 32-bit words as the framebuffer has bytes. *)
Definition has_screen (args : kernel_args.Args) (vram : Z → list Z) (fn : psf.Font) : Prop :=
  ∃ fb rest, kernel_args.contents (kernel_args.framebuffers args) = fb :: rest ∧
    can_show vram (kernel_args.contents (kernel_args.initrd args)) fb fn.
(** The first framebuffer is of the kind the kernel supports, and the memory at its
    address has fewer 32-bit words than the framebuffer has bytes. *)
Definition short_screen (args : kernel_args.Args) (vram : Z → list Z) : Prop :=
  ∃ fb rest, kernel_args.contents (kernel_args.framebuffers args) = fb :: rest ∧ 0xF000000000000000 < kernel_args.fb_ptr fb ∧
    kernel_args.ptr_type fb = kernel_args.Linear ∧ kernel_args.color_format fb = kernel_args.Bgrr8 ∧
    Z.of_nat (length (vram (kernel_args.fb_ptr fb))) < kernel_args.size fb.
(** The kernel is up: the storage is mapped and filled in, the tables are loaded,
    the heap is one free block, and there is a terminal behind the logger. *)
Record kernel_up (fn : psf.Font) (w : whole) (s : PageAlloc.sys) : Prop := {
  up_space : runs_in (processor w) s;
  up_heap : heap_head w = Some HEAP_BASE ∧ kernel_heap s [(HEAP_END + 1 - HEAP_BASE - 8, false)];
  up_tls : ∀ a, TLS ≤ a < TLS + size_of_ThreadLocalStorage → ∃ e, walk_at s a = Some e ∧ PageTableEntry.writable e = true;
  up_storage : ∃ t, storage (processor w) = Some t ∧ self_pointer t = TLS ∧ length (table t) = 256%nat ∧
    loaded_idt (processor w) = Some (idt_pointer (TLS + idt_offset) (table t));
  up_gdt : loaded_gdt (processor w) = Some (gdt_pointer gdt_address);
  up_logger : CURRENT_LOGGER (log_state (kern (processor w))) = Some KernelLogger;
  up_terminal : ∃ t, TERMINAL (log_state (kern (processor w))) = Some t ∧ Terminal.writable fn t;
}.
(** Before the screen: the same, without a terminal. *)
Record kernel_mapped (w : whole) (s : PageAlloc.sys) : Prop := {
  mapped_space : runs_in (processor w) s;
  mapped_heap : heap_head w = Some HEAP_BASE ∧ kernel_heap s [(HEAP_END + 1 - HEAP_BASE - 8, false)];
  mapped_tls : ∀ a, TLS ≤ a < TLS + size_of_ThreadLocalStorage → ∃ e, walk_at s a = Some e ∧ PageTableEntry.writable e = true;
  mapped_storage : ∃ t, storage (processor w) = Some t ∧ self_pointer t = TLS ∧ length (table t) = 256%nat ∧
    loaded_idt (processor w) = Some (idt_pointer (TLS + idt_offset) (table t));
  mapped_gdt : loaded_gdt (processor w) = Some (gdt_pointer gdt_address);
  mapped_logger : CURRENT_LOGGER (log_state (kern (processor w))) = Some KernelLogger;
  mapped_terminal : TERMINAL (log_state (kern (processor w))) = None;
}.
(** After the first stage, with its message. *)
Lemma wp_stage_1_message c s0 c' s (Q : () → whole → Prop) : stage_1_done c s0 c' s →
  (∀ m, TERMINAL m = None → CURRENT_LOGGER m = CURRENT_LOGGER (log_state (kern c)) →
    Q () (Whole (Core (Kernel m (page_state (kern c')) (screen (kern c'))) (storage c') (registers c') (loaded_gdt c')
      (loaded_idt c') (gdt c') (cpu_info c')) None)) →
  wp (on_processor (on_kernel (Main.debug (chars "Architecture stage 1 initialised")))) Q (Whole c' None).
Proof.
  intros [_ _ _ _ _ _ _ (_ & Hterm & Hlog)] HQ. unfold on_processor, on_kernel. rewrite !wp_zoom. cbn [processor].
  apply (wp_early_message any_font); [done|]. intros m Ht Hl _. apply HQ; [done|congruence].
Qed.
(** Other addresses than those of the thread-local storage and of the first page of
    the heap are translated as the bootloader's tables did. *)
Definition others_kept (args : kernel_args.Args) (bm : list Z) (w : whole) (s : PageAlloc.sys) : Prop :=
  ∀ a, (∀ b, TLS ≤ b < TLS + size_of_ThreadLocalStorage ∨ b = HEAP_BASE → a / PAGE_SIZE mod 2 ^ 36 ≠ b / PAGE_SIZE mod 2 ^ 36) →
    walk_at s a = walk_at (Sys (new_alloc (kernel_args.page_table_address args)
      (kernel_args.mapped_size (kernel_args.memory_bitmap args)) bm) (wram (page_state (kern (processor w))))) a.
(** [kernel_main] up to the screen. *)
Definition until_screen (args : kernel_args.Args) (bitmap : list Z) : M whole () :=
  on_processor (on_kernel (kernel_main_early args bitmap));;
  on_processor init_stage_1;;
  on_processor (on_kernel (Main.debug (chars "Architecture stage 1 initialised")));;
  init_kernel_heap.
Lemma wp_until_screen args bm (w : whole) tables : bootable args bm w tables →
  wp (until_screen args bm) (λ _ w', ∃ s, kernel_mapped w' s ∧ others_kept args bm w s) w.
Proof.
  intros [(Hterm & Hpa & Hhead) Hsmall Hsize Hfree Hend Htab Hnone Hinitrd]. unfold others_kept.
  set (pa := new_alloc _ _ bm) in *. set (ram0 := wram _) in *. destruct w as [c head]. cbn [processor heap_head] in *. subst head.
  unfold until_screen. rewrite wp_bind. unfold on_processor at 1, on_kernel at 1. rewrite !wp_zoom.
  apply wp_kernel_main_early; [done..|]. intros m Hl Ht. cbn [kern heap_head processor]. fold pa ram0.
  rewrite wp_bind. unfold on_processor at 1. rewrite wp_zoom. cbn [processor].
  eapply (wp_init_stage_1 _ pa tables); [split; try done; [cbn; lia|intros a Ha; apply Hnone; by left]|].
  cbn [kern page_state wram]. intros c1 s1 Hdone _. rewrite wp_bind. eapply wp_stage_1_message; [exact Hdone|].
  intros m1 Ht1 Hl1. destruct Hdone as [[[Hpa1 Hram1] [t1 Hk1]] Hmap Hother [Hcost Htot] (t & Hst & Hself & _ & Hlen & _ & Hidt) [_ Hgdt] _ _].
  cbn [kern log_state PageAlloc.alloc] in *.
  apply (wp_init_kernel_heap _ s1 t1); [done|by split|done| | | |].
  { intros a Ha. rewrite Hother; [apply Hnone; by right|]. intros b Hb. apply heap_not_tls; [done|lia]. }
  { rewrite Htot. cbn. done. }
  { change (free_pages pa) with (count_free bm) in Hcost. lia. }
  intros s2 Hheap Hsame. exists s2. split.
  - split; cbn [processor kern heap_head storage loaded_idt loaded_gdt set_space log_state page_state] in *; try done.
    + intros a Ha. rewrite Hsame; [by apply Hmap|]. apply not_eq_sym, heap_not_tls; [done|lia].
    + by exists t.
    + by cbn; congruence.
  - intros a Ha. rewrite Hsame by (apply Ha; by right). apply Hother. intros b Hb. apply Ha. by left.
Qed.
Lemma kernel_main_run args bm (w : whole) tables vram front_ok back_ok : bootable args bm w tables →
  ∃ w' s, kernel_mapped w' s ∧ others_kept args bm w s ∧ kernel_main_to_stage_2 vram front_ok back_ok args bm w =
    on_processor (on_kernel (kernel_main_screen vram front_ok back_ok args)) w'.
Proof.
  intros Hb. pose proof (wp_until_screen args bm w tables Hb) as ([] & w' & E & s & Hm & Ho)%wp_returns.
  exists w', s. split; [done|]. split; [done|].
  rewrite <-(bind_step _ (λ _, on_processor _) _ _ _ E). unfold until_screen, kernel_main_to_stage_2.
  do 3 (rewrite bind_assoc; apply bind_ext; [done|intros [] ?]). done.
Qed.
(** C17: The kernel starts: from what the bootloader hands over, [kernel_main]
    gets to its second stage, if the memory at the address of the first
    framebuffer has as many 32-bit words as the framebuffer has bytes. The
    allocator, the page tables, the thread-local storage, the descriptor tables,
    the heap and the terminal are then all in their normal state at once, and
    nothing else in the address space has moved. That memory is four times what
    a framebuffer of 32-bit pixels takes, because the code passes its size in
    bytes for a number of words: if there are fewer words, and so whenever the
    memory is just that of the framebuffer, the slice the kernel makes of it
    reaches beyond it, which is undefined behaviour. *)
Theorem kernel_main_correct args bm (w : whole) tables vram : bootable args bm w tables →
  (∀ fn, has_screen args vram fn →
    ∃ w' s, kernel_main_to_stage_2 vram true true args bm w = Returns ((), w') ∧ kernel_up fn w' s ∧ others_kept args bm w s) ∧
  (∀ front_ok back_ok, short_screen args vram → kernel_main_to_stage_2 vram front_ok back_ok args bm w = Undefined).
Proof.
  intros Hb. split.
  - intros fn (fb & rest & Hfb & Hshow). destruct (kernel_main_run args bm w tables vram true true Hb) as (w1 & s & Hm & Ho & E).
    destruct Hm as [Hsp Hheap Htls Hst Hgdt Hlog Hterm].
    assert (wp (on_processor (on_kernel (kernel_main_screen vram true true args))) (λ _ w', kernel_up fn w' s) w1) as Hw.
    { unfold on_processor, on_kernel, kernel_main_screen. rewrite !wp_zoom, wp_bind, wp_rassert.
      split; [apply Z.ltb_lt, Hb|]. rewrite Hfb. apply (wp_framebuffer_logging _ _ _ _ _ fn); [done..|].
      intros k t Htm Hwr Hlg Hps. split; cbn [processor kern heap_head storage loaded_idt loaded_gdt] in *; try done.
      - unfold runs_in in *. cbn. by rewrite Hps.
      - by exists t. }
    apply wp_returns in Hw as ([] & w' & E' & Hup). exists w', s. by rewrite E, E'.
  - intros front_ok back_ok (fb & rest & Hfb & Hptr & Hlin & Hfmt & Hlen).
    destruct (kernel_main_run args bm w tables vram front_ok back_ok Hb) as (w1 & s & Hm & _ & E). rewrite E.
    unfold on_processor, on_kernel, kernel_main_screen, zoom. rewrite Hfb.
    rewrite (bind_step _ _ () _ (kern (processor w1))) by (by rewrite (proj2 (Z.ltb_lt _ _)) by apply Hb).
    by rewrite (short_framebuffer _ _ _ _ _ _ _ (mapped_terminal _ _ Hm)).
Qed.
End correctness.

(** ** A kernel that starts: 64 KiB of memory, the root table in page 1. *)
Definition demo_args : kernel_args.Args :=
  {| kernel_args.kernel_elf := demo_file [127]; kernel_args.page_table_address := 0x1000;
     kernel_args.environment := kernel_args.null;
     kernel_args.memory_bitmap := {| kernel_args.slice := {| kernel_args.mut_ptr := 0x4000; kernel_args.mut_len := 2 |};
       kernel_args.mapped_size := 0x10000 |};
     kernel_args.initrd := demo_file demo_initrd;
     kernel_args.arch_ptrs := {| kernel_args.efi_ptr := 0; kernel_args.acpi_ptr := None; kernel_args.mp_ptr := 0; kernel_args.smbi_ptr := 0 |};
     kernel_args.framebuffers := {| kernel_args.ptr := 0x5000; kernel_args.contents := [kernel_fb (demo_screen 32)] |} |}.
Definition demo_whole : whole :=
  Whole (Core (Kernel (log_state demo_kernel) (World None (λ _, 0)) None) None (λ _, 7) None None KERNEL_GDT None) None.
#[local] Existing Instance demo_layout.
#[local] Instance silent_ports : PortDevices := λ _ _, 0.
#[local] Instance zero_cpuid : Cpuid := λ _, {| eax := 0; ebx := 0; ecx := 0; edx := 0 |}.
Definition demo_vram (a : Z) : list Z := replicate 5120 0.
Lemma demo_bootable : bootable demo_args [0xC0; 0x00] demo_whole demo_tables.
Proof.
  split; [done|done|done|vm_compute; discriminate|done| | |done].
  - destruct PageTables.demo_sys_ok as [[Hb _ _] Hz Hs Hpt]. split; [split; [exact Hb|done|done]|exact Hz|exact Hs|exact Hpt].
  - intros a _. apply (demo_walk a).
Qed.
(** With 1280 words of 4 bytes the screen of 32 by 40 pixels is just there; the
    kernel needs 5120. *)
Lemma kernel_main_correct_witness :
  (∃ w' s, kernel_main_to_stage_2 demo_vram true true demo_args [0xC0; 0x00] demo_whole = Returns ((), w') ∧
    kernel_up demo_font w' s) ∧
  kernel_main_to_stage_2 (λ _, replicate 1280 0) true true demo_args [0xC0; 0x00] demo_whole = Undefined.
Proof.
  split.
  - destruct (kernel_main_correct demo_args [0xC0; 0x00] demo_whole demo_tables demo_vram demo_bootable) as (Hup & _).
    destruct (Hup demo_font) as (w' & s & E & Hs & _); [exists (kernel_fb (demo_screen 32)), []; split; [done|exact demo_can_show]|].
    exists w', s. split; [exact E|exact Hs].
  - apply (kernel_main_correct demo_args [0xC0; 0x00] demo_whole demo_tables (λ _, replicate 1280 0) demo_bootable).
    exists (kernel_fb (demo_screen 32)), []. split; [done|]. split; [done|]. split; [done|]. split; [done|by vm_compute].
Defined.
