(* ===== verification/ClockInit.v ===== *)
(** * Starting the timer (kernel/src/arch/x86_64/clock and [init_stage_2] of mod.rs)

    The timer part of the second stage, from end to end: the clock manager picks the
    RTC, the RTC's line is routed and unrouted as in Interrupts.v, the timer of the
    local APIC is measured against two interrupts of the RTC, which go through the
    descriptor the routing installs, and gets a vector. *)
From S2P Require Import Prelude Interrupts Ports Clock.

Section start.
Context {H : Type} `{IoApics H} `{PortDevices} `{Handlers}.
Implicit Types s : clocks H.

(** ** What interrupts and register accesses change *)

(** Devices, the two flags of the handlers, the ports and the interrupts to come. *)
Definition touched (h : H) (received rtc : bool) (p : list port_event) (l : list (list Z)) s : clocks H :=
  Clocks (set_devices h (irq s)) (Info (interrupt_idt_index (local_apic_info s)) (timer_us_numerator (local_apic_info s))
    (timer_us_denominator (local_apic_info s)) received) rtc p (TIMERS s) (MANAGER s) l.
Lemma wp_wait_rtc a before batch rest fuel s (Q : () → clocks H → Prop) :
  local_apic_at a s → arrivals s = before ++ batch :: rest →
  wakes (apic_interrupts (irq s)) sleep_handler_apic_address before batch →
  INTERRUPT_RECEIVED s = false → (length before + 1 < fuel)%nat →
  (∀ h b, Q () (touched h b true (clock_ports s) rest s)) →
  wp (wait_until fuel INTERRUPT_RECEIVED) Q s.
Proof.
  intros Ha Harr Hw Hflag Hf HQ. eapply (wp_wait a _ _ before batch rest); [exact flag_INTERRUPT_RECEIVED|done..|].
  unfold after_batch. rewrite !hits_app, (wakes_batch _ _ _ _ Hw), orb_true_r, Hflag. destruct s as [? [] ? ? ? ? ?]. apply HQ.
Qed.
Lemma wp_Cmos_read nmi r s (Q : Z → clocks H → Prop) : (∀ v p, Q v (with_ports p s)) → wp (Cmos_read_byte nmi r) Q s.
Proof.
  intros HQ. unfold Cmos_read_byte, on_clock_ports, port.write_byte, port.read_byte.
  rewrite wp_zoom, wp_bind, wp_modify, wp_bind, wp_get, wp_bind, wp_modify, wp_ret. apply HQ.
Qed.
Lemma wp_Cmos_write nmi r v s (Q : () → clocks H → Prop) : (∀ p, Q () (with_ports p s)) → wp (Cmos_write_byte nmi r v) Q s.
Proof.
  intros HQ. unfold Cmos_write_byte, on_clock_ports, port.write_byte. rewrite wp_zoom, wp_bind, wp_modify, wp_modify. apply HQ.
Qed.

(** ** The RTC measures *)

(** The vector [i], which the RTC was routed to, is free again, and its descriptor
    is missing. *)
Definition measured (i : Z) (h : H) (received rtc : bool) (p : list port_event) (l : list (list Z)) s : clocks H :=
  touched h received rtc p l (with_irq (set_apic_interrupts (<[Z.to_nat i := idt.missing]> (apic_interrupts (irq s))) (irq s)) s).
(** The line of the RTC can be routed: it is free, [i] is the lowest free vector,
    and there are I/O APICs for the line it is wired to and for its own number. *)
Record can_measure s (st : State) (a i : Z) (x y : io.IoApic) : Prop := {
  measure_routing : routing_ok (irq s) st;
  measure_local : local_apic_at a s;
  measure_id : ∀ h, local_apic_id h = 0;
  measure_line : LEGACY_IRQS (irq s) !! 8%nat = Some None;
  measure_vector : lowest_free (interrupt_vector_map st) i ∧ i < 64;
  measure_wired : List.find (has_line (target 8 st)) (io_apics st) = Some x;
  measure_own : List.find (has_line 8) (io_apics st) = Some y;
}.
(** The RTC interrupts twice: in the batches [b1] and [b2], and not before or between
    them. Its descriptor is entry [i] of the table, for the time of the measurement. *)
Record rtc_twice s (i : Z) (before : list (list Z)) (b1 : list Z) (mid : list (list Z)) (b2 : list Z)
    (rest : list (list Z)) (fuel : nat) : Prop := {
  twice_arrivals : arrivals s = before ++ b1 :: mid ++ b2 :: rest;
  twice_first : wakes (<[Z.to_nat i := handler_entry sleep_handler_apic_address]> (apic_interrupts (irq s)))
    sleep_handler_apic_address before b1;
  twice_second : wakes (<[Z.to_nat i := handler_entry sleep_handler_apic_address]> (apic_interrupts (irq s)))
    sleep_handler_apic_address mid b2;
  twice_fuel : (length before + 1 < fuel)%nat ∧ (length mid + 1 < fuel)%nat;
}.
Lemma wp_Rtc_calibration_sleep s st a i x y before b1 mid b2 rest fuel v (Q : Z → clocks H → Prop) :
  can_measure s st a i x y → rtc_twice s i before b1 mid b2 rest fuel →
  (∀ h b p, Q 62500 (measured i h b false p rest s)) →
  wp (Rtc_calibration_sleep fuel (write_local local.InitialCount v)) Q s.
Proof.
  intros [Hok [Hla Hab] Hid0 Hline [Hlow Hi64] Hx Hy] [Harr Hb Hm [Hfb Hfm]] HQ. pose proof Hlow as (Hi0 & Hfree & _).
  assert (vector_number i = i) as Hvi by (unfold vector_number; by rewrite (proj2 (Z.ltb_lt i 64))).
  unfold Rtc_calibration_sleep, on_irq. rewrite wp_bind, wp_zoom.
  apply (wp_map_legacy_irq (irq s) st 8 _ i x); [done|apply Hid0|done..|]. rewrite Hvi. intros m h [Hmok Hadd] _ _.
  set (s1 := with_irq _ s). assert (∀ h b r p l, local_apic_at a (touched h b r p l s1)) as Hla' by (intros; by split).
  rewrite wp_bind. apply wp_Cmos_read. intros va p1. rewrite wp_bind. apply wp_Cmos_read. intros vb p2.
  rewrite wp_bind, wp_modify, wp_bind. apply wp_Cmos_write. intros p3. rewrite wp_bind. apply wp_Cmos_write. intros p4.
  rewrite wp_bind. apply wp_Cmos_read. intros vc p5. rewrite wp_bind.
  apply (wp_wait_rtc a before b1 (mid ++ b2 :: rest)); [by split|done|done|done|done|]. intros h1 r1.
  rewrite wp_bind. apply (wp_write_local a local.InitialCount 0x380 true); [apply Hla'|done|lia|].
  rewrite wp_bind. apply wp_Cmos_read. intros vd p6. rewrite wp_bind, wp_modify, wp_bind.
  apply (wp_wait_rtc a mid b2 rest); [by split|done|done|done|done|]. intros h2 r2.
  rewrite wp_bind. apply wp_Cmos_write. intros p7. rewrite wp_bind. apply wp_Cmos_read. intros ve p8.
  rewrite wp_bind, wp_modify, wp_bind, wp_zoom. destruct Hok as [Hact Hst Hio Hov Hvm Hlo Hleg Hidt].
  eapply (wp_unmap_legacy_id _ (with_vector_map m st) 8 {| idt_entry := i; entry_index := i |} y);
    [done|done|done|done|done| |done|done|].
  { cbn. apply list_lookup_insert_eq. lia. }
  intros m' h' Hm' Hrem _ _. rewrite wp_ret. change (1000000 / FREQUENCY) with 62500.
  specialize (HQ h' r2 p8). cbn [entry_index idt_entry] in *.
  assert (with_vector_map m' (with_vector_map m st) = st) as Est.
  { replace m' with (interrupt_vector_map st); [by destruct st|].
    apply vector_map_ext; [done|done|]. intros j Hj. rewrite Hrem by done. cbn [with_vector_map interrupt_vector_map]. rewrite Hadd by done.
    destruct (Z.eqb_spec j i) as [->|]; [by rewrite Hfree|done]. }
  rewrite Est. clear -HQ Hst Hline.
  destruct s as [[act leg stt loc idts dev] [] rtc ports tim man arr]. cbn -[Z.to_nat] in *. change (Z.to_nat 8) with 8%nat.
  rewrite !list_insert_insert_eq, (list_insert_id leg 8 None) by done. subst stt. exact HQ.
Qed.

(** ** The stages of [init_timer] *)

(** Picking the clocks: no timer but that of the local APIC can be chosen. *)
Lemma wp_update s (Q : () → clocks H → Prop) : timer_hpet (TIMERS s) = false → timer_pit (TIMERS s) = false →
  Q () (with_MANAGER {| calibration_timer := RtcCalibration;
    timer := if timer_apic (TIMERS s) then ApicTimer else DummyTimer |} s) →
  wp (s ← get; zoom MANAGER with_MANAGER (update_clock_functions CALIBRATION_TIMERS (TIMERS s))) Q s.
Proof.
  intros Hh Hp HQ. rewrite wp_bind, wp_get, wp_zoom. unfold update_clock_functions.
  change (CalibrationTimers_get_preferred_clock CALIBRATION_TIMERS) with (Some Rtc). rewrite wp_bind, wp_modify.
  unfold Timers_get_preferred_clock. cbn [first_available]. rewrite Hh, Hp. by destruct (timer_apic (TIMERS s)).
Qed.
Lemma wp_setup s st a i (Q : () → clocks H → Prop) :
  local_apic_at a s → STATE (irq s) = Some st → vector_map_ok (interrupt_vector_map st) →
  lowest_free (interrupt_vector_map st) i → i < 64 →
  (∀ m h, vectors_add (interrupt_vector_map st) m i →
    Q () (Clocks (set_devices h (set_state (with_vector_map m st) (irq s)))
      (Info (Some i) (timer_us_numerator (local_apic_info s)) (timer_us_denominator (local_apic_info s)) (interrupt_received (local_apic_info s)))
      (INTERRUPT_RECEIVED s) (clock_ports s)
      {| timer_apic := true; timer_hpet := timer_hpet (TIMERS s); timer_pit := timer_pit (TIMERS s) |} (MANAGER s) (arrivals s))) →
  wp setup Q s.
Proof.
  intros [Hla Hab] Hst Hvm Hlow Hi HQ. pose proof (proj1 Hlow) as Hi0. unfold setup, on_irq at 1. rewrite wp_bind, wp_zoom.
  apply (wp_try_find_and_reserve_entry _ st i); [done..|]. intros m Hm.
  unfold vector_number. rewrite (proj2 (Z.ltb_lt i 64)) by done. rewrite wp_bind, wp_unwrap. exists i. split; [done|].
  rewrite wp_bind, wp_modify, wp_bind. apply (wp_read_local a local.LvtTimer 0x320 true); [by split|done|lia|].
  rewrite wp_bind, wp_chk. split; [lia|]. rewrite wp_bind. apply (wp_write_local a local.LvtTimer 0x320 true); [by split|done|lia|].
  rewrite wp_bind. apply (wp_write_local a local.DivideConfiguration 0x3E0 true); [by split|done|lia|].
  rewrite wp_bind. apply (wp_write_local a local.InitialCount 0x380 true); [by split|done|lia|]. rewrite wp_modify.
  match goal with |- Q _ (with_TIMERS _ (with_clock_devices ?h _)) => specialize (HQ m h Hm) end.
  by destruct s as [[act leg stt loc idts dev] [] rtc ports tim man arr].
Qed.
Lemma wp_calibrate s st a i x y before b1 mid b2 rest fuel (Q : () → clocks H → Prop) :
  can_measure s st a i x y → calibration_timer (MANAGER s) = RtcCalibration →
  (∀ h, 0 ≤ fst (read_volatile (a + 0x390) h) < 2 ^ 32) →
  rtc_twice s i before b1 mid b2 rest fuel →
  (∀ h b p ticks, 0 ≤ ticks < 2 ^ 32 → Q () (measured i h b false p rest
    (with_info (Info (interrupt_idt_index (local_apic_info s)) ticks 62500 (interrupt_received (local_apic_info s))) s))) →
  wp (calibrate fuel) Q s.
Proof.
  intros Hm Hrtc Hcount Htwice HQ. unfold calibrate. rewrite wp_bind.
  apply (wp_write_local a local.DivideConfiguration 0x3E0 true); [apply Hm|done|lia|].
  set (h0 := write_volatile (a + 0x3E0) 3 (clock_devices s)). rewrite wp_bind, wp_get, wp_bind.
  change (MANAGER (with_clock_devices h0 s)) with (MANAGER s). rewrite Hrtc. cbn [calibration_sleep].
  assert (can_measure (with_clock_devices h0 s) st a i x y) as Hm0.
  { destruct Hm as [[] ? Hid ? ? ? ?]. by split. }
  eapply (wp_Rtc_calibration_sleep _ st a i x y before b1 mid b2 rest); [exact Hm0|by destruct Htwice|].
  intros h b p. rewrite wp_bind. apply (wp_read_local a local.CurrentCount 0x390 false); [apply Hm|done|lia|].
  specialize (Hcount (clock_devices (measured i h b false p rest (with_clock_devices h0 s)))).
  rewrite wp_bind, wp_chk. split; [lia|]. unfold set_calibration. rewrite wp_modify.
  set (ticks := 0xFFFFFFFF - _). match goal with |- Q _ (with_info _ (with_clock_devices ?h' _)) => specialize (HQ h' b p ticks ltac:(lia)) end.
  by destruct s as [[act leg stt loc idts dev] [] rtc ports tim man arr].
Qed.
(** The state after [init_timer]: what the timer part leaves of [s]. *)
Definition timer_started (st : State) (i : Z) (rest : list (list Z)) s s' : Prop := ∃ m ticks,
  0 ≤ ticks < 2 ^ 32 ∧ timer_us_numerator (local_apic_info s') = ticks ∧
  timer_us_denominator (local_apic_info s') = 62500 ∧ interrupt_idt_index (local_apic_info s') = Some i ∧
  MANAGER s' = {| calibration_timer := RtcCalibration; timer := ApicTimer |} ∧ arrivals s' = rest ∧
  STATE (irq s') = Some (with_vector_map m st) ∧ vectors_add (interrupt_vector_map st) m i ∧
  LEGACY_IRQS (irq s') = LEGACY_IRQS (irq s) ∧
  apic_interrupts (irq s') = <[Z.to_nat i := idt.missing]> (apic_interrupts (irq s)).
Lemma wp_init_timer s st a i x y before b1 mid b2 rest fuel :
  can_measure s st a i x y → (∀ h, 0 ≤ fst (read_volatile (a + 0x390) h) < 2 ^ 32) →
  timer_hpet (TIMERS s) = false → timer_pit (TIMERS s) = false → rtc_twice s i before b1 mid b2 rest fuel →
  wp (init_timer fuel) (λ _, timer_started st i rest s) s.
Proof.
  intros Hm Hcount Hh Hp Htwice.
  unfold init_timer. rewrite wp_bind. apply wp_update; [done..|]. set (s1 := with_MANAGER _ s).
  assert (can_measure s1 st a i x y) as Hm1 by (destruct Hm; by split).
  rewrite wp_bind. eapply (wp_calibrate s1 st a i x y before b1 mid b2 rest); [done|done|done|by destruct Htwice|]. intros h b p ticks Hticks.
  destruct Hm as [[_ Hst _ _ Hvm _ _ _] Hla _ _ [Hlow Hi] _ _].
  rewrite wp_bind. apply (wp_setup _ st a i); [done..|]. intros m h' Hadd. apply wp_update; [done..|].
  exists m, ticks. split; [exact Hticks|]. do 6 (split; [done|]). split; [exact Hadd|]. by split.
Qed.
(** The timer starts: when the RTC's line can be routed and the RTC interrupts
    twice, amid any other interrupts that have a descriptor, the timer part of the
    second stage returns. The timer of the local APIC is then the timer of the kernel, calibrated with
    the ticks it made in 62500 microseconds, and has the lowest free vector to
    itself; the RTC is gone from the table of legacy lines, and its descriptor is
    missing again. *)
Theorem init_timer_correct s st a i x y before b1 mid b2 rest fuel :
  can_measure s st a i x y → (∀ h, 0 ≤ fst (read_volatile (a + 0x390) h) < 2 ^ 32) →
  timer_hpet (TIMERS s) = false → timer_pit (TIMERS s) = false → rtc_twice s i before b1 mid b2 rest fuel →
  ∃ s' m ticks, init_timer fuel s = Returns ((), s') ∧
    0 ≤ ticks < 2 ^ 32 ∧ timer_us_numerator (local_apic_info s') = ticks ∧ timer_us_denominator (local_apic_info s') = 62500 ∧
    interrupt_idt_index (local_apic_info s') = Some i ∧
    MANAGER s' = {| calibration_timer := RtcCalibration; timer := ApicTimer |} ∧ arrivals s' = rest ∧
    STATE (irq s') = Some (with_vector_map m st) ∧ vectors_add (interrupt_vector_map st) m i ∧
    LEGACY_IRQS (irq s') = LEGACY_IRQS (irq s) ∧
    apic_interrupts (irq s') = <[Z.to_nat i := idt.missing]> (apic_interrupts (irq s)).
Proof.
  intros Hm Hcount Hh Hp Htwice.
  pose proof (wp_init_timer s st a i x y before b1 mid b2 rest fuel Hm Hcount Hh Hp Htwice) as Hw.
  apply wp_returns in Hw as ([] & s' & E & m & ticks & Hs'). by exists s', m, ticks.
Qed.
End start.

(** ** The machine of Interrupts.v *)
#[local] Instance no_port_devices : PortDevices := λ _ _, 0.
Definition demo_start : clocks demo_devices :=
  Clocks Interrupts.demo_sys info_default false [] {| timer_apic := false; timer_hpet := false; timer_pit := false |} Manager_new
    [[]; [129]; [129; 129]; [130]].
Lemma demo_can_measure : ∃ x y, can_measure demo_start demo_state 0xFEE00000 1 x y.
Proof.
  eexists _, _. split; [exact demo_ok|done|done|done|split; [exact demo_lowest|done]|reflexivity|reflexivity].
Qed.
(** The vector of the RTC is 129. *)
Lemma demo_twice : rtc_twice demo_start 1 [[]] [129] [] [129; 129] [[130]] 4.
Proof.
  split; [done| | |cbn; lia].
  - split; [apply Forall_cons; split; [by right|done]|apply Forall_cons; by split|done].
  - split; [apply Forall_cons; split; [by right|]; apply Forall_cons; split; [by right|done]|done|done].
Qed.
Lemma init_timer_correct_witness :
  ∃ s', init_timer 4 demo_start = Returns ((), s') ∧ interrupt_idt_index (local_apic_info s') = Some 1 ∧
    timer_us_denominator (local_apic_info s') = 62500 ∧ timer (MANAGER s') = ApicTimer ∧ arrivals s' = [[130]].
Proof.
  destruct demo_can_measure as (x & y & Hm).
  destruct (init_timer_correct demo_start demo_state 0xFEE00000 1 x y [[]] [129] [] [129; 129] [[130]] 4)
    as (s' & m & ticks & E & _ & _ & Hd & Hi & Hman & Harr & _); [exact Hm| |done|done|exact demo_twice|].
  - intros h. cbn [read_volatile demo_mmio]. change ((0xFEE00000 + 0x390) mod 4096 =? 0x20) with false. apply Z.mod_pos_bound. lia.
  - exists s'. split; [exact E|]. split; [exact Hi|]. split; [exact Hd|]. split; [by rewrite Hman|exact Harr].
Defined.
