(* ===== verification/Stage2.v ===== *)
(** * The second stage of the kernel's start (kernel/src/arch/x86_64/mod.rs)

    [init_stage_2] joins the parts that get interrupts going: ACPICA is started
    and gives the interrupt description table (Acpi.v), the interrupt controllers
    are set up from it (MadtInit.v), and the timer is measured and started
    (ClockInit.v). The state has everything the logger is handed, by this code and by
    what it calls; what ACPICA prints itself does not go through the logger. *)
From S2P Require Import Prelude Paging PageAlloc PageTables Ports Heap Acpi Interrupts MadtInit Clock ClockInit Handoff.

(** What ACPICA is given, with the heap and the page tables; the interrupts,
    devices and clocks; the register IA32_APIC_BASE; the messages so far. *)
Record stage2 (H : Type) : Type := Stage2 {
  acpi_os : os PageAlloc.sys;
  machine : clocks H;
  ia32_apic_base : Z;
  logged : list message;
}.
Arguments Stage2 {H} _ _ _ _.
Arguments acpi_os {H} _.
Arguments machine {H} _.
Arguments ia32_apic_base {H} _.
Arguments logged {H} _.
(** The offset of [Madt::flags]. *)
Definition flags_offset : Z := 40.

Section stage2.
Context {H : Type} `{IoApics H} `{PortDevices} `{Handlers} `{Acpica (os PageAlloc.sys)}.
Implicit Types s : stage2 H.
Definition tables_of s : PageAlloc.sys := heap_memory (os_heap (acpi_os s)).
Definition on_os {A} (m : M (os PageAlloc.sys) A) : M (stage2 H) A :=
  zoom acpi_os (λ o s, Stage2 o (machine s) (ia32_apic_base s) (logged s)) m.
Definition boot_of s : boot H :=
  Boot (tables_of s) (clock_ports (machine s)) (ia32_apic_base s) (irq (machine s)) (logged s).
Definition put_boot (b : boot H) s : stage2 H :=
  Stage2 {| RSDP_ADDRESS := RSDP_ADDRESS (acpi_os s); mutexes := mutexes (acpi_os s);
      os_heap := {| list_head := list_head (os_heap (acpi_os s)); heap_memory := page_tables b |} |}
    (with_ports (boot_ports b) (with_irq (interrupts b) (machine s))) (apic_base_msr b) (boot_log b).
Definition on_boot {A} (m : M (boot H) A) : M (stage2 H) A := zoom boot_of put_boot m.
Definition on_clocks {A} (m : M (clocks H) A) : M (stage2 H) A :=
  zoom machine (λ c s, Stage2 (acpi_os s) c (ia32_apic_base s) (logged s)) m.
Definition debug (m : message) : M (stage2 H) () :=
  modify (λ s, Stage2 (acpi_os s) (machine s) (ia32_apic_base s) (logged s ++ [m])).
(** [unwrap] and [expect] on a result. *)
Definition expect {A E} (r : result A E) : M (stage2 H) A :=
  match r with Ok a => mret a | Err _ => panic end.

(** What the iterator reports, and what the loop shows of the entries it gives. *)
Definition item_message (i : table.item) : message :=
  match i with table.Reported ty => UnknownType ty | table.Given e => Entry e end.
Definition init_stage_2 (fuel : nat) (args : kernel_args.Args) : M (stage2 H) () :=
  r ← on_os (init_subsystem (kernel_args.acpi_ptr (kernel_args.arch_ptrs args)));
  expect r;;
  debug (Text "Initialised ACPI subsystem");;
  r ← on_os init_manager;
  expect r;;
  debug (Text "Initialised ACPI tables");;
  r ← on_os (get_table table.SIGNATURE);
  madt ← expect r;
  s ← get;
  let mem := ram (tables_of s) in
  debug (MadtAt madt (table.read32 mem (madt + table.bsp_local_apic_address_offset))
    (table.read32 mem (madt + flags_offset)));;
  items ← table.items mem fuel madt;
  for_each (λ i, debug (item_message i)) items;;
  on_boot (init_from_madt fuel madt);;
  debug (Text "Initialised APIC from MADT");;
  on_clocks (init_timer fuel);;
  debug (Text "Initialised Local APIC Timer").
End stage2.

Section correctness.
Context {H : Type} `{IoApics H} `{PortDevices} `{Handlers} `{Acpica (os PageAlloc.sys)}.
Implicit Types s : stage2 H.
(** ACPICA starts and gives the interrupt description table at [madt]. *)
Record acpica_starts (ptr : option Z) (o o' : os PageAlloc.sys) (madt : Z) : Prop := {
  starts_subsystem : ∃ o1 o2, init_subsystem ptr o = Returns (Ok (), o1) ∧ init_manager o1 = Returns (Ok (), o2) ∧
    get_table table.SIGNATURE o2 = Returns (Ok madt, o');
}.
(** The table at [madt] has the records [rs]. *)
Record madt_at (mem : memory) (madt : Z) (rs : list madt_record) : Prop := {
  at_records : holds mem (madt + table.size_of_Madt) (rs ≫= encode_record);
  at_length : table.read32 mem (madt + table.length_offset) = table.size_of_Madt + Z.of_nat (length (rs ≫= encode_record));
}.
(** The routing state the table asks for. *)
Definition table_state (h : H) (rs : list madt_record) : State :=
  {| io_apics := omap (io_apic_of h) (omap known rs); interrupt_source_overrides := omap override_of (omap known rs);
     interrupt_vector_map := [2 ^ 63; 0] |}.
(** The table describes devices that are there, and the RTC's line is one of theirs. *)
Record devices_ready (h : H) (irqs : Interrupts.sys H) (rs : list madt_record) (x y : io.IoApic) : Prop := {
  ready_io_apics : Forall io_apic_ok (io_apics (table_state h rs));
  ready_overrides : Forall (λ o, global_system_interrupt o ≤ 255) (interrupt_source_overrides (table_state h rs));
  ready_wired : List.find (has_line (target 8 (table_state h rs))) (io_apics (table_state h rs)) = Some x;
  ready_own : List.find (has_line 8) (io_apics (table_state h rs)) = Some y;
  ready_local : is_local_apic LOCAL_APIC_BASE;
  ready_id : ∀ h, local_apic_id h = 0;
  ready_counter : ∀ h, 0 ≤ fst (read_volatile (LOCAL_APIC_BASE + 0x390) h) < 2 ^ 32;
  ready_enable : ∀ v, same_registers h (write_volatile (LOCAL_APIC_BASE + 0xF0) v h);
  ready_lines : length (LEGACY_IRQS irqs) = 16%nat ∧ LEGACY_IRQS irqs !! 8%nat = Some None;
  ready_idt : length (apic_interrupts irqs) = 128%nat;
}.
Lemma ready_measure h irqs madt rs x y (b b' : boot H) pt (c : clocks H) : devices_ready h irqs rs x y → madt_done madt rs pt b b' →
  interrupts b = irqs → h = devices irqs → irq c = interrupts b' → can_measure c (table_state h rs) LOCAL_APIC_BASE 1 x y.
Proof.
  intros [Hio Hov Hx Hy Hl Hid Hc Hen [Hlen Hline] Hidt] [_ _ _ Dl Da _ Ds Dlines Didt _] Eb -> Ec. subst irqs.
  rewrite <-Ec in *. split; try done.
  - split; try done; [split; [done|by repeat constructor]|by exists LOCAL_APIC_BASE|by rewrite Dlines|by rewrite Didt].
  - by rewrite Dlines.
  - split; [|done]. split; [done|]. split; [done|]. intros j Hj. by replace j with 0 by lia.
Qed.
Lemma wp_debug m s (Q : () → stage2 H → Prop) :
  Q () (Stage2 (acpi_os s) (machine s) (ia32_apic_base s) (logged s ++ [m])) → wp (debug m) Q s.
Proof. intros HQ. unfold debug. by rewrite wp_modify. Qed.
Lemma wp_debug_items (l : list table.item) s (Q : () → stage2 H → Prop) :
  Q () (Stage2 (acpi_os s) (machine s) (ia32_apic_base s) (logged s ++ (item_message <$> l))) →
  wp (for_each (λ i, debug (item_message i)) l) Q s.
Proof.
  revert s. induction l as [|e l IH]; intros s HQ; cbn [for_each foldr fmap list_fmap] in *.
  { rewrite app_nil_r in HQ. by destruct s. }
  rewrite wp_bind. apply wp_debug. apply IH. cbn. by rewrite <-app_assoc.
Qed.
(** A step of ACPICA that succeeds. *)
Lemma wp_on_os {A B} (m : M (os PageAlloc.sys) (result A AcpiError)) (k : A → M (stage2 H) B) s a o (Q : B → stage2 H → Prop) :
  m (acpi_os s) = Returns (Ok a, o) → wp (k a) Q (Stage2 o (machine s) (ia32_apic_base s) (logged s)) →
  wp (r ← on_os m; a ← expect r; k a) Q s.
Proof.
  intros E HQ. rewrite wp_bind. unfold on_os. rewrite wp_zoom. unfold wp at 1. rewrite E. cbn [expect].
  by rewrite wp_bind, wp_ret.
Qed.

Lemma twice_same (c c' : clocks H) i before b1 mid b2 rest fuel : rtc_twice c i before b1 mid b2 rest fuel →
  arrivals c' = arrivals c → apic_interrupts (irq c') = apic_interrupts (irq c) → rtc_twice c' i before b1 mid b2 rest fuel.
Proof. intros [Ha Hf Hs Hn] Ea Ei. by split; rewrite ?Ea, ?Ei. Qed.
Lemma timer_same st i rest (c c' d : clocks H) : timer_started st i rest c d →
  LEGACY_IRQS (irq c) = LEGACY_IRQS (irq c') → apic_interrupts (irq c) = apic_interrupts (irq c') →
  timer_started st i rest c' d.
Proof. intros (m & ticks & Ht) E1 E2. exists m, ticks. by rewrite <-E1, <-E2. Qed.

(** C18: The second stage, from end to end. Suppose ACPICA starts and gives a
    table whose I/O APICs are there, the RTC's line is one of theirs, the
    processor's local APIC has the id 0 (see C27), and the RTC interrupts twice
    amid any other interrupts that have a descriptor. Then the stage returns.
    Interrupts are routed as the table says, the local APIC is switched on at
    its fixed address, the legacy controllers are masked; the timer of the local
    APIC is calibrated against the RTC, has vector 1 and is the timer of the
    kernel; the RTC is gone from the table of legacy lines. And the logger was
    handed exactly these messages, in order: the stage's own, with each entry of
    the table and the type of each record the kernel does not know; those of
    [init_from_madt], which goes over the table again; and the stage's last two. *)
Theorem init_stage_2_correct s (args : kernel_args.Args) o madt pt' rs x y before b1 mid b2 rest fuel :
  let h := devices (irq (machine s)) in
  let pt := heap_memory (os_heap o) in
  let st := table_state h rs in
  let n := table.size_of_Madt + Z.of_nat (length (rs ≫= encode_record)) in
  acpica_starts (kernel_args.acpi_ptr (kernel_args.arch_ptrs args)) (acpi_os s) o madt →
  0 ≤ madt → madt + n < 2 ^ 64 → Forall record_ok rs → madt_at (ram pt) madt rs → madt_at (ram pt') madt rs →
  map_page_translation (table.read32 (ram pt) (madt + 36)) LOCAL_APIC_BASE READ_WRITE pt = Returns (Ok (), pt') →
  Forall (can_start pt' h) (omap known rs) → devices_ready h (irq (machine s)) rs x y →
  timer_hpet (TIMERS (machine s)) = false → timer_pit (TIMERS (machine s)) = false →
  rtc_twice (machine s) 1 before b1 mid b2 rest fuel → (length rs < fuel)%nat →
  ∃ s', init_stage_2 fuel args s = Returns ((), s') ∧
    logged s' = logged s ++ [Text "Initialised ACPI subsystem"; Text "Initialised ACPI tables";
      MadtAt madt (table.read32 (ram pt) (madt + 36)) (table.read32 (ram pt) (madt + 40))] ++
      (item_message <$> (item_of <$> rs)) ++ init_messages madt (table.read32 (ram pt) (madt + 36)) h rs ++
      [Text "Initialised APIC from MADT"; Text "Initialised Local APIC Timer"] ∧
    tables_of s' = pt' ∧ Z.testbit (ia32_apic_base s') 11 = true ∧
    timer_started st 1 rest (machine s) (machine s').
Proof.
  intros h pt st n [(o1 & o2 & E1 & E2 & E3)] Hmadt Hn Hok [Hm Hl] [Hm' Hl'] Hmap Hcan Hready Hh Hp Htwice Hf.
  apply wp_unit_returns. unfold init_stage_2.
  eapply wp_on_os; [exact E1|]. rewrite wp_bind. apply wp_debug. cbn [acpi_os machine ia32_apic_base logged].
  eapply wp_on_os; [exact E2|]. rewrite wp_bind. apply wp_debug. cbn [acpi_os machine ia32_apic_base logged].
  eapply wp_on_os; [exact E3|]. rewrite wp_bind, wp_get. cbv zeta. unfold tables_of at 1 2 3. cbn [acpi_os]. fold pt.
  rewrite wp_bind. apply wp_debug. cbn [acpi_os machine ia32_apic_base logged].
  rewrite wp_bind. unfold wp at 1. rewrite (items_run (ram pt) madt rs fuel); [|done..].
  rewrite wp_bind. apply wp_debug_items. cbn [acpi_os machine ia32_apic_base logged].
  rewrite wp_bind. unfold on_boot. rewrite wp_zoom.
  set (s1 := Stage2 _ _ _ _).
  eapply (wp_init_from_madt (boot_of s1) pt' madt rs fuel);
    [exact Hmap|exact Hok|exact Hm'|done|exact Hl'|done|done|exact Hcan|apply Hready|].
  intros b D. rewrite wp_bind. apply wp_debug. rewrite wp_bind. unfold on_clocks. rewrite wp_zoom.
  eapply wp_mono; [eapply (wp_init_timer _ st LOCAL_APIC_BASE 1 x y before b1 mid b2 rest)|].
  - eapply ready_measure; [exact Hready|exact D|done..].
  - apply Hready.
  - done.
  - done.
  - eapply twice_same; [exact Htwice|done|apply D].
  - intros [] c Htimer. apply wp_debug. cbn [acpi_os machine ia32_apic_base logged put_boot s1]. split; [|split; [|split]].
    + rewrite (done_log _ _ _ _ _ D). cbn [boot_of boot_log s1 logged page_tables interrupts tables_of acpi_os machine].
      by rewrite <-!app_assoc.
    + apply D.
    + apply D.
    + eapply timer_same; [exact Htimer|apply D|apply D].
Qed.
End correctness.

(** ** A machine to start *)
#[local] Instance quiet_ports : PortDevices := λ _ _, 0.
(** ACPICA succeeds, and has found a table at 0x4000. *)
#[local] Instance demo_acpica : Acpica (os PageAlloc.sys) := {|
  subsystem_initialise := mret 0;
  table_manager_initialise _ _ := mret 0;
  table_manager_get_table _ _ := mret (0, 0x4000);
|}.
(** The machine of MadtInit.v, before its table is read; register one of its I/O APIC
    gives 24 entries. *)
Definition demo_irq : Interrupts.sys demo_devices := {|
  ACTIVE_IO_INTERRUPT_SYSTEM := None; LEGACY_IRQS := replicate 16 None; STATE := None; local_apic := None;
  apic_interrupts := replicate 128 idt.missing;
  devices := {| demo_selected := λ _, 0; demo_reg := λ _ i, if i =? 1 then 0x170018 else 0x10000 |};
|}.
Definition demo_os (pt : PageAlloc.sys) : os PageAlloc.sys :=
  {| RSDP_ADDRESS := 0xE0000; mutexes := ∅; os_heap := {| list_head := None; heap_memory := pt |} |}.
Definition demo_stage2 : stage2 demo_devices :=
  Stage2 (demo_os demo_tables) (Clocks demo_irq info_default false [] {| timer_apic := false; timer_hpet := false; timer_pit := false |}
    Manager_new [[]; [129]; [129; 129]; [130]]) 0 [].
Definition demo_args : kernel_args.Args := {|
  kernel_args.kernel_elf := kernel_args.null; kernel_args.page_table_address := 0x1000;
  kernel_args.environment := kernel_args.null;
  kernel_args.memory_bitmap := {| kernel_args.slice := {| kernel_args.mut_ptr := 0; kernel_args.mut_len := 0 |}; kernel_args.mapped_size := 0 |};
  kernel_args.initrd := kernel_args.null;
  kernel_args.arch_ptrs := {| kernel_args.efi_ptr := 0; kernel_args.acpi_ptr := Some 0xE0000; kernel_args.mp_ptr := 0; kernel_args.smbi_ptr := 0 |};
  kernel_args.framebuffers := kernel_args.null;
|}.
Definition demo_io_apic : io.IoApic :=
  {| io.base_address := 0xFEC00000; io._id := 2; io.global_system_interrupt_base := 0; io.num_redirection_entries := 24 |}.
Lemma demo_table_records : holds (ram demo_tables) (0x4000 + table.size_of_Madt) (demo_records ≫= encode_record).
Proof. intros i b Hi. do 34 (destruct i as [|i]; [injection Hi as <-; vm_compute; reflexivity|]). done. Qed.
Lemma demo_ready : devices_ready (devices demo_irq) demo_irq demo_records demo_io_apic demo_io_apic.
Proof.
  assert (io_apics (table_state (devices demo_irq) demo_records) = [demo_io_apic]) as E by (vm_compute; reflexivity).
  split; rewrite ?E; try done.
  - apply Forall_cons. split; [|by apply Forall_nil]. by repeat split.
  - apply Forall_cons. split; [|by apply Forall_nil]. done.
  - intros h. cbn [read_volatile demo_mmio]. change ((LOCAL_APIC_BASE + 0x390) mod 4096 =? 0x20) with false.
    apply Z.mod_pos_bound. lia.
  - apply demo_keeps.
Qed.
(** The vector of the RTC is 129. *)
Lemma demo_twice2 : rtc_twice (machine demo_stage2) 1 [[]] [129] [] [129; 129] [[130]] 5.
Proof.
  split; [done| | |cbn; lia].
  - split; [apply Forall_cons; split; [by right|done]|apply Forall_cons; by split|done].
  - split; [apply Forall_cons; split; [by right|]; apply Forall_cons; split; [by right|done]|done|done].
Qed.
Lemma init_stage_2_correct_witness :
  ∃ s', init_stage_2 5 demo_args demo_stage2 = Returns ((), s') ∧
    logged s' = [] ++ [Text "Initialised ACPI subsystem"; Text "Initialised ACPI tables"; MadtAt 0x4000 0 0] ++
      [Entry (table.LocalApic 0 0 1); UnknownType 9; Entry (table.IoApic 2 0xFEC00000 0);
       Entry (table.InterruptSourceOverride 0 0 2 0)] ++
      [MadtFound 0x4000; EnablingLocalApic 0; Text "Local APIC enabled"; UnknownType 9; RedirectionEntries 2 24] ++
      [Text "Initialised APIC from MADT"; Text "Initialised Local APIC Timer"] ∧
    tables_of s' = demo_mapped ∧ Z.testbit (ia32_apic_base s') 11 = true ∧
    timer_started (table_state (devices demo_irq) demo_records) 1 [[130]] (machine demo_stage2) (machine s').
Proof.
  destruct (init_stage_2_correct demo_stage2 demo_args (demo_os demo_tables) 0x4000 demo_mapped demo_records
    demo_io_apic demo_io_apic [[]] [129] [] [129; 129] [[130]] 5) as (s' & E & Hlog & Hrest).
  - split. by eexists _, _.
  - done.
  - by vm_compute.
  - exact demo_records_ok.
  - split; [exact demo_table_records|vm_compute; reflexivity].
  - split; [exact demo_holds_records|vm_compute; reflexivity].
  - apply (run_ok (map_page_translation 0 LOCAL_APIC_BASE READ_WRITE)). vm_compute. reflexivity.
  - cbn [omap list_omap known demo_records]. repeat (apply Forall_cons; split); [done| |done|by apply Forall_nil].
    split; [done|]. split; [done|]. split; [apply identity_true; vm_compute; reflexivity|vm_compute; reflexivity].
  - exact demo_ready.
  - done.
  - done.
  - exact demo_twice2.
  - cbn. lia.
  - exists s'. split; [exact E|]. split; [|exact Hrest]. rewrite Hlog. vm_compute. reflexivity.
Defined.
