(* ===== verification/Symbols.v ===== *)
(** * The structs of the kernel and its assembler symbols

    The structs marked [repr(C)] with the types of their fields, the enums and the
    items the kernel exports to assembly (kernel/src/arch/x86_64: syscall.rs,
    tls.rs, gdt.rs, kernel_args.rs and the module [process] of mod.rs, and the
    structures of the boot protocol of limine/mod.rs).  The sizes and offsets
    written as numbers in the other files are those of this layout. *)
From S2P Require Import Prelude Interrupts Cpu Cpio Acpi Handoff Tls Stage2 Layout.
Local Open Scope string_scope.
Local Open Scope Z_scope.

(** ** Primitive types *)
Definition u8 : layout := Lay 1 1.
Definition u16 : layout := Lay 2 2.
Definition u32 : layout := Lay 4 4.
Definition u64 : layout := Lay 8 8.
Definition u128 : layout := Lay 16 16.
(** [usize], pointers, references and optional [NonNull] pointers. *)
Definition usize : layout := Lay 8 8.
Definition pointer : layout := Lay 8 8.
(** A union is as large as its largest field, at an aligned size. *)
Definition union_layout (ls : list layout) : layout :=
  let a := foldr (λ l a, Z.max (align l) a) 1 ls in
  Lay (round_up (foldr (λ l n, Z.max (size l) n) 0 ls) a) a.

(** ** kernel_args.rs *)
Definition Slice_fields : fields := [("ptr", pointer); ("len", usize)].
Definition MutSlice_fields : fields := [("ptr", pointer); ("len", usize)].
Definition MemoryBitmap_fields : fields := [("slice", struct_layout C MutSlice_fields); ("mapped_size", usize)].
Definition ArchPointers_fields : fields := [("efi_ptr", usize); ("acpi_ptr", pointer); ("mp_ptr", usize); ("smbi_ptr", usize)].
Definition Args_fields : fields :=
  [("kernel_elf", struct_layout C Slice_fields); ("page_table_address", usize); ("environment", struct_layout C Slice_fields);
   ("memory_bitmap", struct_layout C MemoryBitmap_fields); ("initrd", struct_layout C Slice_fields);
   ("arch_ptrs", struct_layout C ArchPointers_fields); ("framebuffers", struct_layout C Slice_fields)].
Definition ColorBitmask_fields : fields := [("red_mask", u32); ("green_mask", u32); ("blue_mask", u32); ("reserved_mask", u32)].
(** [repr(C, u32)]: the tag, then the union of what the variants carry. *)
Definition ColorFormat_layout : layout :=
  struct_layout C [("tag", u32); ("payload", union_layout [Lay 0 1; Lay 0 1; struct_layout C ColorBitmask_fields])].
Definition Framebuffer_fields : fields :=
  [("ptr", pointer); ("ptr_type", u32); ("size", u32); ("width", u32); ("height", u32); ("scanline_length", u32);
   ("color_format", ColorFormat_layout)].

(** ** tls.rs, syscall.rs *)
Definition YieldInfo_fields : fields :=
  [("reason", u64); ("exception_type", u64); ("exception_error_code", u64); ("page_fault_address", u64)].
Definition unit_variant (name : string) (n : option Z) : variant := Variant name true (LitInt <$> n).
Definition YieldReason_variants : list variant :=
  (λ name, unit_variant name None) <$> ["Timeout"; "YieldSystemCall"; "SystemCallRequest"; "ExitRequest"; "Exception"].
Definition ExceptionType_variants : list variant :=
  (λ '(name, n), unit_variant name (Some n)) <$>
  [("DivideByZero", 0); ("Debug", 1); ("NonMaskableInterrupt", 2); ("Breakpoint", 3); ("Overflow", 4);
   ("BoundRangeExceeded", 5); ("InvalidOpcode", 6); ("DeviceNotAvailable", 7); ("DoubleFault", 8); ("InvalidTss", 10);
   ("SegmentNotPresent", 11); ("StackSegmentFault", 12); ("GeneralProtectionFault", 13); ("PageFault", 14);
   ("X87FloatingPoint", 16); ("AlignmentCheck", 17); ("MachineCheck", 18); ("SimdFloatingPoint", 19);
   ("Virtualization", 20); ("ControlProtection", 21); ("HypervisorInjection", 28); ("VmmCommunication", 29); ("Security", 30)].
Inductive SystemCall : Type := SetBreak | MoveBreak | MapMem | UnmapMem | DebugCall.
Definition SystemCall_usize (c : SystemCall) : Z :=
  match c with SetBreak => 0 | MoveBreak => 1 | MapMem => 2 | UnmapMem => 3 | DebugCall => 4 end.
Definition SystemCall_variants : list variant :=
  (λ name, unit_variant name None) <$> ["SetBreak"; "MoveBreak"; "MapMem"; "UnmapMem"; "Debug"].
Module SyscallError.
Definition UNKNOWN_SYSCALL : Z := 0.
Definition INVALID_ARGUMENT : Z := 1.
Definition OUT_OF_MEMORY : Z := 2.
End SyscallError.

(** ** gdt.rs, tss.rs, idt.rs *)
Definition KernelGdt_fields : fields :=
  (λ name, (name, u64)) <$> ["null"; "kernel_code"; "kernel_data"; "tss_lower"; "tss_upper"; "user_code_32"; "user_data_32";
    "user_code_64"; "user_data_64"].
Definition PrivilegeStacks_fields : fields := [("system_call", pointer); ("_unused", array 2 u64)].
Definition InterruptStacks_fields : fields :=
  [("generic", pointer); ("double_fault", pointer); ("page_fault", pointer); ("general_protection_fault", pointer);
   ("_unused", array 3 u64)].
Definition KernelTss_fields : fields :=
  [("_reserved_1", u32); ("privilege_stack_table", struct_layout (Packed 4) PrivilegeStacks_fields); ("_reserved_2", u64);
   ("interrupt_stack_table", struct_layout (Packed 4) InterruptStacks_fields); ("_reserved_3", u64); ("_reserved_4", u64);
   ("iopb_base", u16); ("iopb", array 8192 u8)].
(** The phantom field has no size. *)
Definition Entry_fields : fields :=
  [("ptr_low", u16); ("gdt_selector", u16); ("options", u16); ("ptr_middle", u16); ("ptr_high", u32); ("_reserved", u32);
   ("_handler_phantom", Lay 0 1)].

(** ** The registers of a process (mod.rs) *)
Definition registers (names : list string) : fields := (((λ name, (name, u64)) <$> names) ++ [("fxsave_area", array 32 u128)])%list.
Definition RegisterStore_fields : fields :=
  registers ["rax"; "rbx"; "rcx"; "rdx"; "rsi"; "rdi"; "rbp"; "rsp"; "r8"; "r9"; "r10"; "r11"; "r12"; "r13"; "r14"; "r15";
             "rip"; "rflags"; "fs"; "gs"].
Definition KernelRegisterStore_fields : fields :=
  registers ["rbx"; "rcx"; "rdx"; "rbp"; "rsp"; "r8"; "r9"; "r12"; "r13"; "r14"; "r15"; "rip"; "fs"].

(** ** The headers of files and tables (cpio.rs, platform/acpi/mod.rs) *)
Definition bytes (n : Z) : layout := array n u8.
Definition Node_fields : fields :=
  [("magic", bytes 6); ("device", bytes 6); ("i_number", bytes 6); ("mode", bytes 6); ("user_id", bytes 6); ("group_id", bytes 6);
   ("num_links", bytes 6); ("r_device", bytes 6); ("modified_time", bytes 11); ("name_len_octal", bytes 6);
   ("file_size_octal", bytes 11)].
Definition Madt_fields : fields :=
  [("_signature", bytes 4); ("length", u32); ("_revision", u8); ("_checksum", u8); ("_oem_id", bytes 6); ("_oem_table_id", bytes 8);
   ("_oem_revision", u32); ("_creator_id", u32); ("_creator_revision", u32); ("bsp_local_apic_address", u32); ("flags", u32)].

(** ** The boot protocol (limine/mod.rs) *)
Module limine.
(** A request, as the bootloader finds it in the image; [response] is null until
    the bootloader fills it in. *)
Record request : Type := { common_id_magic : list Z; id : list Z; revision : Z; response : Z }.
Definition COMMON_ID_MAGIC : list Z := [0xC7B1DD30DF4C8B88; 0x0A82E883A194F07B].
(** The macro [basic_request!] and its uses. *)
Definition new (id : list Z) : request := {| common_id_magic := COMMON_ID_MAGIC; id := id; revision := 0; response := 0 |}.
Definition Framebuffer : request := new [0x9D5827DCD881DD75; 0xA3148604F6FAB11B].
Definition MemoryMap : request := new [0x67CF3D9D378A806F; 0xE304ACDFC50C3C62].
Definition KernelFile : request := new [0xAD97E90E83F1ED67; 0x31EB5D1C5FF23B69].
Definition Module_ : request := new [0x3E7E279702BE32AF; 0xCA1C4F3BD1280CEE].
Definition Rsdp : request := new [0xC5E77B6B397E7B43; 0x27637845ACCDCF3C].
Definition Smbios : request := new [0x9E9046F11E095391; 0xAA4A520FEFBDE5EE].
Definition EfiSystemTable : request := new [0x5CEBA5163EAAF6D6; 0x0A6981610CF65FCC].
(** The request for the entry point has the function at its end. *)
Definition EntryPoint (entry_fn : Z) : request * Z := (new [0x13D86C035A1CD3E1; 0x2B0CAA89D8F3026A], entry_fn).
(** All of them; the address of the function does not matter. *)
Definition requests : list request :=
  [Framebuffer; MemoryMap; KernelFile; Module_; Rsdp; Smbios; EfiSystemTable; (EntryPoint 0).1].
Definition request_fields : fields :=
  [("common_id_magic", array 2 u64); ("id", array 2 u64); ("revision", u64); ("response", pointer)].
Definition EntryPoint_fields : fields := (request_fields ++ [("entry_fn", pointer)])%list.
(** The words of a request in the image. *)
Definition words (r : request) : list Z := (common_id_magic r ++ id r ++ [revision r; response r])%list.
(** What the bootloader answers with. *)
Definition Framebuffer_fields : fields :=
  [("ptr", pointer); ("width", u64); ("height", u64); ("pitch", u64); ("bpp", u16); ("memory_model", u8); ("red_mask_size", u8);
   ("red_mask_shift", u8); ("green_mask_size", u8); ("green_mask_shift", u8); ("blue_mask_size", u8); ("blue_mask_shift", u8);
   ("unused", array 7 u8); ("edid_size", u64); ("edid", pointer); ("mode_count", u64); ("modes", pointer)].
Definition VideoMode_fields : fields :=
  [("pitch", u64); ("width", u64); ("height", u64); ("bpp", u64); ("memory_model", u8); ("red_mask_size", u8);
   ("red_mask_shift", u8); ("green_mask_size", u8); ("green_mask_shift", u8); ("blue_mask_size", u8); ("blue_mask_shift", u8)].
Definition MemoryMapEntry_fields : fields := [("base", usize); ("length", usize); ("entry_type", u64)].
Definition Uuid_fields : fields := [("a", u32); ("b", u16); ("c", u16); ("d", array 8 u8)].
Definition File_fields : fields :=
  [("revision", u64); ("ptr", pointer); ("size", u64); ("path_cstr", pointer); ("cmdline_cstr", pointer); ("media_type", u32);
   ("_unused", u32); ("tftp_ip", u32); ("tftp_port", u32); ("partition_index", u32); ("mbr_disk_id", u32);
   ("gpt_disk_uuid", struct_layout C Uuid_fields); ("gpt_part_uuid", struct_layout C Uuid_fields);
   ("part_uuid", struct_layout C Uuid_fields)].
Inductive FileMediaType : Type := Generic | Optical | Tftp.
Definition FileMediaType_u32 (t : FileMediaType) : Z := match t with Generic => 0 | Optical => 1 | Tftp => 2 end.
End limine.

(** ** The symbols *)

(** The structs with exported fields, and how a symbol of an offset is resolved. *)
Definition exported_struct (item : string) : option (repr * fields) :=
  if String.eqb item "KernelGdt" then Some (Align 16, KernelGdt_fields)
  else if String.eqb item "YieldInfo" then Some (C, YieldInfo_fields)
  else None.
Definition resolve (v : value) : option Z :=
  match v with
  | Const n => Some n
  | OffsetOf item field => '(r, fs) ← exported_struct item; offset_of r fs field
  end.
(** [define_asm_symbol!]. *)
Definition define_asm_symbol (name : string) (value : option Z) : M () (list (string * Z)) :=
  n ← unwrap value; mret [(name, n)].
Definition export (item : string) (d : data) : M () (list (string * Z)) :=
  symbols ← export_asm_all item d;
  foldr (λ '(name, v) rest, n ← unwrap (resolve v); l ← rest; mret ((name, n) :: l)) (mret []) symbols.

Section symbols.
(** Where the compiler puts [yield_info] in [ThreadLocalStorage], which has no
    layout of C. *)
Context (yield_info_offset : Z).
Definition yield_info_symbol (field : string) : M () (list (string * Z)) :=
  offset ← unwrap (offset_of C YieldInfo_fields field);
  n ← chk 64 (yield_info_offset + offset);
  define_asm_symbol ("ThreadLocalStorage.yield_info." +:+ field) (Some n).
(** All the symbols, file by file. *)
Definition kernel_symbols : M () (list (string * Z)) :=
  gdt ← export "KernelGdt" (DataStruct true (fst <$> KernelGdt_fields));
  args ← define_asm_symbol "kernel_args::Args.page_table_address" (offset_of C Args_fields "page_table_address");
  calls ← export "SystemCall" (DataEnum SystemCall_variants);
  info ← export "YieldInfo" (DataStruct true (fst <$> YieldInfo_fields));
  reason ← yield_info_symbol "reason";
  exception_type ← yield_info_symbol "exception_type";
  error_code ← yield_info_symbol "exception_error_code";
  fault ← yield_info_symbol "page_fault_address";
  reasons ← export "YieldReason" (DataEnum YieldReason_variants);
  exceptions ← export "ExceptionType" (DataEnum ExceptionType_variants);
  mret (gdt ++ args ++ calls ++ info ++ reason ++ exception_type ++ error_code ++ fault ++ reasons ++ exceptions)%list.
End symbols.

(** ** The theorems *)

(** The names of the variants, to find their symbols. *)
Definition YieldReason_name (r : YieldReason) : string :=
  match r with
  | Timeout => "Timeout" | YieldSystemCall => "YieldSystemCall" | SystemCallRequest => "SystemCallRequest"
  | ExitRequest => "ExitRequest" | Exception => "Exception"
  end.
Definition ExceptionType_name (x : ExceptionType) : string :=
  match x with
  | DivideByZero => "DivideByZero" | Tls.Debug => "Debug" | NonMaskableInterrupt => "NonMaskableInterrupt"
  | Breakpoint => "Breakpoint" | Overflow => "Overflow" | BoundRangeExceeded => "BoundRangeExceeded"
  | InvalidOpcode => "InvalidOpcode" | DeviceNotAvailable => "DeviceNotAvailable" | DoubleFault => "DoubleFault"
  | InvalidTss => "InvalidTss" | SegmentNotPresent => "SegmentNotPresent" | StackSegmentFault => "StackSegmentFault"
  | GeneralProtectionFault => "GeneralProtectionFault" | PageFault => "PageFault" | X87FloatingPoint => "X87FloatingPoint"
  | AlignmentCheck => "AlignmentCheck" | MachineCheck => "MachineCheck" | SimdFloatingPoint => "SimdFloatingPoint"
  | Virtualization => "Virtualization" | ControlProtection => "ControlProtection"
  | HypervisorInjection => "HypervisorInjection" | VmmCommunication => "VmmCommunication" | Security => "Security"
  end.
Definition SystemCall_name (c : SystemCall) : string :=
  match c with
  | SetBreak => "SetBreak" | MoveBreak => "MoveBreak" | MapMem => "MapMem" | UnmapMem => "UnmapMem" | DebugCall => "Debug"
  end.
(** What [kernel_symbols] returns, as a function of the offset of [yield_info]. *)
Definition symbol_table (off : Z) : list (string * Z) :=
  match kernel_symbols 0 () with
  | Returns (l, _) =>
      (λ '(name, n), (name, if String.prefix "ThreadLocalStorage." name then off + n else n)) <$> l
  | _ => []
  end.
Lemma yield_info_symbol_run off field o : offset_of C YieldInfo_fields field = Some o → 0 ≤ off + o < 2 ^ 64 →
  yield_info_symbol off field () = Returns ([("ThreadLocalStorage.yield_info." +:+ field, off + o)], ()).
Proof.
  intros E Ho. unfold yield_info_symbol. rewrite E. unfold mbind, M_bind. cbn [unwrap mret M_ret].
  unfold chk. by rewrite (proj2 (fits_spec 64 (off + o)) Ho).
Qed.
Lemma kernel_symbols_run off : 0 ≤ off → off + 24 < 2 ^ 64 → kernel_symbols off () = Returns (symbol_table off, ()).
Proof.
  intros H0 H24. unfold kernel_symbols.
  assert (∀ A B (m : M () A) (f : A → M () B) a s, m () = Returns (a, s) → (x ← m; f x) () = f a s) as Hbind
    by (intros * E; unfold mbind, M_bind; by rewrite E).
  erewrite Hbind by (vm_compute; reflexivity). erewrite Hbind by (vm_compute; reflexivity).
  erewrite Hbind by (vm_compute; reflexivity). erewrite Hbind by (vm_compute; reflexivity).
  rewrite (Hbind _ _ _ _ _ _ (yield_info_symbol_run off "reason" 0 eq_refl ltac:(lia))).
  rewrite (Hbind _ _ _ _ _ _ (yield_info_symbol_run off "exception_type" 8 eq_refl ltac:(lia))).
  rewrite (Hbind _ _ _ _ _ _ (yield_info_symbol_run off "exception_error_code" 16 eq_refl ltac:(lia))).
  rewrite (Hbind _ _ _ _ _ _ (yield_info_symbol_run off "page_fault_address" 24 eq_refl ltac:(lia))).
  erewrite Hbind by (vm_compute; reflexivity). erewrite Hbind by (vm_compute; reflexivity).
  vm_compute. reflexivity.
Qed.
(** The names do not depend on the offset, and the constants of the items neither. *)
Lemma symbol_table_names off : fst <$> symbol_table off = fst <$> symbol_table 0.
Proof. vm_compute. reflexivity. Qed.
Lemma symbol_table_const off name n :
  bool_decide ((name, n) ∈ symbol_table 0) && negb (String.prefix "ThreadLocalStorage." name) = true → (name, n) ∈ symbol_table off.
Proof.
  intros [Hin%bool_decide_eq_true Hp%negb_true_iff]%andb_true_iff. unfold symbol_table in *.
  destruct (kernel_symbols 0 ()) as [[l []]| | |]; [|set_solver..].
  apply list_elem_of_fmap in Hin as ([name' m] & E & Hin). injection E as -> ->.
  apply list_elem_of_fmap. exists (name', m). by rewrite Hp.
Qed.

(** The symbols of the fields, each at its offset; [off] is that of [yield_info]. *)
Definition field_symbols (off : Z) : list (string * Z) :=
  [("KernelGdt.null", 0); ("KernelGdt.kernel_code", 8); ("KernelGdt.kernel_data", 16); ("KernelGdt.tss_lower", 24);
   ("KernelGdt.tss_upper", 32); ("KernelGdt.user_code_32", 40); ("KernelGdt.user_data_32", 48);
   ("KernelGdt.user_code_64", 56); ("KernelGdt.user_data_64", 64);
   ("kernel_args::Args.page_table_address", 16);
   ("YieldInfo.reason", 0); ("YieldInfo.exception_type", 8); ("YieldInfo.exception_error_code", 16);
   ("YieldInfo.page_fault_address", 24);
   ("ThreadLocalStorage.yield_info.reason", off + 0); ("ThreadLocalStorage.yield_info.exception_type", off + 8);
   ("ThreadLocalStorage.yield_info.exception_error_code", off + 16);
   ("ThreadLocalStorage.yield_info.page_fault_address", off + 24)].
(** Every variant, with its value in memory. *)
Definition variant_symbols : list (string * Z) := (
  ((λ r, (asm_name "YieldReason" (YieldReason_name r), YieldReason_u64 r)) <$>
     [Timeout; YieldSystemCall; SystemCallRequest; ExitRequest; Exception]) ++
  ((λ x, (asm_name "ExceptionType" (ExceptionType_name x), ExceptionType_u64 x)) <$>
     [DivideByZero; Tls.Debug; NonMaskableInterrupt; Breakpoint; Overflow; BoundRangeExceeded; InvalidOpcode;
      DeviceNotAvailable; DoubleFault; InvalidTss; SegmentNotPresent; StackSegmentFault; GeneralProtectionFault;
      PageFault; X87FloatingPoint; AlignmentCheck; MachineCheck; SimdFloatingPoint; Virtualization; ControlProtection;
      HypervisorInjection; VmmCommunication; Security]) ++
  ((λ c, (asm_name "SystemCall" (SystemCall_name c), SystemCall_usize c)) <$> [SetBreak; MoveBreak; MapMem; UnmapMem; DebugCall]))%list.
Lemma symbol_table_permutation off : symbol_table off ≡ₚ (field_symbols off ++ variant_symbols)%list.
Proof.
  assert (symbol_table off = (take 10 (field_symbols off) ++ drop 28 variant_symbols ++ drop 10 (field_symbols off) ++
    take 28 variant_symbols)%list) as E by (vm_compute; reflexivity).
  rewrite E. clear E. set (F := field_symbols off). set (V := variant_symbols).
  trans ((take 10 F ++ drop 10 F) ++ take 28 V ++ drop 28 V)%list; [|by rewrite !take_drop].
  solve_Permutation.
Qed.
(** C38: the symbols of the kernel, wherever [yield_info] lies in the thread-local
    storage.  Exporting them succeeds.  They are exactly these, and no name is
    defined twice: for every field of the exported structs its offset, and for every
    variant of the exported enums the value the variant has in memory.  The symbol of
    the kernel's code segment is the selector in the entries of the interrupt table,
    and that of the task state segment the slot that is loaded. *)
Theorem kernel_symbols_correct (off : Z) : 0 ≤ off → off + 24 < 2 ^ 64 →
  ∃ l, kernel_symbols off () = Returns (l, ()) ∧ NoDup (fst <$> l) ∧
  l ≡ₚ (field_symbols off ++ variant_symbols)%list ∧
  ("KernelGdt.kernel_code", idt.kernel_code_selector) ∈ l ∧ ("KernelGdt.tss_lower", 8 * 3) ∈ l.
Proof.
  intros H0 H24. exists (symbol_table off). split; [by apply kernel_symbols_run|].
  split; [rewrite symbol_table_names; apply (bool_decide_unpack _); vm_compute; exact I|].
  assert (symbol_table off ≡ₚ (field_symbols off ++ variant_symbols)%list) as E by apply symbol_table_permutation.
  split; [done|]. rewrite E. split; unfold field_symbols; set_solver.
Qed.
Lemma kernel_symbols_correct_witness :
  ∃ l, kernel_symbols 0x1238 () = Returns (l, ()) ∧ NoDup (fst <$> l) ∧
  l ≡ₚ (field_symbols 0x1238 ++ variant_symbols)%list ∧
  ("KernelGdt.kernel_code", idt.kernel_code_selector) ∈ l ∧ ("KernelGdt.tss_lower", 8 * 3) ∈ l.
Proof. apply kernel_symbols_correct; lia. Defined.

(** The offset of a field, when it has one. *)
Definition at_offset (r : repr) (fs : fields) (name : string) (n : Z) : Prop := offset_of r fs name = Some n.
(** The numbers the other files use for sizes and offsets are those of the
    layout: the arguments and framebuffers the bootloader part puts in pages, the
    descriptor and interrupt tables, the task state segment with its permission
    bitmap and the stacks the interrupt table names, the archive node and the
    ACPI table.  The save areas of both register stores are aligned for the
    instruction that fills them. *)
Theorem layouts_agree :
  size (struct_layout C Args_fields) = kernel_args.size_of_Args ∧
  size (struct_layout C Framebuffer_fields) = kernel_args.size_of_Framebuffer ∧
  size (struct_layout (Align 16) KernelGdt_fields) = size_of_KernelGdt ∧
  size (struct_layout (Packed 4) KernelTss_fields) = size_of_KernelTss ∧
  size (struct_layout C Entry_fields) = size_of_Entry ∧
  size (struct_layout C Node_fields) = size_of_Node ∧
  size (struct_layout C Madt_fields) = table.size_of_Madt ∧
  at_offset (Packed 4) KernelTss_fields "iopb" iopb_offset ∧
  at_offset (Packed 4) KernelTss_fields "interrupt_stack_table" 36 ∧
  at_offset (Align 16) KernelGdt_fields "kernel_code" idt.kernel_code_selector ∧
  at_offset (Packed 4) InterruptStacks_fields "generic" (8 * idt.generic_stack) ∧
  at_offset (Packed 4) InterruptStacks_fields "double_fault" (8 * double_fault_index) ∧
  at_offset (Packed 4) InterruptStacks_fields "page_fault" (8 * page_fault_index) ∧
  at_offset (Packed 4) InterruptStacks_fields "general_protection_fault" (8 * general_protection_fault_index) ∧
  at_offset C Madt_fields "bsp_local_apic_address" table.bsp_local_apic_address_offset ∧
  at_offset C Madt_fields "flags" flags_offset ∧
  at_offset C RegisterStore_fields "fxsave_area" 160 ∧ at_offset C KernelRegisterStore_fields "fxsave_area" 112.
Proof. split_and!; vm_compute; reflexivity. Qed.

(** The requests of the boot protocol can be told apart, each starts with the
    magic number and has the size of its struct, and the bootloader finds the
    response of every one at the same place. *)
Theorem limine_requests_distinct :
  NoDup (limine.id <$> limine.requests) ∧
  Forall (λ r, take 2 (limine.words r) = limine.COMMON_ID_MAGIC ∧
    8 * Z.of_nat (length (limine.words r)) = size (struct_layout C limine.request_fields)) limine.requests ∧
  at_offset C limine.request_fields "response" 40 ∧ at_offset C limine.EntryPoint_fields "response" 40 ∧
  at_offset C limine.EntryPoint_fields "entry_fn" 48.
Proof.
  split; [apply (bool_decide_unpack _); vm_compute; exact I|]. split; [repeat constructor|].
  by split_and!; vm_compute.
Qed.
